(** * Quest-script toolchain: opcode dictionary, disassembler, episode
      detector, assembler and register allocator of [QuestScript.cc].

    The development is a shallow embedding: every C++ function that the
    stated properties talk about is transcribed as a Rocq function over
    explicit data (bytes as [Z], [std::string] as [string], exceptions as a
    result type) and the properties are proved about those functions. *)

From Stdlib Require Import ZArith List String Ascii Bool Lia.
From stdpp Require Import base list gmap strings.

Import ListNotations.
Local Open Scope string_scope.
Local Open Scope Z_scope.
Local Open Scope list_scope.

(** ** Exceptions

    The C++ code signals failures with [std::out_of_range],
    [std::runtime_error], [std::logic_error] and (from [stoul] and friends)
    [std::invalid_argument]; the standard library adds [std::length_error]
    and [std::bad_alloc] when a vector is asked for more than it can
    hold or than the memory can give.  All of them derive from
    [std::exception] and carry a message returned by [what()]. *)

Inductive exception : Type :=
| out_of_range (msg : string)
| runtime_error (msg : string)
| logic_error (msg : string)
| invalid_argument (msg : string)
| length_error (msg : string)
| bad_alloc.

Definition what (e : exception) : string :=
  match e with
  | out_of_range m | runtime_error m | logic_error m | invalid_argument m
  | length_error m => m
  | bad_alloc => "std::bad_alloc"
  end.

Inductive result (A : Type) : Type :=
| Ok (a : A)
| Throw (e : exception).
Arguments Ok {A} a.
Arguments Throw {A} e.

Definition rbind {A B : Type} (r : result A) (k : A -> result B) : result B :=
  match r with
  | Ok a => k a
  | Throw e => Throw e
  end.

Notation "'do' x <- r ; k" := (rbind r (fun x => k))
  (at level 10, x pattern, r at level 100, k at level 200).

Definition is_ok {A : Type} (r : result A) : bool :=
  match r with Ok _ => true | Throw _ => false end.

(** ** Builds ([Version]) and the version bit of each build *)

Inductive Version : Type :=
| PC_PATCH | BB_PATCH
| DC_NTE | DC_V1_11_2000_PROTOTYPE | DC_V1 | DC_V2
| PC_NTE | PC_V2
| GC_NTE | GC_V3 | GC_EP3_NTE | GC_EP3 | XB_V3 | BB_V4
| UNKNOWN.

Definition Version_index (v : Version) : Z :=
  match v with
  | PC_PATCH => 0 | BB_PATCH => 1
  | DC_NTE => 2 | DC_V1_11_2000_PROTOTYPE => 3 | DC_V1 => 4 | DC_V2 => 5
  | PC_NTE => 6 | PC_V2 => 7
  | GC_NTE => 8 | GC_V3 => 9 | GC_EP3_NTE => 10 | GC_EP3 => 11
  | XB_V3 => 12 | BB_V4 => 13
  | UNKNOWN => 15
  end.

#[global] Instance Version_eq_dec : EqDecision Version.
Proof. solve_decision. Defined.

Definition u8 (v : Z) : Z := v mod 256.
Definition u16 (v : Z) : Z := v mod 65536.
Definition u32 (v : Z) : Z := v mod 4294967296.

(** [constexpr uint16_t v_flag(Version v) { return (1 << static_cast<uint16_t>(v)); }] *)
Definition v_flag (v : Version) : Z := u16 (Z.shiftl 1 (Version_index v)).

Infix ".|" := Z.lor (at level 50, left associativity) : Z_scope.

Definition F_PASS : Z := 0x0001.
Definition F_ARGS : Z := 0x0002.
Definition F_DC_NTE : Z := 0x0004.
Definition F_DC_112000 : Z := 0x0008.
Definition F_DC_V1 : Z := 0x0010.
Definition F_DC_V2 : Z := 0x0020.
Definition F_PC_NTE : Z := 0x0040.
Definition F_PC_V2 : Z := 0x0080.
Definition F_GC_NTE : Z := 0x0100.
Definition F_GC_V3 : Z := 0x0200.
Definition F_GC_EP3TE : Z := 0x0400.
Definition F_GC_EP3 : Z := 0x0800.
Definition F_XB_V3 : Z := 0x1000.
Definition F_BB_V4 : Z := 0x2000.
Definition F_RET : Z := 0x4000.
Definition F_SET_EPISODE : Z := 0x8000.

Definition F_V0_V2 : Z := F_DC_NTE .| F_DC_112000 .| F_DC_V1 .| F_DC_V2 .| F_PC_NTE .| F_PC_V2 .| F_GC_NTE.
Definition F_V0_V4 : Z := F_DC_NTE .| F_DC_112000 .| F_DC_V1 .| F_DC_V2 .| F_PC_NTE .| F_PC_V2 .| F_GC_NTE .| F_GC_V3 .| F_GC_EP3TE .| F_GC_EP3 .| F_XB_V3 .| F_BB_V4.
Definition F_V05_V2 : Z := F_DC_112000 .| F_DC_V1 .| F_DC_V2 .| F_PC_NTE .| F_PC_V2 .| F_GC_NTE.
Definition F_V05_V4 : Z := F_DC_112000 .| F_DC_V1 .| F_DC_V2 .| F_PC_NTE .| F_PC_V2 .| F_GC_NTE .| F_GC_V3 .| F_GC_EP3TE .| F_GC_EP3 .| F_XB_V3 .| F_BB_V4.
Definition F_V1_V2 : Z := F_DC_V1 .| F_DC_V2 .| F_PC_NTE .| F_PC_V2 .| F_GC_NTE.
Definition F_V1_V4 : Z := F_DC_V1 .| F_DC_V2 .| F_PC_NTE .| F_PC_V2 .| F_GC_NTE .| F_GC_V3 .| F_GC_EP3TE .| F_GC_EP3 .| F_XB_V3 .| F_BB_V4.
Definition F_V2 : Z := F_DC_V2 .| F_PC_NTE .| F_PC_V2 .| F_GC_NTE.
Definition F_V2_V4 : Z := F_DC_V2 .| F_PC_NTE .| F_PC_V2 .| F_GC_NTE .| F_GC_V3 .| F_GC_EP3TE .| F_GC_EP3 .| F_XB_V3 .| F_BB_V4.
Definition F_V3 : Z := F_GC_V3 .| F_GC_EP3TE .| F_GC_EP3 .| F_XB_V3.
Definition F_V3_V4 : Z := F_GC_V3 .| F_GC_EP3TE .| F_GC_EP3 .| F_XB_V3 .| F_BB_V4.
Definition F_V4 : Z := F_BB_V4.
Definition F_HAS_ARGS : Z := F_V3_V4.

(** [flags & mask] used as a condition. *)
Definition has_flag (flags mask : Z) : bool := negb (Z.land flags mask =? 0).

(** ** Opcode definitions *)

Inductive ArgType : Type :=
| LABEL16 | LABEL16_SET | LABEL32
| REG | REG_SET | REG_SET_FIXED | REG32 | REG32_SET_FIXED
| INT8 | INT16 | INT32 | FLOAT32 | CSTRING.

#[global] Instance ArgType_eq_dec : EqDecision ArgType.
Proof. solve_decision. Defined.

Module DataType.
Inductive t : Type :=
| NONE | SCRIPT | DATA | CSTRING | PLAYER_STATS | PLAYER_VISUAL_CONFIG
| RESIST_DATA | ATTACK_DATA | MOVEMENT_DATA | IMAGE_DATA | UNKNOWN_F8F2_DATA.

Definition index (d : t) : Z :=
  match d with
  | NONE => 0 | SCRIPT => 1 | DATA => 2 | CSTRING => 3 | PLAYER_STATS => 4
  | PLAYER_VISUAL_CONFIG => 5 | RESIST_DATA => 6 | ATTACK_DATA => 7
  | MOVEMENT_DATA => 8 | IMAGE_DATA => 9 | UNKNOWN_F8F2_DATA => 10
  end.

#[global] Instance eq_dec : EqDecision t.
Proof. solve_decision. Defined.
End DataType.

Record Argument : Type := mkArgument {
  arg_type : ArgType;
  arg_count : nat;
  arg_data_type : DataType.t;
  arg_name : option string;
}.

(** The two constructors of [QuestScriptOpcodeDefinition::Argument]; [ArgT]
    is the one-argument call of the first. *)
Definition ArgC (t : ArgType) (count : nat) (name : option string) : Argument :=
  mkArgument t count DataType.NONE name.
Definition ArgD (t : ArgType) (dt : DataType.t) (name : option string) : Argument :=
  mkArgument t 0 dt name.
Definition ArgT (t : ArgType) : Argument := ArgC t 0 None.

Definition SCRIPT16 : Argument := ArgD LABEL16 DataType.SCRIPT None.
Definition SCRIPT16_SET : Argument := ArgD LABEL16_SET DataType.SCRIPT None.
Definition SCRIPT32 : Argument := ArgD LABEL32 DataType.SCRIPT None.
Definition DATA16 : Argument := ArgD LABEL16 DataType.DATA None.
Definition CSTRING_LABEL16 : Argument := ArgD LABEL16 DataType.CSTRING None.
Definition CLIENT_ID : Argument := ArgC INT32 0 (Some "client_id").
Definition ITEM_ID : Argument := ArgC INT32 0 (Some "item_id").
Definition AREA : Argument := ArgC INT32 0 (Some "area").

Record QuestScriptOpcodeDefinition : Type := mkDef {
  opcode : Z;
  name : option string;
  qedit_name : option string;
  args : list Argument;
  flags : Z;
}.

Definition Def (op : Z) (n : option string) (q : option string)
    (a : list Argument) (f : Z) : QuestScriptOpcodeDefinition :=
  mkDef op n q a f.

(** The table [opcode_defs], row for row. *)
Definition opcode_defs : list QuestScriptOpcodeDefinition := [
  Def 0x0000 (Some "nop") None [] (F_V0_V4);
  Def 0x0001 (Some "ret") None [] (F_V0_V4 .| F_RET);
  Def 0x0002 (Some "sync") None [] (F_V0_V4);
  Def 0x0003 (Some "exit") None [ArgT INT32] (F_V0_V4);
  Def 0x0004 (Some "thread") None [SCRIPT16] (F_V0_V4);
  Def 0x0005 (Some "va_start") None [] (F_V3_V4);
  Def 0x0006 (Some "va_end") None [] (F_V3_V4);
  Def 0x0007 (Some "va_call") None [SCRIPT16] (F_V3_V4);
  Def 0x0008 (Some "let") None [ArgT REG; ArgT REG] (F_V0_V4);
  Def 0x0009 (Some "leti") None [ArgT REG; ArgT INT32] (F_V0_V4);
  Def 0x000A (Some "leta") None [ArgT REG; ArgT REG] (F_V0_V2);
  Def 0x000A (Some "letb") None [ArgT REG; ArgT INT8] (F_V3_V4);
  Def 0x000B (Some "letw") None [ArgT REG; ArgT INT16] (F_V3_V4);
  Def 0x000C (Some "leta") None [ArgT REG; ArgT REG] (F_V3_V4);
  Def 0x000D (Some "leto") None [ArgT REG; SCRIPT16] (F_V3_V4);
  Def 0x0010 (Some "set") None [ArgT REG] (F_V0_V4);
  Def 0x0011 (Some "clear") None [ArgT REG] (F_V0_V4);
  Def 0x0012 (Some "rev") None [ArgT REG] (F_V0_V4);
  Def 0x0013 (Some "gset") None [ArgT INT16] (F_V0_V4);
  Def 0x0014 (Some "gclear") None [ArgT INT16] (F_V0_V4);
  Def 0x0015 (Some "grev") None [ArgT INT16] (F_V0_V4);
  Def 0x0016 (Some "glet") None [ArgT INT16; ArgT REG] (F_V0_V4);
  Def 0x0017 (Some "gget") None [ArgT INT16; ArgT REG] (F_V0_V4);
  Def 0x0018 (Some "add") None [ArgT REG; ArgT REG] (F_V0_V4);
  Def 0x0019 (Some "addi") None [ArgT REG; ArgT INT32] (F_V0_V4);
  Def 0x001A (Some "sub") None [ArgT REG; ArgT REG] (F_V0_V4);
  Def 0x001B (Some "subi") None [ArgT REG; ArgT INT32] (F_V0_V4);
  Def 0x001C (Some "mul") None [ArgT REG; ArgT REG] (F_V0_V4);
  Def 0x001D (Some "muli") None [ArgT REG; ArgT INT32] (F_V0_V4);
  Def 0x001E (Some "div") None [ArgT REG; ArgT REG] (F_V0_V4);
  Def 0x001F (Some "divi") None [ArgT REG; ArgT INT32] (F_V0_V4);
  Def 0x0020 (Some "and") None [ArgT REG; ArgT REG] (F_V0_V4);
  Def 0x0021 (Some "andi") None [ArgT REG; ArgT INT32] (F_V0_V4);
  Def 0x0022 (Some "or") None [ArgT REG; ArgT REG] (F_V0_V4);
  Def 0x0023 (Some "ori") None [ArgT REG; ArgT INT32] (F_V0_V4);
  Def 0x0024 (Some "xor") None [ArgT REG; ArgT REG] (F_V0_V4);
  Def 0x0025 (Some "xori") None [ArgT REG; ArgT INT32] (F_V0_V4);
  Def 0x0026 (Some "mod") None [ArgT REG; ArgT REG] (F_V3_V4);
  Def 0x0027 (Some "modi") None [ArgT REG; ArgT INT32] (F_V3_V4);
  Def 0x0028 (Some "jmp") None [SCRIPT16] (F_V0_V4);
  Def 0x0029 (Some "call") None [SCRIPT16] (F_V0_V4);
  Def 0x002A (Some "jmp_on") None [SCRIPT16; ArgT REG_SET] (F_V0_V4);
  Def 0x002B (Some "jmp_off") None [SCRIPT16; ArgT REG_SET] (F_V0_V4);
  Def 0x002C (Some "jmp_eq") (Some "jmp_=") [ArgT REG; ArgT REG; SCRIPT16] (F_V0_V4);
  Def 0x002D (Some "jmpi_eq") (Some "jmpi_=") [ArgT REG; ArgT INT32; SCRIPT16] (F_V0_V4);
  Def 0x002E (Some "jmp_ne") (Some "jmp_!=") [ArgT REG; ArgT REG; SCRIPT16] (F_V0_V4);
  Def 0x002F (Some "jmpi_ne") (Some "jmpi_!=") [ArgT REG; ArgT INT32; SCRIPT16] (F_V0_V4);
  Def 0x0030 (Some "ujmp_gt") (Some "ujmp_>") [ArgT REG; ArgT REG; SCRIPT16] (F_V0_V4);
  Def 0x0031 (Some "ujmpi_gt") (Some "ujmpi_>") [ArgT REG; ArgT INT32; SCRIPT16] (F_V0_V4);
  Def 0x0032 (Some "jmp_gt") (Some "jmp_>") [ArgT REG; ArgT REG; SCRIPT16] (F_V0_V4);
  Def 0x0033 (Some "jmpi_gt") (Some "jmpi_>") [ArgT REG; ArgT INT32; SCRIPT16] (F_V0_V4);
  Def 0x0034 (Some "ujmp_lt") (Some "ujmp_<") [ArgT REG; ArgT REG; SCRIPT16] (F_V0_V4);
  Def 0x0035 (Some "ujmpi_lt") (Some "ujmpi_<") [ArgT REG; ArgT INT32; SCRIPT16] (F_V0_V4);
  Def 0x0036 (Some "jmp_lt") (Some "jmp_<") [ArgT REG; ArgT REG; SCRIPT16] (F_V0_V4);
  Def 0x0037 (Some "jmpi_lt") (Some "jmpi_<") [ArgT REG; ArgT INT32; SCRIPT16] (F_V0_V4);
  Def 0x0038 (Some "ujmp_ge") (Some "ujmp_>=") [ArgT REG; ArgT REG; SCRIPT16] (F_V0_V4);
  Def 0x0039 (Some "ujmpi_ge") (Some "ujmpi_>=") [ArgT REG; ArgT INT32; SCRIPT16] (F_V0_V4);
  Def 0x003A (Some "jmp_ge") (Some "jmp_>=") [ArgT REG; ArgT REG; SCRIPT16] (F_V0_V4);
  Def 0x003B (Some "jmpi_ge") (Some "jmpi_>=") [ArgT REG; ArgT INT32; SCRIPT16] (F_V0_V4);
  Def 0x003C (Some "ujmp_le") (Some "ujmp_<=") [ArgT REG; ArgT REG; SCRIPT16] (F_V0_V4);
  Def 0x003D (Some "ujmpi_le") (Some "ujmpi_<=") [ArgT REG; ArgT INT32; SCRIPT16] (F_V0_V4);
  Def 0x003E (Some "jmp_le") (Some "jmp_<=") [ArgT REG; ArgT REG; SCRIPT16] (F_V0_V4);
  Def 0x003F (Some "jmpi_le") (Some "jmpi_<=") [ArgT REG; ArgT INT32; SCRIPT16] (F_V0_V4);
  Def 0x0040 (Some "switch_jmp") None [ArgT REG; SCRIPT16_SET] (F_V0_V4);
  Def 0x0041 (Some "switch_call") None [ArgT REG; SCRIPT16_SET] (F_V0_V4);
  Def 0x0042 (Some "nop_42") None [ArgT INT32] (F_V0_V2);
  Def 0x0042 (Some "stack_push") None [ArgT REG] (F_V3_V4);
  Def 0x0043 (Some "stack_pop") None [ArgT REG] (F_V3_V4);
  Def 0x0044 (Some "stack_pushm") None [ArgT REG; ArgT INT32] (F_V3_V4);
  Def 0x0045 (Some "stack_popm") None [ArgT REG; ArgT INT32] (F_V3_V4);
  Def 0x0048 (Some "arg_pushr") None [ArgT REG] (F_V3_V4 .| F_PASS);
  Def 0x0049 (Some "arg_pushl") None [ArgT INT32] (F_V3_V4 .| F_PASS);
  Def 0x004A (Some "arg_pushb") None [ArgT INT8] (F_V3_V4 .| F_PASS);
  Def 0x004B (Some "arg_pushw") None [ArgT INT16] (F_V3_V4 .| F_PASS);
  Def 0x004C (Some "arg_pusha") None [ArgT REG] (F_V3_V4 .| F_PASS);
  Def 0x004D (Some "arg_pusho") None [ArgT LABEL16] (F_V3_V4 .| F_PASS);
  Def 0x004E (Some "arg_pushs") None [ArgT CSTRING] (F_V3_V4 .| F_PASS);
  Def 0x0050 (Some "message") None [ArgT INT32; ArgT CSTRING] (F_V0_V4 .| F_ARGS);
  Def 0x0051 (Some "list") None [ArgT REG; ArgT CSTRING] (F_V0_V4 .| F_ARGS);
  Def 0x0052 (Some "fadein") None [] (F_V0_V4);
  Def 0x0053 (Some "fadeout") None [] (F_V0_V4);
  Def 0x0054 (Some "se") None [ArgT INT32] (F_V0_V4 .| F_ARGS);
  Def 0x0055 (Some "bgm") None [ArgT INT32] (F_V0_V4 .| F_ARGS);
  Def 0x0056 (Some "nop_56") None [] (F_V0_V2);
  Def 0x0057 (Some "nop_57") None [] (F_V0_V2);
  Def 0x0058 (Some "nop_58") (Some "enable") [ArgT INT32] (F_V0_V2);
  Def 0x0059 (Some "nop_59") (Some "disable") [ArgT INT32] (F_V0_V2);
  Def 0x005A (Some "window_msg") None [ArgT CSTRING] (F_V0_V4 .| F_ARGS);
  Def 0x005B (Some "add_msg") None [ArgT CSTRING] (F_V0_V4 .| F_ARGS);
  Def 0x005C (Some "mesend") None [] (F_V0_V4);
  Def 0x005D (Some "gettime") None [ArgT REG] (F_V0_V4);
  Def 0x005E (Some "winend") None [] (F_V0_V4);
  Def 0x0060 (Some "npc_crt") (Some "npc_crt_V1") [ArgT INT32; ArgT INT32] (F_V0_V2 .| F_ARGS);
  Def 0x0060 (Some "npc_crt") (Some "npc_crt_V3") [ArgT INT32; ArgT INT32] (F_V3_V4 .| F_ARGS);
  Def 0x0061 (Some "npc_stop") None [ArgT INT32] (F_V0_V4 .| F_ARGS);
  Def 0x0062 (Some "npc_play") None [ArgT INT32] (F_V0_V4 .| F_ARGS);
  Def 0x0063 (Some "npc_kill") None [ArgT INT32] (F_V0_V4 .| F_ARGS);
  Def 0x0064 (Some "npc_nont") None [] (F_V0_V4);
  Def 0x0065 (Some "npc_talk") None [] (F_V0_V4);
  Def 0x0066 (Some "npc_crp") (Some "npc_crp_V1") [(ArgC REG_SET_FIXED 6 None); ArgT INT32] (F_V0_V2);
  Def 0x0066 (Some "npc_crp") (Some "npc_crp_V3") [(ArgC REG_SET_FIXED 6 None)] (F_V3_V4);
  Def 0x0068 (Some "create_pipe") None [ArgT INT32] (F_V0_V4 .| F_ARGS);
  Def 0x0069 (Some "p_hpstat") (Some "p_hpstat_V1") [ArgT REG; CLIENT_ID] (F_V0_V2 .| F_ARGS);
  Def 0x0069 (Some "p_hpstat") (Some "p_hpstat_V3") [ArgT REG; CLIENT_ID] (F_V3_V4 .| F_ARGS);
  Def 0x006A (Some "p_dead") (Some "p_dead_V1") [ArgT REG; CLIENT_ID] (F_V0_V2 .| F_ARGS);
  Def 0x006A (Some "p_dead") (Some "p_dead_V3") [ArgT REG; CLIENT_ID] (F_V3_V4 .| F_ARGS);
  Def 0x006B (Some "p_disablewarp") None [] (F_V0_V4);
  Def 0x006C (Some "p_enablewarp") None [] (F_V0_V4);
  Def 0x006D (Some "p_move") (Some "p_move_v1") [(ArgC REG_SET_FIXED 5 None); ArgT INT32] (F_V0_V2);
  Def 0x006D (Some "p_move") (Some "p_move_V3") [(ArgC REG_SET_FIXED 5 None)] (F_V3_V4);
  Def 0x006E (Some "p_look") None [CLIENT_ID] (F_V0_V4 .| F_ARGS);
  Def 0x0070 (Some "p_action_disable") None [] (F_V0_V4);
  Def 0x0071 (Some "p_action_enable") None [] (F_V0_V4);
  Def 0x0072 (Some "disable_movement1") None [CLIENT_ID] (F_V0_V4 .| F_ARGS);
  Def 0x0073 (Some "enable_movement1") None [CLIENT_ID] (F_V0_V4 .| F_ARGS);
  Def 0x0074 (Some "p_noncol") None [] (F_V0_V4);
  Def 0x0075 (Some "p_col") None [] (F_V0_V4);
  Def 0x0076 (Some "p_setpos") None [CLIENT_ID; (ArgC REG_SET_FIXED 4 None)] (F_V0_V4 .| F_ARGS);
  Def 0x0077 (Some "p_return_guild") None [] (F_V0_V4);
  Def 0x0078 (Some "p_talk_guild") None [CLIENT_ID] (F_V0_V4 .| F_ARGS);
  Def 0x0079 (Some "npc_talk_pl") (Some "npc_talk_pl_V1") [(ArgC REG32_SET_FIXED 8 None)] (F_V0_V2);
  Def 0x0079 (Some "npc_talk_pl") (Some "npc_talk_pl_V3") [(ArgC REG_SET_FIXED 8 None)] (F_V3_V4);
  Def 0x007A (Some "npc_talk_kill") None [ArgT INT32] (F_V0_V4 .| F_ARGS);
  Def 0x007B (Some "npc_crtpk") (Some "npc_crtpk_V1") [ArgT INT32; ArgT INT32] (F_V0_V2 .| F_ARGS);
  Def 0x007B (Some "npc_crtpk") (Some "npc_crtpk_V3") [ArgT INT32; ArgT INT32] (F_V3_V4 .| F_ARGS);
  Def 0x007C (Some "npc_crppk") (Some "npc_crppk_V1") [(ArgC REG32_SET_FIXED 7 None); ArgT INT32] (F_V0_V2);
  Def 0x007C (Some "npc_crppk") (Some "npc_crppk_V3") [(ArgC REG_SET_FIXED 7 None)] (F_V3_V4);
  Def 0x007D (Some "npc_crptalk") (Some "npc_crptalk_v1") [(ArgC REG32_SET_FIXED 6 None); ArgT INT32] (F_V0_V2);
  Def 0x007D (Some "npc_crptalk") (Some "npc_crptalk_V3") [(ArgC REG_SET_FIXED 6 None)] (F_V3_V4);
  Def 0x007E (Some "p_look_at") None [CLIENT_ID; CLIENT_ID] (F_V0_V4 .| F_ARGS);
  Def 0x007F (Some "npc_crp_id") (Some "npc_crp_id_V1") [(ArgC REG32_SET_FIXED 7 None); ArgT INT32] (F_V0_V2);
  Def 0x007F (Some "npc_crp_id") (Some "npc_crp_id_v3") [(ArgC REG_SET_FIXED 7 None)] (F_V3_V4);
  Def 0x0080 (Some "cam_quake") None [] (F_V0_V4);
  Def 0x0081 (Some "cam_adj") None [] (F_V0_V4);
  Def 0x0082 (Some "cam_zmin") None [] (F_V0_V4);
  Def 0x0083 (Some "cam_zmout") None [] (F_V0_V4);
  Def 0x0084 (Some "cam_pan") (Some "cam_pan_V1") [(ArgC REG32_SET_FIXED 5 None); ArgT INT32] (F_V0_V2);
  Def 0x0084 (Some "cam_pan") (Some "cam_pan_V3") [(ArgC REG_SET_FIXED 5 None)] (F_V3_V4);
  Def 0x0085 (Some "game_lev_super") None [] (F_V0_V2);
  Def 0x0085 (Some "nop_85") None [] (F_V3_V4);
  Def 0x0086 (Some "game_lev_reset") None [] (F_V0_V2);
  Def 0x0086 (Some "nop_86") None [] (F_V3_V4);
  Def 0x0087 (Some "pos_pipe") (Some "pos_pipe_V1") [(ArgC REG32_SET_FIXED 4 None); ArgT INT32] (F_V0_V2);
  Def 0x0087 (Some "pos_pipe") (Some "pos_pipe_V3") [(ArgC REG_SET_FIXED 4 None)] (F_V3_V4);
  Def 0x0088 (Some "if_zone_clear") None [ArgT REG; (ArgC REG_SET_FIXED 2 None)] (F_V0_V4);
  Def 0x0089 (Some "chk_ene_num") None [ArgT REG] (F_V0_V4);
  Def 0x008A (Some "unhide_obj") None [(ArgC REG_SET_FIXED 3 None)] (F_V0_V4);
  Def 0x008B (Some "unhide_ene") None [(ArgC REG_SET_FIXED 3 None)] (F_V0_V4);
  Def 0x008C (Some "at_coords_call") None [(ArgC REG_SET_FIXED 5 None)] (F_V0_V4);
  Def 0x008D (Some "at_coords_talk") None [(ArgC REG_SET_FIXED 5 None)] (F_V0_V4);
  Def 0x008E (Some "npc_coords_call") None [(ArgC REG_SET_FIXED 5 None)] (F_V0_V4);
  Def 0x008F (Some "party_coords_call") None [(ArgC REG_SET_FIXED 6 None)] (F_V0_V4);
  Def 0x0090 (Some "switch_on") None [ArgT INT32] (F_V0_V4 .| F_ARGS);
  Def 0x0091 (Some "switch_off") None [ArgT INT32] (F_V0_V4 .| F_ARGS);
  Def 0x0092 (Some "playbgm_epi") None [ArgT INT32] (F_V0_V4 .| F_ARGS);
  Def 0x0093 (Some "set_mainwarp") None [ArgT INT32] (F_V0_V4 .| F_ARGS);
  Def 0x0094 (Some "set_obj_param") None [(ArgC REG_SET_FIXED 6 None); ArgT REG] (F_V0_V4);
  Def 0x0095 (Some "set_floor_handler") None [AREA; SCRIPT32] (F_V0_V2);
  Def 0x0095 (Some "set_floor_handler") None [AREA; SCRIPT16] (F_V3_V4 .| F_ARGS);
  Def 0x0096 (Some "clr_floor_handler") None [AREA] (F_V0_V4 .| F_ARGS);
  Def 0x0097 (Some "npc_check_straggle") None [(ArgC REG_SET_FIXED 9 None)] (F_V1_V4);
  Def 0x0098 (Some "hud_hide") None [] (F_V0_V4);
  Def 0x0099 (Some "hud_show") None [] (F_V0_V4);
  Def 0x009A (Some "cine_enable") None [] (F_V0_V4);
  Def 0x009B (Some "cine_disable") None [] (F_V0_V4);
  Def 0x00A0 (Some "nop_A0_debug") None [ArgT INT32; ArgT CSTRING] (F_V0_V4 .| F_ARGS);
  Def 0x00A1 (Some "set_qt_failure") None [SCRIPT32] (F_V0_V2);
  Def 0x00A1 (Some "set_qt_failure") None [SCRIPT16] (F_V3_V4);
  Def 0x00A2 (Some "set_qt_success") None [SCRIPT32] (F_V0_V2);
  Def 0x00A2 (Some "set_qt_success") None [SCRIPT16] (F_V3_V4);
  Def 0x00A3 (Some "clr_qt_failure") None [] (F_V0_V4);
  Def 0x00A4 (Some "clr_qt_success") None [] (F_V0_V4);
  Def 0x00A5 (Some "set_qt_cancel") None [SCRIPT32] (F_V0_V2);
  Def 0x00A5 (Some "set_qt_cancel") None [SCRIPT16] (F_V3_V4);
  Def 0x00A6 (Some "clr_qt_cancel") None [] (F_V0_V4);
  Def 0x00A8 (Some "pl_walk") (Some "pl_walk_V1") [(ArgC REG32_SET_FIXED 4 None); ArgT INT32] (F_V0_V2);
  Def 0x00A8 (Some "pl_walk") (Some "pl_walk_V3") [(ArgC REG_SET_FIXED 4 None)] (F_V3_V4);
  Def 0x00B0 (Some "pl_add_meseta") None [CLIENT_ID; ArgT INT32] (F_V0_V4 .| F_ARGS);
  Def 0x00B1 (Some "thread_stg") None [SCRIPT16] (F_V0_V4);
  Def 0x00B2 (Some "del_obj_param") None [ArgT REG] (F_V0_V4);
  Def 0x00B3 (Some "item_create") None [(ArgC REG_SET_FIXED 3 None); ArgT REG] (F_V0_V4);
  Def 0x00B4 (Some "item_create2") None [(ArgC REG_SET_FIXED 12 None); ArgT REG] (F_V0_V4);
  Def 0x00B5 (Some "item_delete") None [ArgT REG; (ArgC REG_SET_FIXED 12 None)] (F_V0_V4);
  Def 0x00B6 (Some "item_delete2") None [(ArgC REG_SET_FIXED 3 None); (ArgC REG_SET_FIXED 12 None)] (F_V0_V4);
  Def 0x00B7 (Some "item_check") None [(ArgC REG_SET_FIXED 3 None); ArgT REG] (F_V0_V4);
  Def 0x00B8 (Some "setevt") None [ArgT INT32] (F_V05_V4 .| F_ARGS);
  Def 0x00B9 (Some "get_difficulty_level_v1") (Some "get_difflvl") [ArgT REG] (F_V05_V4);
  Def 0x00BA (Some "set_qt_exit") None [SCRIPT32] (F_V05_V2);
  Def 0x00BA (Some "set_qt_exit") None [SCRIPT16] (F_V3_V4);
  Def 0x00BB (Some "clr_qt_exit") None [] (F_V05_V4);
  Def 0x00BC (Some "nop_BC") None [ArgT CSTRING] (F_V05_V4);
  Def 0x00C0 (Some "particle") (Some "particle_V1") [(ArgC REG32_SET_FIXED 5 None); ArgT INT32] (F_V05_V2);
  Def 0x00C0 (Some "particle") (Some "particle_V3") [(ArgC REG_SET_FIXED 5 None)] (F_V3_V4);
  Def 0x00C1 (Some "npc_text") None [ArgT INT32; ArgT CSTRING] (F_V05_V4 .| F_ARGS);
  Def 0x00C2 (Some "npc_chkwarp") None [] (F_V05_V4);
  Def 0x00C3 (Some "pl_pkoff") None [] (F_V05_V4);
  Def 0x00C4 (Some "map_designate") None [(ArgC REG_SET_FIXED 4 None)] (F_V05_V4);
  Def 0x00C5 (Some "masterkey_on") None [] (F_V05_V4);
  Def 0x00C6 (Some "masterkey_off") None [] (F_V05_V4);
  Def 0x00C7 (Some "window_time") None [] (F_V05_V4);
  Def 0x00C8 (Some "winend_time") None [] (F_V05_V4);
  Def 0x00C9 (Some "winset_time") None [ArgT REG] (F_V05_V4);
  Def 0x00CA (Some "getmtime") None [ArgT REG] (F_V05_V4);
  Def 0x00CB (Some "set_quest_board_handler") None [ArgT INT32; SCRIPT32; ArgT CSTRING] (F_V05_V2);
  Def 0x00CB (Some "set_quest_board_handler") None [ArgT INT32; SCRIPT16; ArgT CSTRING] (F_V3_V4 .| F_ARGS);
  Def 0x00CC (Some "clear_quest_board_handler") None [ArgT INT32] (F_V05_V4 .| F_ARGS);
  Def 0x00CD (Some "particle_id") (Some "particle_id_V1") [(ArgC REG32_SET_FIXED 4 None); ArgT INT32] (F_V05_V2);
  Def 0x00CD (Some "particle_id") (Some "particle_id_V3") [(ArgC REG_SET_FIXED 4 None)] (F_V3_V4);
  Def 0x00CE (Some "npc_crptalk_id") (Some "npc_crptalk_id_V1") [(ArgC REG32_SET_FIXED 7 None); ArgT INT32] (F_V05_V2);
  Def 0x00CE (Some "npc_crptalk_id") (Some "npc_crptalk_id_V3") [(ArgC REG_SET_FIXED 7 None)] (F_V3_V4);
  Def 0x00CF (Some "npc_lang_clean") None [] (F_V05_V4);
  Def 0x00D0 (Some "pl_pkon") None [] (F_V1_V4);
  Def 0x00D1 (Some "pl_chk_item2") None [(ArgC REG_SET_FIXED 4 None); ArgT REG] (F_V1_V4);
  Def 0x00D2 (Some "enable_mainmenu") None [] (F_V1_V4);
  Def 0x00D3 (Some "disable_mainmenu") None [] (F_V1_V4);
  Def 0x00D4 (Some "start_battlebgm") None [] (F_V1_V4);
  Def 0x00D5 (Some "end_battlebgm") None [] (F_V1_V4);
  Def 0x00D6 (Some "disp_msg_qb") None [ArgT CSTRING] (F_V1_V4 .| F_ARGS);
  Def 0x00D7 (Some "close_msg_qb") None [] (F_V1_V4);
  Def 0x00D8 (Some "set_eventflag") (Some "set_eventflag_v1") [ArgT INT32; ArgT INT32] (F_V1_V2 .| F_ARGS);
  Def 0x00D8 (Some "set_eventflag") (Some "set_eventflag_v3") [ArgT INT32; ArgT INT32] (F_V3_V4 .| F_ARGS);
  Def 0x00D9 (Some "sync_register") (Some "sync_leti") [ArgT INT32; ArgT INT32] (F_V1_V4 .| F_ARGS);
  Def 0x00DA (Some "set_returnhunter") None [] (F_V1_V4);
  Def 0x00DB (Some "set_returncity") None [] (F_V1_V4);
  Def 0x00DC (Some "load_pvr") None [] (F_V1_V4);
  Def 0x00DD (Some "load_midi") None [] (F_V1_V4);
  Def 0x00DE (Some "item_detect_bank") (Some "unknownDE") [(ArgC REG_SET_FIXED 6 None); ArgT REG] (F_V1_V4);
  Def 0x00DF (Some "npc_param") (Some "npc_param_V1") [(ArgC REG32_SET_FIXED 14 None); ArgT INT32] (F_V1_V2);
  Def 0x00DF (Some "npc_param") (Some "npc_param_V3") [(ArgC REG_SET_FIXED 14 None); ArgT INT32] (F_V3_V4 .| F_ARGS);
  Def 0x00E0 (Some "pad_dragon") None [] (F_V1_V4);
  Def 0x00E1 (Some "clear_mainwarp") None [ArgT INT32] (F_V1_V4 .| F_ARGS);
  Def 0x00E2 (Some "pcam_param") (Some "pcam_param_V1") [(ArgC REG32_SET_FIXED 6 None)] (F_V1_V2);
  Def 0x00E2 (Some "pcam_param") (Some "pcam_param_V3") [(ArgC REG_SET_FIXED 6 None)] (F_V3_V4);
  Def 0x00E3 (Some "start_setevt") (Some "start_setevt_v1") [ArgT INT32; ArgT INT32] (F_V1_V2 .| F_ARGS);
  Def 0x00E3 (Some "start_setevt") (Some "start_setevt_v3") [ArgT INT32; ArgT INT32] (F_V3_V4 .| F_ARGS);
  Def 0x00E4 (Some "warp_on") None [] (F_V1_V4);
  Def 0x00E5 (Some "warp_off") None [] (F_V1_V4);
  Def 0x00E6 (Some "get_client_id") (Some "get_slotnumber") [ArgT REG] (F_V1_V4);
  Def 0x00E7 (Some "get_leader_id") (Some "get_servernumber") [ArgT REG] (F_V1_V4);
  Def 0x00E8 (Some "set_eventflag2") None [ArgT INT32; ArgT REG] (F_V1_V4 .| F_ARGS);
  Def 0x00E9 (Some "mod2") (Some "res") [ArgT REG; ArgT REG] (F_V1_V4);
  Def 0x00EA (Some "modi2") (Some "unknownEA") [ArgT REG; ArgT INT32] (F_V1_V4);
  Def 0x00EB (Some "enable_bgmctrl") None [ArgT INT32] (F_V1_V4 .| F_ARGS);
  Def 0x00EC (Some "sw_send") None [(ArgC REG_SET_FIXED 3 None)] (F_V1_V4);
  Def 0x00ED (Some "create_bgmctrl") None [] (F_V1_V4);
  Def 0x00EE (Some "pl_add_meseta2") None [ArgT INT32] (F_V1_V4 .| F_ARGS);
  Def 0x00EF (Some "sync_register2") (Some "sync_let") [ArgT INT32; ArgT REG32] (F_V1_V2);
  Def 0x00EF (Some "sync_register2") None [ArgT REG; ArgT INT32] (F_V3_V4 .| F_ARGS);
  Def 0x00F0 (Some "send_regwork") None [ArgT REG32; ArgT REG32] (F_V1_V2);
  Def 0x00F1 (Some "leti_fixed_camera") (Some "leti_fixed_camera_V1") [(ArgC REG32_SET_FIXED 6 None)] (F_V2);
  Def 0x00F1 (Some "leti_fixed_camera") (Some "leti_fixed_camera_V3") [(ArgC REG_SET_FIXED 6 None)] (F_V3_V4);
  Def 0x00F2 (Some "default_camera_pos1") None [] (F_V2_V4);
  Def 0xF800 (Some "debug_F800") None [] (F_V2);
  Def 0xF801 (Some "set_chat_callback") (Some "set_chat_callback?") [(ArgC REG32_SET_FIXED 5 None); ArgT CSTRING] (F_V2_V4 .| F_ARGS);
  Def 0xF808 (Some "get_difficulty_level_v2") (Some "get_difflvl2") [ArgT REG] (F_V2_V4);
  Def 0xF809 (Some "get_number_of_players") (Some "get_number_of_player1") [ArgT REG] (F_V2_V4);
  Def 0xF80A (Some "get_coord_of_player") None [(ArgC REG_SET_FIXED 3 None); ArgT REG] (F_V2_V4);
  Def 0xF80B (Some "enable_map") None [] (F_V2_V4);
  Def 0xF80C (Some "disable_map") None [] (F_V2_V4);
  Def 0xF80D (Some "map_designate_ex") None [(ArgC REG_SET_FIXED 5 None)] (F_V2_V4);
  Def 0xF80E (Some "disable_weapon_drop") (Some "unknownF80E") [CLIENT_ID] (F_V2_V4 .| F_ARGS);
  Def 0xF80F (Some "enable_weapon_drop") (Some "unknownF80F") [CLIENT_ID] (F_V2_V4 .| F_ARGS);
  Def 0xF810 (Some "ba_initial_floor") None [AREA] (F_V2_V4 .| F_ARGS);
  Def 0xF811 (Some "set_ba_rules") None [] (F_V2_V4);
  Def 0xF812 (Some "ba_set_tech_disk_mode") (Some "ba_set_tech") [ArgT INT32] (F_V2_V4 .| F_ARGS);
  Def 0xF813 (Some "ba_set_weapon_and_armor_mode") (Some "ba_set_equip") [ArgT INT32] (F_V2_V4 .| F_ARGS);
  Def 0xF814 (Some "ba_set_forbid_mags") (Some "ba_set_mag") [ArgT INT32] (F_V2_V4 .| F_ARGS);
  Def 0xF815 (Some "ba_set_tool_mode") (Some "ba_set_item") [ArgT INT32] (F_V2_V4 .| F_ARGS);
  Def 0xF816 (Some "ba_set_trap_mode") (Some "ba_set_trapmenu") [ArgT INT32] (F_V2_V4 .| F_ARGS);
  Def 0xF817 (Some "ba_set_unused_F817") (Some "unknownF817") [ArgT INT32] (F_V2_V4 .| F_ARGS);
  Def 0xF818 (Some "ba_set_respawn") None [ArgT INT32] (F_V2_V4 .| F_ARGS);
  Def 0xF819 (Some "ba_set_replace_char") (Some "ba_set_char") [ArgT INT32] (F_V2_V4 .| F_ARGS);
  Def 0xF81A (Some "ba_dropwep") None [ArgT INT32] (F_V2_V4 .| F_ARGS);
  Def 0xF81B (Some "ba_teams") None [ArgT INT32] (F_V2_V4 .| F_ARGS);
  Def 0xF81C (Some "ba_start") (Some "ba_disp_msg") [ArgT CSTRING] (F_V2_V4 .| F_ARGS);
  Def 0xF81D (Some "death_lvl_up") None [ArgT INT32] (F_V2_V4 .| F_ARGS);
  Def 0xF81E (Some "ba_set_meseta_drop_mode") (Some "ba_set_meseta") [ArgT INT32] (F_V2_V4 .| F_ARGS);
  Def 0xF820 (Some "cmode_stage") None [ArgT INT32] (F_V2_V4 .| F_ARGS);
  Def 0xF821 (Some "nop_F821") None [(ArgC REG_SET_FIXED 9 None)] (F_V2_V4);
  Def 0xF822 (Some "nop_F822") None [ArgT REG] (F_V2_V4);
  Def 0xF823 (Some "set_cmode_char_template") None [ArgT INT32] (F_V2_V4 .| F_ARGS);
  Def 0xF824 (Some "set_cmode_difficulty") (Some "set_cmode_diff") [ArgT INT32] (F_V2_V4 .| F_ARGS);
  Def 0xF825 (Some "exp_multiplication") None [(ArgC REG_SET_FIXED 3 None)] (F_V2_V4);
  Def 0xF826 (Some "if_player_alive_cm") (Some "exp_division?") [ArgT REG] (F_V2_V4);
  Def 0xF827 (Some "get_user_is_dead") (Some "get_user_is_dead?") [ArgT REG] (F_V2_V4);
  Def 0xF828 (Some "go_floor") None [ArgT REG; ArgT REG] (F_V2_V4);
  Def 0xF829 (Some "get_num_kills") None [ArgT REG; ArgT REG] (F_V2_V4);
  Def 0xF82A (Some "reset_kills") None [ArgT REG] (F_V2_V4);
  Def 0xF82B (Some "unlock_door2") None [ArgT INT32; ArgT INT32] (F_V2_V4 .| F_ARGS);
  Def 0xF82C (Some "lock_door2") None [ArgT INT32; ArgT INT32] (F_V2_V4 .| F_ARGS);
  Def 0xF82D (Some "if_switch_not_pressed") None [(ArgC REG_SET_FIXED 2 None)] (F_V2_V4);
  Def 0xF82E (Some "if_switch_pressed") None [(ArgC REG_SET_FIXED 3 None)] (F_V2_V4);
  Def 0xF830 (Some "control_dragon") None [ArgT REG] (F_V2_V4);
  Def 0xF831 (Some "release_dragon") None [] (F_V2_V4);
  Def 0xF838 (Some "shrink") None [ArgT REG] (F_V2_V4);
  Def 0xF839 (Some "unshrink") None [ArgT REG] (F_V2_V4);
  Def 0xF83A (Some "set_shrink_cam1") None [(ArgC REG_SET_FIXED 4 None)] (F_V2_V4);
  Def 0xF83B (Some "set_shrink_cam2") None [(ArgC REG_SET_FIXED 4 None)] (F_V2_V4);
  Def 0xF83C (Some "display_clock2") (Some "display_clock2?") [ArgT REG] (F_V2_V4);
  Def 0xF83D (Some "set_area_total") (Some "unknownF83D") [ArgT INT32] (F_V2_V4 .| F_ARGS);
  Def 0xF83E (Some "delete_area_title") (Some "delete_area_title?") [ArgT INT32] (F_V2_V4 .| F_ARGS);
  Def 0xF840 (Some "load_npc_data") None [] (F_V2_V4);
  Def 0xF841 (Some "get_npc_data") None [(ArgD LABEL16 DataType.PLAYER_VISUAL_CONFIG (Some "visual_config"))] (F_V2_V4);
  Def 0xF848 (Some "give_damage_score") None [(ArgC REG_SET_FIXED 3 None)] (F_V2_V4);
  Def 0xF849 (Some "take_damage_score") None [(ArgC REG_SET_FIXED 3 None)] (F_V2_V4);
  Def 0xF84A (Some "enemy_give_score") (Some "unk_score_F84A") [(ArgC REG_SET_FIXED 3 None)] (F_V2_V4);
  Def 0xF84B (Some "enemy_take_score") (Some "unk_score_F84B") [(ArgC REG_SET_FIXED 3 None)] (F_V2_V4);
  Def 0xF84C (Some "kill_score") None [(ArgC REG_SET_FIXED 3 None)] (F_V2_V4);
  Def 0xF84D (Some "death_score") None [(ArgC REG_SET_FIXED 3 None)] (F_V2_V4);
  Def 0xF84E (Some "enemy_kill_score") (Some "unk_score_F84E") [(ArgC REG_SET_FIXED 3 None)] (F_V2_V4);
  Def 0xF84F (Some "enemy_death_score") None [(ArgC REG_SET_FIXED 3 None)] (F_V2_V4);
  Def 0xF850 (Some "meseta_score") None [(ArgC REG_SET_FIXED 3 None)] (F_V2_V4);
  Def 0xF851 (Some "ba_set_trap_count") (Some "unknownF851") [(ArgC REG_SET_FIXED 2 None)] (F_V2_V4);
  Def 0xF852 (Some "ba_set_target") (Some "unknownF852") [ArgT INT32] (F_V2_V4 .| F_ARGS);
  Def 0xF853 (Some "reverse_warps") None [] (F_V2_V4);
  Def 0xF854 (Some "unreverse_warps") None [] (F_V2_V4);
  Def 0xF855 (Some "set_ult_map") None [] (F_V2_V4);
  Def 0xF856 (Some "unset_ult_map") None [] (F_V2_V4);
  Def 0xF857 (Some "set_area_title") None [ArgT CSTRING] (F_V2_V4 .| F_ARGS);
  Def 0xF858 (Some "ba_show_self_traps") (Some "BA_Show_Self_Traps") [] (F_V2_V4);
  Def 0xF859 (Some "ba_hide_self_traps") (Some "BA_Hide_Self_Traps") [] (F_V2_V4);
  Def 0xF85A (Some "equip_item") (Some "equip_item_v2") [(ArgC REG32_SET_FIXED 4 None)] (F_V2);
  Def 0xF85A (Some "equip_item") (Some "equip_item_v3") [(ArgC REG_SET_FIXED 4 None)] (F_V3_V4);
  Def 0xF85B (Some "unequip_item") (Some "unequip_item_V2") [CLIENT_ID; ArgT INT32] (F_V2 .| F_ARGS);
  Def 0xF85B (Some "unequip_item") (Some "unequip_item_V3") [CLIENT_ID; ArgT INT32] (F_V3_V4 .| F_ARGS);
  Def 0xF85C (Some "qexit2") (Some "QEXIT2") [ArgT INT32] (F_V2_V4);
  Def 0xF85D (Some "set_allow_item_flags") (Some "unknownF85D") [ArgT INT32] (F_V2_V4 .| F_ARGS);
  Def 0xF85E (Some "ba_enable_sonar") (Some "unknownF85E") [ArgT INT32] (F_V2_V4 .| F_ARGS);
  Def 0xF85F (Some "ba_use_sonar") (Some "unknownF85F") [ArgT INT32] (F_V2_V4 .| F_ARGS);
  Def 0xF860 (Some "clear_score_announce") (Some "unknownF860") [] (F_V2_V4);
  Def 0xF861 (Some "set_score_announce") (Some "unknownF861") [ArgT INT32] (F_V2_V4 .| F_ARGS);
  Def 0xF862 (Some "give_s_rank_weapon") None [ArgT REG32; ArgT REG32; ArgT CSTRING] (F_V2);
  Def 0xF862 (Some "give_s_rank_weapon") None [ArgT INT32; ArgT REG; ArgT CSTRING] (F_V3_V4 .| F_ARGS);
  Def 0xF863 (Some "get_mag_levels") None [(ArgC REG32_SET_FIXED 4 None)] (F_V2);
  Def 0xF863 (Some "get_mag_levels") None [(ArgC REG_SET_FIXED 4 None)] (F_V3_V4);
  Def 0xF864 (Some "set_cmode_rank_result") (Some "cmode_rank") [ArgT INT32; ArgT CSTRING] (F_V2_V4 .| F_ARGS);
  Def 0xF865 (Some "award_item_name") (Some "award_item_name?") [] (F_V2_V4);
  Def 0xF866 (Some "award_item_select") (Some "award_item_select?") [] (F_V2_V4);
  Def 0xF867 (Some "award_item_give_to") (Some "award_item_give_to?") [ArgT REG] (F_V2_V4);
  Def 0xF868 (Some "set_cmode_rank_threshold") (Some "set_cmode_rank") [ArgT REG; ArgT REG] (F_V2_V4);
  Def 0xF869 (Some "check_rank_time") None [ArgT REG; ArgT REG] (F_V2_V4);
  Def 0xF86A (Some "item_create_cmode") None [(ArgC REG_SET_FIXED 6 None); ArgT REG] (F_V2_V4);
  Def 0xF86B (Some "ba_set_box_drop_area") (Some "ba_box_drops") [ArgT REG] (F_V2_V4);
  Def 0xF86C (Some "award_item_ok") (Some "award_item_ok?") [ArgT REG] (F_V2_V4);
  Def 0xF86D (Some "ba_set_trapself") None [] (F_V2_V4);
  Def 0xF86E (Some "ba_clear_trapself") (Some "unknownF86E") [] (F_V2_V4);
  Def 0xF86F (Some "ba_set_lives") None [ArgT INT32] (F_V2_V4 .| F_ARGS);
  Def 0xF870 (Some "ba_set_max_tech_level") (Some "ba_set_tech_lvl") [ArgT INT32] (F_V2_V4 .| F_ARGS);
  Def 0xF871 (Some "ba_set_char_level") (Some "ba_set_lvl") [ArgT INT32] (F_V2_V4 .| F_ARGS);
  Def 0xF872 (Some "ba_set_time_limit") None [ArgT INT32] (F_V2_V4 .| F_ARGS);
  Def 0xF873 (Some "dark_falz_is_dead") (Some "boss_is_dead?") [ArgT REG] (F_V2_V4);
  Def 0xF874 (Some "set_cmode_rank_override") None [ArgT INT32; ArgT CSTRING] (F_V2_V4 .| F_ARGS);
  Def 0xF875 (Some "enable_stealth_suit_effect") None [ArgT REG] (F_V2_V4);
  Def 0xF876 (Some "disable_stealth_suit_effect") None [ArgT REG] (F_V2_V4);
  Def 0xF877 (Some "enable_techs") None [ArgT REG] (F_V2_V4);
  Def 0xF878 (Some "disable_techs") None [ArgT REG] (F_V2_V4);
  Def 0xF879 (Some "get_gender") None [ArgT REG; ArgT REG] (F_V2_V4);
  Def 0xF87A (Some "get_chara_class") None [ArgT REG; (ArgC REG_SET_FIXED 2 None)] (F_V2_V4);
  Def 0xF87B (Some "take_slot_meseta") None [(ArgC REG_SET_FIXED 2 None); ArgT REG] (F_V2_V4);
  Def 0xF87C (Some "get_guild_card_file_creation_time") None [ArgT REG] (F_V2_V4);
  Def 0xF87D (Some "kill_player") None [ArgT REG] (F_V2_V4);
  Def 0xF87E (Some "get_serial_number") None [ArgT REG] (F_V2_V4);
  Def 0xF87F (Some "get_eventflag") (Some "read_guildcard_flag") [ArgT REG; ArgT REG] (F_V2_V4);
  Def 0xF880 (Some "set_trap_damage") (Some "unknownF880") [(ArgC REG_SET_FIXED 3 None)] (F_V2_V4);
  Def 0xF881 (Some "get_pl_name") (Some "get_pl_name?") [ArgT REG] (F_V2_V4);
  Def 0xF882 (Some "get_pl_job") None [ArgT REG] (F_V2_V4);
  Def 0xF883 (Some "get_player_proximity") (Some "unknownF883") [(ArgC REG_SET_FIXED 2 None); ArgT REG] (F_V2_V4);
  Def 0xF884 (Some "set_eventflag16") None [ArgT INT32; ArgT REG] (F_V2);
  Def 0xF884 (Some "set_eventflag16") None [ArgT INT32; ArgT INT32] (F_V3_V4 .| F_ARGS);
  Def 0xF885 (Some "set_eventflag32") None [ArgT INT32; ArgT REG] (F_V2);
  Def 0xF885 (Some "set_eventflag32") None [ArgT INT32; ArgT INT32] (F_V3_V4 .| F_ARGS);
  Def 0xF886 (Some "ba_get_place") None [ArgT REG; ArgT REG] (F_V2_V4);
  Def 0xF887 (Some "ba_get_score") None [ArgT REG; ArgT REG] (F_V2_V4);
  Def 0xF888 (Some "enable_win_pfx") (Some "ba_close_msg") [] (F_V2_V4);
  Def 0xF889 (Some "disable_win_pfx") None [] (F_V2_V4);
  Def 0xF88A (Some "get_player_status") None [ArgT REG; ArgT REG] (F_V2_V4);
  Def 0xF88B (Some "send_mail") None [ArgT REG; ArgT CSTRING] (F_V2_V4 .| F_ARGS);
  Def 0xF88C (Some "get_game_version") None [ArgT REG] (F_V2_V4);
  Def 0xF88D (Some "chl_set_timerecord") (Some "chl_set_timerecord?") [ArgT REG] (F_V2 .| F_V3);
  Def 0xF88D (Some "chl_set_timerecord") (Some "chl_set_timerecord?") [ArgT REG; ArgT REG] (F_V4);
  Def 0xF88E (Some "chl_get_timerecord") (Some "chl_get_timerecord?") [ArgT REG] (F_V2_V4);
  Def 0xF88F (Some "set_cmode_grave_rates") None [(ArgC REG_SET_FIXED 20 None)] (F_V2_V4);
  Def 0xF890 (Some "clear_mainwarp_all") (Some "unknownF890") [] (F_V2_V4);
  Def 0xF891 (Some "load_enemy_data") None [ArgT INT32] (F_V2_V4 .| F_ARGS);
  Def 0xF892 (Some "get_physical_data") None [(ArgD LABEL16 DataType.PLAYER_STATS (Some "stats"))] (F_V2_V4);
  Def 0xF893 (Some "get_attack_data") None [(ArgD LABEL16 DataType.ATTACK_DATA (Some "attack_data"))] (F_V2_V4);
  Def 0xF894 (Some "get_resist_data") None [(ArgD LABEL16 DataType.RESIST_DATA (Some "resist_data"))] (F_V2_V4);
  Def 0xF895 (Some "get_movement_data") None [(ArgD LABEL16 DataType.MOVEMENT_DATA (Some "movement_data"))] (F_V2_V4);
  Def 0xF896 (Some "get_eventflag16") None [ArgT REG; ArgT REG] (F_V2_V4);
  Def 0xF897 (Some "get_eventflag32") None [ArgT REG; ArgT REG] (F_V2_V4);
  Def 0xF898 (Some "shift_left") None [ArgT REG; ArgT REG] (F_V2_V4);
  Def 0xF899 (Some "shift_right") None [ArgT REG; ArgT REG] (F_V2_V4);
  Def 0xF89A (Some "get_random") None [(ArgC REG_SET_FIXED 2 None); ArgT REG] (F_V2_V4);
  Def 0xF89B (Some "reset_map") None [] (F_V2_V4);
  Def 0xF89C (Some "disp_chl_retry_menu") None [ArgT REG] (F_V2_V4);
  Def 0xF89D (Some "chl_reverser") (Some "chl_reverser?") [] (F_V2_V4);
  Def 0xF89E (Some "ba_forbid_scape_dolls") (Some "unknownF89E") [ArgT INT32] (F_V2_V4 .| F_ARGS);
  Def 0xF89F (Some "player_recovery") (Some "unknownF89F") [ArgT REG] (F_V2_V4);
  Def 0xF8A0 (Some "disable_bosswarp_option") (Some "unknownF8A0") [] (F_V2_V4);
  Def 0xF8A1 (Some "enable_bosswarp_option") (Some "unknownF8A1") [] (F_V2_V4);
  Def 0xF8A2 (Some "is_bosswarp_opt_disabled") None [ArgT REG] (F_V2_V4);
  Def 0xF8A3 (Some "load_serial_number_to_flag_buf") (Some "init_online_key?") [] (F_V2_V4);
  Def 0xF8A4 (Some "write_flag_buf_to_event_flags") (Some "encrypt_gc_entry_auto") [ArgT REG] (F_V2_V4);
  Def 0xF8A5 (Some "set_chat_callback_no_filter") None [(ArgC REG_SET_FIXED 5 None)] (F_V2_V4);
  Def 0xF8A6 (Some "set_symbol_chat_collision") None [(ArgC REG_SET_FIXED 10 None)] (F_V2_V4);
  Def 0xF8A7 (Some "set_shrink_size") None [ArgT REG; (ArgC REG_SET_FIXED 3 None)] (F_V2_V4);
  Def 0xF8A8 (Some "death_tech_lvl_up2") None [ArgT INT32] (F_V2_V4 .| F_ARGS);
  Def 0xF8A9 (Some "vol_opt_is_dead") (Some "unknownF8A9") [ArgT REG] (F_V2_V4);
  Def 0xF8AA (Some "is_there_grave_message") None [ArgT REG] (F_V2_V4);
  Def 0xF8AB (Some "get_ba_record") None [(ArgC REG_SET_FIXED 7 None)] (F_V2_V4);
  Def 0xF8AC (Some "get_cmode_prize_rank") None [ArgT REG] (F_V2_V4);
  Def 0xF8AD (Some "get_number_of_players2") None [ArgT REG] (F_V2_V4);
  Def 0xF8AE (Some "party_has_name") None [ArgT REG] (F_V2_V4);
  Def 0xF8AF (Some "someone_has_spoken") None [ArgT REG] (F_V2_V4);
  Def 0xF8B0 (Some "read1") None [ArgT REG; ArgT REG] (F_V2);
  Def 0xF8B0 (Some "read1") None [ArgT REG; ArgT INT32] (F_V3_V4 .| F_ARGS);
  Def 0xF8B1 (Some "read2") None [ArgT REG; ArgT REG] (F_V2);
  Def 0xF8B1 (Some "read2") None [ArgT REG; ArgT INT32] (F_V3_V4 .| F_ARGS);
  Def 0xF8B2 (Some "read4") None [ArgT REG; ArgT REG] (F_V2);
  Def 0xF8B2 (Some "read4") None [ArgT REG; ArgT INT32] (F_V3_V4 .| F_ARGS);
  Def 0xF8B3 (Some "write1") None [ArgT REG; ArgT REG] (F_V2);
  Def 0xF8B3 (Some "write1") None [ArgT INT32; ArgT INT32] (F_V3_V4 .| F_ARGS);
  Def 0xF8B4 (Some "write2") None [ArgT REG; ArgT REG] (F_V2);
  Def 0xF8B4 (Some "write2") None [ArgT INT32; ArgT INT32] (F_V3_V4 .| F_ARGS);
  Def 0xF8B5 (Some "write4") None [ArgT REG; ArgT REG] (F_V2);
  Def 0xF8B5 (Some "write4") None [ArgT INT32; ArgT INT32] (F_V3_V4 .| F_ARGS);
  Def 0xF8B6 (Some "check_for_hacking") None [ArgT REG] (F_V2_V4);
  Def 0xF8B7 (Some "unknown_F8B7") None [ArgT REG] (F_V2_V4);
  Def 0xF8B8 (Some "disable_retry_menu") (Some "unknownF8B8") [] (F_V2_V4);
  Def 0xF8B9 (Some "chl_recovery") (Some "chl_recovery?") [] (F_V2_V4);
  Def 0xF8BA (Some "load_guild_card_file_creation_time_to_flag_buf") None [] (F_V2_V4);
  Def 0xF8BB (Some "write_flag_buf_to_event_flags2") None [ArgT REG] (F_V2_V4);
  Def 0xF8BC (Some "set_episode") None [ArgT INT32] (F_V3_V4 .| F_SET_EPISODE);
  Def 0xF8C0 (Some "file_dl_req") None [ArgT INT32; ArgT CSTRING] (F_V3 .| F_ARGS);
  Def 0xF8C0 (Some "nop_F8C0") None [ArgT INT32; ArgT CSTRING] (F_V4 .| F_ARGS);
  Def 0xF8C1 (Some "get_dl_status") None [ArgT REG] (F_V3);
  Def 0xF8C1 (Some "nop_F8C1") None [ArgT REG] (F_V4);
  Def 0xF8C2 (Some "prepare_gba_rom_from_download") (Some "gba_unknown4?") [] (F_GC_V3 .| F_GC_EP3TE .| F_GC_EP3);
  Def 0xF8C2 (Some "nop_F8C2") None [] (F_XB_V3 .| F_V4);
  Def 0xF8C3 (Some "start_or_update_gba_joyboot") (Some "get_gba_state?") [ArgT REG] (F_GC_V3 .| F_GC_EP3TE .| F_GC_EP3);
  Def 0xF8C3 (Some "return_0_F8C3") None [ArgT REG] (F_XB_V3);
  Def 0xF8C3 (Some "nop_F8C3") None [ArgT REG] (F_V4);
  Def 0xF8C4 (Some "congrats_msg_multi_cm") (Some "unknownF8C4") [ArgT REG] (F_V3);
  Def 0xF8C4 (Some "nop_F8C4") None [ArgT REG] (F_V4);
  Def 0xF8C5 (Some "stage_end_multi_cm") (Some "unknownF8C5") [ArgT REG] (F_V3);
  Def 0xF8C5 (Some "nop_F8C5") None [ArgT REG] (F_V4);
  Def 0xF8C6 (Some "qexit") (Some "QEXIT") [] (F_V3_V4);
  Def 0xF8C7 (Some "use_animation") None [ArgT REG; ArgT REG] (F_V3_V4);
  Def 0xF8C8 (Some "stop_animation") None [ArgT REG] (F_V3_V4);
  Def 0xF8C9 (Some "run_to_coord") None [(ArgC REG_SET_FIXED 4 None); ArgT REG] (F_V3_V4);
  Def 0xF8CA (Some "set_slot_invincible") None [ArgT REG; ArgT REG] (F_V3_V4);
  Def 0xF8CB (Some "clear_slot_invincible") (Some "unknownF8CB") [ArgT REG] (F_V3_V4);
  Def 0xF8CC (Some "set_slot_poison") None [ArgT REG] (F_V3_V4);
  Def 0xF8CD (Some "set_slot_paralyze") None [ArgT REG] (F_V3_V4);
  Def 0xF8CE (Some "set_slot_shock") None [ArgT REG] (F_V3_V4);
  Def 0xF8CF (Some "set_slot_freeze") None [ArgT REG] (F_V3_V4);
  Def 0xF8D0 (Some "set_slot_slow") None [ArgT REG] (F_V3_V4);
  Def 0xF8D1 (Some "set_slot_confuse") None [ArgT REG] (F_V3_V4);
  Def 0xF8D2 (Some "set_slot_shifta") None [ArgT REG] (F_V3_V4);
  Def 0xF8D3 (Some "set_slot_deband") None [ArgT REG] (F_V3_V4);
  Def 0xF8D4 (Some "set_slot_jellen") None [ArgT REG] (F_V3_V4);
  Def 0xF8D5 (Some "set_slot_zalure") None [ArgT REG] (F_V3_V4);
  Def 0xF8D6 (Some "fleti_fixed_camera") None [(ArgC REG_SET_FIXED 6 None)] (F_V3_V4 .| F_ARGS);
  Def 0xF8D7 (Some "fleti_locked_camera") None [ArgT INT32; (ArgC REG_SET_FIXED 3 None)] (F_V3_V4 .| F_ARGS);
  Def 0xF8D8 (Some "default_camera_pos2") None [] (F_V3_V4);
  Def 0xF8D9 (Some "set_motion_blur") None [] (F_V3_V4);
  Def 0xF8DA (Some "set_screen_bw") (Some "set_screen_b&w") [] (F_V3_V4);
  Def 0xF8DB (Some "get_vector_from_path") (Some "unknownF8DB") [ArgT INT32; ArgT FLOAT32; ArgT FLOAT32; ArgT INT32; (ArgC REG_SET_FIXED 4 None); SCRIPT16] (F_V3_V4 .| F_ARGS);
  Def 0xF8DC (Some "npc_action_string") (Some "NPC_action_string") [ArgT REG; ArgT REG; CSTRING_LABEL16] (F_V3_V4);
  Def 0xF8DD (Some "get_pad_cond") None [ArgT REG; ArgT REG] (F_V3_V4);
  Def 0xF8DE (Some "get_button_cond") None [ArgT REG; ArgT REG] (F_V3_V4);
  Def 0xF8DF (Some "freeze_enemies") None [] (F_V3_V4);
  Def 0xF8E0 (Some "unfreeze_enemies") None [] (F_V3_V4);
  Def 0xF8E1 (Some "freeze_everything") None [] (F_V3_V4);
  Def 0xF8E2 (Some "unfreeze_everything") None [] (F_V3_V4);
  Def 0xF8E3 (Some "restore_hp") None [ArgT REG] (F_V3_V4);
  Def 0xF8E4 (Some "restore_tp") None [ArgT REG] (F_V3_V4);
  Def 0xF8E5 (Some "close_chat_bubble") None [ArgT REG] (F_V3_V4);
  Def 0xF8E6 (Some "move_coords_object") (Some "unknownF8E6") [ArgT REG; (ArgC REG_SET_FIXED 3 None)] (F_V3_V4);
  Def 0xF8E7 (Some "at_coords_call_ex") (Some "unknownF8E7") [(ArgC REG_SET_FIXED 5 None); ArgT REG] (F_V3_V4);
  Def 0xF8E8 (Some "at_coords_talk_ex") (Some "unknownF8E8") [(ArgC REG_SET_FIXED 5 None); ArgT REG] (F_V3_V4);
  Def 0xF8E9 (Some "walk_to_coord_call_ex") (Some "unknownF8E9") [(ArgC REG_SET_FIXED 5 None); ArgT REG] (F_V3_V4);
  Def 0xF8EA (Some "col_npcinr_ex") (Some "unknownF8EA") [(ArgC REG_SET_FIXED 6 None); ArgT REG] (F_V3_V4);
  Def 0xF8EB (Some "set_obj_param_ex") (Some "unknownF8EB") [(ArgC REG_SET_FIXED 6 None); ArgT REG] (F_V3_V4);
  Def 0xF8EC (Some "col_plinaw_ex") (Some "unknownF8EC") [(ArgC REG_SET_FIXED 9 None); ArgT REG] (F_V3_V4);
  Def 0xF8ED (Some "animation_check") None [ArgT REG; ArgT REG] (F_V3_V4);
  Def 0xF8EE (Some "call_image_data") None [ArgT INT32; (ArgD LABEL16 DataType.IMAGE_DATA None)] (F_V3_V4 .| F_ARGS);
  Def 0xF8EF (Some "nop_F8EF") (Some "unknownF8EF") [] (F_V3_V4);
  Def 0xF8F0 (Some "turn_off_bgm_p2") None [] (F_V3_V4);
  Def 0xF8F1 (Some "turn_on_bgm_p2") None [] (F_V3_V4);
  Def 0xF8F2 (Some "unknown_F8F2") (Some "load_unk_data") [ArgT INT32; ArgT FLOAT32; ArgT FLOAT32; ArgT INT32; (ArgC REG_SET_FIXED 4 None); (ArgD LABEL16 DataType.UNKNOWN_F8F2_DATA None)] (F_V3_V4 .| F_ARGS);
  Def 0xF8F3 (Some "particle2") None [(ArgC REG_SET_FIXED 3 None); ArgT INT32; ArgT FLOAT32] (F_V3_V4 .| F_ARGS);
  Def 0xF901 (Some "dec2float") None [ArgT REG; ArgT REG] (F_V3_V4);
  Def 0xF902 (Some "float2dec") None [ArgT REG; ArgT REG] (F_V3_V4);
  Def 0xF903 (Some "flet") None [ArgT REG; ArgT REG] (F_V3_V4);
  Def 0xF904 (Some "fleti") None [ArgT REG; ArgT FLOAT32] (F_V3_V4);
  Def 0xF908 (Some "fadd") None [ArgT REG; ArgT REG] (F_V3_V4);
  Def 0xF909 (Some "faddi") None [ArgT REG; ArgT FLOAT32] (F_V3_V4);
  Def 0xF90A (Some "fsub") None [ArgT REG; ArgT REG] (F_V3_V4);
  Def 0xF90B (Some "fsubi") None [ArgT REG; ArgT FLOAT32] (F_V3_V4);
  Def 0xF90C (Some "fmul") None [ArgT REG; ArgT REG] (F_V3_V4);
  Def 0xF90D (Some "fmuli") None [ArgT REG; ArgT FLOAT32] (F_V3_V4);
  Def 0xF90E (Some "fdiv") None [ArgT REG; ArgT REG] (F_V3_V4);
  Def 0xF90F (Some "fdivi") None [ArgT REG; ArgT FLOAT32] (F_V3_V4);
  Def 0xF910 (Some "get_total_deaths") (Some "get_unknown_count?") [CLIENT_ID; ArgT REG] (F_V3_V4 .| F_ARGS);
  Def 0xF911 (Some "get_stackable_item_count") None [(ArgC REG_SET_FIXED 4 None); ArgT REG] (F_V3_V4);
  Def 0xF912 (Some "freeze_and_hide_equip") None [] (F_V3_V4);
  Def 0xF913 (Some "thaw_and_show_equip") None [] (F_V3_V4);
  Def 0xF914 (Some "set_palettex_callback") (Some "set_paletteX_callback") [CLIENT_ID; SCRIPT16] (F_V3_V4 .| F_ARGS);
  Def 0xF915 (Some "activate_palettex") (Some "activate_paletteX") [CLIENT_ID] (F_V3_V4 .| F_ARGS);
  Def 0xF916 (Some "enable_palettex") (Some "enable_paletteX") [CLIENT_ID] (F_V3_V4 .| F_ARGS);
  Def 0xF917 (Some "restore_palettex") (Some "restore_paletteX") [CLIENT_ID] (F_V3_V4 .| F_ARGS);
  Def 0xF918 (Some "disable_palettex") (Some "disable_paletteX") [CLIENT_ID] (F_V3_V4 .| F_ARGS);
  Def 0xF919 (Some "get_palettex_activated") (Some "get_paletteX_activated") [CLIENT_ID; ArgT REG] (F_V3_V4 .| F_ARGS);
  Def 0xF91A (Some "get_unknown_palettex_status") (Some "get_unknown_paletteX_status?") [CLIENT_ID; ArgT INT32; ArgT REG] (F_V3_V4 .| F_ARGS);
  Def 0xF91B (Some "disable_movement2") None [CLIENT_ID] (F_V3_V4 .| F_ARGS);
  Def 0xF91C (Some "enable_movement2") None [CLIENT_ID] (F_V3_V4 .| F_ARGS);
  Def 0xF91D (Some "get_time_played") None [ArgT REG] (F_V3_V4);
  Def 0xF91E (Some "get_guildcard_total") None [ArgT REG] (F_V3_V4);
  Def 0xF91F (Some "get_slot_meseta") None [ArgT REG] (F_V3_V4);
  Def 0xF920 (Some "get_player_level") None [CLIENT_ID; ArgT REG] (F_V3_V4 .| F_ARGS);
  Def 0xF921 (Some "get_section_id") (Some "get_Section_ID") [CLIENT_ID; ArgT REG] (F_V3_V4 .| F_ARGS);
  Def 0xF922 (Some "get_player_hp") None [CLIENT_ID; (ArgC REG_SET_FIXED 4 None)] (F_V3_V4 .| F_ARGS);
  Def 0xF923 (Some "get_floor_number") None [CLIENT_ID; (ArgC REG_SET_FIXED 2 None)] (F_V3_V4 .| F_ARGS);
  Def 0xF924 (Some "get_coord_player_detect") None [(ArgC REG_SET_FIXED 3 None); (ArgC REG_SET_FIXED 4 None)] (F_V3_V4);
  Def 0xF925 (Some "read_counter") (Some "read_global_flag") [ArgT INT32; ArgT REG] (F_V3_V4 .| F_ARGS);
  Def 0xF926 (Some "write_counter") (Some "write_global_flag") [ArgT INT32; ArgT INT32] (F_V3_V4 .| F_ARGS);
  Def 0xF927 (Some "item_detect_bank2") (Some "unknownF927") [(ArgC REG_SET_FIXED 4 None); ArgT REG] (F_V3_V4);
  Def 0xF928 (Some "floor_player_detect") None [(ArgC REG_SET_FIXED 4 None)] (F_V3_V4);
  Def 0xF929 (Some "prepare_gba_rom_from_disk") (Some "read_disk_file?") [ArgT CSTRING] (F_V3 .| F_ARGS);
  Def 0xF929 (Some "nop_F929") None [ArgT CSTRING] (F_V4 .| F_ARGS);
  Def 0xF92A (Some "open_pack_select") None [] (F_V3_V4);
  Def 0xF92B (Some "item_select") None [ArgT REG] (F_V3_V4);
  Def 0xF92C (Some "get_item_id") None [ArgT REG] (F_V3_V4);
  Def 0xF92D (Some "color_change") None [ArgT INT32; ArgT INT32; ArgT INT32; ArgT INT32; ArgT INT32] (F_V3_V4 .| F_ARGS);
  Def 0xF92E (Some "send_statistic") (Some "send_statistic?") [ArgT INT32; ArgT INT32; ArgT INT32; ArgT INT32; ArgT INT32; ArgT INT32; ArgT INT32; ArgT INT32] (F_V3_V4 .| F_ARGS);
  Def 0xF92F (Some "gba_write_identifiers") (Some "unknownF92F") [ArgT INT32; ArgT INT32] (F_V3 .| F_ARGS);
  Def 0xF92F (Some "nop_F92F") None [ArgT INT32; ArgT INT32] (F_V4 .| F_ARGS);
  Def 0xF930 (Some "chat_box") None [ArgT INT32; ArgT INT32; ArgT INT32; ArgT INT32; ArgT INT32; ArgT CSTRING] (F_V3_V4 .| F_ARGS);
  Def 0xF931 (Some "chat_bubble") None [ArgT INT32; ArgT CSTRING] (F_V3_V4 .| F_ARGS);
  Def 0xF932 (Some "set_episode2") None [ArgT REG] (F_V3_V4);
  Def 0xF933 (Some "item_create_multi_cm") (Some "unknownF933") [(ArgC REG_SET_FIXED 7 None)] (F_V3);
  Def 0xF933 (Some "nop_F933") None [(ArgC REG_SET_FIXED 7 None)] (F_V4);
  Def 0xF934 (Some "scroll_text") None [ArgT INT32; ArgT INT32; ArgT INT32; ArgT INT32; ArgT INT32; ArgT FLOAT32; ArgT REG; ArgT CSTRING] (F_V3_V4 .| F_ARGS);
  Def 0xF935 (Some "gba_create_dl_graph") (Some "gba_unknown1") [] (F_GC_V3 .| F_GC_EP3TE .| F_GC_EP3);
  Def 0xF935 (Some "nop_F935") None [] (F_XB_V3 .| F_V4);
  Def 0xF936 (Some "gba_destroy_dl_graph") (Some "gba_unknown2") [] (F_GC_V3 .| F_GC_EP3TE .| F_GC_EP3);
  Def 0xF936 (Some "nop_F936") None [] (F_XB_V3 .| F_V4);
  Def 0xF937 (Some "gba_update_dl_graph") (Some "gba_unknown3") [] (F_GC_V3 .| F_GC_EP3TE .| F_GC_EP3);
  Def 0xF937 (Some "nop_F937") None [] (F_XB_V3 .| F_V4);
  Def 0xF938 (Some "add_damage_to") (Some "add_damage_to?") [ArgT INT32; ArgT INT32] (F_V3_V4 .| F_ARGS);
  Def 0xF939 (Some "item_delete3") None [ArgT INT32] (F_V3_V4 .| F_ARGS);
  Def 0xF93A (Some "get_item_info") None [ITEM_ID; (ArgC REG_SET_FIXED 12 None)] (F_V3_V4 .| F_ARGS);
  Def 0xF93B (Some "item_packing1") None [ITEM_ID] (F_V3_V4 .| F_ARGS);
  Def 0xF93C (Some "item_packing2") None [ITEM_ID; ArgT INT32] (F_V3_V4 .| F_ARGS);
  Def 0xF93D (Some "get_lang_setting") (Some "get_lang_setting?") [ArgT REG] (F_V3_V4 .| F_ARGS);
  Def 0xF93E (Some "prepare_statistic") (Some "prepare_statistic?") [ArgT INT32; ArgT INT32; ArgT INT32] (F_V3_V4 .| F_ARGS);
  Def 0xF93F (Some "keyword_detect") None [] (F_V3_V4);
  Def 0xF940 (Some "keyword") None [ArgT REG; ArgT INT32; ArgT CSTRING] (F_V3_V4 .| F_ARGS);
  Def 0xF941 (Some "get_guildcard_num") None [CLIENT_ID; ArgT REG] (F_V3_V4 .| F_ARGS);
  Def 0xF942 (Some "get_recent_symbol_chat") None [ArgT INT32; (ArgC REG_SET_FIXED 15 None)] (F_V3_V4 .| F_ARGS);
  Def 0xF943 (Some "create_symbol_chat_capture_buffer") None [] (F_V3_V4);
  Def 0xF944 (Some "get_item_stackability") (Some "get_wrap_status") [ITEM_ID; ArgT REG] (F_V3_V4 .| F_ARGS);
  Def 0xF945 (Some "initial_floor") None [ArgT INT32] (F_V3_V4 .| F_ARGS);
  Def 0xF946 (Some "sin") None [ArgT REG; ArgT INT32] (F_V3_V4 .| F_ARGS);
  Def 0xF947 (Some "cos") None [ArgT REG; ArgT INT32] (F_V3_V4 .| F_ARGS);
  Def 0xF948 (Some "tan") None [ArgT REG; ArgT INT32] (F_V3_V4 .| F_ARGS);
  Def 0xF949 (Some "atan2_int") None [ArgT REG; ArgT FLOAT32; ArgT FLOAT32] (F_V3_V4 .| F_ARGS);
  Def 0xF94A (Some "olga_flow_is_dead") (Some "boss_is_dead2?") [ArgT REG] (F_V3_V4);
  Def 0xF94B (Some "particle_effect_nc") (Some "particle3") [(ArgC REG_SET_FIXED 4 None)] (F_V3_V4);
  Def 0xF94C (Some "player_effect_nc") (Some "unknownF94C") [(ArgC REG_SET_FIXED 4 None)] (F_V3_V4);
  Def 0xF94D (Some "has_ep3_save_file") None [ArgT REG] (F_GC_V3 .| F_ARGS);
  Def 0xF94D (Some "give_card") (Some "is_there_cardbattle?") [ArgT REG] (F_GC_EP3TE);
  Def 0xF94D (Some "give_or_take_card") (Some "is_there_cardbattle?") [(ArgC REG_SET_FIXED 2 None)] (F_GC_EP3);
  Def 0xF94D (Some "unknown_F94D") None [ArgT INT32; ArgT REG] (F_XB_V3 .| F_ARGS);
  Def 0xF94D (Some "nop_F94D") None [] (F_V4);
  Def 0xF94E (Some "nop_F94E") None [] (F_V4);
  Def 0xF94F (Some "nop_F94F") None [] (F_V4);
  Def 0xF950 (Some "bb_p2_menu") (Some "BB_p2_menu") [ArgT INT32] (F_V4 .| F_ARGS);
  Def 0xF951 (Some "bb_map_designate") (Some "BB_Map_Designate") [ArgT INT8; ArgT INT8; ArgT INT8; ArgT INT8; ArgT INT8] (F_V4);
  Def 0xF952 (Some "bb_get_number_in_pack") (Some "BB_get_number_in_pack") [ArgT REG] (F_V4);
  Def 0xF953 (Some "bb_swap_item") (Some "BB_swap_item") [ArgT INT32; ArgT INT32; ArgT INT32; ArgT INT32; ArgT INT32; ArgT INT32; SCRIPT16; SCRIPT16] (F_V4 .| F_ARGS);
  Def 0xF954 (Some "bb_check_wrap") (Some "BB_check_wrap") [ArgT INT32; ArgT REG] (F_V4 .| F_ARGS);
  Def 0xF955 (Some "bb_exchange_pd_item") (Some "BB_exchange_PD_item") [ArgT INT32; ArgT INT32; ArgT INT32; ArgT LABEL16; ArgT LABEL16] (F_V4 .| F_ARGS);
  Def 0xF956 (Some "bb_exchange_pd_srank") (Some "BB_exchange_PD_srank") [ArgT INT32; ArgT INT32; ArgT INT32; ArgT INT32; ArgT INT32; ArgT LABEL16; ArgT LABEL16] (F_V4 .| F_ARGS);
  Def 0xF957 (Some "bb_exchange_pd_percent") (Some "BB_exchange_PD_special") [ArgT INT32; ArgT INT32; ArgT INT32; ArgT INT32; ArgT INT32; ArgT INT32; ArgT LABEL16; ArgT LABEL16] (F_V4 .| F_ARGS);
  Def 0xF958 (Some "bb_exchange_ps_percent") (Some "BB_exchange_PD_percent") [ArgT INT32; ArgT INT32; ArgT INT32; ArgT INT32; ArgT INT32; ArgT INT32; ArgT LABEL16; ArgT LABEL16] (F_V4 .| F_ARGS);
  Def 0xF959 (Some "bb_set_ep4_boss_can_escape") (Some "unknownF959") [ArgT INT32] (F_V4 .| F_ARGS);
  Def 0xF95A (Some "bb_is_ep4_boss_dying") None [ArgT REG] (F_V4);
  Def 0xF95B (Some "bb_send_6xD9") None [ArgT INT32; ArgT INT32; ArgT INT32; ArgT INT32; ArgT LABEL16; ArgT LABEL16] (F_V4 .| F_ARGS);
  Def 0xF95C (Some "bb_exchange_slt") (Some "BB_exchange_SLT") [ArgT INT32; ArgT INT32; ArgT INT32; ArgT INT32] (F_V4 .| F_ARGS);
  Def 0xF95D (Some "bb_exchange_pc") (Some "BB_exchange_PC") [] (F_V4);
  Def 0xF95E (Some "bb_box_create_bp") (Some "BB_box_create_BP") [ArgT INT32; ArgT FLOAT32; ArgT FLOAT32] (F_V4 .| F_ARGS);
  Def 0xF95F (Some "bb_exchange_pt") (Some "BB_exchage_PT") [ArgT INT32; ArgT INT32; ArgT INT32; ArgT INT32; ArgT INT32] (F_V4 .| F_ARGS);
  Def 0xF960 (Some "bb_send_6xE2") (Some "unknownF960") [ArgT INT32] (F_V4 .| F_ARGS);
  Def 0xF961 (Some "bb_get_6xE3_status") (Some "unknownF961") [ArgT REG] (F_V4)
].

(** ** [printf]-style formatting used by the C++ code *)

Definition hex_digit (d : Z) : ascii :=
  match d with
  | 0 => "0" | 1 => "1" | 2 => "2" | 3 => "3" | 4 => "4" | 5 => "5" | 6 => "6"
  | 7 => "7" | 8 => "8" | 9 => "9" | 10 => "A" | 11 => "B" | 12 => "C"
  | 13 => "D" | 14 => "E" | _ => "F"
  end%char.

Fixpoint digits_aux (base : Z) (fuel : nat) (v : Z) (acc : string) : string :=
  match fuel with
  | O => acc
  | S fuel' =>
      let acc' := String (hex_digit (v mod base)) acc in
      if v / base =? 0 then acc' else digits_aux base fuel' (v / base) acc'
  end.

Fixpoint replicate_string (n : nat) (c : ascii) : string :=
  match n with
  | O => EmptyString
  | S n' => String c (replicate_string n' c)
  end.

Definition pad_left (c : ascii) (width : nat) (s : string) : string :=
  replicate_string (width - String.length s) c +:+ s.

Definition pad_right (c : ascii) (width : nat) (s : string) : string :=
  s +:+ replicate_string (width - String.length s) c.

(** [%0<width>X] of an unsigned value (at most 64 bits). *)
Definition fmt_X (width : nat) (v : Z) : string :=
  pad_left "0" width (digits_aux 16 16 v EmptyString).

(** [%u] of an unsigned value (at most 64 bits). *)
Definition fmt_u (v : Z) : string := digits_aux 10 20 v EmptyString.

(** [%d] of a signed value. *)
Definition fmt_d (v : Z) : string :=
  if v <? 0 then "-" +:+ fmt_u (- v) else fmt_u v.

(** The double-quote character, as a one-character string. *)
Definition dquote : string := String (ascii_of_nat 34) EmptyString.

Definition byte_of_ascii (c : ascii) : Z := Z.of_N (N_of_ascii c).
Definition ascii_of_byte (b : Z) : ascii := ascii_of_N (Z.to_N (b mod 256)).
Definition bytes_of_string (s : string) : list Z := map byte_of_ascii (list_ascii_of_string s).
Definition string_of_bytes (l : list Z) : string := string_of_list_ascii (map ascii_of_byte l).

(** ** Episodes *)

Module Episode.
Inductive t : Type := NONE | EP1 | EP2 | EP3 | EP4.
#[global] Instance eq_dec : EqDecision t.
Proof. solve_decision. Defined.
End Episode.

(** ** The parts of the program that live outside [QuestScript.cc]

    Text conversion ([Text.hh]), the packed header structures
    ([QuestScript.hh]), the enum names ([Version.hh]) and the data-string
    helpers of the phosg library are used by the code below but are not part
    of it.  They are taken as an interface; the verified functions are
    generic in it. *)

Record PSOQuestHeaderDCNTE : Type := {
  dcnte_code_offset : Z;
  dcnte_function_table_offset : Z;
  dcnte_size : Z;
  dcnte_name : string;
}.

Record PSOQuestHeaderDC : Type := {
  dc_code_offset : Z;
  dc_function_table_offset : Z;
  dc_size : Z;
  dc_language : Z;
  dc_quest_number : Z;
  dc_name : string;
  dc_short_description : string;
  dc_long_description : string;
}.

Record PSOQuestHeaderPC : Type := {
  pc_code_offset : Z;
  pc_function_table_offset : Z;
  pc_size : Z;
  pc_language : Z;
  pc_quest_number : Z;
  pc_name : string;
  pc_short_description : string;
  pc_long_description : string;
}.

Record PSOQuestHeaderGC : Type := {
  gc_code_offset : Z;
  gc_function_table_offset : Z;
  gc_size : Z;
  gc_language : Z;
  gc_quest_number : Z;
  gc_episode : Z;
  gc_name : string;
  gc_short_description : string;
  gc_long_description : string;
}.

Record PSOQuestHeaderBB : Type := {
  bb_code_offset : Z;
  bb_function_table_offset : Z;
  bb_size : Z;
  bb_quest_number : Z;
  bb_episode : Z;
  bb_max_players : Z;
  bb_joinable : Z;
  bb_name : string;
  bb_short_description : string;
  bb_long_description : string;
}.

Inductive TextEncoding : Type :=
| UTF8 | UTF16 | UTF16_ALWAYS_MARKED | SJIS | ISO8859 | ASCII
| MARKED | CHALLENGE8 | CHALLENGE16.

Class External : Type := {
  (** [r.get<Header>()] on a reader positioned at offset 0: the decoded
      fields (names already passed through [pstring::decode] lazily, so
      the raw field bytes are kept), or [out_of_range] when the buffer is
      shorter than the structure. *)
  get_header_DCNTE : list Z -> result PSOQuestHeaderDCNTE;
  get_header_DC : list Z -> result PSOQuestHeaderDC;
  get_header_PC : list Z -> result PSOQuestHeaderPC;
  get_header_GC : list Z -> result PSOQuestHeaderGC;
  get_header_BB : list Z -> result PSOQuestHeaderBB;
  (** [field.decode(language)] of a header text field. *)
  pstring_decode : Version -> string -> Z -> result string;
  (** text conversions; each may throw [runtime_error] *)
  tt_utf16_to_utf8 : string -> result string;
  tt_sega_sjis_to_utf8 : string -> result string;
  tt_8859_to_utf8 : string -> result string;
  tt_ascii_to_utf8 : string -> result string;
  tt_utf8_to_sega_sjis : string -> result string;
  tt_utf8_to_8859 : string -> result string;
  tt_utf8_to_utf16 : string -> result string;
  (** [phosg::format_data_string] (default flags, and [HEX_ONLY]) *)
  format_data_string : string -> string;
  format_data_string_hex : string -> string;
  (** [phosg::parse_data_string] *)
  parse_data_string : string -> result string;
  (** [phosg::name_for_enum<Version>] and [phosg::enum_for_name<Version>] *)
  name_for_Version : Version -> string;
  Version_for_name : string -> result Version;
  (** [episode_for_token_name] *)
  episode_for_token_name : string -> result Episode.t;
  (** [sizeof] of the header structures, their serialisation ([w.put]),
      and [field.encode(text, language)] *)
  sizeof_header : Version -> Z;
  put_header_DCNTE : PSOQuestHeaderDCNTE -> list Z;
  put_header_DC : PSOQuestHeaderDC -> list Z;
  put_header_PC : PSOQuestHeaderPC -> list Z;
  put_header_GC : PSOQuestHeaderGC -> list Z;
  put_header_BB : PSOQuestHeaderBB -> list Z;
  pstring_encode : Version -> string -> Z -> result string;
  (** [phosg::load_file] of [.include_bin] and [.include_native];
      whether the program was built with [HAVE_RESOURCE_FILE], and then
      the native assemblers of [.include_native] *)
  load_file : string -> result string;
  have_resource_file : bool;
  assemble_native : Version -> string -> result string;
  (** [std::vector<le_uint32_t>::reserve(n)]: [length_error] when [n] is
      more than [max_size()], [bad_alloc] when the memory cannot be had *)
  vector_reserve : Z -> result unit;
  (** the typed dumps of a label in annotated mode (raw data, C string,
      the player and battle-parameter structures, image data, F8F2
      entries): label offset, type flags, the bytes from the label to the
      next one, language, [use_wstrs] *)
  annotated_data_lines : Z -> Z -> list Z -> Z -> bool -> result (list string);
  (** [printf("%g", float)] of the float with the given bit pattern, and
      [static_cast<uint32_t>(stof(text))] *)
  fmt_g : Z -> string;
  stof_u32 : string -> result Z;
}.

(** ** [phosg::StringReader]

    A reader is a byte buffer with a cursor.  The typed reads check
    [offset + size <= length] and throw [out_of_range] without moving the
    cursor when the check fails; [skip] and [go] move the cursor
    unconditionally; [sub] clamps to the buffer. *)

Record StringReader : Type := mkReader {
  sr_data : list Z;
  sr_offset : Z;
}.

Definition sr_size (r : StringReader) : Z := Z.of_nat (length (sr_data r)).
Definition sr_where (r : StringReader) : Z := sr_offset r.
Definition sr_eof (r : StringReader) : bool := sr_size r <=? sr_offset r.
Definition sr_remaining (r : StringReader) : Z := sr_size r - sr_offset r.
Definition sr_go (r : StringReader) (off : Z) : StringReader := mkReader (sr_data r) off.
Definition sr_skip (r : StringReader) (n : Z) : StringReader :=
  mkReader (sr_data r) (sr_offset r + n).

(** Every element of a byte buffer is read modulo 256. *)
Definition byte_at (data : list Z) (off : Z) : Z :=
  u8 (nth (Z.to_nat off) data 0).

Definition end_of_string : exception := out_of_range "end of string".

Definition in_range (data : list Z) (off size : Z) : bool :=
  (0 <=? off) && (off + size <=? Z.of_nat (length data)).

Definition pget_u8 (data : list Z) (off : Z) : result Z :=
  if in_range data off 1 then Ok (byte_at data off) else Throw end_of_string.

Definition pget_u16l (data : list Z) (off : Z) : result Z :=
  if in_range data off 2
  then Ok (byte_at data off .| Z.shiftl (byte_at data (off + 1)) 8)
  else Throw end_of_string.

Definition pget_u32l (data : list Z) (off : Z) : result Z :=
  if in_range data off 4
  then Ok (byte_at data off .| Z.shiftl (byte_at data (off + 1)) 8
           .| Z.shiftl (byte_at data (off + 2)) 16
           .| Z.shiftl (byte_at data (off + 3)) 24)
  else Throw end_of_string.

Definition sub_bytes (data : list Z) (off size : Z) : list Z :=
  firstn (Z.to_nat size) (skipn (Z.to_nat off) data).

(** [r.preadx(offset, size)]: the bytes, or [out_of_range] when they are
    not all inside the buffer. *)
Definition preadx (data : list Z) (off size : Z) : result (list Z) :=
  if in_range data off size then Ok (sub_bytes data off size)
  else Throw (out_of_range "not enough data to read").

(** [r.sub(offset)] and [r.sub(offset, size)] *)
Definition sr_sub (data : list Z) (off : Z) : StringReader :=
  if Z.of_nat (length data) <? off then mkReader [] 0
  else mkReader (skipn (Z.to_nat off) data) 0.

Definition sr_sub_size (data : list Z) (off size : Z) : StringReader :=
  if Z.of_nat (length data) <=? off then mkReader [] 0
  else mkReader (sub_bytes data off size) 0.

(** ** State with exceptions

    A computation may change the state and then throw; the state changes
    made before the throw stay (a reader that was advanced stays advanced).
    [M S A] is the type of such computations. *)

Definition M (S A : Type) : Type := S -> result A * S.

Definition ret {S A : Type} (a : A) : M S A := fun s => (Ok a, s).
Definition throw {S A : Type} (e : exception) : M S A := fun s => (Throw e, s).
Definition bind {S A B : Type} (m : M S A) (k : A -> M S B) : M S B :=
  fun s => match m s with
           | (Ok a, s') => k a s'
           | (Throw e, s') => (Throw e, s')
           end.
Definition lift {S A : Type} (r : result A) : M S A := fun s => (r, s).
Definition gets {S A : Type} (f : S -> A) : M S A := fun s => (Ok (f s), s).
Definition modify {S : Type} (f : S -> S) : M S unit := fun s => (Ok tt, f s).

Notation "x <- m ;; k" := (bind m (fun x => k))
  (at level 100, m at next level, right associativity).
Notation "m ;;; k" := (bind m (fun _ => k))
  (at level 100, right associativity).

(** States that contain a reader. *)
Class HasReader (S : Type) : Type := {
  reader : S -> StringReader;
  with_reader : StringReader -> S -> S;
  reader_with_reader : forall r s, reader (with_reader r s) = r;
}.

Section ReaderOps.
Context {S : Type} `{HasReader S}.

Definition where_ : M S Z := gets (fun s => sr_where (reader s)).
Definition eof : M S bool := gets (fun s => sr_eof (reader s)).
Definition skip (n : Z) : M S unit :=
  modify (fun s => with_reader (sr_skip (reader s) n) s).
Definition go (off : Z) : M S unit :=
  modify (fun s => with_reader (sr_go (reader s) off) s).

Definition get_with (pget : list Z -> Z -> result Z) (size : Z) : M S Z :=
  fun s =>
    let r := reader s in
    match pget (sr_data r) (sr_offset r) with
    | Ok v => (Ok v, with_reader (sr_skip r size) s)
    | Throw e => (Throw e, s)
    end.

Definition get_u8 : M S Z := get_with pget_u8 1.
Definition get_u16l : M S Z := get_with pget_u16l 2.
Definition get_u32l : M S Z := get_with pget_u32l 4.
End ReaderOps.

(** A [while] loop whose body may [break] (by returning [false]) or throw.
    [None] means that the fuel ran out before the loop ended. *)
Fixpoint while_ {S : Type} (fuel : nat) (cond : S -> bool) (body : M S bool)
    (s : S) : option (result unit * S) :=
  match fuel with
  | O => None
  | Datatypes.S fuel' =>
      if cond s then
        match body s with
        | (Ok true, s') => while_ fuel' cond body s'
        | (Ok false, s') => Some (Ok tt, s')
        | (Throw e, s') => Some (Throw e, s')
        end
      else Some (Ok tt, s)
  end.

(** [for (ch = get(); ch; ch = get()) { }] over the bytes from the cursor
    on: the characters before the terminator and the number of bytes
    consumed, or [out_of_range] when the buffer ends first (the cursor then
    stays where the failing read found it). *)
Fixpoint scan_cstr8 (rest : list Z) (acc : list Z) : result (list Z) * Z :=
  match rest with
  | [] => (Throw end_of_string, 0)
  | b :: rest' =>
      if u8 b =? 0 then (Ok (rev acc), 1)
      else let '(r, n) := scan_cstr8 rest' (u8 b :: acc) in (r, n + 1)
  end.

Fixpoint scan_cstr16 (fuel : nat) (rest : list Z) (acc : list Z) : result (list Z) * Z :=
  match fuel, rest with
  | Datatypes.S fuel', b0 :: b1 :: rest' =>
      if (u8 b0 .| Z.shiftl (u8 b1) 8) =? 0 then (Ok (rev acc), 2)
      else let '(r, n) := scan_cstr16 fuel' rest' (u8 b1 :: u8 b0 :: acc) in (r, n + 2)
  | _, _ => (Throw end_of_string, 0)
  end.

Section CStringOps.
Context {S : Type} `{HasReader S}.

Definition get_cstr_with (scan : list Z -> result (list Z) * Z) : M S (list Z) :=
  fun s =>
    let r := reader s in
    if sr_offset r <? 0 then (Throw end_of_string, s)
    else
      let '(res, n) := scan (skipn (Z.to_nat (sr_offset r)) (sr_data r)) in
      (res, with_reader (sr_skip r n) s).

(** [cmd_r.get_cstr()] and the loop over [get_u8] *)
Definition get_cstr8 : M S (list Z) := get_cstr_with (fun l => scan_cstr8 l []).
(** the loop over [get_u16l] *)
Definition get_cstr16 : M S (list Z) :=
  get_cstr_with (fun l => scan_cstr16 (length l) l []).
End CStringOps.

(** ** The per-build opcode index ([opcodes_for_version]) *)

Fixpoint index_opcodes (vf : Z) (defs : list QuestScriptOpcodeDefinition)
    (index : gmap Z QuestScriptOpcodeDefinition)
    : result (gmap Z QuestScriptOpcodeDefinition) :=
  match defs with
  | [] => Ok index
  | def :: rest =>
      if negb (has_flag (flags def) vf) then index_opcodes vf rest index
      else match index !! opcode def with
           | Some _ =>
               Throw (logic_error ("duplicate definition for opcode " +:+ fmt_X 4 (opcode def)))
           | None => index_opcodes vf rest (<[opcode def := def]> index)
           end
  end.

Definition opcodes_for_version (v : Version)
    : result (gmap Z QuestScriptOpcodeDefinition) :=
  if Version_index BB_V4 <? Version_index v then Throw (out_of_range "array::at")
  else index_opcodes (v_flag v) opcode_defs ∅.

(** ** Episode numbers *)

Definition episode_for_quest_episode_number (episode_number : Z) : result Episode.t :=
  match episode_number with
  | 0x00 | 0xFF => Ok Episode.EP1
  | 0x01 => Ok Episode.EP2
  | 0x02 => Ok Episode.EP4
  | _ => Throw (runtime_error ("invalid episode number " +:+ fmt_X 2 episode_number))
  end.

(** [unordered_set<Episode>::emplace] *)
Definition set_emplace {A : Type} `{EqDecision A} (x : A) (s : list A) : list A :=
  if bool_decide (x ∈ s) then s else s ++ [x].

(** ** The episode detector ([find_quest_episode_from_script]) *)

Record EpisodeWalk : Type := mkEpisodeWalk {
  ew_cmd_r : StringReader;
  found_episodes : list Episode.t;
}.

#[global] Instance EpisodeWalk_reader : HasReader EpisodeWalk := {
  reader := ew_cmd_r;
  with_reader r s := mkEpisodeWalk r (found_episodes s);
  reader_with_reader := fun _ _ => eq_refl;
}.

Definition found_emplace (e : Episode.t) : M EpisodeWalk unit :=
  modify (fun s => mkEpisodeWalk (ew_cmd_r s) (set_emplace e (found_episodes s))).

(** The [switch (arg.type)] of the detector.  [REG32] has no case and ends
    in [default]. *)
Definition episode_skip_arg (use_wstrs : bool) (def : QuestScriptOpcodeDefinition)
    (arg : Argument) : M EpisodeWalk unit :=
  match arg_type arg with
  | LABEL16 => skip 2
  | LABEL32 => skip 4
  | LABEL16_SET =>
      if has_flag (flags def) F_PASS
      then throw (logic_error "LABEL16_SET cannot be pushed to arg stack")
      else n <- get_u8 ;; skip (n * 2)
  | REG => skip 1
  | REG_SET =>
      if has_flag (flags def) F_PASS
      then throw (logic_error "REG_SET cannot be pushed to arg stack")
      else n <- get_u8 ;; skip n
  | REG_SET_FIXED =>
      if has_flag (flags def) F_PASS
      then throw (logic_error "REG_SET_FIXED cannot be pushed to arg stack")
      else skip 1
  | REG32_SET_FIXED =>
      if has_flag (flags def) F_PASS
      then throw (logic_error "REG32_SET_FIXED cannot be pushed to arg stack")
      else skip 4
  | INT8 => skip 1
  | INT16 => skip 2
  | INT32 =>
      if has_flag (flags def) F_SET_EPISODE
      then v <- get_u32l ;;
           e <- lift (episode_for_quest_episode_number (u8 v)) ;;
           found_emplace e
      else skip 4
  | FLOAT32 => skip 4
  | CSTRING =>
      if use_wstrs then (_ <- get_cstr16 ;; ret tt) else (_ <- get_cstr8 ;; ret tt)
  | REG32 => throw (logic_error "invalid argument type")
  end.

Fixpoint for_each {S A : Type} (f : A -> M S unit) (l : list A) : M S unit :=
  match l with
  | [] => ret tt
  | a :: l' => f a ;;; for_each f l'
  end.

(** [uint16_t opcode = cmd_r.get_u8(); if ((opcode & 0xFE) == 0xF8) ...] *)
Definition read_opcode {S : Type} `{HasReader S} : M S Z :=
  opcode <- get_u8 ;;
  if Z.land opcode 0xFE =? 0xF8
  then lo <- get_u8 ;; ret (u16 (Z.shiftl opcode 8) .| lo)
  else ret opcode.

(** One turn of the [while (!cmd_r.eof())] loop; [false] is the [break]. *)
Definition episode_step (opcodes : gmap Z QuestScriptOpcodeDefinition)
    (use_wstrs : bool) : M EpisodeWalk bool :=
  opcode <- read_opcode ;;
  match opcodes !! opcode with
  | None => throw (runtime_error ("unknown quest opcode " +:+ fmt_X 4 opcode))
  | Some def =>
      if has_flag (flags def) F_RET then ret false
      else
        (if negb (has_flag (flags def) F_ARGS)
         then for_each (episode_skip_arg use_wstrs def) (args def)
         else ret tt) ;;;
        ret true
  end.

(** The [try] block: what it left in [found_episodes], and whether it
    ended normally or in the [catch]. *)
Definition episode_walk (data : list Z) (version : Version) (use_wstrs : bool)
    (code_offset function_table_offset : Z)
    : option (result unit * list Episode.t) :=
  match (do opcodes <- opcodes_for_version version;
         do entry <- pget_u32l data function_table_offset;
         Ok (opcodes, sr_sub data (code_offset + entry))) with
  | Throw e => Some (Throw e, [])
  | Ok (opcodes, cmd_r) =>
      match while_ (Datatypes.S (length (sr_data cmd_r)))
                   (fun s => negb (sr_eof (reader s)))
                   (episode_step opcodes use_wstrs)
                   (mkEpisodeWalk cmd_r []) with
      | None => None
      | Some (r, s) => Some (r, found_episodes s)
      end
  end.

(** The statements after the [catch]. *)
Definition select_episode (found : list Episode.t) (header_episode : Episode.t)
    : result Episode.t :=
  match found with
  | [] => Ok header_episode
  | [e] => Ok e
  | _ => Throw (runtime_error "multiple episodes found")
  end.

Section EpisodeDetector.
Context `{External}.

Definition find_quest_episode_from_script (data : list Z) (version : Version)
    : option (result Episode.t) :=
  let after_header use_wstrs code_offset function_table_offset header_episode :=
    match episode_walk data version use_wstrs code_offset function_table_offset with
    | None => None
    | Some (_, found) => Some (select_episode found header_episode)
    end in
  match version with
  | DC_NTE | DC_V1_11_2000_PROTOTYPE | DC_V1 | DC_V2 | PC_NTE | PC_V2 =>
      Some (Ok Episode.EP1)
  | GC_NTE | GC_V3 | GC_EP3_NTE | GC_EP3 | XB_V3 =>
      match get_header_GC data with
      | Throw e => Some (Throw e)
      | Ok header =>
          match episode_for_quest_episode_number (gc_episode header) with
          | Throw e => Some (Throw e)
          | Ok header_episode =>
              after_header false (gc_code_offset header)
                (gc_function_table_offset header) header_episode
          end
      end
  | BB_V4 =>
      match get_header_BB data with
      | Throw e => Some (Throw e)
      | Ok header =>
          match episode_for_quest_episode_number (bb_episode header) with
          | Throw e => Some (Throw e)
          | Ok header_episode =>
              after_header true (bb_code_offset header)
                (bb_function_table_offset header) header_episode
          end
      end
  | _ => Some (Throw (logic_error "invalid quest version"))
  end.
End EpisodeDetector.

(** ** Ordered containers

    [std::map] and [std::set] keep their keys in ascending order and
    iterate in that order; [std::multimap] keeps equal keys in insertion
    order.  They are modelled as association lists sorted by key. *)

Section Ordered.
Context {K V : Type} (cmp : K -> K -> comparison).

Fixpoint omap_find (k : K) (m : list (K * V)) : option V :=
  match m with
  | [] => None
  | (k', v) :: m' =>
      match cmp k k' with
      | Eq => Some v
      | Lt => None
      | Gt => omap_find k m'
      end
  end.

(** [map::emplace]: the map afterwards and whether the pair was inserted. *)
Fixpoint omap_emplace (k : K) (v : V) (m : list (K * V)) : list (K * V) * bool :=
  match m with
  | [] => ([(k, v)], true)
  | (k', v') :: m' =>
      match cmp k k' with
      | Eq => (m, false)
      | Lt => ((k, v) :: m, true)
      | Gt => let '(m'', b) := omap_emplace k v m' in ((k', v') :: m'', b)
      end
  end.

(** [multimap::emplace]: after the last entry with an equal key. *)
Fixpoint mmap_emplace (k : K) (v : V) (m : list (K * V)) : list (K * V) :=
  match m with
  | [] => [(k, v)]
  | (k', v') :: m' =>
      match cmp k k' with
      | Lt => (k, v) :: m
      | _ => (k', v') :: mmap_emplace k v m'
      end
  end.
End Ordered.

Definition omap_count {K V : Type} (cmp : K -> K -> comparison) (k : K)
    (m : list (K * V)) : bool :=
  match omap_find cmp k m with Some _ => true | None => false end.

(** [set::emplace] *)
Fixpoint oset_emplace (k : Z) (s : list Z) : list Z :=
  match s with
  | [] => [k]
  | k' :: s' =>
      match k ?= k' with
      | Eq => s
      | Lt => k :: s
      | Gt => k' :: oset_emplace k s'
      end
  end.

(** ** The register allocator ([RegisterAssigner])

    [shared_ptr<Register>] values are indexes into a store of register
    objects, so that two pointers to the same object stay the same object
    when it is updated. *)

Definition RegId : Type := nat.

Record Register : Type := mkRegister {
  reg_name : string;
  reg_number : Z;
  reg_prev : option RegId;
  reg_next : option RegId;
  reg_offsets : list Z;
}.

Definition new_Register : Register := mkRegister EmptyString (-1) None None [].

Record RegisterAssigner : Type := mkRegisterAssigner {
  ra_store : list Register;
  named_regs : list (string * RegId);
  numbered_regs : list (option RegId);
}.

Definition new_RegisterAssigner : RegisterAssigner :=
  mkRegisterAssigner [] [] (replicate 0x100%nat None).

Definition reg_at (st : RegisterAssigner) (id : RegId) : Register :=
  default new_Register (ra_store st !! id).

Definition update_reg (id : RegId) (f : Register -> Register) : M RegisterAssigner unit :=
  modify (fun st => mkRegisterAssigner (alter f id (ra_store st)) (named_regs st) (numbered_regs st)).

Definition set_number (n : Z) (r : Register) : Register :=
  mkRegister (reg_name r) n (reg_prev r) (reg_next r) (reg_offsets r).
Definition set_name (n : string) (r : Register) : Register :=
  mkRegister n (reg_number r) (reg_prev r) (reg_next r) (reg_offsets r).
Definition set_prev (p : RegId) (r : Register) : Register :=
  mkRegister (reg_name r) (reg_number r) (Some p) (reg_next r) (reg_offsets r).
Definition set_next (p : RegId) (r : Register) : Register :=
  mkRegister (reg_name r) (reg_number r) (reg_prev r) (Some p) (reg_offsets r).
Definition add_offset (off : Z) (r : Register) : Register :=
  mkRegister (reg_name r) (reg_number r) (reg_prev r) (reg_next r)
    (if bool_decide (off ∈ reg_offsets r) then reg_offsets r else reg_offsets r ++ [off]).

(** [make_shared<Register>()] *)
Definition make_register : M RegisterAssigner RegId :=
  fun st => (Ok (length (ra_store st)),
             mkRegisterAssigner (ra_store st ++ [new_Register]) (named_regs st) (numbered_regs st)).

(** [this->numbered_regs.at(number)] *)
Definition numbered_at (number : Z) : M RegisterAssigner (option RegId) :=
  fun st =>
    match (if number <? 0 then None else numbered_regs st !! Z.to_nat number) with
    | Some slot => (Ok slot, st)
    | None => (Throw (out_of_range "array::at"), st)
    end.

(** [this->numbered_regs.at(number) = reg] *)
Definition numbered_set (number : Z) (id : RegId) : M RegisterAssigner unit :=
  modify (fun st => mkRegisterAssigner (ra_store st) (named_regs st)
                      (<[Z.to_nat number := Some id]> (numbered_regs st))).

Definition named_emplace (name : string) (id : RegId) : M RegisterAssigner bool :=
  fun st =>
    let '(m, inserted) := omap_emplace String.compare name id (named_regs st) in
    (Ok inserted, mkRegisterAssigner (ra_store st) m (numbered_regs st)).

Definition deref (id : RegId) : M RegisterAssigner Register :=
  gets (fun st => reg_at st id).

(** [Register::str()] prints the object's address; the address is left
    out of the modelled text. *)
Definition Register_str (r : Register) : string :=
  "Register(name=" +:+ dquote +:+ reg_name r +:+ dquote +:+ ", number="
    +:+ fmt_d (reg_number r) +:+ ")".

Definition is_empty (s : string) : bool :=
  match s with EmptyString => true | _ => false end.

Definition get_or_create (name : string) (number : Z) : M RegisterAssigner RegId :=
  if (number <? -1) || (0x100 <=? number)
  then throw (runtime_error "invalid register number")
  else
    by_name <- gets (fun st =>
                 if negb (is_empty name)
                 then omap_find String.compare name (named_regs st) else None) ;;
    found <- match by_name with
             | Some r => ret (Some r)
             | None => if 0 <=? number then numbered_at number else ret None
             end ;;
    reg <- match found with
           | Some r => ret r
           | None => make_register
           end ;;
    (if 0 <=? number then
       r <- deref reg ;;
       if reg_number r <? 0 then
         update_reg reg (set_number number) ;;;
         numbered_reg <- numbered_at number ;;
         match numbered_reg with
         | Some other =>
             r' <- deref reg ;;
             o <- deref other ;;
             throw (runtime_error (Register_str r' +:+ " cannot be assigned due to conflict with "
                                   +:+ Register_str o))
         | None => numbered_set number reg
         end
       else if negb (reg_number r =? number) then
         throw (runtime_error ("register " +:+ reg_name r +:+ " is assigned multiple numbers"))
       else ret tt
     else ret tt) ;;;
    (if negb (is_empty name) then
       r <- deref reg ;;
       if is_empty (reg_name r) then
         update_reg reg (set_name name) ;;;
         inserted <- named_emplace name reg ;;
         if inserted then ret tt
         else throw (runtime_error ("name " +:+ name
                                    +:+ " is already assigned to a different register"))
       else if negb (String.eqb (reg_name r) name) then
         throw (runtime_error ("register " +:+ fmt_d (reg_number r)
                               +:+ " is assigned multiple names"))
       else ret tt
     else ret tt) ;;;
    ret reg.

(** [assign_number(reg, number)]; [number] is a [uint8_t]. *)
Definition assign_number (reg : RegId) (number : Z) : M RegisterAssigner unit :=
  r <- deref reg ;;
  if reg_number r <? 0 then
    update_reg reg (set_number number) ;;;
    slot <- numbered_at number ;;
    match slot with
    | Some _ =>
        throw (logic_error ("register number " +:+ fmt_d number +:+ " assigned multiple times"))
    | None => numbered_set number reg
    end
  else if negb (reg_number r =? number) then
    throw (runtime_error ("assigning different register number " +:+ fmt_u number
                          +:+ " over existing register number " +:+ fmt_d (reg_number r)))
  else ret tt.

Definition constrain (first_reg second_reg : RegId) : M RegisterAssigner unit :=
  f <- deref first_reg ;;
  s <- deref second_reg ;;
  match reg_next f with
  | None => update_reg first_reg (set_next second_reg)
  | Some n =>
      if negb (n =? second_reg)%nat then
        throw (runtime_error ("register " +:+ reg_name s +:+ " must come after " +:+ reg_name f
                              +:+ ", but is already constrained to another register"))
      else ret tt
  end ;;;
  s <- deref second_reg ;;
  match reg_prev s with
  | None => update_reg second_reg (set_prev first_reg)
  | Some p =>
      if negb (p =? first_reg)%nat then
        throw (runtime_error ("register " +:+ reg_name f +:+ " must come before " +:+ reg_name s
                              +:+ ", but is already constrained to another register"))
      else ret tt
  end ;;;
  f <- deref first_reg ;;
  s <- deref second_reg ;;
  if (0 <=? reg_number f) && (0 <=? reg_number s)
     && negb (reg_number f =? Z.land (reg_number s - 1) 0xFF)
  then throw (runtime_error ("register " +:+ reg_name f +:+ " must come before " +:+ reg_name s
                             +:+ ", but both registers already have non-consecutive numbers"))
  else ret tt.

(** *** [find_register_number_space]

    [numbered_regs[candidate + z]] is an unchecked subscript of the
    256-element array.  The search is modelled up to the first subscript
    that is not below 256, which it reports. *)

Inductive window_result : Type :=
| WindowFree
| WindowOccupied
| WindowPastEnd (index : Z).

(** The inner [for (z = ...; z < num_regs; z++)], [remaining = num_regs - z]. *)
Fixpoint scan_window (numbered : list (option RegId)) (candidate : Z)
    (remaining : nat) (z : Z) : window_result :=
  match remaining with
  | O => WindowFree
  | S remaining' =>
      let index := candidate + z in
      if 0x100 <=? index then WindowPastEnd index
      else match numbered !! Z.to_nat index with
           | Some (Some _) => WindowOccupied
           | _ => scan_window numbered candidate remaining' (z + 1)
           end
  end.

Inductive search_result : Type :=
| SpaceFound (candidate : Z)
| SpaceExhausted
| ReadPastEnd (index : Z).

(** The outer [for (candidate = ...; candidate < 0x100; candidate++)],
    [remaining = 0x100 - candidate]. *)
Fixpoint find_space_from (numbered : list (option RegId)) (num_regs : nat)
    (remaining : nat) (candidate : Z) : search_result :=
  match remaining with
  | O => SpaceExhausted
  | S remaining' =>
      match scan_window numbered candidate num_regs 0 with
      | WindowFree => SpaceFound candidate
      | WindowOccupied => find_space_from numbered num_regs remaining' (candidate + 1)
      | WindowPastEnd index => ReadPastEnd index
      end
  end.

Definition find_register_number_space (st : RegisterAssigner) (num_regs : Z)
    : search_result :=
  find_space_from (numbered_regs st) (Z.to_nat num_regs) 0x100%nat 0.

(** *** [assign_all]

    Besides returning or throwing, [assign_all] can subscript past the
    array (above) and can walk a cycle of [next] or [prev] links for ever.
    A [run] is one of these outcomes; a fault is behaviour that the C++
    standard leaves undefined and that no handler catches. *)

Inductive fault : Type :=
| read_past_end (index : Z)
| division_by_zero
| signed_overflow.

Inductive run (A : Type) : Type :=
| Returns (a : A)
| Throws (e : exception)
| Faults (f : fault)
| Loops.
Arguments Returns {A} a.
Arguments Throws {A} e.
Arguments Faults {A} f.
Arguments Loops {A}.

Definition run_of {S : Type} (x : result unit * S) : run S :=
  match x with
  | (Ok _, s) => Returns s
  | (Throw e, _) => Throws e
  end.

Definition run_bind {A B : Type} (r : run A) (k : A -> run B) : run B :=
  match r with
  | Returns a => k a
  | Throws e => Throws e
  | Faults f => Faults f
  | Loops => Loops
  end.

(** [for (r = start; r; r = link(r), delta++) if (r->number >= 0) break;]
    The number found (if any) and the final [delta]; [None] when the walk
    has made more steps than there are registers, that is, when it is on a
    cycle of unnumbered registers and does not end. *)
Fixpoint walk_links (fuel : nat) (link : Register -> option RegId)
    (st : RegisterAssigner) (cur : option RegId) (delta : Z)
    : option (option Z * Z) :=
  match cur with
  | None => Some (None, delta)
  | Some id =>
      let r := reg_at st id in
      if 0 <=? reg_number r then Some (Some (reg_number r), delta)
      else match fuel with
           | O => None
           | S fuel' => walk_links fuel' link st (link r) (delta + 1)
           end
  end.

(** The body of [for (auto reg : unassigned)]. *)
Definition assign_one (reg : RegId) (st : RegisterAssigner) : run RegisterAssigner :=
  let r := reg_at st reg in
  let fuel := length (ra_store st) in
  if 0 <=? reg_number r then Returns st
  else
    match walk_links fuel reg_next st (reg_next r) 1 with
    | None => Loops
    | Some (Some n, next_delta) =>
        run_of (assign_number reg (Z.land (n - next_delta) 0xFF) st)
    | Some (None, next_delta) =>
        match walk_links fuel reg_prev st (reg_prev r) 1 with
        | None => Loops
        | Some (Some n, prev_delta) =>
            run_of (assign_number reg (Z.land (n + prev_delta) 0xFF) st)
        | Some (None, prev_delta) =>
            let num_regs := prev_delta + next_delta - 1 in
            match find_register_number_space st num_regs with
            | SpaceFound candidate =>
                run_of (assign_number reg (Z.land (candidate + (prev_delta - 1)) 0xFF) st)
            | SpaceExhausted => Throws (runtime_error "not enough space to assign registers")
            | ReadPastEnd index => Faults (read_past_end index)
            end
        end
    end.

Fixpoint assign_each (regs : list RegId) (st : RegisterAssigner) : run RegisterAssigner :=
  match regs with
  | [] => Returns st
  | reg :: regs' => run_bind (assign_one reg st) (assign_each regs')
  end.

(** The two checks at the end of [assign_all]. *)
Definition check_all_named (st : RegisterAssigner) : result unit :=
  match List.find (fun it => reg_number (reg_at st (snd it)) <? 0) (named_regs st) with
  | Some it =>
      Throw (logic_error ("register " +:+ reg_name (reg_at st (snd it)) +:+ " was not assigned"))
  | None => Ok tt
  end.

Definition check_numbered (st : RegisterAssigner) : result unit :=
  match List.find (fun '(z, slot) =>
                match slot with
                | Some reg => negb (reg_number (reg_at st reg) =? Z.of_nat z)
                | None => false
                end) (imap pair (numbered_regs st)) with
  | Some (z, slot) =>
      Throw (logic_error ("register " +:+ fmt_u (Z.of_nat z) +:+ " has incorrect number "
                          +:+ fmt_d (reg_number (reg_at st (default 0%nat slot)))))
  | None => Ok tt
  end.

Definition assign_all (st : RegisterAssigner) : run RegisterAssigner :=
  let unassigned :=
    map snd (List.filter (fun it => reg_number (reg_at st (snd it)) <? 0) (named_regs st)) in
  run_bind (assign_each unassigned st) (fun st' =>
    match check_all_named st' with
    | Throw e => Throws e
    | Ok _ =>
        match check_numbered st' with
        | Throw e => Throws e
        | Ok _ => Returns st'
        end
    end).

(** ** Small string helpers of the C++ standard library and of phosg *)

(** [std::string::resize(n, c)] *)
Fixpoint string_take (n : nat) (s : string) : string :=
  match n, s with
  | S n', String c s' => String c (string_take n' s')
  | _, _ => EmptyString
  end.

Definition string_resize (n : nat) (c : ascii) (s : string) : string :=
  if (String.length s <=? n)%nat then pad_right c n s else string_take n s.

Definition is_space (c : ascii) : bool :=
  let n := byte_of_ascii c in
  (n =? 32) || ((9 <=? n) && (n <=? 13)).

Fixpoint strip_leading_whitespace (s : string) : string :=
  match s with
  | String c s' => if is_space c then strip_leading_whitespace s' else s
  | EmptyString => EmptyString
  end.

Fixpoint strip_trailing_whitespace (s : string) : string :=
  match s with
  | EmptyString => EmptyString
  | String c s' =>
      match strip_trailing_whitespace s' with
      | EmptyString => if is_space c then EmptyString else String c EmptyString
      | rest => String c rest
      end
  end.

Fixpoint join (sep : string) (l : list string) : string :=
  match l with
  | [] => EmptyString
  | [s] => s
  | s :: l' => s +:+ sep +:+ join sep l'
  end.

Definition encoding_for_language (language : Z) : TextEncoding :=
  if negb (language =? 0) then ISO8859 else SJIS.

Section EscapeString.
Context `{External}.

Definition escape_char (ch : ascii) : string :=
  let n := byte_of_ascii ch in
  if n =? 10 then "\n"
  else if n =? 13 then "\r"
  else if n =? 9 then "\t"
  else if n <? 0x20 then "\x" +:+ fmt_X 2 n
  else if n =? 39 then "\'"
  else if n =? 34 then "\" +:+ dquote
  else String ch EmptyString.

Fixpoint escape_chars (s : string) : string :=
  match s with
  | EmptyString => EmptyString
  | String ch s' => escape_char ch +:+ escape_chars s'
  end.

(** A [runtime_error] of the conversion is caught; the encodings without
    a case of their own take the [default] branch. *)
Definition escape_string (data : string) (encoding : TextEncoding) : result string :=
  let quoted (decoded : result string) : result string :=
    match decoded with
    | Ok decoded => Ok (dquote +:+ escape_chars decoded +:+ dquote)
    | Throw (runtime_error _) => Ok (format_data_string data)
    | Throw e => Throw e
    end in
  match encoding with
  | UTF8 => quoted (Ok data)
  | UTF16 | UTF16_ALWAYS_MARKED => quoted (tt_utf16_to_utf8 data)
  | SJIS => quoted (tt_sega_sjis_to_utf8 data)
  | ISO8859 => quoted (tt_8859_to_utf8 data)
  | ASCII => quoted (tt_ascii_to_utf8 data)
  | MARKED | CHALLENGE8 | CHALLENGE16 => Ok (format_data_string data)
  end.
End EscapeString.

(** ** The disassembler ([disassemble_quest_script]) *)

Record Label : Type := mkLabel {
  l_name : string;
  l_offset : Z;
  l_function_id : Z;
  l_type_flags : Z;
  l_references : list Z;
}.

Definition add_data_type (t : DataType.t) (l : Label) : Label :=
  mkLabel (l_name l) (l_offset l) (l_function_id l)
    (l_type_flags l .| Z.shiftl 1 (DataType.index t)) (l_references l).

Definition has_data_type (t : DataType.t) (l : Label) : bool :=
  negb (Z.land (l_type_flags l) (Z.shiftl 1 (DataType.index t)) =? 0).

Definition add_reference (off : Z) (l : Label) : Label :=
  mkLabel (l_name l) (l_offset l) (l_function_id l) (l_type_flags l)
    (oset_emplace off (l_references l)).

Record DisassemblyLine : Type := mkDisassemblyLine {
  dl_line : string;
  dl_next_offset : Z;
}.

Module ArgStackValue.
Inductive Type_ : Type := REG | REG_PTR | LABEL | INT | CSTRING.
Record t : Type := mk {
  type : Type_;
  as_int : Z;
  as_string : string;
}.
Definition of_int (ty : Type_) (value : Z) : t := mk ty value EmptyString.
Definition of_string (value : string) : t := mk CSTRING 0 value.
End ArgStackValue.

(** What the decode loops read and change. [function_table] holds the
    label objects; every other reference to a label is its index here. *)
Record Dasm : Type := mkDasm {
  cmd_r : StringReader;
  function_table : list Label;
  dasm_lines : gmap Z DisassemblyLine;
  pending_dasm_start_offsets : list Z;
  arg_stack_values : list ArgStackValue.t;
}.

#[global] Instance Dasm_reader : HasReader Dasm := {
  reader := cmd_r;
  with_reader r s :=
    mkDasm r (function_table s) (dasm_lines s) (pending_dasm_start_offsets s)
      (arg_stack_values s);
  reader_with_reader := fun _ _ => eq_refl;
}.

Definition push_arg (v : ArgStackValue.t) : M Dasm unit :=
  modify (fun s => mkDasm (cmd_r s) (function_table s) (dasm_lines s)
                     (pending_dasm_start_offsets s) (arg_stack_values s ++ [v])).

Definition clear_args : M Dasm unit :=
  modify (fun s => mkDasm (cmd_r s) (function_table s) (dasm_lines s)
                     (pending_dasm_start_offsets s) []).

Definition update_label (id : Z) (f : Label -> Label) : M Dasm unit :=
  modify (fun s => mkDasm (cmd_r s) (alter f (Z.to_nat id) (function_table s))
                     (dasm_lines s) (pending_dasm_start_offsets s) (arg_stack_values s)).

Definition add_pending (off : Z) : M Dasm unit :=
  modify (fun s => mkDasm (cmd_r s) (function_table s) (dasm_lines s)
                     (oset_emplace off (pending_dasm_start_offsets s)) (arg_stack_values s)).

(** [function_table.at(label_id)], [None] when [label_id >= size()] *)
Definition label_at (label_id : Z) : M Dasm (option Label) :=
  gets (fun s => if label_id <? 0 then None else function_table s !! Z.to_nat label_id).

(** The parameters of a disassembly that the decode loops do not change. *)
Record DasmParams : Type := mkDasmParams {
  p_opcodes : gmap Z QuestScriptOpcodeDefinition;
  p_version_has_args : bool;
  p_use_wstrs : bool;
  p_language : Z;
  p_reassembly_mode : bool;
  p_use_qedit_names : bool;
}.

Section Disassembler.
Context `{External}.
Variable P : DasmParams.

(** The text of one label operand, with the bookkeeping on the label it
    names (shared by [LABEL16], [LABEL32] and each entry of a
    [LABEL16_SET]). *)
Definition dasm_label (opcode_start_offset : Z) (arg : Argument) (label_id : Z)
    : M Dasm string :=
  l <- label_at label_id ;;
  match l with
  | None => ret ("label" +:+ fmt_X 4 label_id)
  | Some l =>
      update_label label_id (add_reference opcode_start_offset) ;;;
      update_label label_id (add_data_type (arg_data_type arg)) ;;;
      (if bool_decide (arg_data_type arg = DataType.SCRIPT)
       then add_pending (l_offset l) else ret tt) ;;;
      ret (if p_reassembly_mode P
           then "label" +:+ fmt_X 4 label_id
           else "label" +:+ fmt_X 4 label_id +:+ " /* " +:+ fmt_X 4 (l_offset l) +:+ " */")
  end.

(** [for (z = 0; z < n; z++) { dasm_arg += (dasm_arg.empty() ? "[" : ", "); ... }] *)
Fixpoint dasm_set_items (n : nat) (item : M Dasm string) (dasm_arg : string)
    : M Dasm string :=
  match n with
  | O => ret dasm_arg
  | S n' =>
      text <- item ;;
      dasm_set_items n' item
        (dasm_arg +:+ (if is_empty dasm_arg then "[" else ", ") +:+ text)
  end.

Definition close_set (dasm_arg : string) : string :=
  if is_empty dasm_arg then "[]" else dasm_arg +:+ "]".

Definition when_pass (def : QuestScriptOpcodeDefinition) (m : M Dasm unit) : M Dasm unit :=
  if has_flag (flags def) F_PASS then m else ret tt.

(** The [switch (arg.type)] of the direct decoding. [REG32] has no case
    and ends in [default]. *)
Definition dasm_direct_arg (opcode_start_offset : Z)
    (def : QuestScriptOpcodeDefinition) (arg : Argument) : M Dasm string :=
  match arg_type arg with
  | LABEL16 | LABEL32 =>
      label_id <- (if bool_decide (arg_type arg = LABEL32) then get_u32l else get_u16l) ;;
      when_pass def (push_arg (ArgStackValue.of_int ArgStackValue.LABEL label_id)) ;;;
      dasm_label opcode_start_offset arg label_id
  | LABEL16_SET =>
      if has_flag (flags def) F_PASS
      then throw (logic_error "LABEL16_SET cannot be pushed to arg stack")
      else
        num_functions <- get_u8 ;;
        dasm_arg <- dasm_set_items (Z.to_nat num_functions)
                      (label_id <- get_u16l ;; dasm_label opcode_start_offset arg label_id)
                      EmptyString ;;
        ret (close_set dasm_arg)
  | REG =>
      reg <- get_u8 ;;
      when_pass def
        (push_arg (ArgStackValue.of_int
                     (if opcode def =? 0x004C then ArgStackValue.REG_PTR else ArgStackValue.REG)
                     reg)) ;;;
      ret ("r" +:+ fmt_u reg)
  | REG_SET =>
      if has_flag (flags def) F_PASS
      then throw (logic_error "REG_SET cannot be pushed to arg stack")
      else
        num_regs <- get_u8 ;;
        dasm_arg <- dasm_set_items (Z.to_nat num_regs)
                      (reg <- get_u8 ;; ret ("r" +:+ fmt_u reg)) EmptyString ;;
        ret (close_set dasm_arg)
  | REG_SET_FIXED =>
      if has_flag (flags def) F_PASS
      then throw (logic_error "REG_SET_FIXED cannot be pushed to arg stack")
      else
        first_reg <- get_u8 ;;
        ret ("r" +:+ fmt_u first_reg +:+ "-r"
             +:+ fmt_u (u8 (first_reg + Z.of_nat (arg_count arg) - 1)))
  | REG32_SET_FIXED =>
      if has_flag (flags def) F_PASS
      then throw (logic_error "REG32_SET_FIXED cannot be pushed to arg stack")
      else
        first_reg <- get_u32l ;;
        ret ("r" +:+ fmt_u first_reg +:+ "-r"
             +:+ fmt_u (u32 (first_reg + Z.of_nat (arg_count arg) - 1)))
  | INT8 =>
      v <- get_u8 ;;
      when_pass def (push_arg (ArgStackValue.of_int ArgStackValue.INT v)) ;;;
      ret ("0x" +:+ fmt_X 2 v)
  | INT16 =>
      v <- get_u16l ;;
      when_pass def (push_arg (ArgStackValue.of_int ArgStackValue.INT v)) ;;;
      ret ("0x" +:+ fmt_X 4 v)
  | INT32 =>
      v <- get_u32l ;;
      when_pass def (push_arg (ArgStackValue.of_int ArgStackValue.INT v)) ;;;
      ret ("0x" +:+ fmt_X 8 v)
  | FLOAT32 =>
      v <- get_u32l ;;
      when_pass def (push_arg (ArgStackValue.of_int ArgStackValue.INT v)) ;;;
      ret (fmt_g v)
  | CSTRING =>
      if p_use_wstrs P then
        w <- get_cstr16 ;;
        when_pass def
          (decoded <- lift (tt_utf16_to_utf8 (string_of_bytes w)) ;;
           push_arg (ArgStackValue.of_string decoded)) ;;;
        lift (escape_string (string_of_bytes w) UTF16)
      else
        s <- get_cstr8 ;;
        when_pass def
          (decoded <- lift (if negb (p_language P =? 0)
                            then tt_8859_to_utf8 (string_of_bytes s)
                            else tt_sega_sjis_to_utf8 (string_of_bytes s)) ;;
           push_arg (ArgStackValue.of_string decoded)) ;;;
        lift (escape_string (string_of_bytes s) (encoding_for_language (p_language P)))
  | REG32 => throw (logic_error "invalid argument type")
  end.

(** [for (const auto& arg : def->args)] with the [is_first_arg] flag. *)
Fixpoint dasm_direct_args (opcode_start_offset : Z) (def : QuestScriptOpcodeDefinition)
    (args : list Argument) (is_first_arg : bool) (dasm_line : string) : M Dasm string :=
  match args with
  | [] => ret dasm_line
  | arg :: args' =>
      dasm_arg <- dasm_direct_arg opcode_start_offset def arg ;;
      dasm_direct_args opcode_start_offset def args' false
        (dasm_line +:+ (if is_first_arg then EmptyString else ", ") +:+ dasm_arg)
  end.
End Disassembler.

Section DisassemblerLoop.
Context `{External}.
Variable P : DasmParams.

Definition invalid_type : string := "/* invalid-type */".

(** The rendering of one operand taken from the argument stack (the
    [switch (arg_def.type)] of the [F_ARGS] branch). *)
Definition dasm_stack_arg (opcode_start_offset : Z) (arg_def : Argument)
    (arg_value : ArgStackValue.t) : M Dasm string :=
  let as_int := ArgStackValue.as_int arg_value in
  let count := Z.of_nat (arg_count arg_def) in
  match arg_type arg_def with
  | LABEL16 | LABEL32 =>
      match ArgStackValue.type arg_value with
      | ArgStackValue.REG =>
          ret ("r" +:+ fmt_u as_int +:+ "/* warning: cannot determine label data type */")
      | ArgStackValue.LABEL | ArgStackValue.INT =>
          l <- label_at as_int ;;
          match l with
          | Some _ =>
              update_label as_int (add_data_type (arg_data_type arg_def)) ;;;
              update_label as_int (add_reference opcode_start_offset)
          | None => ret tt
          end ;;;
          ret ("label" +:+ fmt_X 4 as_int)
      | _ => ret invalid_type
      end
  | REG | REG32 =>
      match ArgStackValue.type arg_value with
      | ArgStackValue.REG => ret ("regs[r" +:+ fmt_u as_int +:+ "]")
      | ArgStackValue.INT => ret ("r" +:+ fmt_u as_int)
      | _ => ret invalid_type
      end
  | REG_SET_FIXED | REG32_SET_FIXED =>
      match ArgStackValue.type arg_value with
      | ArgStackValue.REG =>
          ret ("regs[r" +:+ fmt_u as_int +:+ "]-regs[r" +:+ fmt_u as_int +:+ "+"
               +:+ fmt_u (u8 (count - 1)) +:+ "]")
      | ArgStackValue.INT =>
          ret ("r" +:+ fmt_u as_int +:+ "-r" +:+ fmt_u (u8 (as_int + count - 1)))
      | _ => ret invalid_type
      end
  | INT8 | INT16 | INT32 =>
      match ArgStackValue.type arg_value with
      | ArgStackValue.REG => ret ("r" +:+ fmt_u as_int)
      | ArgStackValue.REG_PTR => ret ("&r" +:+ fmt_u as_int)
      | ArgStackValue.INT => ret ("0x" +:+ fmt_X 0 as_int +:+ " /* " +:+ fmt_u as_int +:+ " */")
      | _ => ret invalid_type
      end
  | FLOAT32 =>
      match ArgStackValue.type arg_value with
      | ArgStackValue.REG => ret ("f" +:+ fmt_u as_int)
      | ArgStackValue.INT => ret (fmt_g as_int)
      | _ => ret invalid_type
      end
  | CSTRING =>
      match ArgStackValue.type arg_value with
      | ArgStackValue.CSTRING => lift (escape_string (ArgStackValue.as_string arg_value) UTF8)
      | _ => ret invalid_type
      end
  | LABEL16_SET | REG_SET => throw (logic_error "set-type arg found on arg stack")
  end.

(** [for (z = 0; z < def->args.size(); z++)] over both vectors at once. *)
Fixpoint dasm_stack_args (opcode_start_offset : Z) (arg_defs : list Argument)
    (arg_values : list ArgStackValue.t) (is_first_arg : bool) (dasm_line : string)
    : M Dasm string :=
  match arg_defs, arg_values with
  | arg_def :: arg_defs', arg_value :: arg_values' =>
      dasm_arg <- dasm_stack_arg opcode_start_offset arg_def arg_value ;;
      dasm_stack_args opcode_start_offset arg_defs' arg_values' false
        (dasm_line +:+ (if is_first_arg then EmptyString else ", ") +:+ dasm_arg)
  | _, _ => ret dasm_line
  end.

(** The body of the [try] block: the text of the instruction at the
    cursor. *)
Definition dasm_instruction (opcode_start_offset : Z) : M Dasm string :=
  opcode <- read_opcode ;;
  match p_opcodes P !! opcode with
  | None => ret (".unknown " +:+ fmt_X 4 opcode)
  | Some def =>
      let op_name :=
        match (if p_use_qedit_names P then qedit_name def else None) with
        | Some q => Some q
        | None => name def
        end in
      let dasm_line :=
        match op_name with
        | Some n => n
        | None => "[" +:+ fmt_X 4 opcode +:+ "]"
        end in
      let dasm_line := string_resize 0x20 " " dasm_line in
      dasm_line <-
        (if negb (p_version_has_args P) || negb (has_flag (flags def) F_ARGS) then
           dasm_direct_args P opcode_start_offset def (args def) true dasm_line
         else if p_reassembly_mode P then ret (dasm_line +:+ "...")
         else
           let dasm_line := dasm_line +:+ "... " in
           arg_values <- gets arg_stack_values ;;
           if negb (length (args def) =? length arg_values)%nat then
             ret (dasm_line +:+ "/* matching error: expected "
                  +:+ fmt_u (Z.of_nat (length (args def))) +:+ " arguments, received "
                  +:+ fmt_u (Z.of_nat (length arg_values)) +:+ " arguments */")
           else dasm_stack_args opcode_start_offset (args def) arg_values true dasm_line) ;;
      (if negb (has_flag (flags def) F_PASS) then clear_args else ret tt) ;;;
      ret dasm_line
  end.

(** One turn of the inner [while]: decode at the cursor, turn an
    exception into a [.failed] line, and record the line.  The bytes of
    the instruction are read again with [preadx], outside the [try]. *)
Definition dasm_one (s : Dasm) : result Dasm :=
  let opcode_start_offset := sr_where (cmd_r s) in
  let '(res, s') := dasm_instruction opcode_start_offset s in
  let dasm_line :=
    match res with
    | Ok line => line
    | Throw e => ".failed (" +:+ what e +:+ ")"
    end in
  let dasm_line := strip_trailing_whitespace dasm_line in
  do line_text <-
    (if p_reassembly_mode P then Ok ("  " +:+ dasm_line)
     else
       do bytes <- preadx (sr_data (cmd_r s')) opcode_start_offset
                     (sr_where (cmd_r s') - opcode_start_offset);
       let hex_data := format_data_string_hex (string_of_bytes bytes) in
       let hex_data :=
         if (14 <? String.length hex_data)%nat
         then string_resize 12 " " hex_data +:+ "..." else hex_data in
       let hex_data := string_resize 16 " " hex_data in
       Ok ("  " +:+ fmt_X 4 opcode_start_offset +:+ "  " +:+ hex_data +:+ "  "
           +:+ dasm_line));
  Ok (mkDasm (cmd_r s') (function_table s')
        (<[opcode_start_offset := mkDisassemblyLine line_text (sr_where (cmd_r s'))]>
           (dasm_lines s'))
        (pending_dasm_start_offsets s') (arg_stack_values s')).

(** [!cmd_r.eof() && !dasm_lines.count(cmd_r.where())] *)
Definition chain_continues (s : Dasm) : bool :=
  negb (sr_eof (cmd_r s)) && negb (bool_decide (is_Some (dasm_lines s !! sr_where (cmd_r s)))).

(** The inner [while]; [None] only if the fuel runs out. *)
Fixpoint dasm_chain (fuel : nat) (s : Dasm) : option (result Dasm) :=
  match fuel with
  | O => None
  | S fuel' =>
      if chain_continues s then
        match dasm_one s with
        | Ok s' => dasm_chain fuel' s'
        | Throw e => Some (Throw e)
        end
      else Some (Ok s)
  end.

Definition chain_fuel (s : Dasm) : nat := S (length (sr_data (cmd_r s))).

(** The first three statements of the outer loop body. *)
Definition start_chain (off : Z) (rest : list Z) (s : Dasm) : Dasm :=
  mkDasm (sr_go (cmd_r s) off) (function_table s) (dasm_lines s) rest [].

(** The outer [while (!pending_dasm_start_offsets.empty())]. *)
Fixpoint dasm_walk (fuel : nat) (s : Dasm) : option (result Dasm) :=
  match fuel with
  | O => None
  | S fuel' =>
      match pending_dasm_start_offsets s with
      | [] => Some (Ok s)
      | off :: rest =>
          let s1 := start_chain off rest s in
          match dasm_chain (chain_fuel s1) s1 with
          | Some (Ok s2) => dasm_walk fuel' s2
          | other => other
          end
      end
  end.

Definition walk_fuel (s : Dasm) : nat :=
  S (S (length (sr_data (cmd_r s))) * S (length (function_table s))).
End DisassemblerLoop.

Definition newline : string := String (ascii_of_nat 10) EmptyString.

Definition name_for_header_episode_number (episode : Z) : string :=
  match episode with
  | 0 => "Episode1"
  | 1 => "Episode2"
  | 2 => "Episode4"
  | _ => "Episode1  # invalid value in header"
  end.

(** What the header [switch] of the disassembler leaves behind. *)
Record DasmHeader : Type := mkDasmHeader {
  h_use_wstrs : bool;
  h_code_offset : Z;
  h_function_table_offset : Z;
  h_language : Z;
  h_lines : list string;
}.

(** The function-table scan: one label per complete 32-bit entry. *)
Fixpoint read_function_table (bytes : list Z) (function_id : Z) : list Label :=
  match bytes with
  | b0 :: b1 :: b2 :: b3 :: rest =>
      let offset := u8 b0 .| Z.shiftl (u8 b1) 8 .| Z.shiftl (u8 b2) 16 .| Z.shiftl (u8 b3) 24 in
      let name := if function_id =? 0 then "start" else "label" +:+ fmt_X 4 function_id in
      let l := mkLabel name offset (u32 function_id) 0 [] in
      (if function_id =? 0 then add_data_type DataType.SCRIPT l else l)
        :: read_function_table rest (function_id + 1)
  | _ => []
  end.

Fixpoint index_labels (labels : list Label) (id : nat) (code_size : Z)
    (offset_to_label : list (Z * nat)) : list (Z * nat) :=
  match labels with
  | [] => offset_to_label
  | l :: labels' =>
      index_labels labels' (S id) code_size
        (if l_offset l <? code_size
         then mmap_emplace Z.compare (l_offset l) id offset_to_label
         else offset_to_label)
  end.

Definition initial_pending (labels : list Label) (code_size : Z) : list Z :=
  fold_left (fun pending l =>
               if l_offset l <? code_size then oset_emplace (l_offset l) pending else pending)
            labels [].

(** The state in which the walk starts: nothing is decoded, and the
    offsets of the labels that lie inside the code are pending. *)
Definition walk_start (cmd_r : StringReader) (labels : list Label) : Dasm :=
  mkDasm cmd_r labels ∅ (initial_pending labels (sr_size cmd_r)) [].

Section DisassemblerTop.
Context `{External}.

Definition disassemble_header (data : list Z) (version : Version)
    (override_language : Z) : result DasmHeader :=
  let version_line := ".version " +:+ name_for_Version version in
  let pick (limit header_language : Z) : Z :=
    if negb (override_language =? 0xFF) then override_language
    else if header_language <? limit then header_language
    else 1 in
  match version with
  | DC_NTE =>
      do header <- get_header_DCNTE data;
      let language := 0 in
      do name <- pstring_decode version (dcnte_name header) 0;
      do name <- escape_string name UTF8;
      Ok (mkDasmHeader false (dcnte_code_offset header)
            (dcnte_function_table_offset header) language
            [version_line; ".name " +:+ name])
  | DC_V1_11_2000_PROTOTYPE | DC_V1 | DC_V2 =>
      do header <- get_header_DC data;
      let language := pick 5 (dc_language header) in
      do name <- pstring_decode version (dc_name header) language;
      do name <- escape_string name UTF8;
      do short <- pstring_decode version (dc_short_description header) language;
      do short <- escape_string short UTF8;
      do long <- pstring_decode version (dc_long_description header) language;
      do long <- escape_string long UTF8;
      Ok (mkDasmHeader false (dc_code_offset header) (dc_function_table_offset header)
            language
            [version_line;
             ".quest_num " +:+ fmt_u (dc_quest_number header);
             ".language " +:+ fmt_u (dc_language header);
             ".name " +:+ name; ".short_desc " +:+ short; ".long_desc " +:+ long])
  | PC_NTE | PC_V2 =>
      do header <- get_header_PC data;
      let language := pick 8 (pc_language header) in
      do name <- pstring_decode version (pc_name header) language;
      do name <- escape_string name UTF8;
      do short <- pstring_decode version (pc_short_description header) language;
      do short <- escape_string short UTF8;
      do long <- pstring_decode version (pc_long_description header) language;
      do long <- escape_string long UTF8;
      Ok (mkDasmHeader true (pc_code_offset header) (pc_function_table_offset header)
            language
            [version_line;
             ".quest_num " +:+ fmt_u (pc_quest_number header);
             ".language " +:+ fmt_u (pc_language header);
             ".name " +:+ name; ".short_desc " +:+ short; ".long_desc " +:+ long])
  | GC_NTE | GC_V3 | GC_EP3_NTE | GC_EP3 | XB_V3 =>
      do header <- get_header_GC data;
      let language := pick 5 (gc_language header) in
      do name <- pstring_decode version (gc_name header) language;
      do name <- escape_string name UTF8;
      do short <- pstring_decode version (gc_short_description header) language;
      do short <- escape_string short UTF8;
      do long <- pstring_decode version (gc_long_description header) language;
      do long <- escape_string long UTF8;
      Ok (mkDasmHeader false (gc_code_offset header) (gc_function_table_offset header)
            language
            [version_line;
             ".quest_num " +:+ fmt_u (gc_quest_number header);
             ".language " +:+ fmt_u (gc_language header);
             ".episode " +:+ name_for_header_episode_number (gc_episode header);
             ".name " +:+ name; ".short_desc " +:+ short; ".long_desc " +:+ long])
  | BB_V4 =>
      do header <- get_header_BB data;
      let language := if negb (override_language =? 0xFF) then override_language else 1 in
      do name <- pstring_decode version (bb_name header) language;
      do name <- escape_string name UTF8;
      do short <- pstring_decode version (bb_short_description header) language;
      do short <- escape_string short UTF8;
      do long <- pstring_decode version (bb_long_description header) language;
      do long <- escape_string long UTF8;
      Ok (mkDasmHeader true (bb_code_offset header) (bb_function_table_offset header)
            language
            ([version_line;
              ".quest_num " +:+ fmt_u (bb_quest_number header);
              ".episode " +:+ name_for_header_episode_number (bb_episode header);
              ".max_players " +:+ fmt_u (if negb (bb_max_players header =? 0)
                                         then bb_max_players header else 4)]
             ++ (if negb (bb_joinable header =? 0) then [".joinable"] else [])
             ++ [".name " +:+ name; ".short_desc " +:+ short; ".long_desc " +:+ long]))
  | _ => Throw (logic_error "invalid quest version")
  end.

(** [add_disassembly_lines(start_offset, size)]: the lines from [z] up to
    [stop]. [None] only if the fuel runs out. *)
Fixpoint add_disassembly_lines (fuel : nat) (dasm_lines : gmap Z DisassemblyLine)
    (z stop : Z) (lines : list string) : option (result (list string)) :=
  if stop <=? z then Some (Ok lines)
  else
    match fuel with
    | O => None
    | S fuel' =>
        match dasm_lines !! z with
        | None => Some (Throw (out_of_range "map::at"))
        | Some l =>
            if dl_next_offset l <=? z
            then Some (Throw (logic_error "line points backward or to itself"))
            else add_disassembly_lines fuel' dasm_lines (dl_next_offset l) stop
                   (lines ++ [dl_line l])
        end
    end.

Definition references_lines (l : Label) : list string :=
  match l_references l with
  | [] => []
  | [ref] => ["  // Referenced by instruction at " +:+ fmt_X 4 ref]
  | refs => ["  // Referenced by instructions at " +:+ join ", " (map (fmt_X 4) refs)]
  end.

(** The loop over [offset_to_label] that prints every label and what it
    names. *)
Fixpoint render_labels (reassembly_mode use_wstrs : bool) (language : Z)
    (code : list Z) (dasm_lines : gmap Z DisassemblyLine) (function_table : list Label)
    (labels : list (Z * nat)) (lines : list string) : option (result (list string)) :=
  match labels with
  | [] => Some (Ok lines)
  | (_, id) :: labels' =>
      let l := default (mkLabel EmptyString 0 0 0 []) (function_table !! id) in
      let stop :=
        match labels' with
        | [] => Z.of_nat (length code)
        | (next_offset, _) :: _ => next_offset
        end in
      let size := stop - l_offset l in
      let lines := if 0 <? size then lines ++ [EmptyString] else lines in
      let lines :=
        if reassembly_mode
        then lines ++ [l_name l +:+ "@0x" +:+ fmt_X 4 (l_function_id l) +:+ ":"]
        else lines ++ [l_name l +:+ ":"] ++ references_lines l in
      let '(lines, l) :=
        if l_type_flags l =? 0
        then (lines ++ ["  // Could not determine data type; disassembling as code"],
              add_data_type DataType.SCRIPT l)
        else (lines, l) in
      let region := sub_bytes code (l_offset l) size in
      let script (lines : list string) :=
        if has_data_type DataType.SCRIPT l
        then add_disassembly_lines (Z.to_nat size) dasm_lines (l_offset l) stop lines
        else Some (Ok lines) in
      let rendered :=
        if reassembly_mode then
          if has_data_type DataType.SCRIPT l then script lines
          else Some (Ok (lines ++ [".data " +:+ format_data_string (string_of_bytes region)]))
        else
          match annotated_data_lines (l_offset l) (l_type_flags l) region language use_wstrs with
          | Throw e => Some (Throw e)
          | Ok data_lines => script (lines ++ data_lines)
          end in
      match rendered with
      | Some (Ok lines) =>
          render_labels reassembly_mode use_wstrs language code dasm_lines function_table
            labels' lines
      | other => other
      end
  end.

(** [None] only if one of the loops runs out of fuel. *)
Definition disassemble_quest_script (data : list Z) (version : Version)
    (override_language : Z) (reassembly_mode use_qedit_names : bool)
    : option (result string) :=
  match (do header <- disassemble_header data version override_language;
         do opcodes <- opcodes_for_version version;
         Ok (header, opcodes)) with
  | Throw e => Some (Throw e)
  | Ok (header, opcodes) =>
      let code_offset := h_code_offset header in
      let function_table_offset := h_function_table_offset header in
      let cmd_r := sr_sub_size data code_offset
                     ((function_table_offset - code_offset) mod 2 ^ 64) in
      let code := sr_data cmd_r in
      let code_size := sr_size cmd_r in
      let labels :=
        read_function_table (sr_data (sr_sub data function_table_offset)) 0 in
      let offset_to_label := index_labels labels 0 code_size [] in
      let P := mkDasmParams opcodes (has_flag F_HAS_ARGS (v_flag version))
                 (h_use_wstrs header) (h_language header) reassembly_mode use_qedit_names in
      let s0 := walk_start cmd_r labels in
      match dasm_walk P (walk_fuel s0) s0 with
      | None => None
      | Some (Throw e) => Some (Throw e)
      | Some (Ok s) =>
          match render_labels reassembly_mode (h_use_wstrs header) (h_language header)
                  code (dasm_lines s) (function_table s) offset_to_label (h_lines header) with
          | None => None
          | Some (Throw e) => Some (Throw e)
          | Some (Ok lines) => Some (Ok (join newline (lines ++ [EmptyString])))
          end
      end
  end.
End DisassemblerTop.

(** ** String functions of the C++ library and of phosg used by the
       assembler *)

Fixpoint string_drop (n : nat) (s : string) : string :=
  match n, s with
  | S n', String _ s' => string_drop n' s'
  | _, _ => s
  end.

(** [s.substr(pos)] and [s.substr(pos, len)] for [pos <= s.size()] *)
Definition substr_from (s : string) (pos : nat) : string := string_drop pos s.
Definition substr (s : string) (pos len : nat) : string :=
  string_take len (string_drop pos s).

Fixpoint starts_with (s prefix : string) : bool :=
  match prefix, s with
  | EmptyString, _ => true
  | String p prefix', String c s' => Ascii.eqb p c && starts_with s' prefix'
  | String _ _, EmptyString => false
  end.

Definition ends_with (s suffix : string) : bool :=
  (String.length suffix <=? String.length s)%nat
  && String.eqb (string_drop (String.length s - String.length suffix) s) suffix.

(** [s.find(needle, pos)]; [None] is [npos]. *)
Fixpoint find_from (fuel : nat) (s needle : string) (pos : nat) : option nat :=
  match fuel with
  | O => None
  | S fuel' =>
      if starts_with s needle then Some pos
      else match s with
           | EmptyString => None
           | String _ s' => find_from fuel' s' needle (S pos)
           end
  end.

Definition string_find (s needle : string) (pos : nat) : option nat :=
  if (String.length s <? pos)%nat then None
  else find_from (S (String.length s)) (string_drop pos s) needle pos.

(** [phosg::split(s, delim, max_splits)]; [max_splits = 0] is no limit. *)
Fixpoint split_aux (s : string) (delim : ascii) (limit : option nat) (cur : string)
    : list string :=
  match s with
  | EmptyString => [cur]
  | String c s' =>
      if Ascii.eqb c delim && negb (bool_decide (limit = Some 0%nat))
      then cur :: split_aux s' delim (pred <$> limit) EmptyString
      else split_aux s' delim limit (cur +:+ String c EmptyString)
  end.

Definition split (s : string) (delim : ascii) : list string :=
  split_aux s delim None EmptyString.

Definition split_max (s : string) (delim : ascii) (max_splits : nat) : list string :=
  split_aux s delim (Some max_splits) EmptyString.

(** [phosg::split_context(s, delim)]: a split that leaves alone the
    delimiters inside brackets and quotes. *)
Definition closer_of (c : ascii) : option ascii :=
  let n := byte_of_ascii c in
  if n =? 40 then Some ")"%char
  else if n =? 91 then Some "]"%char
  else if n =? 123 then Some "}"%char
  else if n =? 60 then Some ">"%char
  else if n =? 34 then Some c
  else if n =? 39 then Some c
  else None.

Definition is_quote (c : ascii) : bool :=
  let n := byte_of_ascii c in (n =? 34) || (n =? 39).

Fixpoint split_context_aux (s : string) (delim : ascii) (stack : list ascii)
    (escaped : bool) (cur : string) : result (list string) :=
  match s with
  | EmptyString =>
      match stack with
      | [] => Ok [cur]
      | _ => Throw (runtime_error "unbalanced parentheses in split")
      end
  | String c s' =>
      let cur' := cur +:+ String c EmptyString in
      if escaped then split_context_aux s' delim stack false cur'
      else
        match stack with
        | top :: stack' =>
            if Ascii.eqb c top then split_context_aux s' delim stack' false cur'
            else if is_quote top then
              split_context_aux s' delim stack (Ascii.eqb c "\"%char) cur'
            else
              match closer_of c with
              | Some close => split_context_aux s' delim (close :: stack) false cur'
              | None => split_context_aux s' delim stack false cur'
              end
        | [] =>
            if Ascii.eqb c delim then
              do rest <- split_context_aux s' delim [] false EmptyString;
              Ok (cur :: rest)
            else
              match closer_of c with
              | Some close => split_context_aux s' delim [close] false cur'
              | None => split_context_aux s' delim [] false cur'
              end
        end
  end.

Definition split_context (s : string) (delim : ascii) : result (list string) :=
  split_context_aux s delim [] false EmptyString.

(** *** [strtoul] and friends with base 0

    Leading white space, an optional sign, then [0x] and hexadecimal
    digits, or [0] and octal digits, or decimal digits.  The value and the
    number of characters consumed; [None] when there is no digit. *)

Definition digit_value (c : ascii) : option Z :=
  let n := byte_of_ascii c in
  if (48 <=? n) && (n <=? 57) then Some (n - 48)
  else if (97 <=? n) && (n <=? 102) then Some (n - 87)
  else if (65 <=? n) && (n <=? 70) then Some (n - 55)
  else None.

Fixpoint parse_digits (base : Z) (s : string) (acc : Z) (count : nat) : Z * nat :=
  match s with
  | String c s' =>
      match digit_value c with
      | Some d => if d <? base then parse_digits base s' (acc * base + d) (S count)
                  else (acc, count)
      | None => (acc, count)
      end
  | EmptyString => (acc, count)
  end.

Fixpoint count_leading_space (s : string) : nat :=
  match s with
  | String c s' => if is_space c then S (count_leading_space s') else O
  | EmptyString => O
  end.

Definition strto (s : string) : option (Z * nat) :=
  let ws := count_leading_space s in
  let s1 := string_drop ws s in
  let '(negative, sign_len) :=
    match s1 with
    | String c _ =>
        if Ascii.eqb c "-"%char then (true, 1%nat)
        else if Ascii.eqb c "+"%char then (false, 1%nat)
        else (false, 0%nat)
    | EmptyString => (false, 0%nat)
    end in
  let s2 := string_drop sign_len s1 in
  let hex_digits :=
    if starts_with s2 "0x" || starts_with s2 "0X"
    then parse_digits 16 (string_drop 2 s2) 0 0 else (0, 0%nat) in
  let '(value, len) :=
    if (0 <? snd hex_digits)%nat then (fst hex_digits, (2 + snd hex_digits)%nat)
    else if starts_with s2 "0" then parse_digits 8 s2 0 0
    else parse_digits 10 s2 0 0 in
  if (len =? 0)%nat then None
  else Some (if negative then - value else value, (ws + sign_len + len)%nat).

Definition s64 (v : Z) : Z := (v + 2 ^ 63) mod 2 ^ 64 - 2 ^ 63.
Definition s16 (v : Z) : Z := (v + 2 ^ 15) mod 2 ^ 16 - 2 ^ 15.
Definition u64 (v : Z) : Z := v mod 2 ^ 64.

(** [stoul(s, nullptr, 0)] and [stoull(s, nullptr, 0)]: the same
    conversion ([unsigned long] and [unsigned long long] both have 64
    bits); the exceptions carry the name of the function. *)
Definition stoul (s : string) : result Z :=
  match strto s with
  | None => Throw (invalid_argument "stoul")
  | Some (v, _) =>
      if 2 ^ 64 <=? Z.abs v then Throw (out_of_range "stoul") else Ok (u64 v)
  end.

Definition stoull (s : string) : result Z :=
  match strto s with
  | None => Throw (invalid_argument "stoull")
  | Some (v, _) =>
      if 2 ^ 64 <=? Z.abs v then Throw (out_of_range "stoull") else Ok (u64 v)
  end.

(** [stoll(s, &end, 0)], with the end offset, and [stol(s, nullptr, 0)]
    ([long] and [long long] both have 64 bits) *)
Definition stoll (s : string) : result (Z * nat) :=
  match strto s with
  | None => Throw (invalid_argument "stoll")
  | Some (v, len) =>
      if (v <? - 2 ^ 63) || (2 ^ 63 <=? v) then Throw (out_of_range "stoll") else Ok (v, len)
  end.

Definition stol (s : string) : result Z :=
  match strto s with
  | None => Throw (invalid_argument "stol")
  | Some (v, _) =>
      if (v <? - 2 ^ 63) || (2 ^ 63 <=? v) then Throw (out_of_range "stol") else Ok v
  end.

(** ** [phosg::StringWriter] on a byte list *)

Definition put_u8 (v : Z) (w : list Z) : list Z := w ++ [u8 v].
Definition put_u16l (v : Z) (w : list Z) : list Z := w ++ [u8 v; u8 (Z.shiftr v 8)].
Definition put_u16b (v : Z) (w : list Z) : list Z := w ++ [u8 (Z.shiftr v 8); u8 v].
Definition put_u32l (v : Z) (w : list Z) : list Z :=
  w ++ [u8 v; u8 (Z.shiftr v 8); u8 (Z.shiftr v 16); u8 (Z.shiftr v 24)].
(** [put_u16] and [put_u32] write in the byte order of the host, taken to
    be little-endian. *)
Definition put_u16 : Z -> list Z -> list Z := put_u16l.
Definition put_u32 : Z -> list Z -> list Z := put_u32l.
Definition pput_u8 (off : Z) (v : Z) (w : list Z) : list Z :=
  <[Z.to_nat off := u8 v]> w.

(** ** The assembler ([assemble_quest_script]) *)

(** *** Comments and white space *)

(** The [while (comment_start != npos)] loop of one line. [None] only when
    the fuel runs out (every turn shortens the line). *)
Fixpoint strip_block_comments (fuel : nat) (line : string) : option (result string) :=
  match string_find line "/*" 0 with
  | None => Some (Ok line)
  | Some comment_start =>
      match fuel with
      | O => None
      | S fuel' =>
          match string_find line "*/" (comment_start + 2) with
          | None => Some (Throw (runtime_error "unterminated inline comment"))
          | Some comment_end =>
              strip_block_comments fuel'
                (string_take comment_start line +:+ string_drop (comment_end + 2) line)
          end
      end
  end.

Definition strip_line (line : string) : option (result string) :=
  match strip_block_comments (String.length line) line with
  | Some (Ok line) =>
      let line :=
        match string_find line "//" 0 with
        | Some comment_start => string_take comment_start line
        | None => line
        end in
      Some (Ok (strip_leading_whitespace (strip_trailing_whitespace line)))
  | other => other
  end.

Fixpoint strip_lines (lines : list string) : option (result (list string)) :=
  match lines with
  | [] => Some (Ok [])
  | line :: lines' =>
      match strip_line line with
      | Some (Ok line) =>
          match strip_lines lines' with
          | Some (Ok rest) => Some (Ok (line :: rest))
          | other => other
          end
      | Some (Throw e) => Some (Throw e)
      | None => None
      end
  end.

(** *** Metadata directives *)

Record QuestMeta : Type := mkQuestMeta {
  quest_version : Version;
  quest_name : string;
  quest_short_desc : string;
  quest_long_desc : string;
  quest_num : Z;
  quest_language : Z;
  quest_episode : Episode.t;
  quest_max_players : Z;
  quest_joinable : bool;
}.

Definition initial_meta : QuestMeta :=
  mkQuestMeta UNKNOWN EmptyString EmptyString EmptyString (-1) 1 Episode.EP1 4 false.

Definition first_char_is (c : ascii) (s : string) : bool :=
  match s with
  | String c' _ => Ascii.eqb c c'
  | EmptyString => false
  end.

Section AssemblerMeta.
Context `{External}.

Definition meta_directive (m : QuestMeta) (line : string) : result QuestMeta :=
  if is_empty line then Ok m
  else if negb (first_char_is "." line) then Ok m
  else if starts_with line ".version " then
    do v <- Version_for_name (substr_from line 9);
    Ok (mkQuestMeta v (quest_name m) (quest_short_desc m) (quest_long_desc m)
          (quest_num m) (quest_language m) (quest_episode m) (quest_max_players m)
          (quest_joinable m))
  else if starts_with line ".name " then
    do s <- parse_data_string (substr_from line 6);
    Ok (mkQuestMeta (quest_version m) s (quest_short_desc m) (quest_long_desc m)
          (quest_num m) (quest_language m) (quest_episode m) (quest_max_players m)
          (quest_joinable m))
  else if starts_with line ".short_desc " then
    do s <- parse_data_string (substr_from line 12);
    Ok (mkQuestMeta (quest_version m) (quest_name m) s (quest_long_desc m)
          (quest_num m) (quest_language m) (quest_episode m) (quest_max_players m)
          (quest_joinable m))
  else if starts_with line ".long_desc " then
    do s <- parse_data_string (substr_from line 11);
    Ok (mkQuestMeta (quest_version m) (quest_name m) (quest_short_desc m) s
          (quest_num m) (quest_language m) (quest_episode m) (quest_max_players m)
          (quest_joinable m))
  else if starts_with line ".quest_num " then
    do n <- stoul (substr_from line 11);
    Ok (mkQuestMeta (quest_version m) (quest_name m) (quest_short_desc m) (quest_long_desc m)
          (s64 n) (quest_language m) (quest_episode m) (quest_max_players m)
          (quest_joinable m))
  else if starts_with line ".language " then
    do n <- stoul (substr_from line 10);
    Ok (mkQuestMeta (quest_version m) (quest_name m) (quest_short_desc m) (quest_long_desc m)
          (quest_num m) (u8 n) (quest_episode m) (quest_max_players m)
          (quest_joinable m))
  else if starts_with line ".episode " then
    do e <- episode_for_token_name (substr_from line 9);
    Ok (mkQuestMeta (quest_version m) (quest_name m) (quest_short_desc m) (quest_long_desc m)
          (quest_num m) (quest_language m) e (quest_max_players m)
          (quest_joinable m))
  else if starts_with line ".max_players " then
    do n <- stoul (substr_from line 12);
    Ok (mkQuestMeta (quest_version m) (quest_name m) (quest_short_desc m) (quest_long_desc m)
          (quest_num m) (quest_language m) (quest_episode m) (u8 n)
          (quest_joinable m))
  else if starts_with line ".joinable " then
    Ok (mkQuestMeta (quest_version m) (quest_name m) (quest_short_desc m) (quest_long_desc m)
          (quest_num m) (quest_language m) (quest_episode m) (quest_max_players m) true)
  else Ok m.

Fixpoint collect_meta (m : QuestMeta) (lines : list string) : result QuestMeta :=
  match lines with
  | [] => Ok m
  | line :: lines' => do m' <- meta_directive m line; collect_meta m' lines'
  end.

Definition check_meta (m : QuestMeta) : result unit :=
  match quest_version m with
  | PC_PATCH | BB_PATCH | UNKNOWN =>
      Throw (runtime_error ".version directive is missing or invalid")
  | _ =>
      if quest_num m <? 0 then Throw (runtime_error ".quest_num directive is missing or invalid")
      else if is_empty (quest_name m)
      then Throw (runtime_error ".name directive is missing or invalid")
      else Ok tt
  end.
End AssemblerMeta.

(** *** Labels

    The label objects are shared between [labels_by_name] and
    [labels_by_index]; both maps hold indexes into [asm_labels]. *)

Record AsmLabel : Type := mkAsmLabel {
  al_name : string;
  al_index : Z;
  al_offset : Z;
}.

Record LabelTable : Type := mkLabelTable {
  asm_labels : list AsmLabel;
  labels_by_name : list (string * nat);
  labels_by_index : list (Z * nat);
}.

Definition label_of (t : LabelTable) (id : nat) : AsmLabel :=
  default (mkAsmLabel EmptyString (-1) (-1)) (asm_labels t !! id).

Definition line_error (line_num : nat) (msg : string) : exception :=
  runtime_error ("(line " +:+ fmt_u (Z.of_nat line_num) +:+ ") " +:+ msg).

(** The body of the loop that finds the label names. *)
Definition collect_label (line_num : nat) (line : string) (t : LabelTable)
    : result LabelTable :=
  if negb (ends_with line ":") then Ok t
  else
    let name := substr line 0 (String.length line - 1) in
    do parsed <-
      match string_find name "@" 0 with
      | Some at_offset =>
          match stoul (substr_from name (at_offset + 1)) with
          | Ok index =>
              let name := string_take at_offset name in
              if String.eqb name "start" && negb (s64 index =? 0)
              then Throw (runtime_error "start label cannot have a nonzero label ID")
              else Ok (name, s64 index)
          | Throw e => Throw (line_error line_num ("invalid index in label (" +:+ what e +:+ ")"))
          end
      | None => Ok (name, if String.eqb name "start" then 0 else -1)
      end;
    let '(name, index) := parsed in
    let id := length (asm_labels t) in
    let '(by_name, inserted) := omap_emplace String.compare name id (labels_by_name t) in
    if negb inserted
    then Throw (line_error line_num ("duplicate label name: " +:+ name))
    else
      let labels := asm_labels t ++ [mkAsmLabel name index (-1)] in
      if 0 <=? index then
        let '(by_index, inserted) := omap_emplace Z.compare index id (labels_by_index t) in
        if negb inserted
        then
          let other :=
            label_of t (default 0%nat (omap_find Z.compare index (labels_by_index t))) in
          Throw (line_error line_num
                   ("duplicate label index: " +:+ fmt_d index +:+ " (0x" +:+ fmt_X 0 index
                    +:+ ") from " +:+ name +:+ " and " +:+ al_name other))
        else Ok (mkLabelTable labels by_name by_index)
      else Ok (mkLabelTable labels by_name (labels_by_index t)).

Fixpoint collect_labels (line_num : nat) (lines : list string) (t : LabelTable)
    : result LabelTable :=
  match lines with
  | [] => Ok t
  | line :: lines' =>
      do t' <- collect_label line_num line t;
      collect_labels (S line_num) lines' t'
  end.

(** [while (labels_by_index.count(next_index)) next_index++;] on the
    sorted map. *)
Fixpoint next_free_index (by_index : list (Z * nat)) (next_index : Z) : Z :=
  match by_index with
  | [] => next_index
  | (k, _) :: rest =>
      if k <? next_index then next_free_index rest next_index
      else if k =? next_index then next_free_index rest (next_index + 1)
      else next_index
  end.

Definition set_index (index : Z) (l : AsmLabel) : AsmLabel :=
  mkAsmLabel (al_name l) index (al_offset l).
Definition set_offset (offset : Z) (l : AsmLabel) : AsmLabel :=
  mkAsmLabel (al_name l) (al_index l) offset.

(** The loop that gives an index to every label without one, in the order
    of [labels_by_name]. *)
Fixpoint assign_indexes (names : list (string * nat)) (next_index : Z) (t : LabelTable)
    : LabelTable :=
  match names with
  | [] => t
  | (_, id) :: names' =>
      if 0 <=? al_index (label_of t id) then assign_indexes names' next_index t
      else
        let index := next_free_index (labels_by_index t) next_index in
        assign_indexes names' (index + 1)
          (mkLabelTable (alter (set_index index) id (asm_labels t)) (labels_by_name t)
             (fst (omap_emplace Z.compare index id (labels_by_index t))))
  end.

Definition find_labels (lines : list string) : result LabelTable :=
  do t <- collect_labels 1 lines (mkLabelTable [] [] []);
  if negb (omap_count String.compare "start" (labels_by_name t))
  then Throw (runtime_error "start label is not defined")
  else Ok (assign_indexes (labels_by_name t) 0 t).

(** *** The mnemonic index ([opcodes_by_name_for_version]) *)

Definition emplace_name (key : option string) (def : QuestScriptOpcodeDefinition)
    (index : gmap string QuestScriptOpcodeDefinition)
    : result (gmap string QuestScriptOpcodeDefinition) :=
  match key with
  | None => Ok index
  | Some n =>
      match index !! n with
      | Some _ =>
          Throw (logic_error ("duplicate definition for opcode " +:+ fmt_X 4 (opcode def)))
      | None => Ok (<[n := def]> index)
      end
  end.

Fixpoint index_opcodes_by_name (vf : Z) (defs : list QuestScriptOpcodeDefinition)
    (index : gmap string QuestScriptOpcodeDefinition)
    : result (gmap string QuestScriptOpcodeDefinition) :=
  match defs with
  | [] => Ok index
  | def :: rest =>
      if negb (has_flag (flags def) vf) then index_opcodes_by_name vf rest index
      else
        do index <- emplace_name (name def) def index;
        do index <- emplace_name (qedit_name def) def index;
        index_opcodes_by_name vf rest index
  end.

Definition opcodes_by_name_for_version (v : Version)
    : result (gmap string QuestScriptOpcodeDefinition) :=
  if Version_index BB_V4 <? Version_index v then Throw (out_of_range "array::at")
  else index_opcodes_by_name (v_flag v) opcode_defs ∅.

(** *** Code emission *)

Record Asm : Type := mkAsm {
  code_w : list Z;
  labels : LabelTable;
  reg_assigner : RegisterAssigner;
}.

Definition emit (f : list Z -> list Z) : M Asm unit :=
  modify (fun s => mkAsm (f (code_w s)) (labels s) (reg_assigner s)).

Definition code_size : M Asm Z := gets (fun s => Z.of_nat (length (code_w s))).

Definition with_regs {A : Type} (m : M RegisterAssigner A) : M Asm A :=
  fun s => let '(r, ra) := m (reg_assigner s) in (r, mkAsm (code_w s) (labels s) ra).

Definition find_label (name : string) : M Asm (option AsmLabel) :=
  gets (fun s => label_of (labels s) <$> omap_find String.compare name (labels_by_name (labels s))).

Definition char_at (s : string) (n : nat) : ascii :=
  default Ascii.zero (String.get n s).

Definition last_char (s : string) : ascii := char_at s (String.length s - 1).

Definition is_r_or_f (c : ascii) : bool := Ascii.eqb c "r" || Ascii.eqb c "f".

(** The lambda [parse_reg]. *)
Definition parse_reg (arg : string) (allow_unnumbered : bool) : M Asm RegId :=
  if (String.length arg <? 2)%nat then throw (runtime_error "register argument is too short")
  else if negb (is_r_or_f (char_at arg 0)) then throw (runtime_error "a register is required")
  else
    parsed <- lift
      (if Ascii.eqb (char_at arg 1) ":" then
         match split (substr_from arg 2) "@" with
         | [name] => Ok (name, -1)
         | [name; number] => do n <- stoull number; Ok (name, s64 n)
         | _ => Throw (runtime_error "invalid register specification")
         end
       else do n <- stoull (substr_from arg 1); Ok (EmptyString, s64 n)) ;;
    let '(name, number) := parsed in
    if negb allow_unnumbered && (number <? 0)
    then throw (runtime_error "a numbered register is required")
    else if 0xFF <? number then throw (runtime_error "invalid register number")
    else with_regs (get_or_create name (s16 number)).

Definition reg_number_of (reg : RegId) : M Asm Z :=
  gets (fun s => reg_number (reg_at (reg_assigner s) reg)).

(** [while (regs.size() < limit) { regs.emplace_back(get_or_create("", ...)); constrain(...); }] *)
Fixpoint extend_regs (n : nat) (regs : list RegId) : M Asm (list RegId) :=
  match n with
  | O => ret regs
  | S n' =>
      back <- reg_number_of (List.last regs 0%nat) ;;
      reg <- with_regs (get_or_create EmptyString (Z.land (back + 1) 0xFF)) ;;
      with_regs (constrain (List.last regs 0%nat) reg) ;;;
      extend_regs n' (regs ++ [reg])
  end.

Fixpoint parse_reg_tuple (tokens : list string) (regs : list RegId) : M Asm (list RegId) :=
  match tokens with
  | [] => ret regs
  | token :: tokens' =>
      reg <- parse_reg (strip_leading_whitespace (strip_trailing_whitespace token)) true ;;
      (match regs with
       | [] => ret tt
       | _ => with_regs (constrain (List.last regs 0%nat) reg)
       end) ;;;
      parse_reg_tuple tokens' (regs ++ [reg])
  end.

(** The lambda [parse_reg_set_fixed].  In the one-register form the
    source calls [parse_reg("", ...)] to make the following registers,
    which throws. *)
Definition parse_reg_set_fixed (name : string) (expected_count : nat)
    : M Asm (list RegId) :=
  if (expected_count =? 0)%nat
  then throw (logic_error "REG_SET_FIXED argument expects no registers")
  else if is_empty name
  then throw (runtime_error "no register specified for REG_SET_FIXED argument")
  else
    regs <-
      (if Ascii.eqb (char_at name 0) "(" && Ascii.eqb (last_char name) ")" then
         let tokens := split (substr name 1 (String.length name - 2)) "," in
         if negb (length tokens =? expected_count)%nat
         then throw (runtime_error "incorrect number of registers in REG_SET_FIXED")
         else parse_reg_tuple tokens []
       else
         match split name "-" with
         | [token] =>
             reg <- parse_reg token false ;;
             if (1 <? expected_count)%nat
             then throw (runtime_error "register argument is too short")
             else ret [reg]
         | [first; second] =>
             reg <- parse_reg first false ;;
             regs <- extend_regs (expected_count - 1 - 1) [reg] ;;
             back <- parse_reg second false ;;
             let regs := regs ++ [back] in
             back_number <- reg_number_of back ;;
             front_number <- reg_number_of reg ;;
             if negb (u64 (back_number - front_number + 1) =? Z.of_nat expected_count)
             then throw (runtime_error "incorrect number of registers used")
             else
               with_regs (constrain (List.last (removelast regs) 0%nat) back) ;;;
               ret regs
         | _ => throw (runtime_error "invalid fixed register set syntax")
         end) ;;
    if negb (length regs =? expected_count)%nat
    then throw (logic_error "incorrect register count in REG_SET_FIXED after parsing")
    else ret regs.

(** [reg->offsets.emplace(code_w.size())] *)
Definition note_offset (reg : RegId) : M Asm unit :=
  off <- code_size ;;
  with_regs (update_reg reg (add_offset off)).

Section AssemblerCode.
Context `{External}.
Variable meta : QuestMeta.
Variable opcodes : gmap string QuestScriptOpcodeDefinition.
Variable include_directory : string.

Definition version_has_args : bool := has_flag F_HAS_ARGS (v_flag (quest_version meta)).

Definition write (s : string) : M Asm unit := emit (fun w => w ++ bytes_of_string s).

(** The lambda [add_cstr]. *)
Definition add_cstr (text : string) (bin : bool) : M Asm unit :=
  match quest_version meta with
  | DC_NTE =>
      encoded <- lift (if bin then Ok text else tt_utf8_to_sega_sjis text) ;;
      write encoded ;;; emit (put_u8 0)
  | DC_V1_11_2000_PROTOTYPE | DC_V1 | DC_V2
  | GC_NTE | GC_V3 | GC_EP3_NTE | GC_EP3 | XB_V3 =>
      encoded <- lift (if bin then Ok text
                       else if negb (quest_language meta =? 0) then tt_utf8_to_8859 text
                       else tt_utf8_to_sega_sjis text) ;;
      write encoded ;;; emit (put_u8 0)
  | PC_NTE | PC_V2 | BB_V4 =>
      encoded <- lift (if bin then Ok text else tt_utf8_to_utf16 text) ;;
      write encoded ;;; emit (put_u16 0)
  | _ => throw (logic_error "invalid game version")
  end.

Definition add_cstr_arg (arg : string) : M Asm unit :=
  if starts_with arg "bin:" then
    text <- lift (parse_data_string (substr_from arg 4)) ;; add_cstr text true
  else
    text <- lift (parse_data_string arg) ;; add_cstr text false.

(** One operand in push-args mode. *)
Definition asm_push_arg (arg_def : Argument) (arg : string) : M Asm unit :=
  label <- find_label arg ;;
  if is_empty arg then throw (runtime_error "argument is empty")
  else
    match label with
    | Some l => emit (put_u8 0x4B) ;;; emit (put_u16l (al_index l))
    | None =>
        if is_r_or_f (char_at arg 0)
           || (Ascii.eqb (char_at arg 0) "(" && Ascii.eqb (last_char arg) ")") then
          match arg_type arg_def with
          | REG | REG32 =>
              emit (put_u8 0x4A) ;;;
              reg <- parse_reg arg true ;;
              note_offset reg ;;;
              number <- reg_number_of reg ;;
              emit (put_u8 number)
          | REG_SET_FIXED | REG32_SET_FIXED =>
              regs <- parse_reg_set_fixed arg (arg_count arg_def) ;;
              emit (put_u8 0x4A) ;;;
              note_offset (hd 0%nat regs) ;;;
              number <- reg_number_of (hd 0%nat regs) ;;
              emit (put_u8 number)
          | _ =>
              emit (put_u8 0x48) ;;;
              reg <- parse_reg arg true ;;
              note_offset reg ;;;
              number <- reg_number_of reg ;;
              emit (put_u8 number)
          end
        else if Ascii.eqb (char_at arg 0) "@" && is_r_or_f (char_at arg 1) then
          emit (put_u8 0x4C) ;;;
          reg <- parse_reg (substr_from arg 1) true ;;
          note_offset reg ;;;
          number <- reg_number_of reg ;;
          emit (put_u8 number)
        else
          at_label <- (if Ascii.eqb (char_at arg 0) "@"
                       then find_label (substr_from arg 1) else ret None) ;;
          match at_label with
          | Some l => emit (put_u8 0x4D) ;;; emit (put_u16 (al_index l))
          | None =>
              write_as_str <-
                match stoll arg with
                | Ok (v, end_offset) =>
                    let value := u64 v in
                    if negb (end_offset =? String.length arg)%nat then ret true
                    else if 0xFFFF <? value then
                      emit (put_u8 0x49) ;;; emit (put_u32l value) ;;; ret false
                    else if 0xFF <? value then
                      emit (put_u8 0x4B) ;;; emit (put_u16l value) ;;; ret false
                    else emit (put_u8 0x4A) ;;; emit (put_u8 value) ;;; ret false
                | Throw _ => ret true
                end ;;
              if write_as_str then
                if Ascii.eqb (char_at arg 0) (ascii_of_nat 34) then
                  emit (put_u8 0x4E) ;;; add_cstr_arg arg
                else throw (runtime_error "invalid argument syntax")
              else ret tt
          end
    end.

(** The lambdas [add_label], [add_reg] and [split_set]. *)
Definition add_label (name : string) (is32 : bool) : M Asm unit :=
  label <- find_label name ;;
  match label with
  | None => throw (runtime_error ("label not defined: " +:+ name))
  | Some l => if is32 then emit (put_u32 (al_index l)) else emit (put_u16 (al_index l))
  end.

Definition add_reg (reg : RegId) (is32 : bool) : M Asm unit :=
  note_offset reg ;;;
  number <- reg_number_of reg ;;
  if is32 then emit (put_u32l (Z.land number 0xFF)) else emit (put_u8 number).

Definition split_set (text : string) : result (list string) :=
  if negb (starts_with text "[") || negb (ends_with text "]")
  then Throw (runtime_error "incorrect syntax for set-valued argument")
  else
    let values := split (substr text 1 (String.length text - 2)) "," in
    if (0xFF <? length values)%nat
    then Throw (runtime_error "too many labels in set-valued argument")
    else Ok values.

Definition strip (s : string) : string :=
  strip_leading_whitespace (strip_trailing_whitespace s).

(** One operand in direct mode (the [switch (arg_def.type)]). *)
Definition asm_direct_arg (arg_def : Argument) (arg : string) : M Asm unit :=
  match arg_type arg_def with
  | LABEL16 | LABEL32 => add_label arg (bool_decide (arg_type arg_def = LABEL32))
  | LABEL16_SET =>
      label_names <- lift (split_set arg) ;;
      emit (put_u8 (Z.of_nat (length label_names))) ;;;
      for_each (fun name => add_label (strip name) false) label_names
  | REG | REG32 =>
      reg <- parse_reg arg true ;;
      add_reg reg (bool_decide (arg_type arg_def = REG32))
  | REG_SET_FIXED | REG32_SET_FIXED =>
      regs <- parse_reg_set_fixed arg (arg_count arg_def) ;;
      add_reg (hd 0%nat regs) (bool_decide (arg_type arg_def = REG32_SET_FIXED))
  | REG_SET =>
      regs <- lift (split_set arg) ;;
      emit (put_u8 (Z.of_nat (length regs))) ;;;
      for_each (fun reg_arg => reg <- parse_reg (strip reg_arg) true ;; add_reg reg false) regs
  | INT8 => v <- lift (stol arg) ;; emit (put_u8 v)
  | INT16 => v <- lift (stol arg) ;; emit (put_u16l v)
  | INT32 => v <- lift (stol arg) ;; emit (put_u32l v)
  | FLOAT32 => v <- lift (stof_u32 arg) ;; emit (put_u32l v)
  | CSTRING => add_cstr_arg arg
  end.

(** [catch (const exception& e) { throw runtime_error("(arg K) ...") }] *)
Definition in_arg {A : Type} (z : nat) (m : M Asm A) : M Asm A :=
  fun s =>
    match m s with
    | (Throw e, s') =>
        (Throw (runtime_error ("(arg " +:+ fmt_u (Z.of_nat (z + 1)) +:+ ") " +:+ what e)), s')
    | ok => ok
    end.

Fixpoint asm_args (use_args : bool) (z : nat) (arg_defs : list Argument)
    (arg_texts : list string) : M Asm unit :=
  match arg_defs, arg_texts with
  | arg_def :: arg_defs', arg :: arg_texts' =>
      in_arg z (let arg := strip arg in
                if use_args then asm_push_arg arg_def arg else asm_direct_arg arg_def arg) ;;;
      asm_args use_args (S z) arg_defs' arg_texts'
  | _, _ => ret tt
  end.

Definition emit_opcode (opcode_def : QuestScriptOpcodeDefinition) : M Asm unit :=
  if Z.land (opcode opcode_def) 0xFF00 =? 0x0000
  then emit (put_u8 (opcode opcode_def))
  else emit (put_u16b (opcode opcode_def)).

Definition name_of (opcode_def : QuestScriptOpcodeDefinition) : string :=
  default EmptyString (name opcode_def).

(** An instruction line. *)
Definition asm_instruction (line_num : nat) (line : string) : M Asm unit :=
  let line_tokens := split_max line " " 1 in
  match opcodes !! hd EmptyString line_tokens with
  | None => throw (out_of_range "unordered_map::at")
  | Some opcode_def =>
      let use_args := version_has_args && has_flag (flags opcode_def) F_ARGS in
      (if negb use_args then emit_opcode opcode_def else ret tt) ;;;
      match args opcode_def with
      | [] =>
          if (1 <? length line_tokens)%nat
          then throw (line_error line_num ("arguments not allowed for " +:+ name_of opcode_def))
          else ret tt
      | _ =>
          if (length line_tokens <? 2)%nat
          then throw (line_error line_num ("arguments required for " +:+ name_of opcode_def))
          else
            let text := strip (nth 1 line_tokens EmptyString) in
            (if starts_with text "..." then
               if negb use_args
               then throw (line_error line_num "'...' can only be used with F_ARGS opcodes")
               else ret tt
             else
               arg_texts <- lift (split_context text ",") ;;
               if negb (length arg_texts =? length (args opcode_def))%nat
               then throw (line_error line_num
                             ("incorrect argument count for " +:+ name_of opcode_def))
               else asm_args use_args 0 (args opcode_def) arg_texts) ;;;
            (if use_args then emit_opcode opcode_def else ret tt)
      end
  end.
End AssemblerCode.

(** *** The function table *)

(** The loop [for (z = 0; z < function_table_size; z++)] with the iterator
    [it] over [labels_by_index]; [remaining = function_table_size - z]. *)
Fixpoint function_table_from (t : LabelTable) (remaining : nat) (z : Z)
    (it : list (Z * nat)) : result (list Z) :=
  match remaining with
  | O => Ok []
  | S remaining' =>
      match it with
      | [] => Throw (logic_error "function table size exceeds maximum function ID")
      | (first, id) :: it' =>
          if z <? first then
            do rest <- function_table_from t remaining' (z + 1) it;
            Ok (0xFFFFFFFF :: rest)
          else if first =? z then
            let l := label_of t id in
            if al_offset l <? 0
            then Throw (runtime_error ("label " +:+ al_name l +:+ " does not have a valid offset"))
            else
              do rest <- function_table_from t remaining' (z + 1) it';
              Ok (u32 (al_offset l) :: rest)
          else
            Throw (logic_error ("missed label " +:+ al_name (label_of t id)
                                +:+ " when compiling function table"))
      end
  end.

(** [labels_by_index.rbegin()->first + 1] *)
Definition function_table_size (t : LabelTable) : Z :=
  fst (List.last (labels_by_index t) (-1, 0%nat)) + 1.

(** *** Register patching *)

Definition patch_register (st : RegisterAssigner) (code : list Z) (slot : option RegId)
    : list Z :=
  match slot with
  | None => code
  | Some reg =>
      fold_left (fun code offset => pput_u8 offset (reg_number (reg_at st reg)) code)
                (reg_offsets (reg_at st reg)) code
  end.

Definition patch_registers (st : RegisterAssigner) (code : list Z) : list Z :=
  fold_left (patch_register st) (numbered_regs st) code.

(** [while (code_w.size() & 3) code_w.put_u8(0);] *)
Definition pad4 (code : list Z) : list Z :=
  code ++ repeat 0 ((4 - length code mod 4) mod 4)%nat.

(** What the assembler has computed before it writes the header. *)
Record AssembledQuest : Type := mkAssembledQuest {
  aq_meta : QuestMeta;
  aq_labels : LabelTable;
  aq_code : list Z;
  aq_function_table : list Z;
}.

Section AssemblerTop.
Context `{External}.
Variable include_directory : string.

Definition in_line (line_num : nat) (x : result unit * Asm) : run Asm :=
  match x with
  | (Ok _, s) => Returns s
  | (Throw e, _) => Throws (line_error line_num (what e))
  end.

(** The body of the code-emission loop for one line. *)
Definition asm_line (meta : QuestMeta) (opcodes : gmap string QuestScriptOpcodeDefinition)
    (line_num : nat) (line : string) (s : Asm) : run Asm :=
  if is_empty line then Returns s
  else if ends_with line ":" then
    let label_name :=
      substr line 0 (match string_find line "@" 0 with
                     | None => String.length line - 1
                     | Some at_offset => at_offset
                     end) in
    match omap_find String.compare label_name (labels_by_name (labels s)) with
    | None => Throws (line_error line_num "map::at")
    | Some id =>
        let t := labels s in
        Returns (mkAsm (code_w s)
                   (mkLabelTable
                      (alter (set_offset (Z.of_nat (length (code_w s)))) id (asm_labels t))
                      (labels_by_name t) (labels_by_index t))
                   (reg_assigner s))
    end
  else if first_char_is "." line then
    if starts_with line ".data " then
      in_line line_num ((data <- lift (parse_data_string (substr_from line 6)) ;; write data) s)
    else if starts_with line ".zero " then
      in_line line_num
        ((size <- lift (stoull (substr_from line 6)) ;;
          emit (fun w => w ++ repeat 0 (Z.to_nat size))) s)
    else if starts_with line ".zero_until " then
      in_line line_num
        ((size <- lift (stoull (substr_from line 12)) ;;
          emit (fun w => w ++ repeat 0 (Z.to_nat size - length w))) s)
    else if starts_with line ".align " then
      match stoull (substr_from line 7) with
      | Throw e => Throws (line_error line_num (what e))
      | Ok alignment =>
          if alignment =? 0 then Faults division_by_zero
          else
            let size := Z.of_nat (length (code_w s)) in
            Returns (mkAsm (code_w s ++ repeat 0 (Z.to_nat ((alignment - size mod alignment)
                                                             mod alignment)))
                       (labels s) (reg_assigner s))
      end
    else if starts_with line ".include_bin " then
      in_line line_num
        ((data <- lift (load_file (include_directory +:+ "/" +:+ strip (substr_from line 13))) ;;
          write data) s)
    else if starts_with line ".include_native " then
      if have_resource_file then
        in_line line_num
          ((native_text <- lift (load_file (include_directory +:+ "/"
                                            +:+ strip (substr_from line 16))) ;;
            code <- lift (assemble_native (quest_version meta) native_text) ;;
            write code) s)
      else
        in_line line_num
          (throw (runtime_error
                    "native code cannot be compiled; rebuild newserv with libresource_file") s)
    else Returns s
  else in_line line_num (asm_instruction meta opcodes line_num line s).

Fixpoint asm_lines (meta : QuestMeta) (opcodes : gmap string QuestScriptOpcodeDefinition)
    (line_num : nat) (lines : list string) (s : Asm) : run Asm :=
  match lines with
  | [] => Returns s
  | line :: lines' =>
      run_bind (asm_line meta opcodes line_num line s)
               (asm_lines meta opcodes (S line_num) lines')
  end.

Definition run_of_result {A : Type} (r : result A) : run A :=
  match r with
  | Ok a => Returns a
  | Throw e => Throws e
  end.

(** The function table.  [function_table_size] is an [ssize_t]: the
    addition overflows when the highest index is the largest [ssize_t].
    [function_table.reserve] takes the size as a [size_t]. *)
Definition generate_function_table (t : LabelTable) : run (list Z) :=
  if fst (List.last (labels_by_index t) (-1, 0%nat)) =? 2 ^ 63 - 1
  then Faults signed_overflow
  else
    match vector_reserve (u64 (function_table_size t)) with
    | Throw e => Throws e
    | Ok _ =>
        run_of_result
          (function_table_from t (Z.to_nat (function_table_size t)) 0 (labels_by_index t))
    end.

(** Everything up to and including the function table. *)
Definition assemble_parts (text : string) : run AssembledQuest :=
  match strip_lines (split text (ascii_of_nat 10)) with
  | None => Loops
  | Some (Throw e) => Throws e
  | Some (Ok lines) =>
      run_bind (run_of_result
                  (do meta <- collect_meta initial_meta lines;
                   do _ <- check_meta meta;
                   do t <- find_labels lines;
                   do opcodes <- opcodes_by_name_for_version (quest_version meta);
                   Ok (meta, t, opcodes)))
        (fun '(meta, t, opcodes) =>
           run_bind (asm_lines meta opcodes 1 lines (mkAsm [] t new_RegisterAssigner))
             (fun s =>
                let code := pad4 (code_w s) in
                run_bind (assign_all (reg_assigner s))
                  (fun st =>
                     let code := patch_registers st code in
                     run_bind (generate_function_table (labels s))
                       (fun function_table =>
                          Returns (mkAssembledQuest meta (labels s) code function_table)))))
  end.

Definition u32_bytes (v : Z) : list Z := put_u32l v [].

(** The header [switch] of the assembler. *)
Definition make_header (q : AssembledQuest) : result (list Z) :=
  let meta := aq_meta q in
  let version := quest_version meta in
  let code_offset := sizeof_header version in
  let function_table_offset := sizeof_header version + Z.of_nat (length (aq_code q)) in
  let size := function_table_offset + Z.of_nat (length (aq_function_table q)) * 4 in
  let language := quest_language meta in
  match version with
  | DC_NTE =>
      do name <- pstring_encode version (quest_name meta) 0;
      Ok (put_header_DCNTE
            (Build_PSOQuestHeaderDCNTE (u32 code_offset) (u32 function_table_offset)
               (u32 size) name))
  | DC_V1_11_2000_PROTOTYPE | DC_V1 | DC_V2 =>
      do name <- pstring_encode version (quest_name meta) language;
      do short <- pstring_encode version (quest_short_desc meta) language;
      do long <- pstring_encode version (quest_long_desc meta) language;
      Ok (put_header_DC
            (Build_PSOQuestHeaderDC (u32 code_offset) (u32 function_table_offset) (u32 size)
               language (u16 (quest_num meta)) name short long))
  | PC_NTE | PC_V2 =>
      do name <- pstring_encode version (quest_name meta) language;
      do short <- pstring_encode version (quest_short_desc meta) language;
      do long <- pstring_encode version (quest_long_desc meta) language;
      Ok (put_header_PC
            (Build_PSOQuestHeaderPC (u32 code_offset) (u32 function_table_offset) (u32 size)
               language (u16 (quest_num meta)) name short long))
  | GC_NTE | GC_V3 | GC_EP3_NTE | GC_EP3 | XB_V3 =>
      do name <- pstring_encode version (quest_name meta) language;
      do short <- pstring_encode version (quest_short_desc meta) language;
      do long <- pstring_encode version (quest_long_desc meta) language;
      Ok (put_header_GC
            (Build_PSOQuestHeaderGC (u32 code_offset) (u32 function_table_offset) (u32 size)
               language (u8 (quest_num meta))
               (if bool_decide (quest_episode meta = Episode.EP2) then 1 else 0)
               name short long))
  | BB_V4 =>
      do name <- pstring_encode version (quest_name meta) language;
      do short <- pstring_encode version (quest_short_desc meta) language;
      do long <- pstring_encode version (quest_long_desc meta) language;
      Ok (put_header_BB
            (Build_PSOQuestHeaderBB (u32 code_offset) (u32 function_table_offset) (u32 size)
               (u16 (quest_num meta))
               (if bool_decide (quest_episode meta = Episode.EP4) then 2
                else if bool_decide (quest_episode meta = Episode.EP2) then 1 else 0)
               (quest_max_players meta) (if quest_joinable meta then 1 else 0)
               name short long))
  | _ => Throw (logic_error "invalid quest version")
  end.

Definition assemble_quest_script (text : string) : run (list Z) :=
  run_bind (assemble_parts text)
    (fun q =>
       run_bind (run_of_result (make_header q))
         (fun header =>
            Returns (header ++ aq_code q ++ flat_map u32_bytes (aq_function_table q)))).
End AssemblerTop.

(** ** An instance of the external interface

    To run the functions above on concrete quests the interface is
    instantiated with: the packed little-endian header layouts (the fields
    in the order in which the assembler fills them), text conversions that
    are the identity on 7-bit text and fail on anything else, and data
    strings that are either a quoted string or hexadecimal digits, a
    program built without [HAVE_RESOURCE_FILE], and a vector of 32-bit
    values that can hold 2^61 - 1 of them (the largest [ptrdiff_t] divided
    by 4) and never lacks memory.  A float is printed as the hexadecimal
    text of its bits.  The general theorems below do not depend on this
    instance. *)

Module Sample.

Definition is_7bit (s : string) : bool :=
  forallb (fun b => b <? 0x80) (bytes_of_string s).

Definition convert_7bit (s : string) : result string :=
  if is_7bit s then Ok s else Throw (runtime_error "untranslatable character").

Fixpoint widen (s : string) : string :=
  match s with
  | EmptyString => EmptyString
  | String c s' => String c (String Ascii.zero (widen s'))
  end.

Fixpoint narrow (s : string) : result string :=
  match s with
  | EmptyString => Ok EmptyString
  | String c (String hi s') =>
      if (byte_of_ascii hi =? 0) && (byte_of_ascii c <? 0x80)
      then do rest <- narrow s'; Ok (String c rest)
      else Throw (runtime_error "untranslatable character")
  | String _ EmptyString => Throw (runtime_error "odd number of bytes")
  end.

Definition utf8_to_utf16 (s : string) : result string :=
  if is_7bit s then Ok (widen s) else Throw (runtime_error "untranslatable character").

Definition is_wide (v : Version) : bool :=
  match v with
  | PC_NTE | PC_V2 | BB_V4 => true
  | _ => false
  end.

(** Text fields: the bytes up to the first NUL character. *)
Fixpoint until_nul (s : string) : string :=
  match s with
  | EmptyString => EmptyString
  | String c s' => if byte_of_ascii c =? 0 then EmptyString else String c (until_nul s')
  end.

Fixpoint until_nul16 (s : string) : string :=
  match s with
  | String c (String hi s') =>
      if (byte_of_ascii c =? 0) && (byte_of_ascii hi =? 0) then EmptyString
      else String c (String hi (until_nul16 s'))
  | _ => EmptyString
  end.

Definition decode (v : Version) (field : string) (language : Z) : result string :=
  if is_wide v then narrow (until_nul16 field) else convert_7bit (until_nul field).

Definition encode (v : Version) (text : string) (language : Z) : result string :=
  if is_wide v then utf8_to_utf16 text else convert_7bit text.

Definition field (data : list Z) (off size : Z) : string :=
  string_of_bytes (sub_bytes data off size).

Definition put_field (size : nat) (s : string) : list Z :=
  bytes_of_string (string_resize size Ascii.zero s).

Definition sizeof (v : Version) : Z :=
  match v with
  | DC_NTE => 0x20
  | DC_V1_11_2000_PROTOTYPE | DC_V1 | DC_V2 => 0x1D4
  | PC_NTE | PC_V2 => 0x394
  | GC_NTE | GC_V3 | GC_EP3_NTE | GC_EP3 | XB_V3 => 0x1D4
  | BB_V4 => 0x398
  | _ => 0
  end.

Definition need (data : list Z) (size : Z) : result unit :=
  if in_range data 0 size then Ok tt else Throw end_of_string.

Definition u32_at (data : list Z) (off : Z) : Z :=
  byte_at data off .| Z.shiftl (byte_at data (off + 1)) 8
  .| Z.shiftl (byte_at data (off + 2)) 16 .| Z.shiftl (byte_at data (off + 3)) 24.

Definition u16_at (data : list Z) (off : Z) : Z :=
  byte_at data off .| Z.shiftl (byte_at data (off + 1)) 8.

Definition get_DCNTE (data : list Z) : result PSOQuestHeaderDCNTE :=
  do _ <- need data (sizeof DC_NTE);
  Ok (Build_PSOQuestHeaderDCNTE (u32_at data 0) (u32_at data 4) (u32_at data 8)
        (field data 0x10 0x10)).

Definition get_DC (data : list Z) : result PSOQuestHeaderDC :=
  do _ <- need data (sizeof DC_V2);
  Ok (Build_PSOQuestHeaderDC (u32_at data 0) (u32_at data 4) (u32_at data 8)
        (byte_at data 0x10) (u16_at data 0x12)
        (field data 0x14 0x20) (field data 0x34 0x80) (field data 0xB4 0x120)).

Definition get_PC (data : list Z) : result PSOQuestHeaderPC :=
  do _ <- need data (sizeof PC_V2);
  Ok (Build_PSOQuestHeaderPC (u32_at data 0) (u32_at data 4) (u32_at data 8)
        (byte_at data 0x10) (u16_at data 0x12)
        (field data 0x14 0x40) (field data 0x54 0x100) (field data 0x154 0x240)).

Definition get_GC (data : list Z) : result PSOQuestHeaderGC :=
  do _ <- need data (sizeof GC_V3);
  Ok (Build_PSOQuestHeaderGC (u32_at data 0) (u32_at data 4) (u32_at data 8)
        (byte_at data 0x10) (byte_at data 0x12) (byte_at data 0x13)
        (field data 0x14 0x20) (field data 0x34 0x80) (field data 0xB4 0x120)).

Definition get_BB (data : list Z) : result PSOQuestHeaderBB :=
  do _ <- need data (sizeof BB_V4);
  Ok (Build_PSOQuestHeaderBB (u32_at data 0) (u32_at data 4) (u32_at data 8)
        (u16_at data 0x10) (byte_at data 0x14) (byte_at data 0x15) (byte_at data 0x16)
        (field data 0x18 0x40) (field data 0x58 0x100) (field data 0x158 0x240)).

Definition le32 (v : Z) : list Z := put_u32l v [].
Definition le16 (v : Z) : list Z := put_u16l v [].

Definition put_DCNTE (h : PSOQuestHeaderDCNTE) : list Z :=
  le32 (dcnte_code_offset h) ++ le32 (dcnte_function_table_offset h) ++ le32 (dcnte_size h)
  ++ le32 0 ++ put_field 0x10 (dcnte_name h).

Definition put_DC (h : PSOQuestHeaderDC) : list Z :=
  le32 (dc_code_offset h) ++ le32 (dc_function_table_offset h) ++ le32 (dc_size h)
  ++ le32 0 ++ [u8 (dc_language h); 0] ++ le16 (dc_quest_number h)
  ++ put_field 0x20 (dc_name h) ++ put_field 0x80 (dc_short_description h)
  ++ put_field 0x120 (dc_long_description h).

Definition put_PC (h : PSOQuestHeaderPC) : list Z :=
  le32 (pc_code_offset h) ++ le32 (pc_function_table_offset h) ++ le32 (pc_size h)
  ++ le32 0 ++ [u8 (pc_language h); 0] ++ le16 (pc_quest_number h)
  ++ put_field 0x40 (pc_name h) ++ put_field 0x100 (pc_short_description h)
  ++ put_field 0x240 (pc_long_description h).

Definition put_GC (h : PSOQuestHeaderGC) : list Z :=
  le32 (gc_code_offset h) ++ le32 (gc_function_table_offset h) ++ le32 (gc_size h)
  ++ le32 0 ++ [u8 (gc_language h); 0; u8 (gc_quest_number h); u8 (gc_episode h)]
  ++ put_field 0x20 (gc_name h) ++ put_field 0x80 (gc_short_description h)
  ++ put_field 0x120 (gc_long_description h).

Definition put_BB (h : PSOQuestHeaderBB) : list Z :=
  le32 (bb_code_offset h) ++ le32 (bb_function_table_offset h) ++ le32 (bb_size h)
  ++ le32 0 ++ le16 (bb_quest_number h) ++ le16 0
  ++ [u8 (bb_episode h); u8 (bb_max_players h); u8 (bb_joinable h); 0]
  ++ put_field 0x40 (bb_name h) ++ put_field 0x100 (bb_short_description h)
  ++ put_field 0x240 (bb_long_description h).

Fixpoint hex_of_bytes (l : list Z) : string :=
  match l with
  | [] => EmptyString
  | b :: l' => fmt_X 2 b +:+ hex_of_bytes l'
  end.

Definition format_data (s : string) : string := hex_of_bytes (bytes_of_string s).

(** Data strings: a quoted string with backslash escapes, or hexadecimal
    digits with optional spaces. *)
Fixpoint parse_quoted (s : string) : result string :=
  match s with
  | EmptyString => Throw (runtime_error "unterminated string")
  | String c s' =>
      if byte_of_ascii c =? 34 then Ok EmptyString
      else if byte_of_ascii c =? 92 then
        match s' with
        | String e s'' =>
            let n := byte_of_ascii e in
            if n =? 120 then
              match s'' with
              | String h (String l s3) =>
                  match digit_value h, digit_value l with
                  | Some hv, Some lv =>
                      do rest <- parse_quoted s3;
                      Ok (String (ascii_of_byte (hv * 16 + lv)) rest)
                  | _, _ => Throw (runtime_error "incomplete escape sequence")
                  end
              | _ => Throw (runtime_error "incomplete escape sequence")
              end
            else
              do rest <- parse_quoted s'';
              Ok (String (if n =? 110 then ascii_of_nat 10
                          else if n =? 114 then ascii_of_nat 13
                          else if n =? 116 then ascii_of_nat 9
                          else e) rest)
        | EmptyString => Throw (runtime_error "incomplete escape sequence")
        end
      else do rest <- parse_quoted s'; Ok (String c rest)
  end.

Fixpoint parse_hex (s : string) (high : option Z) : result string :=
  match s with
  | EmptyString =>
      match high with
      | None => Ok EmptyString
      | Some _ => Throw (runtime_error "odd number of hexadecimal digits")
      end
  | String c s' =>
      if is_space c then parse_hex s' high
      else
        match digit_value c, high with
        | Some v, None => parse_hex s' (Some v)
        | Some v, Some h =>
            do rest <- parse_hex s' None; Ok (String (ascii_of_byte (h * 16 + v)) rest)
        | None, _ => Throw (runtime_error "invalid character in data string")
        end
  end.

Definition parse_data (s : string) : result string :=
  match s with
  | String c s' => if byte_of_ascii c =? 34 then parse_quoted s' else parse_hex s None
  | EmptyString => Ok EmptyString
  end.

Definition version_names : list (Version * string) := [
  (PC_PATCH, "PC_PATCH"); (BB_PATCH, "BB_PATCH"); (DC_NTE, "DC_NTE");
  (DC_V1_11_2000_PROTOTYPE, "DC_V1_11_2000_PROTOTYPE"); (DC_V1, "DC_V1"); (DC_V2, "DC_V2");
  (PC_NTE, "PC_NTE"); (PC_V2, "PC_V2"); (GC_NTE, "GC_NTE"); (GC_V3, "GC_V3");
  (GC_EP3_NTE, "GC_EP3_NTE"); (GC_EP3, "GC_EP3"); (XB_V3, "XB_V3"); (BB_V4, "BB_V4")
].

Definition name_for (v : Version) : string :=
  match List.find (fun p => bool_decide (fst p = v)) version_names with
  | Some p => snd p
  | None => "UNKNOWN"
  end.

Definition version_for (s : string) : result Version :=
  match List.find (fun p => String.eqb (snd p) s) version_names with
  | Some p => Ok (fst p)
  | None => Throw (out_of_range "invalid enum name")
  end.

Definition episode_for (s : string) : result Episode.t :=
  if String.eqb s "Episode1" then Ok Episode.EP1
  else if String.eqb s "Episode2" then Ok Episode.EP2
  else if String.eqb s "Episode3" then Ok Episode.EP3
  else if String.eqb s "Episode4" then Ok Episode.EP4
  else Throw (runtime_error "unknown episode")%string.

(** [static_cast<uint32_t>(stof(text))] as glibc and an x86-64 compiler
    do it.  [strtof] skips white space, reads a sign, and then a decimal
    number (digits with at most one point, and an exponent after [e]), a
    hexadecimal one (after [0x], with a binary exponent after [p]), or
    the words [inf] and [nan].  The number is rounded to the nearest
    binary32, ties to even; [stof] throws when nothing was read and when
    the number is out of range (it rounds to 2^128 or more, or it is
    below the smallest normal number and not a binary32).  The conversion
    to [uint32_t] cuts off the fraction; out of the range of [uint32_t]
    it is undefined, and the processor gives the low 32 bits of the
    64-bit conversion, which is 0 for 2^63 and more, [inf] and [nan]. *)
Definition mantissa (base : Z) (s : string) : option (Z * Z * string) :=
  let '(n1, c1) := parse_digits base s 0 0 in
  let rest := string_drop c1 s in
  let '(n2, c2, rest) :=
    match rest with
    | String c rest' =>
        if Ascii.eqb c "."%char
        then let '(n2, c2) := parse_digits base rest' n1 0 in (n2, c2, string_drop c2 rest')
        else (n1, 0%nat, rest)
    | EmptyString => (n1, 0%nat, rest)
    end in
  if (c1 + c2 =? 0)%nat then None else Some (n2, Z.of_nat c2, rest).

Definition lower (c : ascii) : Z :=
  let n := byte_of_ascii c in
  if (65 <=? n) && (n <=? 90) then n + 32 else n.

Definition exponent (marker : Z) (s : string) : Z :=
  match s with
  | String c s' =>
      if lower c =? marker then
        let '(negative, digits) :=
          match s' with
          | String sign s'' =>
              if Ascii.eqb sign "-"%char then (true, s'')
              else if Ascii.eqb sign "+"%char then (false, s'')
              else (false, s')
          | EmptyString => (false, s')
          end in
        let '(x, count) := parse_digits 10 digits 0 0 in
        if (count =? 0)%nat then 0 else if negative then - x else x
      else 0
  | EmptyString => 0
  end.

Definition is_inf_or_nan (s : string) : bool :=
  match s with
  | String a (String b (String c _)) =>
      ((lower a =? 105) && (lower b =? 110) && (lower c =? 102))
      || ((lower a =? 110) && (lower b =? 97) && (lower c =? 110))
  | _ => false
  end.

Definition round_half_even (num den : Z) : Z :=
  let q := num / den in
  let r := num mod den in
  if (den <? 2 * r) || ((2 * r =? den) && Z.odd q) then q + 1 else q.

(** The integer part of the binary32 nearest to [num / den], a positive
    number; [None] when that is 2^128 or more. *)
Definition binary32_integer_part (num den : Z) : option Z :=
  if num <? den then Some (if den * (2 ^ 25 - 1) <=? num * 2 ^ 25 then 1 else 0)
  else
    let e := Z.log2 (num / den) in
    let m := if e <=? 23 then round_half_even (num * 2 ^ (23 - e)) den
             else round_half_even num (den * 2 ^ (e - 23)) in
    if 128 <=? e + (if m =? 2 ^ 24 then 1 else 0) then None
    else Some (if e <=? 23 then m / 2 ^ (23 - e) else m * 2 ^ (e - 23)).

Definition stof_to_u32 (s : string) : result Z :=
  let s1 := string_drop (count_leading_space s) s in
  let '(negative, s2) :=
    match s1 with
    | String sign s' =>
        if Ascii.eqb sign "-"%char then (true, s')
        else if Ascii.eqb sign "+"%char then (false, s')
        else (false, s1)
    | EmptyString => (false, s1)
    end in
  if is_inf_or_nan s2 then Ok 0
  else
    let hex :=
      if starts_with s2 "0x" || starts_with s2 "0X"
      then mantissa 16 (string_drop 2 s2) else None in
    let parsed :=
      match hex with
      | Some (n, d, rest) => Some (n, exponent 112 rest - 4 * d, 2)
      | None =>
          match mantissa 10 s2 with
          | Some (n, d, rest) => Some (n, exponent 101 rest - d, 10)
          | None => None
          end
      end in
    match parsed with
    | None => Throw (invalid_argument "stof")
    | Some (n, x, base) =>
        let num := if 0 <=? x then n * base ^ x else n in
        let den := if 0 <=? x then 1 else base ^ (- x) in
        if n =? 0 then Ok 0
        else if (num * 2 ^ 151 <? den * (2 ^ 25 - 1)) && negb ((num * 2 ^ 149) mod den =? 0)
        then Throw (out_of_range "stof")
        else
          match binary32_integer_part num den with
          | None => Throw (out_of_range "stof")
          | Some t => Ok (if 2 ^ 63 <=? t then 0 else u32 (if negative then - t else t))
          end
    end.

#[global] Instance external : External := {
  get_header_DCNTE := get_DCNTE;
  get_header_DC := get_DC;
  get_header_PC := get_PC;
  get_header_GC := get_GC;
  get_header_BB := get_BB;
  pstring_decode := decode;
  tt_utf16_to_utf8 := narrow;
  tt_sega_sjis_to_utf8 := convert_7bit;
  tt_8859_to_utf8 := convert_7bit;
  tt_ascii_to_utf8 := convert_7bit;
  tt_utf8_to_sega_sjis := convert_7bit;
  tt_utf8_to_8859 := convert_7bit;
  tt_utf8_to_utf16 := utf8_to_utf16;
  format_data_string := format_data;
  format_data_string_hex := format_data;
  parse_data_string := parse_data;
  name_for_Version := name_for;
  Version_for_name := version_for;
  episode_for_token_name := episode_for;
  sizeof_header := sizeof;
  put_header_DCNTE := put_DCNTE;
  put_header_DC := put_DC;
  put_header_PC := put_PC;
  put_header_GC := put_GC;
  put_header_BB := put_BB;
  pstring_encode := encode;
  load_file := fun _ => Throw (runtime_error "cannot open file");
  have_resource_file := false;
  assemble_native := fun _ _ => Throw (runtime_error "unknown architecture");
  vector_reserve := fun n =>
    if 2 ^ 61 - 1 <? n then Throw (length_error "vector::reserve") else Ok tt;
  annotated_data_lines := fun _ _ _ _ _ => Ok [];
  fmt_g := fun bits => "0x" +:+ fmt_X 8 bits;
  stof_u32 := stof_to_u32;
}.

End Sample.

(** ** Auxiliary definitions used in the statements *)

(** The first definition active in a build that has a given opcode. *)
Definition first_definition (v : Version) (op : Z) : option QuestScriptOpcodeDefinition :=
  List.find (fun d => has_flag (flags d) (v_flag v) && (opcode d =? op)) opcode_defs.

(** The builds in which [set_episode] exists. *)
Definition is_v3_v4 (v : Version) : bool := has_flag F_V3_V4 (v_flag v).

Section EpisodeHeader.
Context `{External}.

(** The three header fields that the episode detector reads, for the
    builds with an episode byte. *)
Definition episode_header (data : list Z) (version : Version) : result (Z * Z * Z) :=
  match version with
  | GC_NTE | GC_V3 | GC_EP3_NTE | GC_EP3 | XB_V3 =>
      do header <- get_header_GC data;
      Ok (gc_code_offset header, gc_function_table_offset header, gc_episode header)
  | BB_V4 =>
      do header <- get_header_BB data;
      Ok (bb_code_offset header, bb_function_table_offset header, bb_episode header)
  | _ => Throw (logic_error "invalid quest version")
  end.

Definition episode_use_wstrs (version : Version) : bool :=
  bool_decide (version = BB_V4).
End EpisodeHeader.

(** The episode that a [set_episode] literal selects, [None] for the
    literals that select none. *)
Definition episode_of_literal (lit : Z) : option Episode.t :=
  match u8 lit with
  | 0x00 | 0xFF => Some Episode.EP1
  | 0x01 => Some Episode.EP2
  | 0x02 => Some Episode.EP4
  | _ => None
  end.

(** A GC_V3 quest image in the sample layout: a header with the given
    episode byte, then the code, then a one-entry function table. *)
Definition sample_gc_quest (episode : Z) (code : list Z) : list Z :=
  Sample.put_GC
    (Build_PSOQuestHeaderGC 0x1D4 (0x1D4 + Z.of_nat (length code))
       (0x1D4 + Z.of_nat (length code) + 4) 1 1 episode "Hi" EmptyString EmptyString)
  ++ code ++ [0; 0; 0; 0].

(** ** Predicates on computations *)

(** A computation [advances] when it leaves the buffer alone and never
    moves the cursor backwards. *)
Definition advances {S A : Type} `{HasReader S} (m : M S A) : Prop :=
  forall s r s', m s = (r, s') ->
    sr_data (reader s') = sr_data (reader s) /\
    sr_offset (reader s) <= sr_offset (reader s').

(** [respects R m] says that every run of [m], whether it returns or
    throws, takes a state to an [R]-related state. *)

Definition respects {S A : Type} (R : S -> S -> Prop) (m : M S A) : Prop :=
  forall s r s', m s = (r, s') -> R s s'.

(** The detector never records an episode twice. *)
Definition keeps_distinct (s s' : EpisodeWalk) : Prop :=
  NoDup (found_episodes s) -> NoDup (found_episodes s').

(** ** Example programs and allocator states *)

Definition quest_source (version : string) (body : list string) : string :=
  join newline
    ([".version " +:+ version; ".quest_num 1";
      ".name " +:+ dquote +:+ "Hi" +:+ dquote; "start:"] ++ body).

(** Registers r0 to r254 used by number, and then the two named
    registers of a set [(r:a, r:b)]. *)
Definition numbered_then_pair : M RegisterAssigner unit :=
  for_each (fun n => _ <- get_or_create EmptyString n ;; ret tt) (map Z.of_nat (seq 0 255)) ;;;
  a <- get_or_create "a" (-1) ;;
  b <- get_or_create "b" (-1) ;;
  constrain a b.

(** The same state reached from source text: [set rN] for every N up to
    254 and one instruction with a two-register set. *)
Definition crowded_source : string :=
  quest_source "DC_V2"
    (map (fun n => "  set r" +:+ fmt_u (Z.of_nat n)) (seq 0 255)
     ++ ["  if_zone_clear r0, (r:a, r:b)"; "  ret"]).

(** A set [(r:a@5, r:b)] followed by a use of [r:b@10]. *)
Definition pinned_after_constraint : M RegisterAssigner (RegId * RegId) :=
  a <- get_or_create "a" 5 ;;
  b <- get_or_create "b" (-1) ;;
  constrain a b ;;;
  _ <- get_or_create "b" 10 ;;
  ret (a, b).

Definition pinned_source : string :=
  quest_source "DC_V2" ["  if_zone_clear r0, (r:a@5, r:b)"; "  set r:b@10"; "  ret"].

(** A set [(r:a@5, r:b, r:c@10)]: the middle register is numbered from
    its right neighbour only. *)
Definition pinned_both_ends : M RegisterAssigner (RegId * RegId * RegId) :=
  a <- get_or_create "a" 5 ;;
  b <- get_or_create "b" (-1) ;;
  constrain a b ;;;
  c <- get_or_create "c" 10 ;;
  constrain b c ;;;
  ret (a, b, c).

Definition pinned_both_ends_source : string :=
  quest_source "DC_V2"
    ["  unhide_obj (r:a@5, r:b, r:c@10)"; "  set r:a"; "  set r:b"; "  set r:c"; "  ret"].

(** The code that an assembly returns, if it returns. *)
Definition code_of (r : run AssembledQuest) : option (list Z) :=
  match r with
  | Returns q => Some (aq_code q)
  | _ => None
  end.

(** A program whose code refers to the label [start], that is, to entry 0
    of the function table. *)
Definition jmp_start_source : string :=
  quest_source "GC_V3" ["  jmp start"; "  ret"].

(** The program of the push-args scenario. *)
Definition message_source (version : string) : string :=
  quest_source version
    ["  message 0x12, " +:+ dquote +:+ "hello" +:+ dquote; "  ret"].

(** [code] contains the given blocks of bytes, one after the other in this
    order, possibly with other bytes around them. *)
Fixpoint contains_in_order (code : list Z) (blocks : list (list Z)) : Prop :=
  match blocks with
  | [] => True
  | block :: blocks' =>
      exists before after,
        code = before ++ block ++ after /\ contains_in_order after blocks'
  end.

(** The same by search, trying every position for every block. *)
Fixpoint contains_in_orderb (code : list Z) (blocks : list (list Z)) : bool :=
  match blocks with
  | [] => true
  | block :: blocks' =>
      existsb (fun i =>
                 bool_decide (firstn (length block) (skipn i code) = block)
                 && contains_in_orderb (skipn (i + length block) code) blocks')
              (seq 0 (S (length code)))
  end.

Definition arg_pushb_0x12 : list Z := [0x4A; 0x12].
Definition arg_pushs_hello : list Z := 0x4E :: bytes_of_string "hello" ++ [0].

(** The language rule in the words of the specification. *)
Definition spec_effective_language (override_language header_language limit : Z) : Z :=
  if negb (override_language =? 0xFF) then override_language
  else if header_language <? limit then header_language
  else 1.

(** What was returned, if anything was. *)
Definition returned {A : Type} (r : run A) : option A :=
  match r with
  | Returns a => Some a
  | _ => None
  end.

(** The keys of an ordered map are strictly ascending. *)
Fixpoint keys_sorted {V : Type} (m : list (Z * V)) : Prop :=
  match m with
  | [] => True
  | (k, _) :: m' => keys_sorted m' /\ forall k' v', (k', v') ∈ m' -> k < k'
  end.

(** The label table is consistent: [labels_by_index] is an ordered map
    from the index of every indexed label to that label, and
    [labels_by_name] names every label. *)
Record labels_ok (t : LabelTable) : Prop := mk_labels_ok {
  lok_sorted : keys_sorted (labels_by_index t);
  lok_index : forall k id, (k, id) ∈ labels_by_index t ->
    exists l, asm_labels t !! id = Some l /\ al_index l = k /\ 0 <= k;
  lok_indexed : forall id l, asm_labels t !! id = Some l -> 0 <= al_index l ->
    (al_index l, id) ∈ labels_by_index t;
  lok_named : forall id l, asm_labels t !! id = Some l ->
    exists name, (name, id) ∈ labels_by_name t;
  lok_names : forall name id, (name, id) ∈ labels_by_name t ->
    (id < length (asm_labels t))%nat;
}.

(** The label with a given index, if one was defined. *)
Definition label_with_index (t : LabelTable) (i : Z) : option AsmLabel :=
  List.find (fun l => al_index l =? i) (asm_labels t).

(** The highest label index in use ([-1] when there is no label). *)
Definition highest_label_index (t : LabelTable) : Z :=
  fold_right Z.max (-1) (al_index <$> asm_labels t).

(** Every label has an index. *)
Definition all_indexed (t : LabelTable) : Prop :=
  forall id l, asm_labels t !! id = Some l -> 0 <= al_index l.

(** No label lies beyond the code written so far. *)
Definition offsets_within (t : LabelTable) (size : nat) : Prop :=
  forall id l, asm_labels t !! id = Some l -> al_offset l <= Z.of_nat size.

(** What emitting code may do to the assembler's state: the label table
    is left alone and the code only grows. *)
Definition asm_frame (s s' : Asm) : Prop :=
  labels s' = labels s /\ (length (code_w s) <= length (code_w s'))%nat.

(** What a whole line may do: labels keep their names and indexes, the
    code only grows, and label offsets stay within the code. *)
Definition line_frame (s s' : Asm) : Prop :=
  labels_by_name (labels s') = labels_by_name (labels s) /\
  labels_by_index (labels s') = labels_by_index (labels s) /\
  al_index <$> asm_labels (labels s') = al_index <$> asm_labels (labels s) /\
  (offsets_within (labels s) (length (code_w s)) ->
   offsets_within (labels s') (length (code_w s'))).

(** A program with three labels: [start] (index 0), one pinned to index 3,
    and one whose index is chosen by the assembler. *)
Definition labelled_source : string :=
  quest_source "GC_V3" ["  ret"; "second@3:"; "  ret"; "third:"; "  ret"].

Definition labelled_quest : list Z :=
  Eval vm_compute in
    match assemble_quest_script (H := Sample.external) EmptyString labelled_source with
    | Returns bytes => bytes
    | _ => []
    end.

(** ** The decode loops of the disassembler *)

(** Strictly ascending lists: the contents of a [std::set]. *)
Fixpoint ascending (s : list Z) : Prop :=
  match s with
  | [] => True
  | k :: s' => ascending s' /\ forall k', k' ∈ s' -> k < k'
  end.

(** What decoding one instruction may do to the state of the
    disassembler: the cursor moves forward in the same buffer and stays
    inside it, no line is recorded, the labels keep their offsets, and the
    only offsets that become pending are offsets of labels. *)
Definition dasm_frame (s s' : Dasm) : Prop :=
  sr_data (cmd_r s') = sr_data (cmd_r s) /\
  sr_where (cmd_r s) <= sr_where (cmd_r s') /\
  (sr_where (cmd_r s) <= sr_size (cmd_r s) -> sr_where (cmd_r s') <= sr_size (cmd_r s')) /\
  dasm_lines s' = dasm_lines s /\
  l_offset <$> function_table s' = l_offset <$> function_table s /\
  (forall off, off ∈ pending_dasm_start_offsets s' ->
     off ∈ pending_dasm_start_offsets s \/ off ∈ l_offset <$> function_table s) /\
  (ascending (pending_dasm_start_offsets s) -> ascending (pending_dasm_start_offsets s')).

(** The invariant of the walk: the pending offsets are a set of label
    offsets, no label offset is negative, and every recorded line is at an
    offset of the code. *)
Definition walk_ok (s : Dasm) : Prop :=
  ascending (pending_dasm_start_offsets s) /\
  (forall off, off ∈ pending_dasm_start_offsets s -> off ∈ l_offset <$> function_table s) /\
  (forall off, off ∈ l_offset <$> function_table s -> 0 <= off) /\
  (forall k, is_Some (dasm_lines s !! k) -> 0 <= k < sr_size (cmd_r s)).

(** The offsets of the code at which no instruction has been decoded. *)
Definition undecoded (s : Dasm) : gset Z :=
  list_to_set (seqZ 0 (sr_size (cmd_r s))) ∖ dom (dasm_lines s).

(** The text that the decode loop records for the outcome of
    [dasm_instruction], before the offset and the bytes are put in front of
    it. *)
Definition recorded_text (res : result string) : string :=
  strip_trailing_whitespace
    match res with
    | Ok line => line
    | Throw e => ".failed (" +:+ what e +:+ ")"
    end.

(** The parameters of a GC_V3 disassembly in reassembly mode. *)
Definition sample_params : DasmParams :=
  mkDasmParams (match opcodes_for_version GC_V3 with Ok opcodes => opcodes | Throw _ => ∅ end)
    true false 1 true false.

(** [leti r5, ...] cut short after three of the four bytes of its
    integer: decoding it fails at the end of the code.  Read one by one from
    offset 2, the three bytes are three [ret]. *)
Definition truncated_leti : list Z := [0x09; 0x05; 0x01; 0x01; 0x01].

(** The state at the start of the chain of function 0 of that code. *)
Definition truncated_leti_start : Dasm :=
  start_chain 0 []
    (walk_start (mkReader truncated_leti 0) (read_function_table [0; 0; 0; 0] 0)).

(** ** [check_opcode_definitions]

    The function builds both indexes of each of the twelve quest builds;
    the line it logs for each build is left out. *)

Definition checked_versions : list Version :=
  [DC_NTE; DC_V1_11_2000_PROTOTYPE; DC_V1; DC_V2; PC_NTE; PC_V2;
   GC_NTE; GC_V3; GC_EP3_NTE; GC_EP3; XB_V3; BB_V4].

Fixpoint check_opcode_definitions_for (versions : list Version) : result unit :=
  match versions with
  | [] => Ok tt
  | v :: versions' =>
      do opcodes_by_name <- opcodes_by_name_for_version v;
      do opcodes <- opcodes_for_version v;
      check_opcode_definitions_for versions'
  end.

Definition check_opcode_definitions : result unit :=
  check_opcode_definitions_for checked_versions.

(** ** Auxiliary definitions for the further properties *)

(** An opcode that the assembler writes and the disassembler reads back:
    one byte that is not 0xF8 or 0xF9, or two bytes of which the first is
    0xF8 or 0xF9. *)
Definition opcode_reads_back (op : Z) : bool :=
  ((0 <=? op) && (op <? 0x100) && negb (Z.land op 0xFE =? 0xF8))
  || ((0xF800 <=? op) && (op <? 0xFA00)).

(** What [opcode_reads_back] is for, as a test on one opcode: the bytes
    that [emit_opcode] writes give the opcode back in [read_opcode]. *)
Definition opcode_bits_read_back (op : Z) : bool :=
  if Z.land op 0xFF00 =? 0
  then (u8 (u8 op) =? op) && negb (Z.land (u8 (u8 op)) 0xFE =? 0xF8)
  else (Z.land (u8 (u8 (Z.shiftr op 8))) 0xFE =? 0xF8)
       && (Z.lor (u16 (Z.shiftl (u8 (u8 (Z.shiftr op 8))) 8)) (u8 (u8 op)) =? op).

(** A disassembler state whose cursor is at offset 1 of the code
    [01 F8 BC 00], and the assembler state that has written the first
    byte. *)
Definition sample_reading : Dasm :=
  mkDasm (mkReader [0x01; 0xF8; 0xBC; 0x00] 1) [] ∅ [] [].

Definition sample_writing : Asm :=
  mkAsm [0x01] (mkLabelTable [] [] []) new_RegisterAssigner.

(** The episodes that a quest can belong to. *)
Definition quest_episode_value (e : Episode.t) : Prop :=
  e = Episode.EP1 \/ e = Episode.EP2 \/ e = Episode.EP4.

(** The detector only records such episodes. *)
Definition keeps_quest_episodes (s s' : EpisodeWalk) : Prop :=
  Forall quest_episode_value (found_episodes s) ->
  Forall quest_episode_value (found_episodes s').

(** Texts without control characters, and texts in which every double
    quote comes just after a backslash. *)
Definition printable (s : string) : Prop :=
  Forall (fun c => 0x20 <= byte_of_ascii c) (list_ascii_of_string s).

(** The scan of a piece of text: whether every double quote in it is
    escaped, and whether its last character is a backslash;
    [after_backslash] says whether the character before the piece is a
    backslash. *)
Fixpoint scan_quotes (after_backslash : bool) (s : string) : bool * bool :=
  match s with
  | EmptyString => (true, after_backslash)
  | String c s' =>
      let '(ok, last) := scan_quotes (byte_of_ascii c =? 92) s' in
      ((if byte_of_ascii c =? 34 then after_backslash else true) && ok, last)
  end.

Definition quotes_escaped (s : string) : Prop := fst (scan_quotes false s) = true.

(** A two-line text. *)
Definition two_lines : string := "a" +:+ String (ascii_of_nat 10) "b".

(** The 256 characters. *)
Definition all_ascii : list ascii :=
  map (fun n => ascii_of_nat n) (seq 0 256).

(** The state of one slot of [numbered_regs]. *)
Definition slot_free (st : RegisterAssigner) (n : Z) : Prop :=
  numbered_regs st !! Z.to_nat n = Some None.

Definition slot_taken (st : RegisterAssigner) (n : Z) : Prop :=
  exists reg, numbered_regs st !! Z.to_nat n = Some (Some reg).

(** ** The register allocator *)

(** The invariant of the allocator: there are 256 slots; the register in
    slot [n] has the number [n]; a register has no number (-1) or a number
    from 0 to 255, and then it is the one in the slot of that number; the
    register under a name has that name, and no name is empty; a register
    that has a name is the one found under that name. *)
Record ra_ok (st : RegisterAssigner) : Prop := mk_ra_ok {
  ra_slots : length (numbered_regs st) = 0x100%nat;
  ra_slot_number : forall n id, numbered_regs st !! n = Some (Some id) ->
    exists r, ra_store st !! id = Some r /\ reg_number r = Z.of_nat n;
  ra_number_slot : forall id r, ra_store st !! id = Some r ->
    -1 <= reg_number r < 0x100 /\
    (0 <= reg_number r -> numbered_regs st !! Z.to_nat (reg_number r) = Some (Some id));
  ra_named : forall name id, (name, id) ∈ named_regs st ->
    name <> EmptyString /\ exists r, ra_store st !! id = Some r /\ reg_name r = name;
  ra_found : forall id r, ra_store st !! id = Some r -> reg_name r <> EmptyString ->
    omap_find String.compare (reg_name r) (named_regs st) = Some id;
}.

(** What is known of a register is never taken back: a name, a number, a
    link or an offset, once set, stays. *)
Record reg_extends (r r' : Register) : Prop := mk_reg_extends {
  ext_name : reg_name r <> EmptyString -> reg_name r' = reg_name r;
  ext_number : 0 <= reg_number r -> reg_number r' = reg_number r;
  ext_prev : forall p, reg_prev r = Some p -> reg_prev r' = Some p;
  ext_next : forall n, reg_next r = Some n -> reg_next r' = Some n;
  ext_offsets : forall off, off ∈ reg_offsets r -> off ∈ reg_offsets r';
}.

Definition ra_extends (st st' : RegisterAssigner) : Prop :=
  forall id r, ra_store st !! id = Some r ->
    exists r', ra_store st' !! id = Some r' /\ reg_extends r r'.

(** The allocator after the first use of [r:a@5]. *)
Definition one_register : RegisterAssigner :=
  snd (get_or_create "a" 5 new_RegisterAssigner).

(** The allocator after [(r:a@5, r:b)] has been read, before the two
    registers are constrained. *)
Definition two_registers : RegisterAssigner :=
  snd (get_or_create "b" (-1) one_register).

(** Nothing but numbers has changed, and only for registers that had
    none. *)
Definition numbers_given (st st' : RegisterAssigner) : Prop :=
  named_regs st' = named_regs st /\
  length (ra_store st') = length (ra_store st) /\
  forall id r, ra_store st !! id = Some r ->
    exists r', ra_store st' !! id = Some r' /\
      r' = set_number (reg_number r') r /\ (0 <= reg_number r -> r' = r).

(** The registers that [assign_all] has to number. *)
Definition unassigned (st : RegisterAssigner) : list RegId :=
  map snd (List.filter (fun it => reg_number (reg_at st (snd it)) <? 0) (named_regs st)).

(** The definitions of the table that a build has. *)
Definition visible_in (v : Version) (d : QuestScriptOpcodeDefinition) : Prop :=
  d ∈ opcode_defs /\ has_flag (flags d) (v_flag v) = true.

(** ** The lines of the disassembler *)

(** Decoding only adds pending offsets. *)
Definition pending_kept (s s' : Dasm) : Prop :=
  forall off, off ∈ pending_dasm_start_offsets s -> off ∈ pending_dasm_start_offsets s'.

(** The invariant of the lines: every line ends after its offset and
    inside the code; the instruction after a line has a line, unless the
    line ends the code or ends at an offset that is still open; and every
    label inside the code is pending, has a line, or is still open.  The
    open offset is the cursor of the chain that is being decoded. *)
Record walk_inv (open : Z -> Prop) (s : Dasm) : Prop := mk_walk_inv {
  wi_ok : walk_ok s;
  wi_forward : forall k l, dasm_lines s !! k = Some l ->
    k < dl_next_offset l <= sr_size (cmd_r s);
  wi_linked : forall k l, dasm_lines s !! k = Some l ->
    dl_next_offset l < sr_size (cmd_r s) ->
    is_Some (dasm_lines s !! dl_next_offset l) \/ open (dl_next_offset l);
  wi_reached : forall off, off ∈ l_offset <$> function_table s ->
    off < sr_size (cmd_r s) ->
    off ∈ pending_dasm_start_offsets s \/ is_Some (dasm_lines s !! off) \/ open off;
}.

Definition nothing_open (off : Z) : Prop := False.

(** The keys of [offset_to_label] are in ascending order, equal keys
    allowed. *)
Fixpoint keys_ascending (m : list (Z * nat)) : Prop :=
  match m with
  | [] => True
  | (k, _) :: m' => keys_ascending m' /\ forall k' id', (k', id') ∈ m' -> k <= k'
  end.

(** An entry of [offset_to_label]: the offset of a label that lies inside
    the code. *)
Definition label_entry (offsets : list Z) (code_size : Z) (entry : Z * nat) : Prop :=
  offsets !! snd entry = Some (fst entry) /\ 0 <= fst entry < code_size.

(** ** The labels of the assembler *)

(** The name that the emission loop reads from a label line. *)
Definition label_name (line : string) : string :=
  substr line 0 (match string_find line "@" 0 with
                 | None => String.length line - 1
                 | Some at_offset => at_offset
                 end).

(** Every label is found under its name, every name is the name of its
    label, the label [start] has the index 0, and the labels are those of
    the label lines. *)
Record labels_named (lines : list string) (t : LabelTable) : Prop := mk_labels_named {
  ln_found : forall id l, asm_labels t !! id = Some l ->
    omap_find String.compare (al_name l) (labels_by_name t) = Some id;
  ln_names : forall name id, (name, id) ∈ labels_by_name t ->
    exists l, asm_labels t !! id = Some l /\ al_name l = name;
  ln_start : forall id l, asm_labels t !! id = Some l -> al_name l = "start" ->
    al_index l = 0;
  ln_line : forall id l, asm_labels t !! id = Some l ->
    exists line, line ∈ lines /\ ends_with line ":" = true /\ al_name l = label_name line;
  ln_label : forall line, line ∈ lines -> ends_with line ":" = true ->
    exists id l, asm_labels t !! id = Some l /\ al_name l = label_name line;
}.

(** Every label has an offset. *)
Definition offsets_set (t : LabelTable) : Prop :=
  forall id l, asm_labels t !! id = Some l -> 0 <= al_offset l.

(** What a line of the program may do to the labels: their names stay,
    and an offset that is set stays set. *)
Definition offsets_kept (s s' : Asm) : Prop :=
  labels_by_name (labels s') = labels_by_name (labels s) /\
  al_name <$> asm_labels (labels s') = al_name <$> asm_labels (labels s) /\
  forall id l l', asm_labels (labels s) !! id = Some l ->
    asm_labels (labels s') !! id = Some l' -> 0 <= al_offset l -> 0 <= al_offset l'.

(** A program of two label lines. *)
Definition two_labels : list string := ["start:"; "second@3:"].

(** ** The lines of the assembler *)

(** A text without white space at either end. *)
Definition trimmed (s : string) : Prop :=
  strip_leading_whitespace s = s /\ strip_trailing_whitespace s = s.

(** ** The offsets that the assembler notes for a register *)

(** No register has an offset that it did not have before. *)
Definition no_new_offsets (st st' : RegisterAssigner) : Prop :=
  forall id r' off, ra_store st' !! id = Some r' -> off ∈ reg_offsets r' ->
    exists r, ra_store st !! id = Some r /\ off ∈ reg_offsets r.

(** What a computation does when it returns. *)
Definition returns_keep {S A : Type} (R : S -> S -> Prop) (m : M S A) : Prop :=
  forall s a s', m s = (Ok a, s') -> R s s'.

(** Every offset that a register has is the offset of a byte of the code,
    and no other register has it. *)
Definition offsets_owned (st : RegisterAssigner) (size : nat) : Prop :=
  forall id r off, ra_store st !! id = Some r -> off ∈ reg_offsets r ->
    0 <= off < Z.of_nat size /\
    forall id2 r2, ra_store st !! id2 = Some r2 -> off ∈ reg_offsets r2 -> id2 = id.

(** What the emission of code may do to the allocator: a consistent
    allocator stays consistent and its registers keep what they have, and
    the offsets of the registers stay offsets of bytes of the code, each
    with one register. *)
Record asm_regs (s s' : Asm) : Prop := mk_asm_regs {
  ar_ok : ra_ok (reg_assigner s) ->
    ra_ok (reg_assigner s') /\ ra_extends (reg_assigner s) (reg_assigner s');
  ar_offsets : offsets_owned (reg_assigner s) (length (code_w s)) ->
    offsets_owned (reg_assigner s') (length (code_w s'));
}.

(** The index of mnemonics of DC_V2, and a program that uses named
    registers in it. *)
Definition dc_v2_opcodes : gmap string QuestScriptOpcodeDefinition :=
  match opcodes_by_name_for_version DC_V2 with
  | Ok opcodes => opcodes
  | Throw _ => ∅
  end.

Definition dc_v2_meta : QuestMeta :=
  mkQuestMeta DC_V2 "Hi" EmptyString EmptyString 1 1 Episode.EP1 4 false.

Definition named_register_lines : list string :=
  ["start:"; "unhide_obj (r:a@5, r:b, r:c@10)"; "set r:b"; "set r7"; "ret"].

Definition named_register_labels : LabelTable :=
  Eval vm_compute in
    match find_labels named_register_lines with
    | Ok t => t
    | Throw _ => mkLabelTable [] [] []
    end.

(** The byte at [i] bytes after the cursor of the disassembler. *)
Definition byte_read (d : Dasm) (i : Z) : Z :=
  byte_at (sr_data (cmd_r d)) (sr_offset (cmd_r d) + i).

(** The index that a label line asks for: the number after [@], 0 for the
    label [start], and -1 when the line leaves the choice to the
    assembler (the first loop over the lines reads it this way). *)
Definition label_index (line : string) : Z :=
  let name := substr line 0 (String.length line - 1) in
  match string_find name "@" 0 with
  | Some at_offset =>
      match stoul (substr_from name (at_offset + 1)) with
      | Ok index => s64 index
      | Throw _ => -1
      end
  | None => if String.eqb name "start" then 0 else -1
  end.

(** A program whose label [far] follows 0xFFFFFFFF bytes of code. *)
Definition far_label_source : string :=
  quest_source "GC_V3" [".zero 4294967295"; "far:"].

(** Its lines, and its labels before and after the code is assembled. *)
Definition far_label_lines : list string :=
  [".version GC_V3"; ".quest_num 1"; ".name " +:+ dquote +:+ "Hi" +:+ dquote; "start:";
   ".zero 4294967295"; "far:"].

Definition far_label_meta : QuestMeta :=
  mkQuestMeta GC_V3 "Hi" EmptyString EmptyString 1 1 Episode.EP1 4 false.

Definition far_labels (start_offset far_offset : Z) : LabelTable :=
  mkLabelTable [mkAsmLabel "start" 0 start_offset; mkAsmLabel "far" 1 far_offset]
    [("far", 1%nat); ("start", 0%nat)] [(0, 0%nat); (1, 1%nat)].

(** An ordered map with strings as keys is sorted by its keys. *)
Fixpoint names_sorted {V : Type} (m : list (string * V)) : Prop :=
  match m with
  | [] => True
  | (k, _) :: m' => names_sorted m' /\ forall k' v', (k', v') ∈ m' -> String.compare k k' = Lt
  end.

(** * Properties *)

(** ** Bytes and readers *)

Lemma u8_range (v : Z) : 0 <= u8 v < 256.
Proof. unfold u8. apply Z.mod_pos_bound. lia. Qed.

Lemma byte_at_range (data : list Z) (off : Z) : 0 <= byte_at data off < 256.
Proof. apply u8_range. Qed.

Lemma scan_cstr8_consumed (rest acc : list Z) : 0 <= snd (scan_cstr8 rest acc).
Proof.
  revert acc. induction rest as [|b rest IH]; intros acc; simpl; [lia|].
  destruct (u8 b =? 0); simpl; [lia|].
  specialize (IH (u8 b :: acc)). destruct (scan_cstr8 rest (u8 b :: acc)). simpl in *. lia.
Qed.

Lemma scan_cstr16_consumed (fuel : nat) (rest acc : list Z) :
  0 <= snd (scan_cstr16 fuel rest acc).
Proof.
  revert rest acc. induction fuel as [|fuel IH]; intros rest acc; simpl.
  - destruct rest; simpl; lia.
  - destruct rest as [|b0 [|b1 rest]]; simpl; try lia.
    destruct (_ =? 0); simpl; [lia|].
    specialize (IH rest (u8 b1 :: u8 b0 :: acc)).
    destruct (scan_cstr16 fuel rest _). simpl in *. lia.
Qed.

Section Advances.
Context {S : Type} `{HasReader S}.

Lemma advances_ret {A : Type} (a : A) : advances (ret a : M S A).
Proof. intros s r s' [= <- <-]. split; [done | lia]. Qed.

Lemma advances_throw {A : Type} (e : exception) : advances (throw e : M S A).
Proof. intros s r s' [= <- <-]. split; [done | lia]. Qed.

Lemma advances_lift {A : Type} (x : result A) : advances (lift x : M S A).
Proof. intros s r s' [= <- <-]. split; [done | lia]. Qed.

Lemma advances_gets {A : Type} (f : S -> A) : advances (gets f).
Proof. intros s r s' [= <- <-]. split; [done | lia]. Qed.

Lemma advances_bind {A B : Type} (m : M S A) (k : A -> M S B) :
  advances m -> (forall a, advances (k a)) -> advances (bind m k).
Proof.
  intros Hm Hk s r s'. unfold bind. destruct (m s) as [[a|e] s1] eqn:E; intros Hr.
  - destruct (Hm _ _ _ E) as [D1 O1]. destruct (Hk a _ _ _ Hr) as [D2 O2].
    split; [congruence | lia].
  - injection Hr as <- <-. exact (Hm _ _ _ E).
Qed.

Lemma advances_modify (f : S -> S) :
  (forall s, reader (f s) = reader s) -> advances (modify f).
Proof. intros Hf s r s' [= <- <-]. rewrite Hf. split; [done | lia]. Qed.

Lemma advances_skip (n : Z) : 0 <= n -> advances (skip n).
Proof.
  intros Hn s r s' [= <- <-]. rewrite reader_with_reader. simpl. split; [done | lia].
Qed.

Lemma advances_get_with (pget : list Z -> Z -> result Z) (size : Z) :
  0 <= size -> advances (get_with pget size).
Proof.
  intros Hn s r s'. unfold get_with.
  destruct (pget _ _); intros [= <- <-].
  - rewrite reader_with_reader. simpl. split; [done | lia].
  - split; [done | lia].
Qed.

Lemma advances_get_cstr_with (scan : list Z -> result (list Z) * Z) :
  (forall l, 0 <= snd (scan l)) -> advances (get_cstr_with scan).
Proof.
  intros Hscan s r s'. unfold get_cstr_with.
  destruct (sr_offset (reader s) <? 0); [intros [= <- <-]; split; [done | lia]|].
  specialize (Hscan (skipn (Z.to_nat (sr_offset (reader s))) (sr_data (reader s)))).
  destruct (scan _) as [res n]. intros [= <- <-].
  rewrite reader_with_reader. simpl in *. split; [done | lia].
Qed.

Lemma advances_get_cstr8 : advances get_cstr8.
Proof. apply advances_get_cstr_with. intros l. apply scan_cstr8_consumed. Qed.

Lemma advances_get_cstr16 : advances get_cstr16.
Proof. apply advances_get_cstr_with. intros l. apply scan_cstr16_consumed. Qed.

Lemma advances_for_each {A : Type} (f : A -> M S unit) (l : list A) :
  (forall a, advances (f a)) -> advances (for_each f l).
Proof.
  intros Hf. induction l as [|a l IH]; simpl.
  - apply advances_ret.
  - apply advances_bind; [apply Hf | intros _; exact IH].
Qed.

(** A successful read of a byte moves the cursor by one and returns a
    byte. *)
Lemma get_u8_ok (s s' : S) (v : Z) :
  get_u8 s = (Ok v, s') ->
  0 <= v < 256 /\ sr_data (reader s') = sr_data (reader s) /\
  sr_offset (reader s') = sr_offset (reader s) + 1.
Proof.
  unfold get_u8, get_with, pget_u8.
  destruct (in_range _ _ _); intros [= <- <-].
  rewrite reader_with_reader. simpl. split; [apply byte_at_range | done].
Qed.

Lemma get_u8_not_eof (s : S) :
  sr_eof (reader s) = false -> 0 <= sr_offset (reader s) ->
  exists v, get_u8 s = (Ok v, with_reader (sr_skip (reader s) 1) s).
Proof.
  unfold sr_eof, get_u8, get_with, pget_u8, in_range, sr_size. intros Heof Hpos.
  apply Z.leb_gt in Heof.
  replace (0 <=? sr_offset (reader s)) with true by (symmetry; apply Z.leb_le; lia).
  replace (sr_offset (reader s) + 1 <=? _) with true by (symmetry; apply Z.leb_le; lia).
  simpl. eauto.
Qed.

Lemma advances_get_u8_then {A : Type} (k : Z -> M S A) :
  (forall v, 0 <= v < 256 -> advances (k v)) -> advances (bind get_u8 k).
Proof.
  intros Hk s r s'. unfold bind. destruct (get_u8 s) as [[v|e] s1] eqn:E; intros Hr.
  - destruct (get_u8_ok _ _ _ E) as (Hv & D1 & O1).
    destruct (Hk v Hv _ _ _ Hr) as [D2 O2]. split; [congruence | lia].
  - injection Hr as <- <-. apply (advances_get_with pget_u8 1) in E; [done | lia].
Qed.

Lemma advances_read_opcode : advances (read_opcode (S := S)).
Proof.
  unfold read_opcode. apply advances_get_u8_then. intros v _.
  destruct (_ =? _).
  - apply advances_bind; [apply advances_get_with; lia | intros; apply advances_ret].
  - apply advances_ret.
Qed.

(** With bytes left and the cursor inside the buffer, reading an opcode
    moves the cursor forward by at least one byte. *)
Lemma read_opcode_progress (s s' : S) (r : result Z) :
  sr_eof (reader s) = false -> 0 <= sr_offset (reader s) ->
  read_opcode s = (r, s') ->
  sr_data (reader s') = sr_data (reader s) /\
  sr_offset (reader s) + 1 <= sr_offset (reader s').
Proof.
  intros Heof Hpos. destruct (get_u8_not_eof s Heof Hpos) as [v Hv].
  unfold read_opcode, bind. rewrite Hv.
  set (s1 := with_reader _ s).
  assert (Hs1 : sr_data (reader s1) = sr_data (reader s) /\
                sr_offset (reader s1) = sr_offset (reader s) + 1).
  { unfold s1. rewrite reader_with_reader. done. }
  destruct Hs1 as [D1 O1]. clearbody s1.
  destruct (_ =? _).
  - destruct (get_u8 s1) as [[lo|e] s2] eqn:E; intros [= <- <-].
    + apply get_u8_ok in E as (_ & D & O). split; [congruence | lia].
    + apply (advances_get_with pget_u8 1) in E as [D O]; [|lia].
      split; [congruence | lia].
  - intros [= <- <-]. split; [done | lia].
Qed.
End Advances.

(** ** Relations between the state before and after a computation *)

Section Respects.
Context {S : Type} (R : S -> S -> Prop) `{!PreOrder R}.

Lemma respects_ret {A : Type} (a : A) : respects R (ret a : M S A).
Proof. intros s r s' [= <- <-]. reflexivity. Qed.

Lemma respects_throw {A : Type} (e : exception) : respects R (throw e : M S A).
Proof. intros s r s' [= <- <-]. reflexivity. Qed.

Lemma respects_lift {A : Type} (x : result A) : respects R (lift x : M S A).
Proof. intros s r s' [= <- <-]. reflexivity. Qed.

Lemma respects_gets {A : Type} (f : S -> A) : respects R (gets f).
Proof. intros s r s' [= <- <-]. reflexivity. Qed.

Lemma respects_modify (f : S -> S) : (forall s, R s (f s)) -> respects R (modify f).
Proof. intros Hf s r s' [= <- <-]. apply Hf. Qed.

Lemma respects_bind {A B : Type} (m : M S A) (k : A -> M S B) :
  respects R m -> (forall a, respects R (k a)) -> respects R (bind m k).
Proof.
  intros Hm Hk s r s'. unfold bind. destruct (m s) as [[a|e] s1] eqn:E; intros Hr.
  - transitivity s1; [exact (Hm _ _ _ E) | exact (Hk a _ _ _ Hr)].
  - injection Hr as <- <-. exact (Hm _ _ _ E).
Qed.

Lemma respects_for_each {A : Type} (f : A -> M S unit) (l : list A) :
  (forall a, respects R (f a)) -> respects R (for_each f l).
Proof.
  intros Hf. induction l as [|a l IH]; simpl.
  - apply respects_ret.
  - apply respects_bind; [apply Hf | intros _; exact IH].
Qed.

Lemma respects_if {A : Type} (b : bool) (m1 m2 : M S A) :
  respects R m1 -> respects R m2 -> respects R (if b then m1 else m2).
Proof. by destruct b. Qed.

Lemma while_respects (cond : S -> bool) (body : M S bool) :
  respects R body ->
  forall fuel s out, while_ fuel cond body s = Some out -> R s (snd out).
Proof.
  intros Hbody fuel. induction fuel as [|fuel IH]; intros s out; [done|].
  simpl. destruct (cond s); [|intros [= <-]; reflexivity].
  destruct (body s) as [[[|]|e] s'] eqn:Hb.
  - intros Hw. transitivity s'; [exact (Hbody _ _ _ Hb) | exact (IH _ _ Hw)].
  - intros [= <-]. exact (Hbody _ _ _ Hb).
  - intros [= <-]. exact (Hbody _ _ _ Hb).
Qed.
End Respects.

(** Readers: the operations on the cursor respect every relation that
    ignores the reader. *)
Section RespectsReader.
Context {S : Type} `{HasReader S} (R : S -> S -> Prop) `{!PreOrder R}.
Hypothesis R_with_reader : forall r s, R s (with_reader r s).

Lemma respects_skip (n : Z) : respects R (skip n).
Proof using R_with_reader. apply respects_modify. intros s. apply R_with_reader. Qed.

Lemma respects_get_with (pget : list Z -> Z -> result Z) (size : Z) :
  respects R (get_with pget size).
Proof using R_with_reader PreOrder0.
  intros s r s'. unfold get_with. destruct (pget _ _); intros [= <- <-].
  - apply R_with_reader.
  - reflexivity.
Qed.

Lemma respects_get_cstr_with (scan : list Z -> result (list Z) * Z) :
  respects R (get_cstr_with scan).
Proof using R_with_reader PreOrder0.
  intros s r s'. unfold get_cstr_with.
  destruct (_ <? 0); [intros [= <- <-]; reflexivity|].
  destruct (scan _) as [res n]. intros [= <- <-]. apply R_with_reader.
Qed.

Lemma respects_read_opcode : respects R (read_opcode (S := S)).
Proof using R_with_reader PreOrder0.
  unfold read_opcode. apply respects_bind; [done | apply respects_get_with |].
  intros v. destruct (_ =? _); [|by apply respects_ret].
  apply respects_bind; [done | apply respects_get_with |].
  intros lo. by apply respects_ret.
Qed.
End RespectsReader.

(** ** Loops with fuel *)

Lemma while_terminates {S : Type} (cond : S -> bool) (body : M S bool) (mu : S -> nat)
    (Inv : S -> Prop) :
  (forall s s', Inv s -> cond s = true -> body s = (Ok true, s') ->
                Inv s' /\ (mu s' < mu s)%nat) ->
  forall fuel s, Inv s -> (mu s < fuel)%nat -> is_Some (while_ fuel cond body s).
Proof.
  intros Hbody fuel. induction fuel as [|fuel IH]; intros s Hinv Hmu; [lia|].
  simpl. destruct (cond s) eqn:Hc; [|done].
  destruct (body s) as [[[|]|e] s'] eqn:Hb; try done.
  destruct (Hbody _ _ Hinv Hc Hb) as [Hinv' Hlt]. apply IH; [done | lia].
Qed.

(** ** The opcode index *)

Lemma index_opcodes_lookup (vf : Z) (defs : list QuestScriptOpcodeDefinition)
    (m m' : gmap Z QuestScriptOpcodeDefinition) (k : Z) :
  index_opcodes vf defs m = Ok m' ->
  m' !! k = match m !! k with
            | Some d => Some d
            | None => List.find (fun d => has_flag (flags d) vf && (opcode d =? k)) defs
            end.
Proof.
  revert m. induction defs as [|def defs IH]; intros m; cbn [index_opcodes List.find].
  - intros [= <-]. by destruct (m !! k).
  - destruct (has_flag (flags def) vf); cbn [negb andb]; [|apply IH].
    destruct (m !! opcode def) eqn:Hm; [done|].
    intros Hrest. rewrite (IH _ Hrest).
    destruct (Z.eqb_spec (opcode def) k) as [Heq|Hne].
    + rewrite <- Heq, lookup_insert_eq, Hm. done.
    + by rewrite lookup_insert_ne.
Qed.

Lemma opcodes_for_version_lookup (v : Version)
    (opcodes : gmap Z QuestScriptOpcodeDefinition) (k : Z) :
  opcodes_for_version v = Ok opcodes -> opcodes !! k = first_definition v k.
Proof.
  unfold opcodes_for_version. destruct (_ <? _); [done|].
  intros Hi. by rewrite (index_opcodes_lookup _ _ _ _ k Hi), lookup_empty.
Qed.

(** No two definitions active in one of the twelve builds share an opcode:
    the index of every build is built without a [logic_error]. *)
Lemma opcodes_for_version_ok (v : Version) :
  v <> PC_PATCH -> v <> BB_PATCH -> v <> UNKNOWN -> is_ok (opcodes_for_version v) = true.
Proof. destruct v; intros; try congruence; vm_compute; reflexivity. Qed.

(** ** The episode detector *)

Lemma advances_episode_skip_arg (use_wstrs : bool) (def : QuestScriptOpcodeDefinition)
    (arg : Argument) : advances (episode_skip_arg use_wstrs def arg).
Proof.
  unfold episode_skip_arg.
  destruct (arg_type arg); repeat case_match;
    try (apply advances_skip; lia); try apply advances_throw.
  - apply advances_get_u8_then. intros v Hv. apply advances_skip. lia.
  - apply advances_get_u8_then. intros v Hv. apply advances_skip. lia.
  - apply advances_bind; [apply advances_get_with; lia|]. intros v.
    apply advances_bind; [apply advances_lift|]. intros e.
    apply advances_modify. done.
  - apply advances_bind; [apply advances_get_cstr16 | intros; apply advances_ret].
  - apply advances_bind; [apply advances_get_cstr8 | intros; apply advances_ret].
Qed.

Lemma episode_step_progress (opcodes : gmap Z QuestScriptOpcodeDefinition)
    (use_wstrs : bool) (s s' : EpisodeWalk) (r : result bool) :
  sr_eof (reader s) = false -> 0 <= sr_offset (reader s) ->
  episode_step opcodes use_wstrs s = (r, s') ->
  sr_data (reader s') = sr_data (reader s) /\
  sr_offset (reader s) + 1 <= sr_offset (reader s').
Proof.
  intros Heof Hpos. unfold episode_step, bind.
  destruct (read_opcode s) as [[op|e] s1] eqn:E.
  - destruct (read_opcode_progress _ _ _ Heof Hpos E) as [D1 O1].
    assert (Hrest : forall r s',
      (match opcodes !! op with
       | None => throw (runtime_error ("unknown quest opcode " +:+ fmt_X 4 op))
       | Some def =>
           if has_flag (flags def) F_RET then ret false
           else
             ((if negb (has_flag (flags def) F_ARGS)
               then for_each (episode_skip_arg use_wstrs def) (args def)
               else ret tt) ;;; ret true)
       end) s1 = (r, s') ->
      sr_data (reader s') = sr_data (reader s1) /\
      sr_offset (reader s1) <= sr_offset (reader s')).
    { intros r0 s0. destruct (opcodes !! op) as [def|]; [|apply advances_throw].
      destruct (has_flag (flags def) F_RET); [apply advances_ret|].
      apply advances_bind; [|intros; apply advances_ret].
      destruct (negb _); [|apply advances_ret].
      apply advances_for_each. intros a. apply advances_episode_skip_arg. }
    intros Hr. destruct (Hrest _ _ Hr) as [D2 O2]. split; [congruence | lia].
  - intros [= <- <-]. exact (read_opcode_progress _ _ _ Heof Hpos E).
Qed.

(** The walk of the detector always ends: the fuel it is given is enough. *)
Lemma episode_walk_total (data : list Z) (version : Version) (use_wstrs : bool)
    (code_offset function_table_offset : Z) :
  is_Some (episode_walk data version use_wstrs code_offset function_table_offset).
Proof.
  unfold episode_walk.
  destruct (opcodes_for_version version) as [opcodes|e]; cbn [rbind]; [|done].
  destruct (pget_u32l data function_table_offset) as [entry|e]; cbn [rbind]; [|done].
  set (cmd_r := sr_sub data (code_offset + entry)).
  assert (Hoff : sr_offset cmd_r = 0).
  { unfold cmd_r, sr_sub. by destruct (_ <? _). }
  pose (Inv := fun s : EpisodeWalk =>
                 sr_data (reader s) = sr_data cmd_r /\ 0 <= sr_offset (reader s)).
  pose (mu := fun s : EpisodeWalk =>
                Z.to_nat (Z.of_nat (length (sr_data cmd_r)) - sr_offset (reader s))).
  destruct (while_terminates (fun s => negb (sr_eof (reader s)))
              (episode_step opcodes use_wstrs) mu Inv) with
    (fuel := S (length (sr_data cmd_r))) (s := mkEpisodeWalk cmd_r [])
    as [[r s] Hw].
  - intros s s' [HD HO] Hc Hb. apply negb_true_iff in Hc.
    destruct (episode_step_progress _ _ _ _ _ Hc HO Hb) as [D O].
    unfold Inv, mu. split; [split; [congruence | lia]|].
    unfold sr_eof, sr_size in Hc. apply Z.leb_gt in Hc. rewrite HD in Hc. lia.
  - unfold Inv. simpl. split; [done | lia].
  - unfold mu. simpl. lia.
  - rewrite Hw. done.
Qed.

Section EpisodeDetectorProperties.
Context `{External}.

Lemma find_quest_episode_from_script_total (data : list Z) (version : Version) :
  is_Some (find_quest_episode_from_script data version).
Proof.
  assert (Hafter : forall w c f he,
    is_Some (match episode_walk data version w c f with
             | None => None
             | Some (_, found) => Some (select_episode found he)
             end)).
  { intros w c f he. destruct (episode_walk_total data version w c f) as [[r found] ->].
    eexists; reflexivity. }
  unfold find_quest_episode_from_script.
  destruct version; try (eexists; reflexivity).
  all: match goal with
       | |- context [get_header_GC ?d] => destruct (get_header_GC d) as [h|]
       | |- context [get_header_BB ?d] => destruct (get_header_BB d) as [h|]
       end; try (eexists; reflexivity).
  all: destruct (episode_for_quest_episode_number _);
       [apply Hafter | eexists; reflexivity].
Qed.

(** After the header has been read, the detector is the walk followed by
    the selection. *)
Lemma find_quest_episode_after_header (data : list Z) (version : Version)
    (code_offset function_table_offset hep : Z) (header_episode : Episode.t) :
  episode_header data version = Ok (code_offset, function_table_offset, hep) ->
  episode_for_quest_episode_number hep = Ok header_episode ->
  find_quest_episode_from_script data version =
    match episode_walk data version (episode_use_wstrs version)
            code_offset function_table_offset with
    | None => None
    | Some (_, found) => Some (select_episode found header_episode)
    end.
Proof.
  unfold episode_header, find_quest_episode_from_script, episode_use_wstrs.
  destruct version; try discriminate.
  all: cbn [rbind]; intros Hh He.
  all: match goal with
       | |- context [get_header_GC ?d] => destruct (get_header_GC d) as [h|]
       | |- context [get_header_BB ?d] => destruct (get_header_BB d) as [h|]
       end; cbn [rbind] in Hh; [|discriminate].
  all: injection Hh as <- <- <-; rewrite He; reflexivity.
Qed.
End EpisodeDetectorProperties.

(** *** Reading from a buffer whose first bytes are known *)

Lemma in_range_prefix (pre rest : list Z) (off size : Z) :
  0 <= off -> off + size <= Z.of_nat (length pre) ->
  in_range (pre ++ rest) off size = true.
Proof.
  intros H0 H1. unfold in_range. rewrite length_app.
  apply andb_true_iff. split; apply Z.leb_le; lia.
Qed.

Lemma byte_at_prefix (pre rest : list Z) (off : Z) :
  0 <= off < Z.of_nat (length pre) -> byte_at (pre ++ rest) off = byte_at pre off.
Proof.
  intros H0. unfold byte_at. f_equal. apply app_nth1. lia.
Qed.

Lemma pget_u8_prefix (pre rest : list Z) (off : Z) :
  0 <= off -> off + 1 <= Z.of_nat (length pre) ->
  pget_u8 (pre ++ rest) off = Ok (byte_at pre off).
Proof.
  intros H0 H1. unfold pget_u8.
  rewrite in_range_prefix, byte_at_prefix by lia. reflexivity.
Qed.

Lemma pget_u32l_prefix (pre rest : list Z) (off : Z) :
  0 <= off -> off + 4 <= Z.of_nat (length pre) ->
  pget_u32l (pre ++ rest) off =
    Ok (byte_at pre off .| Z.shiftl (byte_at pre (off + 1)) 8
        .| Z.shiftl (byte_at pre (off + 2)) 16 .| Z.shiftl (byte_at pre (off + 3)) 24).
Proof.
  intros H0 H1. unfold pget_u32l.
  rewrite in_range_prefix, !byte_at_prefix by lia. reflexivity.
Qed.

(** The low byte of a little-endian 32-bit value is its first byte. *)
Lemma u8_of_le32 (b0 b1 b2 b3 : Z) :
  u8 (u8 b0 .| Z.shiftl b1 8 .| Z.shiftl b2 16 .| Z.shiftl b3 24) = u8 b0.
Proof.
  unfold u8. change 256 with (2 ^ 8). rewrite <- !Z.land_ones by lia.
  apply Z.bits_inj'. intros n Hn.
  rewrite !Z.land_spec, !Z.lor_spec, !Z.land_spec, !Z.shiftl_spec by lia.
  destruct (Z.ltb_spec n 8) as [Hlt|Hge].
  - rewrite !(Z.testbit_neg_r _ (n - _)) by lia.
    rewrite !orb_false_r, <- andb_assoc, andb_diag. reflexivity.
  - rewrite Z.ones_spec_high by lia. rewrite !andb_false_r. reflexivity.
Qed.

(** The two instructions that the scenario is about. *)
Lemma first_definition_set_episode (v : Version) :
  is_v3_v4 v = true ->
  first_definition v 0xF8BC =
    Some (Def 0xF8BC (Some "set_episode") None [ArgT INT32] (F_V3_V4 .| F_SET_EPISODE)).
Proof. destruct v; try discriminate; intros _; vm_compute; reflexivity. Qed.

Lemma first_definition_ret (v : Version) :
  is_v3_v4 v = true ->
  first_definition v 0x0001 = Some (Def 0x0001 (Some "ret") None [] (F_V0_V4 .| F_RET)).
Proof. destruct v; try discriminate; intros _; vm_compute; reflexivity. Qed.

(** Symbolic execution of reads that stay inside the known bytes. *)
Ltac is_pos_literal p :=
  lazymatch p with
  | xH => idtac
  | xO ?q => is_pos_literal q
  | xI ?q => is_pos_literal q
  end.

Ltac is_Z_literal v :=
  lazymatch v with
  | Z0 => idtac
  | Zpos ?p => is_pos_literal p
  | Zneg ?p => is_pos_literal p
  end.

Ltac eval_closed :=
  repeat match goal with
         | |- context [has_flag ?a ?b] =>
             let v := eval vm_compute in (has_flag a b) in
             lazymatch v with
             | true => change (has_flag a b) with v
             | false => change (has_flag a b) with v
             end
         | |- context [u8 ?a] =>
             is_Z_literal a; let v := eval vm_compute in (u8 a) in change (u8 a) with v
         | |- context [u16 ?a] =>
             is_Z_literal a; let v := eval vm_compute in (u16 a) in change (u16 a) with v
         | |- context [Z.land ?a ?b] =>
             is_Z_literal a; is_Z_literal b;
             let v := eval vm_compute in (Z.land a b) in change (Z.land a b) with v
         | |- context [Z.lor ?a ?b] =>
             is_Z_literal a; is_Z_literal b;
             let v := eval vm_compute in (Z.lor a b) in change (Z.lor a b) with v
         | |- context [Z.shiftl ?a ?b] =>
             is_Z_literal a; is_Z_literal b;
             let v := eval vm_compute in (Z.shiftl a b) in change (Z.shiftl a b) with v
         | |- context [Z.add ?a ?b] =>
             is_Z_literal a; is_Z_literal b;
             let v := eval vm_compute in (Z.add a b) in change (Z.add a b) with v
         | |- context [Z.mul ?a ?b] =>
             is_Z_literal a; is_Z_literal b;
             let v := eval vm_compute in (Z.mul a b) in change (Z.mul a b) with v
         end.

Ltac read_known :=
  repeat match goal with
         | |- context [in_range (?pre ++ ?rest) ?off ?size] =>
             rewrite (in_range_prefix pre rest off size) by (cbn; lia)
         | |- context [byte_at (?pre ++ ?rest) ?off] =>
             rewrite (byte_at_prefix pre rest off) by (cbn; lia)
         | |- context [byte_at ?pre ?off] =>
             lazymatch pre with
             | _ ++ _ => fail
             | _ => let v := eval cbv -[u8] in (byte_at pre off) in
                    progress change (byte_at pre off) with v
             end
         end.

Ltac run_known :=
  repeat first
    [ progress read_known
    | progress eval_closed
    | progress cbn -[in_range byte_at episode_for_quest_episode_number app u8 set_emplace
                     has_flag] ].

(** One turn of the detector's loop at a [set_episode] instruction whose
    literal has low byte [b0]. *)
Lemma episode_step_set_episode (opcodes : gmap Z QuestScriptOpcodeDefinition)
    (use_wstrs : bool) (b0 b1 b2 b3 : Z) (rest : list Z) (found : list Episode.t) :
  opcodes !! 0xF8BC =
    Some (Def 0xF8BC (Some "set_episode") None [ArgT INT32] (F_V3_V4 .| F_SET_EPISODE)) ->
  let code := [0xF8; 0xBC; b0; b1; b2; b3] ++ rest in
  episode_step opcodes use_wstrs (mkEpisodeWalk (mkReader code 0) found) =
    match episode_for_quest_episode_number (u8 b0) with
    | Ok e => (Ok true, mkEpisodeWalk (mkReader code 6) (set_emplace e found))
    | Throw e => (Throw e, mkEpisodeWalk (mkReader code 6) found)
    end.
Proof.
  intros Hop code. unfold code.
  unfold episode_step, read_opcode, bind, get_u8, get_u32l, get_with, pget_u8, pget_u32l.
  run_known. rewrite Hop. run_known.
  unfold bind, get_u32l, get_with, pget_u32l, lift, found_emplace, modify, ret.
  run_known. rewrite u8_of_le32.
  destruct (episode_for_quest_episode_number (u8 b0)); reflexivity.
Qed.

(** One turn of the detector's loop at a [ret] instruction. *)
Lemma episode_step_ret (opcodes : gmap Z QuestScriptOpcodeDefinition)
    (use_wstrs : bool) (pre rest : list Z) (found : list Episode.t) :
  opcodes !! 0x0001 = Some (Def 0x0001 (Some "ret") None [] (F_V0_V4 .| F_RET)) ->
  let code := pre ++ 0x01 :: rest in
  let off := Z.of_nat (length pre) in
  episode_step opcodes use_wstrs (mkEpisodeWalk (mkReader code off) found) =
    (Ok false, mkEpisodeWalk (mkReader code (off + 1)) found).
Proof.
  intros Hop code off.
  assert (Hin : in_range code off 1 = true).
  { unfold in_range, code, off. rewrite length_app. simpl length.
    apply andb_true_iff. split; apply Z.leb_le; lia. }
  assert (Hb : byte_at code off = 1).
  { unfold byte_at, code, off. rewrite Nat2Z.id, nth_middle. reflexivity. }
  unfold episode_step, read_opcode, bind, get_u8, get_with, pget_u8.
  cbn [reader EpisodeWalk_reader ew_cmd_r sr_data sr_offset].
  rewrite Hin, Hb. change (Z.land 1 254 =? 248) with false. cbn iota.
  unfold ret at 1. rewrite Hop.
  change (has_flag (flags (Def 1 (Some "ret") None [] (F_V0_V4 .| F_RET))) F_RET) with true.
  reflexivity.
Qed.

Lemma u8_u8 (v : Z) : u8 (u8 v) = u8 v.
Proof. unfold u8. apply Z.mod_mod. lia. Qed.

Lemma set_emplace_NoDup {A : Type} `{EqDecision A} (x : A) (s : list A) :
  NoDup s -> NoDup (set_emplace x s).
Proof.
  intros Hs. unfold set_emplace. case_bool_decide as Hx; [done|].
  apply NoDup_app. split; [done|]. split; [|apply NoDup_singleton].
  intros y Hy ->%list_elem_of_singleton. done.
Qed.

#[local] Instance keeps_distinct_preorder : PreOrder keeps_distinct.
Proof. split; unfold keeps_distinct; [intros s; tauto | intros s1 s2 s3; tauto]. Qed.

Lemma episode_step_keeps_distinct (opcodes : gmap Z QuestScriptOpcodeDefinition)
    (use_wstrs : bool) : respects keeps_distinct (episode_step opcodes use_wstrs).
Proof.
  assert (Hr : forall r s, keeps_distinct s (with_reader r s)) by (intros r s; exact id).
  unfold episode_step.
  apply respects_bind; [apply _ | exact (respects_read_opcode _ Hr) |]. intros op.
  destruct (opcodes !! op) as [def|]; [|apply respects_throw; apply _].
  destruct (has_flag (flags def) F_RET); [apply respects_ret; apply _|].
  apply respects_bind; [apply _ | | intros; apply respects_ret; apply _].
  destruct (negb _); [|apply respects_ret; apply _].
  apply respects_for_each; [apply _|]. intros arg.
  unfold episode_skip_arg.
  destruct (arg_type arg); repeat case_match;
    try exact (respects_skip _ Hr _); try (apply respects_throw; apply _).
  - apply respects_bind; [apply _ | exact (respects_get_with _ Hr _ _) |].
    intros n. exact (respects_skip _ Hr _).
  - apply respects_bind; [apply _ | exact (respects_get_with _ Hr _ _) |].
    intros n. exact (respects_skip _ Hr _).
  - apply respects_bind; [apply _ | exact (respects_get_with _ Hr _ _) |]. intros v.
    apply respects_bind; [apply _ | apply respects_lift; apply _ |]. intros e.
    apply respects_modify. intros s Hs. cbn. by apply set_emplace_NoDup.
  - apply respects_bind; [apply _ | exact (respects_get_cstr_with _ Hr _) |].
    intros; apply respects_ret; apply _.
  - apply respects_bind; [apply _ | exact (respects_get_cstr_with _ Hr _) |].
    intros; apply respects_ret; apply _.
Qed.

Lemma episode_walk_distinct (data : list Z) (version : Version) (use_wstrs : bool)
    (code_offset function_table_offset : Z) (r : result unit) (found : list Episode.t) :
  episode_walk data version use_wstrs code_offset function_table_offset = Some (r, found) ->
  NoDup found.
Proof.
  unfold episode_walk.
  destruct (opcodes_for_version version) as [opcodes|e]; cbn [rbind];
    [|intros [= <- <-]; apply NoDup_nil_2].
  destruct (pget_u32l data function_table_offset) as [entry|e]; cbn [rbind];
    [|intros [= <- <-]; apply NoDup_nil_2].
  destruct (while_ _ _ _ _) as [[r0 s]|] eqn:Hw; [|done].
  intros [= <- <-].
  apply (while_respects keeps_distinct _ _ (episode_step_keeps_distinct opcodes use_wstrs))
    in Hw.
  apply Hw. apply NoDup_nil_2.
Qed.

Lemma episode_of_literal_spec (lit : Z) :
  episode_for_quest_episode_number (u8 lit) =
    match episode_of_literal lit with
    | Some e => Ok e
    | None => Throw (runtime_error ("invalid episode number " +:+ fmt_X 2 (u8 lit)))
    end.
Proof.
  unfold episode_for_quest_episode_number, episode_of_literal.
  repeat case_match; congruence.
Qed.

Lemma sr_sub_skipn (data : list Z) (off : Z) (code : list Z) :
  skipn (Z.to_nat off) data = code -> code <> [] ->
  sr_sub data off = mkReader code 0.
Proof.
  intros Hs Hne. unfold sr_sub.
  destruct (Z.ltb_spec (Z.of_nat (length data)) off) as [Hlt|Hge]; [|by rewrite Hs].
  exfalso. apply Hne. rewrite <- Hs. apply skipn_all2. lia.
Qed.

Lemma while_S {S : Type} (fuel : nat) (cond : S -> bool) (body : M S bool) (s : S) :
  while_ (Datatypes.S fuel) cond body s =
    if cond s then
      match body s with
      | (Ok true, s') => while_ fuel cond body s'
      | (Ok false, s') => Some (Ok tt, s')
      | (Throw e, s') => Some (Throw e, s')
      end
    else Some (Ok tt, s).
Proof. reflexivity. Qed.

Section EpisodeClaims.
Context `{External}.

(** C10: for the six DC and PC builds the detector returns Episode 1
    for every buffer, without reading anything: the result does not
    depend on the buffer nor on how headers are decoded, and it is never
    an error. *)
Theorem find_quest_episode_dc_pc_is_ep1 (data : list Z) :
  find_quest_episode_from_script data DC_NTE = Some (Ok Episode.EP1) /\
  find_quest_episode_from_script data DC_V1_11_2000_PROTOTYPE = Some (Ok Episode.EP1) /\
  find_quest_episode_from_script data DC_V1 = Some (Ok Episode.EP1) /\
  find_quest_episode_from_script data DC_V2 = Some (Ok Episode.EP1) /\
  find_quest_episode_from_script data PC_NTE = Some (Ok Episode.EP1) /\
  find_quest_episode_from_script data PC_V2 = Some (Ok Episode.EP1).
Proof. repeat split. Qed.

(** C4 (amended): in a V3 or V4 quest whose header is well formed and
    whose function 0 is a single [set_episode] followed by [ret], the
    detector returns Episode 1, 2 or 4 for the literals 0, 1 and 2 (the
    literal is read through its low byte, so 0xFF also gives Episode 1);
    for a literal that selects no episode, such as 3, the error raised
    inside the walk is caught and the header's episode is returned. *)
Theorem find_quest_episode_single_set_episode (data : list Z) (version : Version)
    (code_offset function_table_offset hep entry lit : Z) (header_episode : Episode.t)
    (rest : list Z) :
  is_v3_v4 version = true ->
  episode_header data version = Ok (code_offset, function_table_offset, hep) ->
  episode_for_quest_episode_number hep = Ok header_episode ->
  pget_u32l data function_table_offset = Ok entry ->
  skipn (Z.to_nat (code_offset + entry)) data =
    [0xF8; 0xBC] ++ u32_bytes lit ++ [0x01] ++ rest ->
  find_quest_episode_from_script data version =
    Some (Ok (default header_episode (episode_of_literal lit))).
Proof.
  intros Hv Hh He Hentry Hcode.
  rewrite (find_quest_episode_after_header _ _ _ _ _ _ Hh He).
  unfold episode_walk.
  assert (Hok : is_ok (opcodes_for_version version) = true).
  { apply opcodes_for_version_ok; intros ->; discriminate. }
  destruct (opcodes_for_version version) as [opcodes|] eqn:Hops; [|discriminate].
  assert (Hset := opcodes_for_version_lookup _ _ 0xF8BC Hops).
  assert (Hret := opcodes_for_version_lookup _ _ 0x0001 Hops).
  rewrite first_definition_set_episode in Hset by done.
  rewrite first_definition_ret in Hret by done.
  rewrite Hentry. cbn [rbind].
  change ([0xF8; 0xBC] ++ u32_bytes lit ++ [0x01] ++ rest)
    with ([0xF8; 0xBC; u8 lit; u8 (Z.shiftr lit 8); u8 (Z.shiftr lit 16);
           u8 (Z.shiftr lit 24)] ++ 0x01 :: rest) in Hcode.
  rewrite (sr_sub_skipn _ _ _ Hcode) by done.
  cbn [sr_data]. rewrite length_app. cbn [length Nat.add].
  rewrite while_S. cbn [reader EpisodeWalk_reader ew_cmd_r].
  assert (Heof : forall off, off < 7 ->
            sr_eof (mkReader ([0xF8; 0xBC; u8 lit; u8 (Z.shiftr lit 8);
                               u8 (Z.shiftr lit 16); u8 (Z.shiftr lit 24)]
                              ++ 0x01 :: rest) off) = false).
  { intros off Hoff. unfold sr_eof, sr_size. cbn [sr_data sr_offset].
    rewrite length_app. cbn [length]. apply Z.leb_gt. lia. }
  rewrite Heof by lia. cbn [negb].
  rewrite episode_step_set_episode by done.
  rewrite u8_u8, episode_of_literal_spec.
  destruct (episode_of_literal lit) as [e|]; [|reflexivity].
  rewrite while_S. cbn [reader EpisodeWalk_reader ew_cmd_r].
  rewrite Heof by lia. cbn [negb].
  rewrite (episode_step_ret opcodes _
             [0xF8; 0xBC; u8 lit; u8 (Z.shiftr lit 8); u8 (Z.shiftr lit 16);
              u8 (Z.shiftr lit 24)] rest _ Hret).
  reflexivity.
Qed.

(** C6 (amended): once the header has been read, the walk over
    function 0 always ends, it leaves a set [found] of distinct
    episodes, and the result is chosen from that set alone: the header's
    episode when the set is empty, the episode when it has one element,
    a failure when it has more.  This holds whether the walk ended
    normally or in a decode error that was caught; after a caught error
    the header's episode is returned only if no episode had been
    collected before it. *)
Theorem find_quest_episode_selection (data : list Z) (version : Version)
    (code_offset function_table_offset hep : Z) (header_episode : Episode.t) :
  episode_header data version = Ok (code_offset, function_table_offset, hep) ->
  episode_for_quest_episode_number hep = Ok header_episode ->
  exists (walk : result unit) (found : list Episode.t),
    episode_walk data version (episode_use_wstrs version) code_offset
      function_table_offset = Some (walk, found) /\
    NoDup found /\
    (found = [] ->
     find_quest_episode_from_script data version = Some (Ok header_episode)) /\
    (forall e, found = [e] ->
     find_quest_episode_from_script data version = Some (Ok e)) /\
    ((2 <= length found)%nat ->
     find_quest_episode_from_script data version =
       Some (Throw (runtime_error "multiple episodes found"))).
Proof.
  intros Hh He.
  destruct (episode_walk_total data version (episode_use_wstrs version) code_offset
              function_table_offset) as [[walk found] Hw].
  exists walk, found. split; [exact Hw|].
  split; [exact (episode_walk_distinct _ _ _ _ _ _ _ Hw)|].
  rewrite (find_quest_episode_after_header _ _ _ _ _ _ Hh He), Hw.
  repeat split.
  - intros ->. reflexivity.
  - intros e ->. reflexivity.
  - destruct found as [|e1 [|e2 found]]; simpl; intros; try lia. reflexivity.
Qed.
End EpisodeClaims.

(** The scenario of C4 on a concrete GC_V3 quest: literal 1, Episode 2. *)
Lemma find_quest_episode_single_set_episode_witness :
  find_quest_episode_from_script (sample_gc_quest 0 [0xF8; 0xBC; 1; 0; 0; 0; 1]) GC_V3 =
    Some (Ok Episode.EP2).
Proof.
  apply (find_quest_episode_single_set_episode
           (sample_gc_quest 0 [0xF8; 0xBC; 1; 0; 0; 0; 1]) GC_V3
           0x1D4 (0x1D4 + 7) 0 0 1 Episode.EP1 [0; 0; 0; 0]).
  - reflexivity.
  - vm_compute. reflexivity.
  - reflexivity.
  - vm_compute. reflexivity.
  - vm_compute. reflexivity.
Defined.

(** C4 as stated fails: with the literal 3 the detector does not fail, it
    returns the episode of the header (here Episode 2). *)
Lemma find_quest_episode_literal_3_returns :
  find_quest_episode_from_script (sample_gc_quest 1 [0xF8; 0xBC; 3; 0; 0; 0; 1]) GC_V3 =
    Some (Ok Episode.EP2).
Proof. vm_compute. reflexivity. Qed.

(** The selection of C6 on a concrete GC_V3 quest. *)
Lemma find_quest_episode_selection_witness :
  exists (walk : result unit) (found : list Episode.t),
    episode_walk (sample_gc_quest 0 [0xF8; 0xBC; 1; 0; 0; 0; 1]) GC_V3
      (episode_use_wstrs GC_V3) 0x1D4 (0x1D4 + 7) = Some (walk, found) /\
    NoDup found /\
    (found = [] ->
     find_quest_episode_from_script (sample_gc_quest 0 [0xF8; 0xBC; 1; 0; 0; 0; 1]) GC_V3 =
       Some (Ok Episode.EP1)) /\
    (forall e, found = [e] ->
     find_quest_episode_from_script (sample_gc_quest 0 [0xF8; 0xBC; 1; 0; 0; 0; 1]) GC_V3 =
       Some (Ok e)) /\
    ((2 <= length found)%nat ->
     find_quest_episode_from_script (sample_gc_quest 0 [0xF8; 0xBC; 1; 0; 0; 0; 1]) GC_V3 =
       Some (Throw (runtime_error "multiple episodes found"))).
Proof.
  apply (find_quest_episode_selection
           (sample_gc_quest 0 [0xF8; 0xBC; 1; 0; 0; 0; 1]) GC_V3 0x1D4 (0x1D4 + 7) 0
           Episode.EP1).
  - vm_compute. reflexivity.
  - reflexivity.
Defined.

(** C6 as stated fails in its last clause: here the walk collects
    Episode 2 and then ends in a decode error, and the detector returns
    Episode 2, not the header's Episode 1. *)
Lemma find_quest_episode_error_after_set_episode :
  episode_walk (sample_gc_quest 0 [0xF8; 0xBC; 1; 0; 0; 0; 0xF8]) GC_V3 false
    0x1D4 (0x1D4 + 7) =
    Some (Throw (runtime_error "unknown quest opcode F800"), [Episode.EP2]) /\
  episode_header (sample_gc_quest 0 [0xF8; 0xBC; 1; 0; 0; 0; 0xF8]) GC_V3 =
    Ok (0x1D4, 0x1D4 + 7, 0) /\
  episode_for_quest_episode_number 0 = Ok Episode.EP1 /\
  find_quest_episode_from_script (sample_gc_quest 0 [0xF8; 0xBC; 1; 0; 0; 0; 0xF8]) GC_V3 =
    Some (Ok Episode.EP2).
Proof. vm_compute. repeat split. Qed.

(** ** The register allocator *)

(** C8, where the code departs from it: after [(r:a@5, r:b)] and a later
    [r:b@10], [assign_all] returns normally with the two linked registers
    numbered 5 and 10, although [constrain(a, b)] asks for 6; in the set
    [(r:a@5, r:b, r:c@10)] the middle register gets 9 from its right
    neighbour while its left neighbour has 5.  Both programs assemble, and
    the emitted code carries these numbers. *)
Theorem assign_all_breaks_adjacency :
  (exists st st',
     pinned_after_constraint new_RegisterAssigner = (Ok (0%nat, 1%nat), st) /\
     assign_all st = Returns st' /\
     reg_next (reg_at st' 0%nat) = Some 1%nat /\
     reg_prev (reg_at st' 1%nat) = Some 0%nat /\
     reg_number (reg_at st' 0%nat) = 5 /\
     reg_number (reg_at st' 1%nat) = 10 /\
     reg_number (reg_at st' 1%nat) <> Z.land (reg_number (reg_at st' 0%nat) + 1) 0xFF) /\
  (exists st st',
     pinned_both_ends new_RegisterAssigner = (Ok (0%nat, 1%nat, 2%nat), st) /\
     assign_all st = Returns st' /\
     reg_next (reg_at st' 0%nat) = Some 1%nat /\
     reg_next (reg_at st' 1%nat) = Some 2%nat /\
     reg_number (reg_at st' 0%nat) = 5 /\
     reg_number (reg_at st' 1%nat) = 9 /\
     reg_number (reg_at st' 2%nat) = 10) /\
  code_of (assemble_parts EmptyString pinned_source) =
    Some [0x88; 0; 5; 0x10; 10; 0x01; 0; 0] /\
  code_of (assemble_parts EmptyString pinned_both_ends_source) =
    Some [0x8A; 5; 0x10; 5; 0x10; 9; 0x10; 10; 0x01; 0; 0; 0].
Proof.
  split; [|split; [|split]].
  - exists (snd (pinned_after_constraint new_RegisterAssigner)).
    destruct (assign_all (snd (pinned_after_constraint new_RegisterAssigner)))
      as [st'| | |] eqn:Ha; try (vm_compute in Ha; discriminate).
    exists st'. vm_compute in Ha. injection Ha as <-.
    repeat split; try (vm_compute; reflexivity). vm_compute. discriminate.
  - exists (snd (pinned_both_ends new_RegisterAssigner)).
    destruct (assign_all (snd (pinned_both_ends new_RegisterAssigner)))
      as [st'| | |] eqn:Ha; try (vm_compute in Ha; discriminate).
    exists st'. vm_compute in Ha. injection Ha as <-.
    repeat split; vm_compute; reflexivity.
  - vm_compute. reflexivity.
  - vm_compute. reflexivity.
Qed.

(** C9, where the code departs from it: with r0 to r254 in use and a
    chain of two registers to place, the search reaches candidate 255,
    finds slot 255 free and then subscripts [numbered_regs[256]].  The
    state is reached from source text, and [assign_all] runs into the
    same read. *)
Theorem find_register_number_space_reads_past_end :
  let st := snd (numbered_then_pair new_RegisterAssigner) in
  fst (numbered_then_pair new_RegisterAssigner) = Ok tt /\
  length (numbered_regs st) = 0x100%nat /\
  find_register_number_space st 2 = ReadPastEnd 256 /\
  assign_all st = Faults (read_past_end 256) /\
  assemble_parts EmptyString crowded_source = Faults (read_past_end 256).
Proof.
  repeat split; vm_compute; reflexivity.
Qed.

(** ** Round trip, push-args encoding and the effective language *)

Lemma contains_in_orderb_spec (code : list Z) (blocks : list (list Z)) :
  contains_in_orderb code blocks = true <-> contains_in_order code blocks.
Proof.
  revert code. induction blocks as [|block blocks IH]; intros code;
    cbn [contains_in_orderb contains_in_order]; [done|].
  rewrite existsb_exists. split.
  - intros (i & Hi & Hb). apply andb_true_iff in Hb as [Hb Hrest].
    apply bool_decide_eq_true in Hb. apply IH in Hrest.
    exists (firstn i code), (skipn (i + length block) code). split; [|done].
    rewrite <- (firstn_skipn i code) at 1. f_equal.
    rewrite <- (firstn_skipn (length block) (skipn i code)) at 1.
    rewrite Hb. f_equal. rewrite skipn_skipn. f_equal. lia.
  - intros (before & after & -> & Hrest).
    exists (length before). split.
    + apply in_seq. rewrite !length_app. lia.
    + apply andb_true_iff. split.
      * apply bool_decide_eq_true.
        rewrite drop_app_length, take_app_length. reflexivity.
      * apply IH.
        replace (skipn (length before + length block) (before ++ block ++ after))
          with after; [done|].
        rewrite app_assoc, <- length_app, drop_app_length. reflexivity.
Qed.

(** C1, where the code departs from it: the assembler turns
    [jmp start] into an instruction that refers to entry 0 of the function
    table; the disassembler prints that operand as [label0000] but names
    the label of entry 0 [start]; so the text it prints in reassembly mode
    is refused by the assembler, and no binary comes back. *)
Theorem round_trip_fails_on_start_reference :
  exists (Q : list Z) (text : string),
    assemble_quest_script EmptyString jmp_start_source = Returns Q /\
    firstn 4 (skipn 0x1D4 Q) = [0x28; 0x00; 0x00; 0x01] /\
    disassemble_quest_script Q GC_V3 0xFF true false = Some (Ok text) /\
    assemble_quest_script EmptyString text =
      Throws (runtime_error "(line 10) (arg 1) label not defined: label0000").
Proof.
  destruct (assemble_quest_script EmptyString jmp_start_source) as [Q| | |] eqn:HQ;
    try (vm_compute in HQ; discriminate).
  destruct (disassemble_quest_script Q GC_V3 0xFF true false) as [[text|]|] eqn:HT;
    try (vm_compute in HQ; injection HQ as <-; vm_compute in HT; discriminate).
  exists Q, text. split; [reflexivity|].
  vm_compute in HQ. injection HQ as <-.
  vm_compute in HT. injection HT as <-.
  repeat split; vm_compute; reflexivity.
Qed.

(** C2 (amended): for each of the four V3 builds the program assembles
    to [arg_pushb 0x12], [arg_pushs "hello"] with its terminator, then the
    [message] opcode as the single byte 0x50 (its high byte is zero, so it
    is not written in two-byte form), then [ret] and padding. *)
Theorem message_push_args_code :
  code_of (assemble_parts EmptyString (message_source "GC_V3")) =
    Some (arg_pushb_0x12 ++ arg_pushs_hello ++ [0x50] ++ [0x01; 0x00]) /\
  code_of (assemble_parts EmptyString (message_source "GC_EP3_NTE")) =
    Some (arg_pushb_0x12 ++ arg_pushs_hello ++ [0x50] ++ [0x01; 0x00]) /\
  code_of (assemble_parts EmptyString (message_source "GC_EP3")) =
    Some (arg_pushb_0x12 ++ arg_pushs_hello ++ [0x50] ++ [0x01; 0x00]) /\
  code_of (assemble_parts EmptyString (message_source "XB_V3")) =
    Some (arg_pushb_0x12 ++ arg_pushs_hello ++ [0x50] ++ [0x01; 0x00]).
Proof. repeat split; vm_compute; reflexivity. Qed.

(** C2 as stated fails: after the two pushes the code does not contain
    the [message] opcode in two-byte form. *)
Lemma message_opcode_is_not_two_bytes :
  exists code,
    code_of (assemble_parts EmptyString (message_source "GC_V3")) = Some code /\
    ~ contains_in_order code [arg_pushb_0x12; arg_pushs_hello; [0x00; 0x50]].
Proof.
  eexists. split; [vm_compute; reflexivity|].
  rewrite <- contains_in_orderb_spec. vm_compute. discriminate.
Qed.

Section LanguageClaim.
Context `{External}.

(** C3 (amended): the language that the disassembler uses for C
    strings follows the rule of the specification for the DC, PC, GC and
    XB headers, which have a language byte (below 5; below 8 for PC).
    For BB_V4 it is the override when that is not 0xFF and 1 otherwise,
    and for DC_NTE it is always 0: these two headers have no language
    byte, and DC_NTE does not look at the override. *)
Theorem disassemble_header_language (data : list Z) (version : Version)
    (override_language : Z) (h : DasmHeader) :
  disassemble_header data version override_language = Ok h ->
  match version with
  | DC_NTE => h_language h = 0
  | DC_V1_11_2000_PROTOTYPE | DC_V1 | DC_V2 =>
      exists header, get_header_DC data = Ok header /\
        h_language h = spec_effective_language override_language (dc_language header) 5
  | PC_NTE | PC_V2 =>
      exists header, get_header_PC data = Ok header /\
        h_language h = spec_effective_language override_language (pc_language header) 8
  | GC_NTE | GC_V3 | GC_EP3_NTE | GC_EP3 | XB_V3 =>
      exists header, get_header_GC data = Ok header /\
        h_language h = spec_effective_language override_language (gc_language header) 5
  | BB_V4 =>
      h_language h = if negb (override_language =? 0xFF) then override_language else 1
  | PC_PATCH | BB_PATCH | UNKNOWN => False
  end.
Proof.
  unfold disassemble_header. destruct version; try discriminate.
  all: match goal with
       | |- context [get_header_DCNTE ?d] => destruct (get_header_DCNTE d) as [header|]
       | |- context [get_header_DC ?d] => destruct (get_header_DC d) as [header|]
       | |- context [get_header_PC ?d] => destruct (get_header_PC d) as [header|]
       | |- context [get_header_GC ?d] => destruct (get_header_GC d) as [header|]
       | |- context [get_header_BB ?d] => destruct (get_header_BB d) as [header|]
       end; cbn [rbind]; try discriminate.
  all: repeat match goal with
              | |- context [rbind ?x _] => destruct x; cbn [rbind]; try discriminate
              end.
  all: intros [= <-]; cbn [h_language]; try reflexivity.
  all: exists header; split; reflexivity.
Qed.
End LanguageClaim.

(** C3 on a concrete GC_V3 header: no override, header language 1. *)
Lemma disassemble_header_language_witness :
  match disassemble_header (sample_gc_quest 0 [0x01]) GC_V3 0xFF with
  | Ok h =>
      exists header, get_header_GC (sample_gc_quest 0 [0x01]) = Ok header /\
        h_language h = spec_effective_language 0xFF (gc_language header) 5
  | Throw _ => False
  end.
Proof.
  destruct (disassemble_header (sample_gc_quest 0 [0x01]) GC_V3 0xFF) as [h|e] eqn:Hh.
  - exact (disassemble_header_language _ GC_V3 _ _ Hh).
  - vm_compute in Hh. discriminate.
Defined.

(** C3 as stated fails for DC_NTE: with the override 1 (which is not
    0xFF) the language is 0, whatever the rule of the specification is
    given as header language and range. *)
Lemma dc_nte_ignores_override :
  exists h,
    disassemble_header (repeat 0 0x20%nat) DC_NTE 1 = Ok h /\
    h_language h = 0 /\
    forall header_language limit,
      h_language h <> spec_effective_language 1 header_language limit.
Proof.
  eexists. split; [vm_compute; reflexivity|]. split; [reflexivity|].
  intros header_language limit. vm_compute. discriminate.
Qed.

(** ** Ordered maps with integer keys *)

Lemma keys_sorted_cons {V : Type} (k : Z) (v : V) (m : list (Z * V)) :
  keys_sorted ((k, v) :: m) <->
  keys_sorted m /\ forall k' v', (k', v') ∈ m -> k < k'.
Proof. reflexivity. Qed.

Lemma omap_find_sorted {V : Type} (m : list (Z * V)) (k : Z) (v : V) :
  keys_sorted m -> omap_find Z.compare k m = Some v <-> (k, v) ∈ m.
Proof.
  induction m as [|[k' v'] m IH]; simpl; intros Hs.
  - split; [done | by intros ?%elem_of_nil].
  - destruct Hs as [Hs Hlt].
    rewrite elem_of_cons. destruct (Z.compare_spec k k') as [->|Hk|Hk].
    + split; [intros [= ->]; by left|].
      intros [[= ->]|Hin]; [done|]. apply Hlt in Hin. lia.
    + split; [done|]. intros [[= -> ->]|Hin]; [lia|]. apply Hlt in Hin. lia.
    + rewrite (IH Hs). split; [by right|]. intros [[= -> ->]|Hin]; [lia | done].
Qed.

Lemma omap_find_None_sorted {V : Type} (m : list (Z * V)) (k : Z) :
  keys_sorted m -> omap_find Z.compare k m = None <-> forall v, (k, v) ∉ m.
Proof.
  intros Hs. split.
  - intros Hn v Hin. apply (omap_find_sorted m k v Hs) in Hin. congruence.
  - intros Hn. destruct (omap_find Z.compare k m) as [v|] eqn:Hf; [|done].
    apply (omap_find_sorted m k v Hs) in Hf. by apply Hn in Hf.
Qed.

Lemma omap_emplace_elem {K V : Type} (cmp : K -> K -> comparison) (k : K) (v : V)
    (m : list (K * V)) (x : K * V) :
  x ∈ fst (omap_emplace cmp k v m) <->
  x ∈ m \/ (snd (omap_emplace cmp k v m) = true /\ x = (k, v)).
Proof.
  induction m as [|[k' v'] m IH]; simpl.
  - rewrite list_elem_of_singleton. split; [by right | intros [?%elem_of_nil|[_ ->]]; done].
  - destruct (cmp k k'); simpl.
    + split; [by left | intros [Hin|[[=] _]]; done].
    + rewrite elem_of_cons. split; [intros [->|Hin]; [by right | by left]|].
      intros [Hin|[_ ->]]; [by right | by left].
    + destruct (omap_emplace cmp k v m) as [m' b]. simpl in *.
      rewrite !elem_of_cons, IH. tauto.
Qed.

Lemma omap_emplace_sorted {V : Type} (k : Z) (v : V) (m : list (Z * V)) :
  keys_sorted m -> keys_sorted (fst (omap_emplace Z.compare k v m)).
Proof.
  induction m as [|[k' v'] m IH]; simpl; intros Hs.
  - split; [exact I | by intros ? ? ?%elem_of_nil].
  - destruct (Z.compare_spec k k') as [->|Hk|Hk]; simpl; [done| |].
    + split; [done|]. intros k2 v2 [[= -> ->]|Hin]%elem_of_cons; [done|].
      destruct Hs as [_ Hlt]. apply Hlt in Hin. lia.
    + destruct Hs as [Hs Hlt].
      pose proof (omap_emplace_elem Z.compare k v m) as He.
      destruct (omap_emplace Z.compare k v m) as [m' b]. simpl in *.
      split; [by apply IH|].
      intros k2 v2 Hin. apply He in Hin as [Hin|[_ [= -> ->]]]; [by eapply Hlt | done].
Qed.

Lemma omap_emplace_fresh {V : Type} (k : Z) (v : V) (m : list (Z * V)) :
  keys_sorted m -> (forall v', (k, v') ∉ m) -> snd (omap_emplace Z.compare k v m) = true.
Proof.
  induction m as [|[k' v'] m IH]; simpl; intros Hs Hfresh; [done|].
  destruct (Z.compare_spec k k') as [->|Hk|Hk]; simpl; [|done|].
  - exfalso. apply (Hfresh v'). by left.
  - destruct Hs as [Hs _].
    specialize (IH Hs). destruct (omap_emplace Z.compare k v m) as [m' b]. simpl in *.
    apply IH. intros v2 Hin. apply (Hfresh v2). by right.
Qed.

Lemma next_free_index_fresh (m : list (Z * nat)) (n : Z) :
  keys_sorted m ->
  n <= next_free_index m n /\ forall v, (next_free_index m n, v) ∉ m.
Proof.
  revert n. induction m as [|[k v] m IH]; simpl; intros n Hs.
  - split; [lia | by intros ? ?%elem_of_nil].
  - destruct Hs as [Hs Hlt].
    destruct (Z.ltb_spec k n) as [Hk|Hk].
    + destruct (IH n Hs) as [Hle Hf]. split; [done|].
      intros v' [[= Heq _]|Hin]%elem_of_cons; [lia | by apply Hf in Hin].
    + destruct (Z.eqb_spec k n) as [->|Hne].
      * destruct (IH (n + 1) Hs) as [Hle Hf]. split; [lia|].
        intros v' [[= Heq _]|Hin]%elem_of_cons; [lia | by apply Hf in Hin].
      * split; [lia|]. intros v' [[= Heq _]|Hin]%elem_of_cons; [lia|].
        apply Hlt in Hin. lia.
Qed.

(** The last key of a sorted map is its largest. *)
Lemma keys_sorted_last {V : Type} (m : list (Z * V)) (d : Z * V) (k : Z) (v : V) :
  keys_sorted m -> (k, v) ∈ m -> k <= fst (List.last m d) /\ List.last m d ∈ m.
Proof.
  revert k v. induction m as [|[k1 v1] m IH]; intros k v Hs Hin;
    [by apply elem_of_nil in Hin|].
  destruct Hs as [Hs Hlt].
  destruct m as [|[k2 v2] m].
  - apply list_elem_of_singleton in Hin as [= -> ->]. simpl. split; [lia | by left].
  - change (List.last ((k1, v1) :: (k2, v2) :: m) d) with (List.last ((k2, v2) :: m) d).
    assert (Hhead : (k2, v2) ∈ (k2, v2) :: m) by (by left).
    destruct (IH _ _ Hs Hhead) as [Hle Hlast].
    split; [|by right].
    apply elem_of_cons in Hin as [[= -> ->]|Hin].
    + specialize (Hlt k2 v2 Hhead). lia.
    + by destruct (IH _ _ Hs Hin).
Qed.

(** ** The label table of the assembler *)

Lemma labels_ok_empty : labels_ok (mkLabelTable [] [] []).
Proof.
  split; simpl; try done.
  - intros k id Hin. by apply elem_of_nil in Hin.
  - intros name id Hin. by apply elem_of_nil in Hin.
Qed.

Lemma collect_label_ok (line_num : nat) (line : string) (t t' : LabelTable) :
  collect_label line_num line t = Ok t' -> labels_ok t -> labels_ok t'.
Proof.
  unfold collect_label. destruct (negb _); [by intros [= <-]|].
  match goal with |- context [rbind ?x _] => destruct x as [[name index]|] end;
    cbn [rbind]; [|done].
  pose proof (omap_emplace_elem String.compare name (length (asm_labels t))
                (labels_by_name t)) as Hname.
  destruct (omap_emplace String.compare name _ _) as [by_name inserted]. simpl in Hname.
  destruct inserted; cbn [negb]; [|done].
  pose proof (omap_emplace_elem Z.compare index (length (asm_labels t))
                (labels_by_index t)) as Hidx.
  pose proof (omap_emplace_sorted index (length (asm_labels t)) (labels_by_index t))
    as Hsort.
  destruct (omap_emplace Z.compare index _ _) as [by_index inserted]. simpl in Hidx, Hsort.
  intros Ht [Hs Hi Hd Hn Hm].
  assert (Hnew : forall id l,
            (asm_labels t ++ [mkAsmLabel name index (-1)]) !! id = Some l ->
            asm_labels t !! id = Some l \/
            (id = length (asm_labels t) /\ l = mkAsmLabel name index (-1))).
  { intros id l Hl. apply lookup_app_Some in Hl as [Hl|[Hge Hl]]; [by left|]. right.
    apply list_lookup_singleton_Some in Hl as [Hz <-]. split; [lia | done]. }
  destruct (Z.leb_spec 0 index) as [Hpos|Hneg].
  - destruct inserted; cbn [negb] in Ht; [|done]. injection Ht as <-.
    split; cbn [asm_labels labels_by_name labels_by_index].
    + by apply Hsort.
    + intros k id Hin. apply Hidx in Hin as [Hin|[_ [= -> ->]]].
      * destruct (Hi _ _ Hin) as (l & Hl & Hk). exists l. split; [|done].
        by apply lookup_app_l_Some.
      * exists (mkAsmLabel name index (-1)). split; [|done].
        rewrite lookup_app_r, Nat.sub_diag by lia. done.
    + intros id l Hl Hpos'. apply Hidx. apply Hnew in Hl as [Hl|[-> ->]].
      * left. by apply Hd.
      * right. done.
    + intros id l Hl. apply Hnew in Hl as [Hl|[-> ->]].
      * destruct (Hn _ _ Hl) as [nm Hnm]. exists nm. apply Hname. by left.
      * exists name. apply Hname. by right.
    + intros nm id Hin. rewrite length_app. simpl.
      apply Hname in Hin as [Hin|[_ [= -> ->]]]; [apply Hm in Hin|]; lia.
  - injection Ht as <-.
    split; cbn [asm_labels labels_by_name labels_by_index].
    + done.
    + intros k id Hin. destruct (Hi _ _ Hin) as (l & Hl & Hk). exists l. split; [|done].
      by apply lookup_app_l_Some.
    + intros id l Hl Hpos'. apply Hnew in Hl as [Hl|[-> ->]]; [by apply Hd|].
      simpl in Hpos'. lia.
    + intros id l Hl. apply Hnew in Hl as [Hl|[-> ->]].
      * destruct (Hn _ _ Hl) as [nm Hnm]. exists nm. apply Hname. by left.
      * exists name. apply Hname. by right.
    + intros nm id Hin. rewrite length_app. simpl.
      apply Hname in Hin as [Hin|[_ [= -> ->]]]; [apply Hm in Hin|]; lia.
Qed.

Lemma collect_labels_ok (lines : list string) (line_num : nat) (t t' : LabelTable) :
  collect_labels line_num lines t = Ok t' -> labels_ok t -> labels_ok t'.
Proof.
  revert line_num t. induction lines as [|line lines IH]; intros line_num t; simpl.
  - by intros [= <-].
  - destruct (collect_label line_num line t) as [t1|] eqn:Hc; cbn [rbind]; [|done].
    intros Hrest Hok. eapply IH; [done|]. by eapply collect_label_ok.
Qed.

Lemma collect_label_offsets (line_num : nat) (line : string) (t t' : LabelTable) :
  collect_label line_num line t = Ok t' ->
  offsets_within t 0 -> offsets_within t' 0.
Proof.
  unfold collect_label. destruct (negb _); [by intros [= <-]|].
  match goal with |- context [rbind ?x _] => destruct x as [[name index]|] end;
    cbn [rbind]; [|done].
  destruct (omap_emplace String.compare name _ _) as [by_name inserted].
  destruct inserted; cbn [negb]; [|done].
  assert (Hnew : offsets_within t 0 ->
                 forall by_index,
                   offsets_within
                     (mkLabelTable (asm_labels t ++ [mkAsmLabel name index (-1)])
                        by_name by_index) 0).
  { intros Hoff by_index id l Hl. cbn [asm_labels] in Hl.
    apply lookup_app_Some in Hl as [Hl|[_ Hl]]; [by eapply Hoff|].
    apply list_lookup_singleton_Some in Hl as [_ <-]. simpl. lia. }
  destruct (0 <=? index).
  - destruct (omap_emplace Z.compare index _ _) as [by_index inserted].
    destruct inserted; cbn [negb]; [|done]. intros [= <-] Hoff. by apply Hnew.
  - intros [= <-] Hoff. by apply Hnew.
Qed.

Lemma collect_labels_offsets (lines : list string) (line_num : nat) (t t' : LabelTable) :
  collect_labels line_num lines t = Ok t' ->
  offsets_within t 0 -> offsets_within t' 0.
Proof.
  revert line_num t. induction lines as [|line lines IH]; intros line_num t; simpl.
  - by intros [= <-].
  - destruct (collect_label line_num line t) as [t1|] eqn:Hc; cbn [rbind]; [|done].
    intros Hrest Hok. eapply IH; [done|]. by eapply collect_label_offsets.
Qed.

(** The loop that numbers the labels keeps the table consistent, leaves
    the labels that have an index alone, and gives an index to every label
    it visits. *)
Lemma assign_indexes_ok (names : list (string * nat)) (n : Z) (t : LabelTable) :
  0 <= n -> labels_ok t ->
  (forall nm id, (nm, id) ∈ names -> (id < length (asm_labels t))%nat) ->
  labels_ok (assign_indexes names n t) /\
  labels_by_name (assign_indexes names n t) = labels_by_name t /\
  length (asm_labels (assign_indexes names n t)) = length (asm_labels t) /\
  (forall id l, asm_labels t !! id = Some l -> 0 <= al_index l ->
                asm_labels (assign_indexes names n t) !! id = Some l) /\
  (forall nm id, (nm, id) ∈ names ->
     exists l, asm_labels (assign_indexes names n t) !! id = Some l /\ 0 <= al_index l) /\
  (forall size, offsets_within t size -> offsets_within (assign_indexes names n t) size).
Proof.
  revert n t. induction names as [|[nm0 id0] names IH]; intros n t Hn Hok Hids.
  - simpl. split; [done|]. split; [done|]. split; [done|]. split; [done|].
    split; [|done]. intros nm id Hin. by apply elem_of_nil in Hin.
  - assert (Hid0 : (id0 < length (asm_labels t))%nat) by (eapply Hids; by left).
    destruct (lookup_lt_is_Some_2 _ _ Hid0) as [l0 Hl0].
    assert (Hlabel : label_of t id0 = l0) by (unfold label_of; by rewrite Hl0).
    simpl. rewrite Hlabel. destruct (Z.leb_spec 0 (al_index l0)) as [Hpos|Hneg].
    + destruct (IH n t Hn Hok) as (Hok' & Hnames & Hlen & Hkeep & Hall & Hoff).
      { intros nm id Hin. eapply Hids. by right. }
      split; [done|]. split; [done|]. split; [done|]. split; [done|]. split; [|done].
      intros nm id [[= -> ->]|Hin]%elem_of_cons; [|by eapply Hall].
      exists l0. split; [by apply Hkeep | done].
    + destruct (next_free_index_fresh (labels_by_index t) n (lok_sorted _ Hok))
        as [Hge Hfresh].
      set (index := next_free_index (labels_by_index t) n) in *.
      pose proof (omap_emplace_elem Z.compare index id0 (labels_by_index t)) as Helem.
      pose proof (omap_emplace_fresh index id0 (labels_by_index t) (lok_sorted _ Hok) Hfresh)
        as Hins.
      set (t1 := mkLabelTable _ _ _).
      assert (Hok1 : labels_ok t1).
      { destruct Hok as [Hs Hi Hd Hnm Hm].
        split; unfold t1; cbn [asm_labels labels_by_name labels_by_index].
        - by apply omap_emplace_sorted.
        - intros k id Hin. apply Helem in Hin as [Hin|[_ [= -> ->]]].
          + destruct (Hi _ _ Hin) as (l & Hl & Hk & Hk0). exists l. split; [|done].
            rewrite list_lookup_alter_ne; [done|]. intros <-.
            rewrite Hl0 in Hl. injection Hl as <-. lia.
          + exists (set_index index l0). split; [|simpl; split; [done | lia]].
            by rewrite list_lookup_alter_eq, Hl0.
        - intros id l Hl Hpos. apply Helem. destruct (decide (id = id0)) as [->|Hne].
          + right. split; [done|]. rewrite list_lookup_alter_eq, Hl0 in Hl.
            injection Hl as <-. done.
          + left. rewrite list_lookup_alter_ne in Hl by done. by apply Hd.
        - intros id l Hl. destruct (decide (id = id0)) as [->|Hne].
          + by eapply Hnm.
          + rewrite list_lookup_alter_ne in Hl by done. by eapply Hnm.
        - intros nm id Hin. rewrite length_alter. by eapply Hm. }
      destruct (IH (index + 1) t1 ltac:(lia) Hok1)
        as (Hok' & Hnames & Hlen & Hkeep & Hall & Hoff).
      { intros nm id Hin. unfold t1. cbn [asm_labels]. rewrite length_alter.
        eapply Hids. by right. }
      split; [done|]. split; [done|].
      split; [by rewrite Hlen; unfold t1; cbn [asm_labels]; rewrite length_alter|].
      split; [|split].
      * intros id l Hl Hpos. apply Hkeep; [|done]. unfold t1. cbn [asm_labels].
        rewrite list_lookup_alter_ne; [done|]. intros <-.
        rewrite Hl0 in Hl. injection Hl as <-. lia.
      * intros nm id [[= -> ->]|Hin]%elem_of_cons; [|by eapply Hall].
        exists (set_index index l0). split; [|simpl; lia].
        apply Hkeep; [|simpl; lia]. unfold t1. cbn [asm_labels].
        by rewrite list_lookup_alter_eq, Hl0.
      * intros size Hwithin. apply Hoff. intros id l. unfold t1. cbn [asm_labels].
        destruct (decide (id = id0)) as [->|Hne].
        -- rewrite list_lookup_alter_eq, Hl0. intros [= <-]. simpl. by eapply Hwithin.
        -- rewrite list_lookup_alter_ne by done. by apply Hwithin.
Qed.

(** After the labels have been found the table is consistent, every label
    has an index and no label has an offset yet. *)
Lemma find_labels_ok (lines : list string) (t : LabelTable) :
  find_labels lines = Ok t ->
  labels_ok t /\ all_indexed t /\ offsets_within t 0.
Proof.
  unfold find_labels.
  destruct (collect_labels 1 lines _) as [t0|] eqn:Hc; cbn [rbind]; [|done].
  destruct (negb _); [done|]. intros [= <-].
  assert (Hok0 : labels_ok t0) by (eapply collect_labels_ok; [done | apply labels_ok_empty]).
  assert (Hoff0 : offsets_within t0 0).
  { eapply collect_labels_offsets; [done|]. intros id l Hl. done. }
  destruct (assign_indexes_ok (labels_by_name t0) 0 t0 ltac:(lia) Hok0 (lok_names _ Hok0))
    as (Hok & Hnames & Hlen & Hkeep & Hall & Hoff).
  split; [done|]. split; [|by apply Hoff].
  intros id l Hl.
  assert (Hlt : (id < length (asm_labels t0))%nat).
  { rewrite <- Hlen. by eapply lookup_lt_Some. }
  destruct (lookup_lt_is_Some_2 _ _ Hlt) as [l0 Hl0].
  destruct (lok_named _ Hok0 _ _ Hl0) as [nm Hnm].
  destruct (Hall _ _ Hnm) as (l' & Hl' & Hpos). congruence.
Qed.

(** ** What the assembler does to its state while it emits code *)

#[export] Instance asm_frame_preorder : PreOrder asm_frame.
Proof.
  split.
  - intros s. by split.
  - intros s1 s2 s3 [Hl12 Hc12] [Hl23 Hc23]. split; [congruence | lia].
Qed.

Lemma respects_emit (f : list Z -> list Z) :
  (forall w, (length w <= length (f w))%nat) -> respects asm_frame (emit f).
Proof. intros Hf. apply respects_modify. intros s. split; [done | apply Hf]. Qed.

Lemma respects_with_regs {A : Type} (m : M RegisterAssigner A) :
  respects asm_frame (with_regs m).
Proof.
  intros s r s'. unfold with_regs. destruct (m _) as [r' ra]. intros [= <- <-]. by split.
Qed.

Lemma respects_in_arg `{External} {A : Type} (z : nat) (m : M Asm A) :
  respects asm_frame m -> respects asm_frame (in_arg z m).
Proof.
  intros Hm s r s'. unfold in_arg. destruct (m s) as [[a|e] s1] eqn:E; intros [= <- <-];
    exact (Hm _ _ _ E).
Qed.

Create HintDb frame discriminated.
#[export] Hint Resolve respects_with_regs : frame.

Ltac emitted :=
  let w := fresh "w" in
  intros w; cbv [put_u8 put_u16 put_u16l put_u16b put_u32 put_u32l];
  rewrite ?length_app; lia.

Ltac frame :=
  repeat first
    [ apply (respects_ret asm_frame)
    | apply (respects_throw asm_frame)
    | apply (respects_lift asm_frame)
    | apply (respects_gets asm_frame)
    | apply respects_emit; emitted
    | apply respects_with_regs
    | apply respects_in_arg
    | solve [auto with frame]
    | apply (respects_bind asm_frame); [|intros ?]
    | apply (respects_for_each asm_frame); intros ?
    | match goal with
      | |- respects _ (match ?x with _ => _ end) => destruct x
      end ].

Lemma respects_find_label (name : string) : respects asm_frame (find_label name).
Proof. unfold find_label. frame. Qed.
#[export] Hint Resolve respects_find_label : frame.

Lemma respects_reg_number_of (reg : RegId) : respects asm_frame (reg_number_of reg).
Proof. unfold reg_number_of. frame. Qed.
#[export] Hint Resolve respects_reg_number_of : frame.

Lemma respects_parse_reg (arg : string) (allow_unnumbered : bool) :
  respects asm_frame (parse_reg arg allow_unnumbered).
Proof. unfold parse_reg. frame. Qed.
#[export] Hint Resolve respects_parse_reg : frame.

Lemma respects_extend_regs (n : nat) (regs : list RegId) :
  respects asm_frame (extend_regs n regs).
Proof. revert regs. induction n as [|n IH]; intros regs; simpl; frame. Qed.
#[export] Hint Resolve respects_extend_regs : frame.

Lemma respects_parse_reg_tuple (tokens : list string) (regs : list RegId) :
  respects asm_frame (parse_reg_tuple tokens regs).
Proof.
  revert regs. induction tokens as [|token tokens IH]; intros regs; simpl; frame.
Qed.
#[export] Hint Resolve respects_parse_reg_tuple : frame.

Lemma respects_parse_reg_set_fixed (name : string) (expected_count : nat) :
  respects asm_frame (parse_reg_set_fixed name expected_count).
Proof. unfold parse_reg_set_fixed. frame. Qed.
#[export] Hint Resolve respects_parse_reg_set_fixed : frame.

Lemma respects_note_offset (reg : RegId) : respects asm_frame (note_offset reg).
Proof. unfold note_offset, code_size. frame. Qed.
#[export] Hint Resolve respects_note_offset : frame.

Lemma respects_write (s : string) : respects asm_frame (write s).
Proof. unfold write. frame. Qed.
#[export] Hint Resolve respects_write : frame.

Section AssemblerFrame.
Context `{External}.
Variable meta : QuestMeta.
Variable opcodes : gmap string QuestScriptOpcodeDefinition.

Lemma respects_add_cstr (text : string) (bin : bool) :
  respects asm_frame (add_cstr meta text bin).
Proof. unfold add_cstr. frame. Qed.
Hint Resolve respects_add_cstr : frame.

Lemma respects_add_cstr_arg (arg : string) : respects asm_frame (add_cstr_arg meta arg).
Proof. unfold add_cstr_arg. frame. Qed.
Hint Resolve respects_add_cstr_arg : frame.

Lemma respects_asm_push_arg (arg_def : Argument) (arg : string) :
  respects asm_frame (asm_push_arg meta arg_def arg).
Proof. unfold asm_push_arg. frame. Qed.
Hint Resolve respects_asm_push_arg : frame.

Lemma respects_add_label (name : string) (is32 : bool) :
  respects asm_frame (add_label name is32).
Proof. unfold add_label. frame. Qed.
Hint Resolve respects_add_label : frame.

Lemma respects_add_reg (reg : RegId) (is32 : bool) : respects asm_frame (add_reg reg is32).
Proof. unfold add_reg. frame. Qed.
Hint Resolve respects_add_reg : frame.

Lemma respects_asm_direct_arg (arg_def : Argument) (arg : string) :
  respects asm_frame (asm_direct_arg meta arg_def arg).
Proof. unfold asm_direct_arg. frame. Qed.
Hint Resolve respects_asm_direct_arg : frame.

Lemma respects_asm_args (use_args : bool) (z : nat) (arg_defs : list Argument)
    (arg_texts : list string) :
  respects asm_frame (asm_args meta use_args z arg_defs arg_texts).
Proof.
  revert z arg_texts. induction arg_defs as [|arg_def arg_defs IH]; intros z arg_texts;
    simpl; [frame|].
  destruct arg_texts as [|arg arg_texts]; frame.
Qed.
Hint Resolve respects_asm_args : frame.

Lemma respects_emit_opcode (opcode_def : QuestScriptOpcodeDefinition) :
  respects asm_frame (emit_opcode opcode_def).
Proof. unfold emit_opcode. frame. Qed.
Hint Resolve respects_emit_opcode : frame.

Lemma respects_asm_instruction (line_num : nat) (line : string) :
  respects asm_frame (asm_instruction meta opcodes line_num line).
Proof. unfold asm_instruction. frame. Qed.
End AssemblerFrame.

(** ** Whole lines *)

#[export] Instance line_frame_preorder : PreOrder line_frame.
Proof.
  split.
  - intros s. by repeat split.
  - intros s1 s2 s3 (Hn12 & Hi12 & Hx12 & Ho12) (Hn23 & Hi23 & Hx23 & Ho23).
    repeat split; [congruence..|]. intros Ho. by apply Ho23, Ho12.
Qed.

Lemma asm_frame_line_frame (s s' : Asm) : asm_frame s s' -> line_frame s s'.
Proof.
  intros [Hl Hc]. unfold line_frame. rewrite Hl. repeat split.
  intros Ho id l Hid. specialize (Ho id l Hid). lia.
Qed.

Lemma in_line_frame (line_num : nat) (m : M Asm unit) (s s' : Asm) :
  respects asm_frame m -> in_line line_num (m s) = Returns s' -> line_frame s s'.
Proof.
  intros Hm. unfold in_line. destruct (m s) as [[[]|e] s1] eqn:E; [|done].
  intros [= <-]. apply asm_frame_line_frame. exact (Hm _ _ _ E).
Qed.

Lemma fmap_alter_same {A B : Type} (f : A -> B) (g : A -> A) (i : nat) (l : list A) :
  (forall x, f (g x) = f x) -> f <$> alter g i l = f <$> l.
Proof.
  intros Hfg. revert i. induction l as [|x l IH]; intros [|i]; simpl; [done..| |].
  - by rewrite Hfg.
  - f_equal. apply IH.
Qed.

Lemma asm_line_frame `{External} (include_directory : string) (meta : QuestMeta)
    (opcodes : gmap string QuestScriptOpcodeDefinition) (line_num : nat) (line : string)
    (s s' : Asm) :
  asm_line include_directory meta opcodes line_num line s = Returns s' -> line_frame s s'.
Proof.
  unfold asm_line.
  repeat match goal with
         | |- (if ?b then _ else _) = _ -> _ => destruct b
         | |- match ?x with _ => _ end = _ -> _ => destruct x
         end; try discriminate.
  all: try (intros [= <-]; reflexivity).
  all: try (apply in_line_frame; unfold write; frame).
  - intros [= <-]. cbn [line_frame labels code_w asm_labels labels_by_name labels_by_index].
    unfold line_frame. cbn [labels code_w asm_labels labels_by_name labels_by_index].
    split; [done|]. split; [done|]. split; [by apply fmap_alter_same|].
    unfold offsets_within. cbn [labels code_w asm_labels].
    intros Ho id l. rewrite list_lookup_alter. case_decide as Hid.
    + destruct (asm_labels (labels s) !! _); [|done]. intros [= <-]. simpl. lia.
    + apply Ho.
  - intros [= <-]. apply asm_frame_line_frame. split; [done|]. simpl.
    rewrite length_app. lia.
  - apply respects_asm_instruction.
Qed.

Lemma asm_lines_frame `{External} (include_directory : string) (meta : QuestMeta)
    (opcodes : gmap string QuestScriptOpcodeDefinition) (lines : list string)
    (line_num : nat) (s s' : Asm) :
  asm_lines include_directory meta opcodes line_num lines s = Returns s' -> line_frame s s'.
Proof.
  revert line_num s. induction lines as [|line lines IH]; intros line_num s; simpl.
  - intros [= <-]. reflexivity.
  - destruct (asm_line _ _ _ _ _ s) as [s1| | |] eqn:Hline; try discriminate.
    cbn [run_bind]. intros Hrest. transitivity s1.
    + by eapply asm_line_frame.
    + by eapply IH.
Qed.

(** Consistency of the label table only depends on the indexes. *)
Lemma labels_ok_frame (t t' : LabelTable) :
  labels_by_name t' = labels_by_name t ->
  labels_by_index t' = labels_by_index t ->
  al_index <$> asm_labels t' = al_index <$> asm_labels t ->
  (labels_ok t -> labels_ok t') /\ (all_indexed t -> all_indexed t').
Proof.
  intros Hn Hi Hx.
  assert (Hto : forall id l', asm_labels t' !! id = Some l' ->
                  exists l, asm_labels t !! id = Some l /\ al_index l = al_index l').
  { intros id l' Hl'. assert (Hf : (al_index <$> asm_labels t) !! id = Some (al_index l')).
    { rewrite <- Hx, list_lookup_fmap, Hl'. done. }
    rewrite list_lookup_fmap in Hf. destruct (asm_labels t !! id) as [l|]; [|done].
    injection Hf as Hf. by exists l. }
  assert (Hfrom : forall id l, asm_labels t !! id = Some l ->
                    exists l', asm_labels t' !! id = Some l' /\ al_index l' = al_index l).
  { intros id l Hl. assert (Hf : (al_index <$> asm_labels t') !! id = Some (al_index l)).
    { rewrite Hx, list_lookup_fmap, Hl. done. }
    rewrite list_lookup_fmap in Hf. destruct (asm_labels t' !! id) as [l'|]; [|done].
    injection Hf as Hf. by exists l'. }
  split.
  - intros [Hs Hk Hd Hnm Hm]. split; rewrite ?Hn, ?Hi.
    + done.
    + intros k id Hin. destruct (Hk _ _ Hin) as (l & Hl & <- & Hpos).
      destruct (Hfrom _ _ Hl) as (l' & Hl' & Heq). exists l'. rewrite Heq. done.
    + intros id l' Hl' Hpos. destruct (Hto _ _ Hl') as (l & Hl & Heq). rewrite <- Heq.
      apply Hd; [done | lia].
    + intros id l' Hl'. destruct (Hto _ _ Hl') as (l & Hl & Heq). by eapply Hnm.
    + intros nm id Hin. apply Hm in Hin.
      assert (Hlen : length (al_index <$> asm_labels t') = length (al_index <$> asm_labels t))
        by by rewrite Hx.
      rewrite !length_fmap in Hlen. lia.
  - intros Hall id l' Hl'. destruct (Hto _ _ Hl') as (l & Hl & Heq). rewrite <- Heq.
    by eapply Hall.
Qed.

(** ** The function table *)

Lemma function_table_from_spec (t : LabelTable) (remaining : nat) (z : Z)
    (it : list (Z * nat)) (table : list Z) :
  keys_sorted it -> (forall k id, (k, id) ∈ it -> z <= k) ->
  function_table_from t remaining z it = Ok table ->
  length table = remaining /\
  forall j, (j < remaining)%nat ->
    (forall id, (z + Z.of_nat j, id) ∈ it ->
       table !! j = Some (u32 (al_offset (label_of t id))) /\
       0 <= al_offset (label_of t id)) /\
    ((forall id, (z + Z.of_nat j, id) ∉ it) -> table !! j = Some 0xFFFFFFFF).
Proof.
  revert z it table. induction remaining as [|remaining IH]; intros z it table Hs Hge; simpl.
  - intros [= <-]. split; [done | lia].
  - destruct it as [|[first id0] it']; [done|].
    destruct Hs as [Hs Hlt].
    assert (Hfirst : z <= first) by (eapply Hge; by left).
    destruct (Z.ltb_spec z first) as [Hz|Hz].
    + destruct (function_table_from t remaining (z + 1) _) as [rest|] eqn:Hrest;
        cbn [rbind]; [|done].
      intros [= <-]. apply IH in Hrest as [Hlen Hrest]; [|by split|].
      2:{ intros k id [[= -> ->]|Hin]%elem_of_cons; [lia|]. apply Hlt in Hin. lia. }
      split; [simpl; lia|]. intros [|j] Hj.
      * split; [|done]. intros id Hin. apply Hge in Hin as Hk.
        apply elem_of_cons in Hin as [[= Heq _]|Hin]; [lia|]. apply Hlt in Hin. lia.
      * replace (z + Z.of_nat (S j)) with (z + 1 + Z.of_nat j) by lia.
        apply Hrest. lia.
    + assert (first = z) as -> by lia. rewrite Z.eqb_refl.
      destruct (al_offset (label_of t id0) <? 0) eqn:Hoff; [done|].
      destruct (function_table_from t remaining (z + 1) _) as [rest|] eqn:Hrest;
        cbn [rbind]; [|done].
      intros [= <-]. apply IH in Hrest as [Hlen Hrest]; [|done|].
      2:{ intros k id Hin. apply Hlt in Hin. lia. }
      split; [simpl; lia|]. intros [|j] Hj.
      * rewrite Z.add_0_r. split.
        -- intros id [[= ->]|Hin]%elem_of_cons; [split; [done | lia]|].
           apply Hlt in Hin. lia.
        -- intros Hnone. exfalso. apply (Hnone id0). by left.
      * replace (z + Z.of_nat (S j)) with (z + 1 + Z.of_nat j) by lia.
        destruct (Hrest j ltac:(lia)) as [Hin' Hout']. split.
        -- intros id [[= Heq _]|Hin]%elem_of_cons; [lia|]. by apply Hin'.
        -- intros Hnone. apply Hout'. intros id Hin. apply (Hnone id). by right.
Qed.

Lemma fold_max_upper (d : Z) (l : list Z) (x : Z) :
  x ∈ l -> x <= fold_right Z.max d l.
Proof.
  induction l as [|y l IH]; [by intros ?%elem_of_nil|].
  intros [->|Hin]%elem_of_cons; simpl; [lia|]. apply IH in Hin. lia.
Qed.

Lemma fold_max_attained (d : Z) (l : list Z) :
  fold_right Z.max d l = d \/ fold_right Z.max d l ∈ l.
Proof.
  induction l as [|y l IH]; simpl; [by left|].
  destruct (Z.max_spec y (fold_right Z.max d l)) as [[_ ->]|[_ ->]].
  - destruct IH as [IH|IH]; [by left | right; by right].
  - right. by left.
Qed.

(** The size of the function table is one more than the highest index. *)
Lemma function_table_size_highest (t : LabelTable) :
  labels_ok t -> all_indexed t -> function_table_size t = highest_label_index t + 1.
Proof.
  intros Hok Hall. unfold function_table_size, highest_label_index. f_equal.
  destruct (labels_by_index t) as [|[k0 id0] m] eqn:Hm.
  - destruct (asm_labels t) as [|l0 ls] eqn:Hl; [done|]. exfalso.
    assert (Hin : (al_index l0, 0%nat) ∈ labels_by_index t).
    { apply (lok_indexed _ Hok); [by rewrite Hl | apply (Hall 0%nat); by rewrite Hl]. }
    rewrite Hm in Hin. by apply elem_of_nil in Hin.
  - rewrite <- Hm.
    destruct (keys_sorted_last (labels_by_index t) (-1, 0%nat) k0 id0 (lok_sorted _ Hok))
      as [_ Hlast]; [rewrite Hm; by left|].
    destruct (List.last (labels_by_index t) (-1, 0%nat)) as [k id] eqn:Hk. simpl.
    destruct (lok_index _ Hok _ _ Hlast) as (l & Hl & Hkl & Hpos).
    assert (Hle : k <= fold_right Z.max (-1) (al_index <$> asm_labels t)).
    { apply fold_max_upper. rewrite <- Hkl. apply list_elem_of_fmap. exists l.
      split; [done|]. by eapply list_elem_of_lookup_2. }
    destruct (fold_max_attained (-1) (al_index <$> asm_labels t)) as [Heq|Hin]; [lia|].
    apply list_elem_of_fmap in Hin as (l' & Heq & Hin).
    apply list_elem_of_lookup_1 in Hin as [id' Hl'].
    assert (Hin : (al_index l', id') ∈ labels_by_index t).
    { apply (lok_indexed _ Hok); [done | by eapply Hall]. }
    destruct (keys_sorted_last (labels_by_index t) (-1, 0%nat) _ _ (lok_sorted _ Hok) Hin)
      as [Hmax _].
    rewrite Hk in Hmax. simpl in Hmax. lia.
Qed.

Lemma length_patch_register (st : RegisterAssigner) (slot : option RegId) (code : list Z) :
  length (patch_register st code slot) = length code.
Proof.
  destruct slot as [reg|]; [|done]. simpl.
  generalize (reg_offsets (reg_at st reg)). intros offs. revert code.
  induction offs as [|off offs IH]; intros code; simpl; [done|].
  rewrite IH. unfold pput_u8. apply length_insert.
Qed.

Lemma length_patch_registers (st : RegisterAssigner) (code : list Z) :
  length (patch_registers st code) = length code.
Proof.
  unfold patch_registers. generalize (numbered_regs st). intros slots. revert code.
  induction slots as [|slot slots IH]; intros code; simpl; [done|].
  by rewrite IH, length_patch_register.
Qed.

Lemma length_pad4 (code : list Z) : (length code <= length (pad4 code))%nat.
Proof. unfold pad4. rewrite length_app. lia. Qed.

(** When the function table is returned, the addition has not
    overflowed, [reserve] has returned and the table is that of the
    loop. *)
Lemma generate_function_table_returns `{External} (t : LabelTable) (table : list Z) :
  generate_function_table t = Returns table ->
  function_table_from t (Z.to_nat (function_table_size t)) 0 (labels_by_index t) = Ok table /\
  fst (List.last (labels_by_index t) (-1, 0%nat)) <> 2 ^ 63 - 1 /\
  vector_reserve (u64 (function_table_size t)) = Ok tt.
Proof.
  unfold generate_function_table.
  destruct (Z.eqb_spec (fst (List.last (labels_by_index t) (-1, 0%nat))) (2 ^ 63 - 1));
    [done|].
  destruct (vector_reserve _) as [[]|]; [|done].
  destruct (function_table_from _ _ _ _) as [table'|]; cbn [run_of_result]; [|done].
  by intros [= <-].
Qed.

(** The entry of the function table for one index. *)
Lemma generate_function_table_entry `{External} (t : LabelTable) (table : list Z) :
  labels_ok t -> all_indexed t ->
  generate_function_table t = Returns table ->
  Z.of_nat (length table) = highest_label_index t + 1 /\
  forall i, 0 <= i <= highest_label_index t ->
    match label_with_index t i with
    | Some l => table !! Z.to_nat i = Some (u32 (al_offset l)) /\ 0 <= al_offset l
    | None => table !! Z.to_nat i = Some 0xFFFFFFFF
    end.
Proof.
  intros Hok Hall Hgen. apply generate_function_table_returns in Hgen as (Hgen & _ & _).
  pose proof (function_table_size_highest t Hok Hall) as Hsize. rewrite Hsize in Hgen.
  apply function_table_from_spec in Hgen as [Hlen Hentry]; [|by apply (lok_sorted _ Hok)|].
  2:{ intros k id Hin. by destruct (lok_index _ Hok _ _ Hin) as (l & _ & _ & Hpos). }
  assert (Hhigh : -1 <= highest_label_index t).
  { unfold highest_label_index.
    destruct (fold_max_attained (-1) (al_index <$> asm_labels t)) as [->|Hin]; [lia|].
    apply list_elem_of_fmap in Hin as (l & -> & Hin).
    apply list_elem_of_lookup_1 in Hin as [id Hl]. specialize (Hall _ _ Hl). lia. }
  split; [lia|]. intros i Hi.
  destruct (Hentry (Z.to_nat i) ltac:(lia)) as [Hin Hout].
  rewrite Z.add_0_l, Z2Nat.id in Hin, Hout by lia.
  unfold label_with_index. destruct (List.find _ _) as [l|] eqn:Hfind.
  - apply find_some in Hfind as [Hl Heq]. apply Z.eqb_eq in Heq.
    apply list_elem_of_In, list_elem_of_lookup_1 in Hl as [id Hl].
    assert (Hmem : (i, id) ∈ labels_by_index t).
    { rewrite <- Heq. apply (lok_indexed _ Hok); [done | by eapply Hall]. }
    destruct (Hin _ Hmem) as [Hentry' Hpos]. unfold label_of in Hentry', Hpos.
    rewrite Hl in Hentry', Hpos. done.
  - apply Hout. intros id Hmem.
    destruct (lok_index _ Hok _ _ Hmem) as (l & Hl & Heq & _).
    assert (Hne : (al_index l =? i) = false).
    { apply (find_none _ _ Hfind l). by eapply list_elem_of_In, list_elem_of_lookup_2. }
    apply Z.eqb_neq in Hne. done.
Qed.

Lemma keys_sorted_functional {V : Type} (m : list (Z * V)) (k : Z) (v1 v2 : V) :
  keys_sorted m -> (k, v1) ∈ m -> (k, v2) ∈ m -> v1 = v2.
Proof.
  intros Hs H1 H2. apply (omap_find_sorted m k _ Hs) in H1, H2. congruence.
Qed.

(** No two labels of a consistent table share an index. *)
Lemma labels_ok_NoDup (t : LabelTable) :
  labels_ok t -> all_indexed t -> NoDup (al_index <$> asm_labels t).
Proof.
  intros Hok Hall. apply NoDup_alt. intros id1 id2 k H1 H2.
  rewrite list_lookup_fmap in H1, H2.
  destruct (asm_labels t !! id1) as [l1|] eqn:Hl1; [|done].
  destruct (asm_labels t !! id2) as [l2|] eqn:Hl2; [|done].
  injection H1 as H1. injection H2 as H2.
  pose proof (lok_indexed _ Hok _ _ Hl1 (Hall _ _ Hl1)) as Hin1.
  pose proof (lok_indexed _ Hok _ _ Hl2 (Hall _ _ Hl2)) as Hin2.
  rewrite H1 in Hin1. rewrite H2 in Hin2.
  exact (keys_sorted_functional _ _ _ _ (lok_sorted _ Hok) Hin1 Hin2).
Qed.

Section FunctionTableClaim.
Context `{External}.
Variable include_directory : string.

(** What is known of the label table when the assembler succeeds. *)
Lemma assemble_parts_labels (text : string) (q : AssembledQuest) :
  assemble_parts include_directory text = Returns q ->
  labels_ok (aq_labels q) /\ all_indexed (aq_labels q) /\
  offsets_within (aq_labels q) (length (aq_code q)) /\
  generate_function_table (aq_labels q) = Returns (aq_function_table q).
Proof.
  unfold assemble_parts. destruct (strip_lines _) as [[lines|]|]; try discriminate.
  destruct (collect_meta _ _) as [meta|]; cbn [rbind run_of_result run_bind];
    try discriminate.
  destruct (check_meta _) as [?|]; cbn [rbind run_of_result run_bind]; try discriminate.
  destruct (find_labels lines) as [t|] eqn:Hfind; cbn [rbind run_of_result run_bind];
    try discriminate.
  destruct (opcodes_by_name_for_version _) as [opcodes|];
    cbn [rbind run_of_result run_bind]; try discriminate.
  destruct (asm_lines _ _ _ _ _ _) as [s| | |] eqn:Hlines; cbn [run_bind];
    try discriminate.
  destruct (assign_all _) as [st| | |]; cbn [run_bind]; try discriminate.
  destruct (generate_function_table _) as [table| | |] eqn:Htable;
    cbn [run_of_result run_bind]; try discriminate.
  intros [= <-]. cbn [aq_labels aq_code aq_function_table].
  apply find_labels_ok in Hfind as (Hok & Hall & Hoff).
  apply asm_lines_frame in Hlines as (Hn & Hi & Hx & Ho). cbn [labels code_w] in *.
  destruct (labels_ok_frame t (labels s) Hn Hi Hx) as [Hok' Hall'].
  split; [by apply Hok'|]. split; [by apply Hall'|]. split; [|done].
  intros id l Hl. specialize (Ho Hoff id l Hl).
  rewrite length_patch_registers. pose proof (length_pad4 (code_w s)). lia.
Qed.
End FunctionTableClaim.

(** The function table of the program with the labels [start], [second@3]
    and [third]. *)
Lemma labelled_source_function_table :
  exists q,
    assemble_parts (H := Sample.external) EmptyString labelled_source = Returns q /\
    aq_code q = [0x01; 0x01; 0x01; 0x00] /\
    aq_function_table q = [0; 2; 0xFFFFFFFF; 1].
Proof.
  destruct (assemble_parts (H := Sample.external) EmptyString labelled_source)
    as [q| | |] eqn:Hq; vm_compute in Hq; try discriminate.
  exists q. split; [done|]. by injection Hq as <-.
Qed.

(** ** What decoding does to the state of the disassembler *)

Lemma scan_cstr8_bound (rest acc : list Z) :
  snd (scan_cstr8 rest acc) <= Z.of_nat (length rest).
Proof.
  revert acc. induction rest as [|b rest IH]; intros acc; simpl; [lia|].
  destruct (u8 b =? 0); simpl; [lia|].
  specialize (IH (u8 b :: acc)). destruct (scan_cstr8 rest (u8 b :: acc)). simpl in *. lia.
Qed.

Lemma scan_cstr16_bound (fuel : nat) (rest acc : list Z) :
  snd (scan_cstr16 fuel rest acc) <= Z.of_nat (length rest).
Proof.
  revert rest acc. induction fuel as [|fuel IH]; intros rest acc; simpl.
  - destruct rest; simpl; lia.
  - destruct rest as [|b0 [|b1 rest]]; simpl; try lia.
    destruct (_ =? 0); simpl; [lia|].
    specialize (IH rest (u8 b1 :: u8 b0 :: acc)).
    destruct (scan_cstr16 fuel rest _). simpl in *. lia.
Qed.

Lemma elem_of_oset_emplace (k x : Z) (s : list Z) :
  x ∈ oset_emplace k s <-> x = k \/ x ∈ s.
Proof.
  induction s as [|k' s IH]; simpl.
  - rewrite list_elem_of_singleton. split; [by left | intros [?|?%elem_of_nil]; done].
  - destruct (Z.compare_spec k k') as [->|Hk|Hk]; rewrite ?elem_of_cons.
    + split; [by right | intros [->|?]; [by left | done]].
    + done.
    + rewrite IH. tauto.
Qed.

Lemma oset_emplace_ascending (k : Z) (s : list Z) :
  ascending s -> ascending (oset_emplace k s).
Proof.
  induction s as [|k' s IH]; simpl; intros Hs.
  - split; [done | by intros ? ?%elem_of_nil].
  - destruct Hs as [Hs Hlt]. destruct (Z.compare_spec k k') as [->|Hk|Hk]; simpl.
    + done.
    + split; [done|]. intros x [->|Hx]%elem_of_cons; [done|]. apply Hlt in Hx. lia.
    + split; [by apply IH|]. intros x [->|Hx]%elem_of_oset_emplace; [lia | by apply Hlt].
Qed.

Lemma ascending_NoDup (s : list Z) : ascending s -> NoDup s.
Proof.
  induction s as [|k s IH]; simpl; [constructor|]. intros [Hs Hlt].
  constructor; [|by apply IH]. intros Hin. apply Hlt in Hin. lia.
Qed.

#[export] Instance dasm_frame_preorder : PreOrder dasm_frame.
Proof.
  split.
  - intros s. unfold dasm_frame. repeat split; try done. intros off Hoff. by left.
  - intros s1 s2 s3 (Hd12 & Hw12 & Hb12 & Hl12 & Ho12 & Hp12 & Ha12)
      (Hd23 & Hw23 & Hb23 & Hl23 & Ho23 & Hp23 & Ha23).
    unfold dasm_frame. split; [congruence|]. split; [lia|]. split; [by intros ?; apply Hb23, Hb12|].
    split; [congruence|]. split; [congruence|]. split; [|by intros ?; apply Ha23, Ha12].
    intros off Hoff. apply Hp23 in Hoff as [Hoff|Hoff]; [by apply Hp12|]. right. by rewrite <- Ho12.
Qed.

(** Changing only the labels, and not their offsets, or only the operand
    stack. *)
Lemma dasm_frame_same (s s' : Dasm) :
  cmd_r s' = cmd_r s -> dasm_lines s' = dasm_lines s ->
  l_offset <$> function_table s' = l_offset <$> function_table s ->
  pending_dasm_start_offsets s' = pending_dasm_start_offsets s ->
  dasm_frame s s'.
Proof.
  intros Hr Hl Ho Hp. unfold dasm_frame. rewrite Hr, Hl, Ho, Hp.
  repeat split; try done. intros off Hoff. by left.
Qed.

(** Moving the cursor forward inside the buffer. *)
Lemma dasm_frame_skip (s : Dasm) (n : Z) :
  0 <= n ->
  (sr_where (cmd_r s) <= sr_size (cmd_r s) -> sr_where (cmd_r s) + n <= sr_size (cmd_r s)) ->
  dasm_frame s (with_reader (sr_skip (cmd_r s) n) s).
Proof.
  intros Hn Hin. unfold dasm_frame, sr_where, sr_size in *. simpl.
  repeat split; try done; try lia. intros off Hoff. by left.
Qed.

Lemma dasm_frame_get_with (pget : list Z -> Z -> result Z) (size : Z) :
  0 <= size ->
  (forall data off v, pget data off = Ok v -> off + size <= Z.of_nat (length data)) ->
  respects dasm_frame (get_with pget size).
Proof.
  intros Hsize Hpget s r s'. unfold get_with.
  destruct (pget _ _) as [v|e] eqn:Hv; intros [= <- <-]; [|reflexivity].
  apply dasm_frame_skip; [done|]. intros _. apply Hpget in Hv. unfold sr_where, sr_size.
  exact Hv.
Qed.

Lemma in_range_bound (data : list Z) (off size : Z) :
  in_range data off size = true -> 0 <= off /\ off + size <= Z.of_nat (length data).
Proof. unfold in_range. intros [?%Z.leb_le ?%Z.leb_le]%andb_prop. done. Qed.

Lemma dasm_frame_get_u8 : respects dasm_frame (get_u8 (S := Dasm)).
Proof.
  apply dasm_frame_get_with; [lia|]. intros data off v. unfold pget_u8.
  destruct (in_range _ _ _) eqn:Hr; [|done]. intros _. by apply in_range_bound in Hr as [_ ?].
Qed.

Lemma dasm_frame_get_u16l : respects dasm_frame (get_u16l (S := Dasm)).
Proof.
  apply dasm_frame_get_with; [lia|]. intros data off v. unfold pget_u16l.
  destruct (in_range _ _ _) eqn:Hr; [|done]. intros _. by apply in_range_bound in Hr as [_ ?].
Qed.

Lemma dasm_frame_get_u32l : respects dasm_frame (get_u32l (S := Dasm)).
Proof.
  apply dasm_frame_get_with; [lia|]. intros data off v. unfold pget_u32l.
  destruct (in_range _ _ _) eqn:Hr; [|done]. intros _. by apply in_range_bound in Hr as [_ ?].
Qed.

Lemma dasm_frame_get_cstr_with (scan : list Z -> result (list Z) * Z) :
  (forall l, 0 <= snd (scan l) <= Z.of_nat (length l)) ->
  respects dasm_frame (get_cstr_with (S := Dasm) scan).
Proof.
  intros Hscan s r s'. unfold get_cstr_with.
  destruct (Z.ltb_spec (sr_offset (reader s)) 0) as [Hneg|Hpos];
    [intros [= <- <-]; reflexivity|].
  specialize (Hscan (skipn (Z.to_nat (sr_offset (reader s))) (sr_data (reader s)))).
  destruct (scan _) as [res n]. intros [= <- <-]. simpl in Hscan.
  rewrite length_skipn in Hscan.
  apply dasm_frame_skip; [lia|]. unfold sr_where, sr_size. simpl in *. lia.
Qed.

Lemma dasm_frame_get_cstr8 : respects dasm_frame (get_cstr8 (S := Dasm)).
Proof.
  apply dasm_frame_get_cstr_with. intros l.
  split; [apply scan_cstr8_consumed | apply scan_cstr8_bound].
Qed.

Lemma dasm_frame_get_cstr16 : respects dasm_frame (get_cstr16 (S := Dasm)).
Proof.
  apply dasm_frame_get_cstr_with. intros l.
  split; [apply scan_cstr16_consumed | apply scan_cstr16_bound].
Qed.

Lemma dasm_frame_push_arg (v : ArgStackValue.t) : respects dasm_frame (push_arg v).
Proof. apply respects_modify. intros s. by apply dasm_frame_same. Qed.

Lemma dasm_frame_clear_args : respects dasm_frame clear_args.
Proof. apply respects_modify. intros s. by apply dasm_frame_same. Qed.

Lemma dasm_frame_update_label (id : Z) (f : Label -> Label) :
  (forall l, l_offset (f l) = l_offset l) -> respects dasm_frame (update_label id f).
Proof.
  intros Hf. apply respects_modify. intros s. apply dasm_frame_same; try done.
  simpl. by apply fmap_alter_same.
Qed.

Lemma dasm_frame_add_pending (off : Z) (s : Dasm) :
  off ∈ l_offset <$> function_table s ->
  forall r s', add_pending off s = (r, s') -> dasm_frame s s'.
Proof.
  intros Hoff r s' [= <- <-]. unfold dasm_frame. simpl.
  repeat split; try done.
  - intros off' [->|Hin]%elem_of_oset_emplace; [by right | by left].
  - apply oset_emplace_ascending.
Qed.

Create HintDb dasm discriminated.
#[export] Hint Resolve dasm_frame_get_u8 dasm_frame_get_u16l dasm_frame_get_u32l
  dasm_frame_get_cstr8 dasm_frame_get_cstr16 dasm_frame_push_arg dasm_frame_clear_args
  : dasm.
#[export] Hint Extern 1 (respects dasm_frame (update_label _ _)) =>
  (apply dasm_frame_update_label; intros ?; reflexivity) : dasm.

Ltac dasm_framed :=
  repeat first
    [ apply (respects_ret dasm_frame)
    | apply (respects_throw dasm_frame)
    | apply (respects_lift dasm_frame)
    | apply (respects_gets dasm_frame)
    | solve [auto with dasm]
    | apply (respects_bind dasm_frame); [|intros ?]
    | match goal with
      | |- respects _ (match ?x with _ => _ end) => destruct x
      end ].

Section DisassemblerFrame.
Context `{External}.
Variable P : DasmParams.

Lemma dasm_frame_dasm_label (opcode_start_offset : Z) (arg : Argument) (label_id : Z) :
  respects dasm_frame (dasm_label P opcode_start_offset arg label_id).
Proof.
  unfold dasm_label. intros s r s'. unfold bind at 1. unfold label_at at 1, gets.
  destruct (if label_id <? 0 then None else function_table s !! Z.to_nat label_id)
    as [l|] eqn:Hl; [|by intros [= <- <-]].
  assert (Hin : l_offset l ∈ l_offset <$> function_table s).
  { destruct (label_id <? 0); [done|]. apply list_elem_of_fmap. exists l.
    split; [done|]. by eapply list_elem_of_lookup_2. }
  unfold bind, update_label, add_pending, modify, ret.
  assert (Hoffsets : forall ft : list Label,
            l_offset <$> alter (add_data_type (arg_data_type arg)) (Z.to_nat label_id)
                           (alter (add_reference opcode_start_offset) (Z.to_nat label_id) ft)
            = l_offset <$> ft).
  { intros ft. by rewrite !fmap_alter_same. }
  destruct (bool_decide _); intros [= <- <-]; unfold dasm_frame; simpl;
    rewrite Hoffsets; repeat split; try done; try lia.
  - intros off [->|Hoff]%elem_of_oset_emplace; [by right | by left].
  - apply oset_emplace_ascending.
  - intros off Hoff. by left.
Qed.
Hint Resolve dasm_frame_dasm_label : dasm.

Lemma dasm_frame_dasm_set_items (n : nat) (item : M Dasm string) (dasm_arg : string) :
  respects dasm_frame item -> respects dasm_frame (dasm_set_items n item dasm_arg).
Proof.
  intros Hitem. revert dasm_arg. induction n as [|n IH]; intros dasm_arg; simpl;
    dasm_framed.
Qed.

Lemma dasm_frame_dasm_direct_arg (opcode_start_offset : Z)
    (def : QuestScriptOpcodeDefinition) (arg : Argument) :
  respects dasm_frame (dasm_direct_arg P opcode_start_offset def arg).
Proof.
  unfold dasm_direct_arg, when_pass.
  dasm_framed; apply dasm_frame_dasm_set_items; dasm_framed.
Qed.
Hint Resolve dasm_frame_dasm_direct_arg : dasm.

Lemma dasm_frame_dasm_direct_args (opcode_start_offset : Z)
    (def : QuestScriptOpcodeDefinition) (args : list Argument) (is_first_arg : bool)
    (dasm_line : string) :
  respects dasm_frame
    (dasm_direct_args P opcode_start_offset def args is_first_arg dasm_line).
Proof.
  revert is_first_arg dasm_line. induction args as [|arg args IH];
    intros is_first_arg dasm_line; simpl; dasm_framed.
Qed.
Hint Resolve dasm_frame_dasm_direct_args : dasm.

Lemma dasm_frame_dasm_stack_arg (opcode_start_offset : Z) (arg_def : Argument)
    (arg_value : ArgStackValue.t) :
  respects dasm_frame (dasm_stack_arg opcode_start_offset arg_def arg_value).
Proof. unfold dasm_stack_arg, label_at. dasm_framed. Qed.
Hint Resolve dasm_frame_dasm_stack_arg : dasm.

Lemma dasm_frame_dasm_stack_args (opcode_start_offset : Z) (arg_defs : list Argument)
    (arg_values : list ArgStackValue.t) (is_first_arg : bool) (dasm_line : string) :
  respects dasm_frame
    (dasm_stack_args opcode_start_offset arg_defs arg_values is_first_arg dasm_line).
Proof.
  revert arg_values is_first_arg dasm_line. induction arg_defs as [|arg_def arg_defs IH];
    intros arg_values is_first_arg dasm_line; simpl; [dasm_framed|].
  destruct arg_values; dasm_framed.
Qed.
Hint Resolve dasm_frame_dasm_stack_args : dasm.

Lemma dasm_frame_read_opcode : respects dasm_frame (read_opcode (S := Dasm)).
Proof. unfold read_opcode. dasm_framed. Qed.
Hint Resolve dasm_frame_read_opcode : dasm.

Lemma dasm_frame_dasm_instruction (opcode_start_offset : Z) :
  respects dasm_frame (dasm_instruction P opcode_start_offset).
Proof. unfold dasm_instruction. dasm_framed. Qed.
End DisassemblerFrame.

#[export] Hint Resolve dasm_frame_dasm_label dasm_frame_dasm_direct_arg
  dasm_frame_dasm_direct_args dasm_frame_dasm_stack_arg dasm_frame_dasm_stack_args
  dasm_frame_read_opcode : dasm.

(** ** One turn of the decode loop *)

Lemma string_append_assoc (a b c : string) : (a +:+ b) +:+ c = a +:+ (b +:+ c).
Proof.
  induction a as [|ch a IH]; [done|].
  change (String ch ((a +:+ b) +:+ c) = String ch (a +:+ (b +:+ c))). by rewrite IH.
Qed.

Section DisassemblerChain.
Context `{External}.
Variable P : DasmParams.

Lemma chain_continues_spec (s : Dasm) :
  chain_continues s = true <->
  sr_where (cmd_r s) < sr_size (cmd_r s) /\ dasm_lines s !! sr_where (cmd_r s) = None.
Proof.
  unfold chain_continues, sr_eof, sr_where.
  rewrite andb_true_iff, !negb_true_iff, Z.leb_gt, bool_decide_eq_false.
  rewrite <- eq_None_not_Some. done.
Qed.

(** Decoding at a cursor that is inside the code consumes at least one
    byte, whether it succeeds or fails. *)
Lemma dasm_instruction_progress (s s1 : Dasm) (res : result string) :
  sr_where (cmd_r s) < sr_size (cmd_r s) -> 0 <= sr_where (cmd_r s) ->
  dasm_instruction P (sr_where (cmd_r s)) s = (res, s1) ->
  dasm_frame s s1 /\ sr_where (cmd_r s) + 1 <= sr_where (cmd_r s1).
Proof.
  intros Hlt Hpos Hrun. split; [exact (dasm_frame_dasm_instruction P _ _ _ _ Hrun)|].
  revert Hrun. unfold dasm_instruction.
  match goal with
  | |- bind _ ?k s = _ -> _ =>
      assert (Hk : forall opcode, respects dasm_frame (k opcode))
        by (intros opcode; dasm_framed);
      generalize dependent k
  end.
  intros k Hk. unfold bind.
  destruct (read_opcode s) as [[opcode|e] s0] eqn:Hop.
  - apply read_opcode_progress in Hop as [_ Hstep].
    + intros Hrun. apply Hk in Hrun as (_ & Hw & _). unfold sr_where in *. simpl in *. lia.
    + unfold sr_eof, sr_size in *. simpl. apply Z.leb_gt. done.
    + done.
  - intros [= <- <-]. apply read_opcode_progress in Hop as [_ Hstep].
    + unfold sr_where. simpl in *. lia.
    + unfold sr_eof, sr_size in *. simpl. apply Z.leb_gt. done.
    + done.
Qed.

(** One turn of the loop never throws: it records a line at the cursor
    and leaves the cursor where decoding stopped. *)
Lemma dasm_one_ok (s s1 : Dasm) (res : result string) :
  sr_where (cmd_r s) < sr_size (cmd_r s) -> 0 <= sr_where (cmd_r s) ->
  dasm_instruction P (sr_where (cmd_r s)) s = (res, s1) ->
  exists prefix,
    dasm_one P s =
      Ok (mkDasm (cmd_r s1) (function_table s1)
            (<[sr_where (cmd_r s) :=
                 mkDisassemblyLine (prefix +:+ recorded_text res) (sr_where (cmd_r s1))]>
               (dasm_lines s1))
            (pending_dasm_start_offsets s1) (arg_stack_values s1)) /\
    (p_reassembly_mode P = true -> prefix = "  ").
Proof.
  intros Hlt Hpos Hrun.
  destruct (dasm_instruction_progress _ _ _ Hlt Hpos Hrun) as [Hframe Hstep].
  destruct Hframe as (Hdata & _ & Hbound & _).
  unfold dasm_one. rewrite Hrun. fold (recorded_text res).
  destruct (p_reassembly_mode P); cbn [rbind].
  - exists "  ". done.
  - unfold preadx.
    replace (in_range _ _ _) with true.
    2:{ symmetry. unfold in_range. apply andb_true_intro.
        unfold sr_where, sr_size in *. rewrite Hdata in *.
        split; apply Z.leb_le; lia. }
    cbn [rbind]. eexists. split; [|intros [=]].
    rewrite <- !string_append_assoc. reflexivity.
Qed.
End DisassemblerChain.

(** ** The decode loops always come to an end *)

Lemma ascending_length (p l : list Z) :
  ascending p -> (forall x, x ∈ p -> x ∈ l) -> (length p <= length l)%nat.
Proof.
  intros Hp Hsub. apply submseteq_length, NoDup_submseteq; [by apply ascending_NoDup | done].
Qed.

Lemma size_candidates (n : Z) :
  0 <= n -> size (list_to_set (seqZ 0 n) : gset Z) = Z.to_nat n.
Proof.
  intros Hn. rewrite size_list_to_set by apply NoDup_seqZ. apply length_seqZ.
Qed.

Lemma undecoded_size (s : Dasm) : (size (undecoded s) <= length (sr_data (cmd_r s)))%nat.
Proof.
  unfold undecoded.
  transitivity (size (list_to_set (seqZ 0 (sr_size (cmd_r s))) : gset Z));
    [apply subseteq_size; intros x [Hx _]%elem_of_difference; exact Hx|].
  rewrite size_candidates by (unfold sr_size; lia). unfold sr_size. lia.
Qed.

Section DisassemblerTotal.
Context `{External}.
Variable P : DasmParams.

(** One turn of the loop from a good state. *)
Lemma dasm_one_step (s : Dasm) :
  chain_continues s = true -> 0 <= sr_where (cmd_r s) -> walk_ok s ->
  exists s2,
    dasm_one P s = Ok s2 /\ walk_ok s2 /\
    sr_data (cmd_r s2) = sr_data (cmd_r s) /\
    sr_where (cmd_r s) + 1 <= sr_where (cmd_r s2) /\
    length (function_table s2) = length (function_table s) /\
    undecoded s2 ⊂ undecoded s.
Proof.
  intros [Hlt Hfresh]%chain_continues_spec Hpos (Hasc & Hpend & Hoffs & Hkeys).
  destruct (dasm_instruction P (sr_where (cmd_r s)) s) as [res s1] eqn:Hrun.
  destruct (dasm_instruction_progress P _ _ _ Hlt Hpos Hrun) as [Hframe Hstep].
  destruct (dasm_one_ok P _ _ _ Hlt Hpos Hrun) as (prefix & Hone & _).
  destruct Hframe as (Hdata & _ & _ & Hlines & Hsame & Hnew & Hasc').
  eexists. split; [exact Hone|].
  assert (Hsize : sr_size (cmd_r s1) = sr_size (cmd_r s)) by (unfold sr_size; by rewrite Hdata).
  split; [|split; [done|]; split; [done|]; split].
  - unfold walk_ok. cbn [cmd_r function_table dasm_lines pending_dasm_start_offsets].
    rewrite Hsame, Hsize, Hlines. split; [by apply Hasc'|]. split; [|split; [done|]].
    + intros off Hoff. apply Hnew in Hoff as [Hoff|Hoff]; [by apply Hpend | done].
    + intros k [Hk|Hk]%lookup_insert_is_Some; [subst k; lia | apply Hkeys, Hk].
  - cbn [function_table].
    assert (Hlen : length (l_offset <$> function_table s1)
                   = length (l_offset <$> function_table s)) by by rewrite Hsame.
    by rewrite !length_fmap in Hlen.
  - unfold undecoded. cbn [cmd_r dasm_lines]. rewrite Hsize, Hlines, dom_insert_L.
    assert (Hin : sr_where (cmd_r s) ∈ (list_to_set (seqZ 0 (sr_size (cmd_r s))) : gset Z)).
    { apply elem_of_list_to_set, elem_of_seqZ. lia. }
    assert (Hout : sr_where (cmd_r s) ∉ dom (dasm_lines s)) by by apply not_elem_of_dom.
    split.
    + intros x [Hx Hn]%elem_of_difference. apply elem_of_difference. split; [done|].
      intros Hd. apply Hn, elem_of_union. by right.
    + intros Hsub.
      assert (Hk : sr_where (cmd_r s)
                   ∈ (list_to_set (seqZ 0 (sr_size (cmd_r s))) : gset Z)
                     ∖ dom (dasm_lines s))
        by (by apply elem_of_difference).
      apply Hsub, elem_of_difference in Hk as [_ Hk]. apply Hk, elem_of_union. left.
      by apply elem_of_singleton.
Qed.

(** The inner loop ends without an exception. *)
Lemma dasm_chain_total (fuel : nat) (s : Dasm) :
  walk_ok s -> 0 <= sr_where (cmd_r s) ->
  (Z.to_nat (sr_size (cmd_r s) - sr_where (cmd_r s)) < fuel)%nat ->
  exists s',
    dasm_chain P fuel s = Some (Ok s') /\ walk_ok s' /\
    sr_data (cmd_r s') = sr_data (cmd_r s) /\
    length (function_table s') = length (function_table s) /\
    (chain_continues s = false -> s' = s) /\
    (chain_continues s = true -> undecoded s' ⊂ undecoded s).
Proof.
  revert s. induction fuel as [|fuel IH]; intros s Hok Hpos Hfuel; [lia|].
  simpl. destruct (chain_continues s) eqn:Hcont.
  - destruct (dasm_one_step s Hcont Hpos Hok)
      as (s2 & Hone & Hok2 & Hdata2 & Hstep & Hlen2 & Hsub2).
    rewrite Hone.
    destruct (IH s2 Hok2 ltac:(lia)) as (s' & Hchain & Hok' & Hdata' & Hlen' & Hsame & Hsub').
    { apply chain_continues_spec in Hcont as [Hlt _]. unfold sr_size in *.
      rewrite Hdata2. lia. }
    exists s'. split; [done|]. split; [done|]. split; [congruence|]. split; [congruence|].
    split; [done|]. intros _.
    destruct (chain_continues s2) eqn:Hcont2.
    + specialize (Hsub' eq_refl). by transitivity (undecoded s2).
    + rewrite (Hsame eq_refl). done.
  - exists s. split; [done|]. split; [done|]. split; [done|]. split; [done|].
    split; [done | intros [=]].
Qed.

(** The measure of the walk. *)
Lemma dasm_walk_total_from (fuel : nat) (s : Dasm) :
  walk_ok s ->
  (size (undecoded s) * S (length (function_table s))
     + length (pending_dasm_start_offsets s) < fuel)%nat ->
  exists s', dasm_walk P fuel s = Some (Ok s') /\ pending_dasm_start_offsets s' = [].
Proof.
  revert s. induction fuel as [|fuel IH]; intros s Hok Hfuel; [lia|].
  cbn [dasm_walk]. destruct (pending_dasm_start_offsets s) as [|off rest] eqn:Hpending;
    [by exists s|].
  destruct Hok as (Hasc & Hpend & Hoffs & Hkeys). rewrite Hpending in Hasc, Hpend.
  set (s1 := start_chain off rest s).
  assert (Hok1 : walk_ok s1).
  { unfold walk_ok, s1. simpl. destruct Hasc as [Hasc _]. split; [done|].
    split; [|done]. intros x Hx. apply Hpend. by right. }
  assert (Hoff : 0 <= off) by (apply Hoffs, Hpend; by left).
  destruct (dasm_chain_total (chain_fuel s1) s1 Hok1 Hoff)
    as (s2 & Hchain & Hok2 & Hdata2 & Hlen2 & Hsame & Hsub).
  { unfold chain_fuel, s1, sr_size. simpl. lia. }
  rewrite Hchain. apply IH; [done|].
  assert (Hu1 : undecoded s1 = undecoded s) by done.
  assert (Hf1 : length (function_table s1) = length (function_table s)) by done.
  simpl in Hfuel. destruct (chain_continues s1) eqn:Hcont.
  - specialize (Hsub eq_refl). apply subset_size in Hsub. rewrite Hu1 in Hsub.
    assert (Hp2 : (length (pending_dasm_start_offsets s2) <= length (function_table s2))%nat).
    { destruct Hok2 as (Hasc2 & Hpend2 & _).
      rewrite <- (length_fmap l_offset (function_table s2)).
      by apply ascending_length. }
    rewrite Hlen2, Hf1 in *. nia.
  - rewrite (Hsame eq_refl), Hu1, Hf1. unfold s1. simpl. lia.
Qed.

(** The walk of the disassembler always ends, without an exception and
    with nothing left pending. *)
Lemma dasm_walk_total (s : Dasm) :
  walk_ok s ->
  exists s', dasm_walk P (walk_fuel s) s = Some (Ok s') /\ pending_dasm_start_offsets s' = [].
Proof.
  intros Hok. apply dasm_walk_total_from; [done|]. unfold walk_fuel.
  pose proof (undecoded_size s) as Hu.
  assert (Hp : (length (pending_dasm_start_offsets s) <= length (function_table s))%nat).
  { destruct Hok as (Hasc & Hpend & _).
    rewrite <- (length_fmap l_offset (function_table s)). by apply ascending_length. }
  nia.
Qed.
End DisassemblerTotal.

(** ** The state in which the walk starts *)

Lemma strip_trailing_whitespace_paren (s : string) :
  strip_trailing_whitespace (s +:+ ")") = s +:+ ")".
Proof.
  induction s as [|c s IH]; [done|].
  change (match strip_trailing_whitespace (s +:+ ")") with
          | EmptyString => if is_space c then EmptyString else String c EmptyString
          | rest => String c rest
          end = String c (s +:+ ")")).
  rewrite IH. by destruct s.
Qed.

Lemma recorded_text_failed (e : exception) :
  recorded_text (Throw e) = ".failed (" +:+ what e +:+ ")".
Proof.
  unfold recorded_text. rewrite <- string_append_assoc.
  apply strip_trailing_whitespace_paren.
Qed.

Lemma lor_nonneg (a b : Z) : 0 <= a -> 0 <= b -> 0 <= Z.lor a b.
Proof. intros Ha Hb. by apply Z.lor_nonneg. Qed.

Lemma read_function_table_offsets (bytes : list Z) (function_id : Z) (off : Z) :
  off ∈ l_offset <$> read_function_table bytes function_id -> 0 <= off.
Proof.
  remember (length bytes) as n eqn:Hn. revert bytes function_id Hn.
  induction n as [n IH] using lt_wf_ind. intros bytes function_id Hn.
  destruct bytes as [|b0 [|b1 [|b2 [|b3 rest]]]]; try by intros ?%elem_of_nil.
  cbn [read_function_table]. rewrite fmap_cons. intros [->|Hin]%elem_of_cons.
  - assert (Hoff : forall l, l_offset (if function_id =? 0
                                         then add_data_type DataType.SCRIPT l else l)
                             = l_offset l) by (intros l; by destruct (_ =? _)).
    rewrite Hoff. cbn [l_offset].
    pose proof (u8_range b0). pose proof (u8_range b1).
    pose proof (u8_range b2). pose proof (u8_range b3).
    repeat apply lor_nonneg; try apply Z.shiftl_nonneg; lia.
  - eapply (IH (length rest)); [|reflexivity|exact Hin]. subst n. simpl. lia.
Qed.

Lemma initial_pending_from (labels : list Label) (code_size : Z) (acc : list Z) :
  let pending :=
    fold_left (fun pending l =>
                 if l_offset l <? code_size then oset_emplace (l_offset l) pending
                 else pending) labels acc in
  (ascending acc -> ascending pending) /\
  (forall off, off ∈ pending -> off ∈ acc \/ off ∈ l_offset <$> labels).
Proof.
  revert acc. induction labels as [|l labels IH]; intros acc; simpl.
  - split; [done|]. intros off Hoff. by left.
  - destruct (IH (if l_offset l <? code_size then oset_emplace (l_offset l) acc else acc))
      as [Hasc Hsub].
    split.
    + intros Hacc. apply Hasc. destruct (_ <? _); [by apply oset_emplace_ascending | done].
    + intros off Hoff. apply Hsub in Hoff as [Hoff|Hoff].
      * destruct (_ <? _); [|by left].
        apply elem_of_oset_emplace in Hoff as [->|Hoff]; [right; by left | by left].
      * right. by right.
Qed.

Lemma walk_ok_initial (cmd_r : StringReader) (function_table_bytes : list Z) :
  walk_ok (walk_start cmd_r (read_function_table function_table_bytes 0)).
Proof.
  unfold walk_ok, walk_start. cbn [pending_dasm_start_offsets function_table dasm_lines].
  destruct (initial_pending_from (read_function_table function_table_bytes 0)
              (sr_size cmd_r) []) as [Hasc Hsub].
  split; [by apply Hasc|]. split; [|split].
  - intros off Hoff. apply Hsub in Hoff as [Hoff|Hoff]; [by apply elem_of_nil in Hoff | done].
  - intros off. apply read_function_table_offsets.
  - intros k. rewrite lookup_empty. by intros [? ?].
Qed.

Section DecodeFailureClaim.
Context `{External}.
Variable P : DasmParams.

(** C5 (amended): when decoding the instruction at the cursor raises an
    error, the turn of the decode loop does not throw: it records the
    line [.failed (message)] at the offset of the instruction and leaves
    the cursor where the error was raised, further on and inside the
    code.  The chain does not end there: the loop goes on from that
    state, and decodes the next instruction at the cursor unless the
    cursor is at the end of the code or at an offset that has a line
    already.  An opcode that is not in the table is not an error: its
    line is [.unknown] with the opcode.  And the walk as a whole, from
    the state in which the disassembler starts it, always ends without
    an exception and with no offset left pending. *)
Theorem decode_failure_does_not_end_chain (s s1 : Dasm) (e : exception) :
  0 <= sr_where (cmd_r s) ->
  chain_continues s = true ->
  dasm_instruction P (sr_where (cmd_r s)) s = (Throw e, s1) ->
  (exists s2 prefix,
     dasm_one P s = Ok s2 /\
     dasm_lines s2 !! sr_where (cmd_r s) =
       Some (mkDisassemblyLine (prefix +:+ ".failed (" +:+ what e +:+ ")")
               (sr_where (cmd_r s1))) /\
     (p_reassembly_mode P = true -> prefix = "  ") /\
     cmd_r s2 = cmd_r s1 /\
     sr_where (cmd_r s) < sr_where (cmd_r s2) <= sr_size (cmd_r s2) /\
     (forall fuel, dasm_chain P (S fuel) s = dasm_chain P fuel s2) /\
     (chain_continues s2 = true ->
      exists s3,
        dasm_one P s2 = Ok s3 /\
        is_Some (dasm_lines s3 !! sr_where (cmd_r s2)) /\
        forall fuel, dasm_chain P (S (S fuel)) s = dasm_chain P fuel s3)) /\
  (forall (s0 s0' : Dasm) (opcode : Z),
     read_opcode s0 = (Ok opcode, s0') -> p_opcodes P !! opcode = None ->
     dasm_instruction P (sr_where (cmd_r s0)) s0
     = (Ok (".unknown " +:+ fmt_X 4 opcode), s0')) /\
  (forall (code : StringReader) (function_table_bytes : list Z),
     let start := walk_start code (read_function_table function_table_bytes 0) in
     exists s',
       dasm_walk P (walk_fuel start) start = Some (Ok s') /\
       pending_dasm_start_offsets s' = []).
Proof.
  intros Hpos Hcont Hrun. split; [|split].
  - pose proof Hcont as [Hlt Hfresh]%chain_continues_spec.
    destruct (dasm_instruction_progress P _ _ _ Hlt Hpos Hrun) as [Hframe Hstep].
    destruct (dasm_one_ok P _ _ _ Hlt Hpos Hrun) as (prefix & Hone & Hprefix).
    destruct Hframe as (Hdata & _ & Hbound & _).
    rewrite recorded_text_failed in Hone.
    match type of Hone with _ = Ok ?x => set (s2 := x) in * end.
    assert (Hcursor : cmd_r s2 = cmd_r s1) by done.
    exists s2, prefix. split; [exact Hone|].
    split; [unfold s2; cbn [dasm_lines]; by rewrite lookup_insert_eq|].
    split; [done|]. split; [done|]. rewrite Hcursor.
    split; [split; [lia | apply Hbound; lia]|].
    split; [intros fuel; cbn [dasm_chain]; by rewrite Hcont, Hone|].
    intros Hcont2. pose proof Hcont2 as [Hlt2 _]%chain_continues_spec.
    assert (Hpos2 : 0 <= sr_where (cmd_r s2)) by (rewrite Hcursor; lia).
    destruct (dasm_instruction P (sr_where (cmd_r s2)) s2) as [res3 s3'] eqn:Hrun3.
    destruct (dasm_one_ok P s2 _ _ Hlt2 Hpos2 Hrun3) as (prefix3 & Hone3 & _).
    rewrite <- Hcursor. eexists. split; [exact Hone3|]. cbn [dasm_lines].
    split; [rewrite lookup_insert_eq; by eexists|].
    intros fuel. cbn [dasm_chain]. by rewrite Hcont, Hone, Hcont2, Hone3.
  - intros s0 s0' opcode Hop Hnone. unfold dasm_instruction, bind.
    by rewrite Hop, Hnone.
  - intros code function_table_bytes start. apply dasm_walk_total, walk_ok_initial.
Qed.
End DecodeFailureClaim.

(** C5 on the code [truncated_leti]: decoding at offset 0 fails at the end
    of the code. *)
Lemma decode_failure_does_not_end_chain_witness :
  exists s1,
    dasm_instruction (H := Sample.external) sample_params 0 truncated_leti_start
    = (Throw end_of_string, s1) /\
    (exists s2 prefix,
       dasm_one (H := Sample.external) sample_params truncated_leti_start = Ok s2 /\
       dasm_lines s2 !! 0 =
         Some (mkDisassemblyLine (prefix +:+ ".failed (" +:+ what end_of_string +:+ ")")
                 (sr_where (cmd_r s1))) /\
       cmd_r s2 = cmd_r s1).
Proof.
  destruct (dasm_instruction (H := Sample.external) sample_params 0 truncated_leti_start)
    as [res s1] eqn:Hrun.
  assert (Hres : res = Throw end_of_string).
  { apply (f_equal fst) in Hrun. vm_compute in Hrun. by subst res. }
  subst res. exists s1. split; [reflexivity|].
  destruct (decode_failure_does_not_end_chain (H := Sample.external) sample_params
              truncated_leti_start s1 end_of_string)
    as [(s2 & prefix & Hone & Hline & _ & Hcursor & _) _].
  - vm_compute. discriminate.
  - vm_compute. reflexivity.
  - exact Hrun.
  - exists s2, prefix. split; [exact Hone|]. split; [exact Hline | exact Hcursor].
Defined.

(** C5 as stated fails on that code: the chain that starts at offset 0,
    the only one of the walk, records the [.failed] line at offset 0 and
    then decodes three more instructions, at the offsets 2, 3 and 4. *)
Lemma chain_goes_on_after_failed_line :
  exists s',
    dasm_chain (H := Sample.external) sample_params (chain_fuel truncated_leti_start)
      truncated_leti_start = Some (Ok s') /\
    pending_dasm_start_offsets s' = [] /\
    dl_line <$> dasm_lines s' !! 0 = Some "  .failed (end of string)" /\
    dl_line <$> dasm_lines s' !! 2 = Some "  ret" /\
    dl_line <$> dasm_lines s' !! 3 = Some "  ret" /\
    dl_line <$> dasm_lines s' !! 4 = Some "  ret".
Proof.
  destruct (dasm_chain (H := Sample.external) sample_params (chain_fuel truncated_leti_start)
              truncated_leti_start) as [[s'|e]|] eqn:Hchain;
    vm_compute in Hchain; try discriminate.
  exists s'. split; [reflexivity|]. injection Hchain as <-.
  vm_compute. repeat split; reflexivity.
Qed.

(** * Further properties *)

(** ** The two opcode indexes *)

Lemma index_opcodes_complete (vf : Z) (defs : list QuestScriptOpcodeDefinition)
    (m m' : gmap Z QuestScriptOpcodeDefinition) :
  index_opcodes vf defs m = Ok m' ->
  (forall k d, m !! k = Some d -> m' !! k = Some d) /\
  (forall d, d ∈ defs -> has_flag (flags d) vf = true -> m' !! opcode d = Some d).
Proof.
  revert m. induction defs as [|def defs IH]; intros m; cbn [index_opcodes].
  - intros [= <-]. split; [done | by intros d ?%elem_of_nil].
  - destruct (has_flag (flags def) vf) eqn:Hflag; cbn [negb].
    + destruct (m !! opcode def) eqn:Hm; [done|]. intros Hrest.
      destruct (IH _ Hrest) as [Hkeep Hall]. split.
      * intros k d Hk. apply Hkeep. rewrite lookup_insert_ne; [done|]. congruence.
      * intros d [->|Hd]%elem_of_cons Hf; [|by apply Hall].
        apply Hkeep. by rewrite lookup_insert_eq.
    + intros Hrest. destruct (IH _ Hrest) as [Hkeep Hall]. split; [done|].
      intros d [->|Hd]%elem_of_cons Hf; [congruence | by apply Hall].
Qed.

Lemma index_opcodes_sound (vf : Z) (defs : list QuestScriptOpcodeDefinition)
    (m m' : gmap Z QuestScriptOpcodeDefinition) (k : Z) (d : QuestScriptOpcodeDefinition) :
  index_opcodes vf defs m = Ok m' -> m' !! k = Some d ->
  m !! k = Some d \/ (d ∈ defs /\ has_flag (flags d) vf = true /\ opcode d = k).
Proof.
  revert m. induction defs as [|def defs IH]; intros m; cbn [index_opcodes].
  - intros [= <-] Hk. by left.
  - destruct (has_flag (flags def) vf) eqn:Hflag; cbn [negb].
    + destruct (m !! opcode def) eqn:Hm; [done|]. intros Hrest Hk.
      destruct (IH _ Hrest Hk) as [Hin|(Hin & Hf & Hop)].
      * destruct (decide (opcode def = k)) as [Heq|Hne].
        -- rewrite <- Heq, lookup_insert_eq in Hin. injection Hin as <-.
           right. split; [by left | done].
        -- rewrite lookup_insert_ne in Hin by done. by left.
      * right. split; [by right | done].
    + intros Hrest Hk. destruct (IH _ Hrest Hk) as [Hin|(Hin & Hf & Hop)]; [by left|].
      right. split; [by right | done].
Qed.

Lemma emplace_name_spec (key : option string) (def : QuestScriptOpcodeDefinition)
    (m m' : gmap string QuestScriptOpcodeDefinition) :
  emplace_name key def m = Ok m' ->
  (forall n d, m !! n = Some d -> m' !! n = Some d) /\
  (forall n, key = Some n -> m' !! n = Some def) /\
  (forall n d, m' !! n = Some d -> m !! n = Some d \/ (key = Some n /\ d = def)).
Proof.
  unfold emplace_name. destruct key as [n0|]; [|intros [= <-]; repeat split; auto; done].
  destruct (m !! n0) eqn:Hm; [done|]. intros [= <-]. repeat split.
  - intros n d Hn. rewrite lookup_insert_ne; [done|]. congruence.
  - intros n [= ->]. by rewrite lookup_insert_eq.
  - intros n d Hn. destruct (decide (n0 = n)) as [->|Hne].
    + rewrite lookup_insert_eq in Hn. injection Hn as <-. by right.
    + rewrite lookup_insert_ne in Hn by done. by left.
Qed.

Lemma index_opcodes_by_name_spec (vf : Z) (defs : list QuestScriptOpcodeDefinition)
    (m m' : gmap string QuestScriptOpcodeDefinition) :
  index_opcodes_by_name vf defs m = Ok m' ->
  (forall n d, m !! n = Some d -> m' !! n = Some d) /\
  (forall d n, d ∈ defs -> has_flag (flags d) vf = true ->
     name d = Some n \/ qedit_name d = Some n -> m' !! n = Some d) /\
  (forall n d, m' !! n = Some d ->
     m !! n = Some d \/
     (d ∈ defs /\ has_flag (flags d) vf = true /\
      (name d = Some n \/ qedit_name d = Some n))).
Proof.
  revert m. induction defs as [|def defs IH]; intros m; cbn [index_opcodes_by_name].
  - intros [= <-]. split; [done|]. split; [by intros d n ?%elem_of_nil | by left].
  - destruct (has_flag (flags def) vf) eqn:Hflag; cbn [negb].
    + destruct (emplace_name (name def) def m) as [m1|] eqn:H1; cbn [rbind]; [|done].
      destruct (emplace_name (qedit_name def) def m1) as [m2|] eqn:H2; cbn [rbind]; [|done].
      intros Hrest. destruct (IH _ Hrest) as (Hkeep & Hall & Hsound).
      destruct (emplace_name_spec _ _ _ _ H1) as (Hk1 & Hn1 & Hs1).
      destruct (emplace_name_spec _ _ _ _ H2) as (Hk2 & Hn2 & Hs2).
      split; [|split].
      * intros n d Hn. by apply Hkeep, Hk2, Hk1.
      * intros d n [->|Hd]%elem_of_cons Hf Hname; [|by eapply Hall].
        destruct Hname as [Hname|Hname]; apply Hkeep; [by apply Hk2, Hn1 | by apply Hn2].
      * intros n d Hn. destruct (Hsound _ _ Hn) as [Hin|(Hin & Hf & Hname)].
        -- destruct (Hs2 _ _ Hin) as [Hin1|[Hq ->]].
           ++ destruct (Hs1 _ _ Hin1) as [Hin0|[Hq ->]]; [by left|].
              right. split; [by left|]. split; [done | by left].
           ++ right. split; [by left|]. split; [done | by right].
        -- right. split; [by right | done].
    + intros Hrest. destruct (IH _ Hrest) as (Hkeep & Hall & Hsound).
      split; [done|]. split.
      * intros d n [->|Hd]%elem_of_cons Hf Hname; [congruence | by eapply Hall].
      * intros n d Hn. destruct (Hsound _ _ Hn) as [Hin|(Hin & Hf & Hname)]; [by left|].
        right. split; [by right | done].
Qed.

(** X1: in every build for which both indexes are built, they index the
    same definitions.  A definition found under a mnemonic has that
    mnemonic as its name or as its qedit name, and is the definition
    found under its own opcode; a definition found under an opcode has
    that opcode, and is the definition found under each of its names. *)
Theorem opcode_indexes_agree (v : Version)
    (opcodes : gmap Z QuestScriptOpcodeDefinition)
    (opcodes_by_name : gmap string QuestScriptOpcodeDefinition) :
  opcodes_for_version v = Ok opcodes ->
  opcodes_by_name_for_version v = Ok opcodes_by_name ->
  (forall n d, opcodes_by_name !! n = Some d ->
     (name d = Some n \/ qedit_name d = Some n) /\ opcodes !! opcode d = Some d) /\
  (forall k d, opcodes !! k = Some d ->
     opcode d = k /\
     (forall n, name d = Some n \/ qedit_name d = Some n ->
        opcodes_by_name !! n = Some d)).
Proof.
  unfold opcodes_for_version, opcodes_by_name_for_version.
  destruct (_ <? _); [done|]. intros Hop Hname.
  destruct (index_opcodes_complete _ _ _ _ Hop) as [_ Hcomplete].
  destruct (index_opcodes_by_name_spec _ _ _ _ Hname) as (_ & Hall & Hsound).
  split.
  - intros n d Hn. destruct (Hsound _ _ Hn) as [Hin|(Hin & Hf & Hnm)];
      [by rewrite lookup_empty in Hin|].
    split; [done | by apply Hcomplete].
  - intros k d Hk.
    destruct (index_opcodes_sound _ _ _ _ _ _ Hop Hk) as [Hin|(Hin & Hf & Hopc)];
      [by rewrite lookup_empty in Hin|].
    split; [done|]. intros n Hnm. by eapply Hall.
Qed.

(** X1 for GC_V3. *)
Lemma opcode_indexes_agree_witness :
  exists opcodes opcodes_by_name,
    opcodes_for_version GC_V3 = Ok opcodes /\
    opcodes_by_name_for_version GC_V3 = Ok opcodes_by_name /\
    (forall n d, opcodes_by_name !! n = Some d ->
       (name d = Some n \/ qedit_name d = Some n) /\ opcodes !! opcode d = Some d) /\
    (forall k d, opcodes !! k = Some d ->
       opcode d = k /\
       (forall n, name d = Some n \/ qedit_name d = Some n ->
          opcodes_by_name !! n = Some d)).
Proof.
  assert (Hop : exists opcodes, opcodes_for_version GC_V3 = Ok opcodes).
  { assert (Hok : is_ok (opcodes_for_version GC_V3) = true) by (vm_compute; reflexivity).
    destruct (opcodes_for_version GC_V3) as [opcodes|]; [by exists opcodes | discriminate]. }
  assert (Hname : exists opcodes_by_name,
            opcodes_by_name_for_version GC_V3 = Ok opcodes_by_name).
  { assert (Hok : is_ok (opcodes_by_name_for_version GC_V3) = true)
      by (vm_compute; reflexivity).
    destruct (opcodes_by_name_for_version GC_V3) as [opcodes_by_name|];
      [by exists opcodes_by_name | discriminate]. }
  destruct Hop as [opcodes Hop]. destruct Hname as [opcodes_by_name Hname].
  exists opcodes, opcodes_by_name. split; [exact Hop|]. split; [exact Hname|].
  exact (opcode_indexes_agree GC_V3 opcodes opcodes_by_name Hop Hname).
Defined.

(** ** Opcodes as bytes *)

Lemma opcode_defs_read_back :
  forallb (fun d => opcode_reads_back (opcode d)) opcode_defs = true.
Proof. vm_compute. reflexivity. Qed.

Lemma opcodes_for_version_defs (v : Version)
    (opcodes : gmap Z QuestScriptOpcodeDefinition) (k : Z)
    (def : QuestScriptOpcodeDefinition) :
  opcodes_for_version v = Ok opcodes -> opcodes !! k = Some def ->
  def ∈ opcode_defs /\ opcode def = k.
Proof.
  unfold opcodes_for_version. destruct (_ <? _); [done|]. intros Hop Hk.
  destruct (index_opcodes_sound _ _ _ _ _ _ Hop Hk) as [Hin|(Hin & _ & Heq)];
    [by rewrite lookup_empty in Hin | done].
Qed.

(** The arithmetic of the two encodings, checked on the 768 opcodes that
    read back. *)
Lemma opcode_reads_back_bits (op : Z) :
  opcode_reads_back op = true -> opcode_bits_read_back op = true.
Proof.
  intros Hop.
  assert (Hin : op ∈ seqZ 0 0x100 ++ seqZ 0xF800 0x200).
  { unfold opcode_reads_back in Hop. apply elem_of_app.
    apply orb_prop in Hop as [Hop|Hop].
    - left. apply andb_prop in Hop as [Hop _]. apply andb_prop in Hop as [Hlo Hhi].
      apply Z.leb_le in Hlo. apply Z.ltb_lt in Hhi. apply elem_of_seqZ. lia.
    - right. apply andb_prop in Hop as [Hlo Hhi].
      apply Z.leb_le in Hlo. apply Z.ltb_lt in Hhi. apply elem_of_seqZ. lia. }
  assert (Hall : forallb (fun op => implb (opcode_reads_back op) (opcode_bits_read_back op))
                   (seqZ 0 0x100 ++ seqZ 0xF800 0x200) = true)
    by (vm_compute; reflexivity).
  rewrite forallb_forall in Hall. apply list_elem_of_In, Hall in Hin.
  by rewrite Hop in Hin.
Qed.

Lemma get_u8_at (s : Dasm) (code rest : list Z) (b : Z) :
  sr_data (cmd_r s) = code ++ b :: rest ->
  sr_where (cmd_r s) = Z.of_nat (length code) ->
  get_u8 s =
    (Ok (u8 b), with_reader (mkReader (sr_data (cmd_r s)) (Z.of_nat (length code) + 1)) s).
Proof.
  intros Hdata Hwhere. unfold sr_where in Hwhere.
  unfold get_u8, get_with, pget_u8, in_range, byte_at, sr_skip.
  cbn [reader Dasm_reader]. rewrite Hwhere, Hdata, length_app. cbn [length].
  replace (0 <=? Z.of_nat (length code)) with true by (symmetry; apply Z.leb_le; lia).
  replace (Z.of_nat (length code) + 1 <=? _) with true by (symmetry; apply Z.leb_le; lia).
  cbn [andb]. rewrite Nat2Z.id, nth_middle. reflexivity.
Qed.

(** Reading an opcode at the place where one that reads back was
    written. *)
Lemma read_opcode_written (op : Z) (code rest : list Z) (s : Dasm) :
  opcode_reads_back op = true ->
  sr_data (cmd_r s) =
    code ++ (if Z.land op 0xFF00 =? 0 then [u8 op] else [u8 (Z.shiftr op 8); u8 op])
         ++ rest ->
  sr_where (cmd_r s) = Z.of_nat (length code) ->
  read_opcode s =
    (Ok op,
     with_reader (mkReader (sr_data (cmd_r s))
                    (Z.of_nat (length code) + (if Z.land op 0xFF00 =? 0 then 1 else 2))) s).
Proof.
  intros Hop Hdata Hwhere. apply opcode_reads_back_bits in Hop.
  unfold opcode_bits_read_back in Hop. unfold read_opcode, bind.
  destruct (Z.land op 0xFF00 =? 0).
  - apply andb_prop in Hop as [Hval Hf8]. apply Z.eqb_eq in Hval.
    apply negb_true_iff in Hf8.
    rewrite (get_u8_at s code rest (u8 op)) by done. rewrite Hf8, Hval. reflexivity.
  - apply andb_prop in Hop as [Hf8 Hval]. apply Z.eqb_eq in Hval.
    rewrite (get_u8_at s code (u8 op :: rest) (u8 (Z.shiftr op 8))) by done.
    rewrite Hf8.
    rewrite (get_u8_at _ (code ++ [u8 (Z.shiftr op 8)]) rest (u8 op)).
    + unfold ret. rewrite Hval, length_app. cbn [length with_reader Dasm_reader cmd_r sr_data].
      do 3 f_equal. lia.
    + cbn [with_reader Dasm_reader cmd_r sr_data]. rewrite Hdata, <- app_assoc. done.
    + cbn [with_reader Dasm_reader cmd_r]. unfold sr_where. cbn [sr_offset].
      rewrite length_app. cbn [length]. lia.
Qed.

(** X2: in every build, the bytes that the assembler writes for an
    opcode of the build's index are read by the decoder as that opcode:
    one byte when the high byte of the opcode is zero, two bytes (high
    byte first) otherwise, and the cursor ends just after them. *)
Theorem opcode_round_trip (v : Version) (opcodes : gmap Z QuestScriptOpcodeDefinition)
    (k : Z) (def : QuestScriptOpcodeDefinition) (writing : Asm) (rest : list Z)
    (reading : Dasm) :
  opcodes_for_version v = Ok opcodes ->
  opcodes !! k = Some def ->
  sr_data (cmd_r reading) = code_w (snd (emit_opcode def writing)) ++ rest ->
  sr_where (cmd_r reading) = Z.of_nat (length (code_w writing)) ->
  fst (emit_opcode def writing) = Ok tt /\
  length (code_w (snd (emit_opcode def writing))) =
    (length (code_w writing) + (if (Z.land k 0xFF00 =? 0)%Z then 1 else 2))%nat /\
  read_opcode reading =
    (Ok k,
     with_reader
       (mkReader (sr_data (cmd_r reading))
          (Z.of_nat (length (code_w (snd (emit_opcode def writing)))))) reading).
Proof.
  intros Hop Hk Hdata Hwhere.
  destruct (opcodes_for_version_defs _ _ _ _ Hop Hk) as [Hin Hopcode].
  pose proof opcode_defs_read_back as Hall. rewrite forallb_forall in Hall.
  apply list_elem_of_In, Hall in Hin. rewrite Hopcode in Hin.
  assert (Hcode : code_w (snd (emit_opcode def writing)) =
                  code_w writing
                  ++ (if Z.land k 0xFF00 =? 0 then [u8 k] else [u8 (Z.shiftr k 8); u8 k])).
  { unfold emit_opcode. rewrite Hopcode. by destruct (Z.land k 0xFF00 =? 0). }
  split; [unfold emit_opcode; destruct (Z.land (opcode def) 0xFF00 =? 0); reflexivity|].
  split; [rewrite Hcode, length_app; by destruct (Z.land k 0xFF00 =? 0)|].
  rewrite Hcode, <- app_assoc in Hdata.
  rewrite (read_opcode_written k (code_w writing) rest reading Hin Hdata Hwhere).
  rewrite Hcode, length_app. do 3 f_equal.
  destruct (Z.land k 0xFF00 =? 0); cbn [length]; lia.
Qed.

(** X2 for [set_episode] (0xF8BC) in GC_V3. *)
Lemma opcode_round_trip_witness :
  exists def,
    read_opcode sample_reading =
      (Ok 0xF8BC,
       with_reader
         (mkReader (sr_data (cmd_r sample_reading))
            (Z.of_nat (length (code_w (snd (emit_opcode def sample_writing))))))
         sample_reading).
Proof.
  assert (Hop : exists opcodes, opcodes_for_version GC_V3 = Ok opcodes).
  { assert (Hok : is_ok (opcodes_for_version GC_V3) = true) by (vm_compute; reflexivity).
    destruct (opcodes_for_version GC_V3) as [opcodes|]; [by exists opcodes | discriminate]. }
  destruct Hop as [opcodes Hop].
  assert (Hk : exists def, opcodes !! 0xF8BC = Some def /\ opcode def = 0xF8BC).
  { rewrite (opcodes_for_version_lookup _ _ 0xF8BC Hop).
    rewrite first_definition_set_episode by reflexivity. eexists. split; reflexivity. }
  destruct Hk as (def & Hk & Hopcode). exists def.
  apply (opcode_round_trip GC_V3 opcodes 0xF8BC def sample_writing [0x00] sample_reading
           Hop Hk).
  - unfold emit_opcode. rewrite Hopcode. reflexivity.
  - reflexivity.
Defined.

(** ** The function table as bytes *)

Lemma testbit_byte (v k n : Z) :
  0 <= k -> 0 <= n ->
  Z.testbit (Z.shiftl (u8 (u8 (Z.shiftr v k))) k) n =
    (k <=? n) && (n <? k + 8) && Z.testbit v n.
Proof.
  intros Hk Hn. unfold u8. rewrite Z.mod_mod by lia. change 256 with (2 ^ 8).
  rewrite <- Z.land_ones by lia. rewrite Z.shiftl_spec by lia.
  destruct (Z.leb_spec k n) as [Hle|Hgt].
  - rewrite Z.land_spec, Z.shiftr_spec by lia.
    replace (n - k + k) with n by lia.
    destruct (Z.ltb_spec n (k + 8)) as [Hlt|Hge].
    + rewrite Z.ones_spec_low by lia. by rewrite andb_true_r.
    + rewrite Z.ones_spec_high by lia. by rewrite andb_false_r.
  - by rewrite Z.testbit_neg_r by lia.
Qed.

(** Four bytes written least significant first are read as the value
    modulo 2^32. *)
Lemma le32_read_back (v : Z) :
  u8 (u8 v) .| Z.shiftl (u8 (u8 (Z.shiftr v 8))) 8
  .| Z.shiftl (u8 (u8 (Z.shiftr v 16))) 16 .| Z.shiftl (u8 (u8 (Z.shiftr v 24))) 24
  = u32 v.
Proof.
  replace (u8 (u8 v)) with (Z.shiftl (u8 (u8 (Z.shiftr v 0))) 0)
    by (by rewrite Z.shiftl_0_r, Z.shiftr_0_r).
  unfold u32. change 4294967296 with (2 ^ 32). rewrite <- Z.land_ones by lia.
  apply Z.bits_inj'. intros n Hn.
  rewrite !Z.lor_spec, !testbit_byte, Z.land_spec by lia.
  destruct (Z.ltb_spec n 32) as [Hlt|Hge].
  - rewrite Z.ones_spec_low by lia. rewrite andb_true_r.
    destruct (Z.testbit v n); [|by rewrite !andb_false_r].
    rewrite !andb_true_r.
    destruct (Z.leb_spec 0 n), (Z.ltb_spec n (0 + 8)), (Z.leb_spec 8 n),
      (Z.ltb_spec n (8 + 8)), (Z.leb_spec 16 n), (Z.ltb_spec n (16 + 8)),
      (Z.leb_spec 24 n), (Z.ltb_spec n (24 + 8)); simpl; try reflexivity; lia.
  - rewrite Z.ones_spec_high by lia. rewrite andb_false_r.
    destruct (Z.ltb_spec n (0 + 8)), (Z.ltb_spec n (8 + 8)), (Z.ltb_spec n (16 + 8)),
      (Z.ltb_spec n (24 + 8)); try lia.
    all: by rewrite !andb_false_r.
Qed.

Lemma read_function_table_written (table : list Z) (function_id : Z) :
  read_function_table (flat_map u32_bytes table) function_id =
    imap (fun i entry =>
            let id := function_id + Z.of_nat i in
            let name := if id =? 0 then "start" else "label" +:+ fmt_X 4 id in
            let l := mkLabel name (u32 entry) (u32 id) 0 [] in
            if id =? 0 then add_data_type DataType.SCRIPT l else l)
         table.
Proof.
  revert function_id. induction table as [|entry table IH]; intros function_id; [done|].
  cbn [flat_map]. unfold u32_bytes at 1, put_u32l. cbn [app read_function_table imap].
  rewrite le32_read_back, Z.add_0_r. f_equal. rewrite IH. apply imap_ext.
  intros i x _. cbn. replace (function_id + 1 + Z.of_nat i)
    with (function_id + Z.of_nat (S i)) by lia. done.
Qed.

Lemma function_table_from_range (t : LabelTable) (remaining : nat) (z : Z)
    (it : list (Z * nat)) (table : list Z) :
  function_table_from t remaining z it = Ok table ->
  Forall (fun entry => u32 entry = entry) table.
Proof.
  revert z it table. induction remaining as [|remaining IH]; intros z it table; simpl.
  - intros [= <-]. constructor.
  - destruct it as [|[first id] it']; [done|].
    destruct (z <? first).
    + destruct (function_table_from t remaining (z + 1) _) as [rest|] eqn:Hrest;
        cbn [rbind]; [|done].
      intros [= <-]. constructor; [reflexivity | by eapply IH].
    + destruct (first =? z); [|done]. destruct (_ <? 0); [done|].
      destruct (function_table_from t remaining (z + 1) _) as [rest|] eqn:Hrest;
        cbn [rbind]; [|done].
      intros [= <-]. constructor; [|by eapply IH].
      unfold u32. apply Z.mod_mod. lia.
Qed.

Lemma length_flat_map_u32_bytes (table : list Z) :
  length (flat_map u32_bytes table) = (4 * length table)%nat.
Proof. induction table as [|e table IH]; simpl; lia. Qed.

Lemma length_pad4_mod (code : list Z) : (length (pad4 code) mod 4 = 0)%nat.
Proof.
  unfold pad4. rewrite length_app, repeat_length.
  pose proof (Nat.mod_upper_bound (length code) 4) as Hm.
  pose proof (Nat.div_mod_eq (length code) 4) as Hd.
  destruct (length code mod 4)%nat as [|[|[|[|r]]]] eqn:Hr; [| | | |lia].
  - change ((4 - 0) mod 4)%nat with 0%nat. by rewrite Nat.add_0_r.
  - change ((4 - 1) mod 4)%nat with 3%nat.
    replace (length code + 3)%nat with ((length code / 4 + 1) * 4)%nat by lia.
    apply Nat.Div0.mod_mul.
  - change ((4 - 2) mod 4)%nat with 2%nat.
    replace (length code + 2)%nat with ((length code / 4 + 1) * 4)%nat by lia.
    apply Nat.Div0.mod_mul.
  - change ((4 - 3) mod 4)%nat with 1%nat.
    replace (length code + 1)%nat with ((length code / 4 + 1) * 4)%nat by lia.
    apply Nat.Div0.mod_mul.
Qed.

Section FunctionTableBytes.
Context `{External}.
Variable include_directory : string.

Lemma assemble_parts_code (text : string) (q : AssembledQuest) :
  assemble_parts include_directory text = Returns q ->
  (length (aq_code q) mod 4 = 0)%nat /\
  generate_function_table (aq_labels q) = Returns (aq_function_table q).
Proof.
  unfold assemble_parts. destruct (strip_lines _) as [[lines|]|]; try discriminate.
  destruct (collect_meta _ _) as [meta|]; cbn [rbind run_of_result run_bind];
    try discriminate.
  destruct (check_meta _) as [?|]; cbn [rbind run_of_result run_bind]; try discriminate.
  destruct (find_labels lines) as [t|]; cbn [rbind run_of_result run_bind];
    try discriminate.
  destruct (opcodes_by_name_for_version _) as [opcodes|];
    cbn [rbind run_of_result run_bind]; try discriminate.
  destruct (asm_lines _ _ _ _ _ _) as [s| | |]; cbn [run_bind]; try discriminate.
  destruct (assign_all _) as [st| | |]; cbn [run_bind]; try discriminate.
  destruct (generate_function_table _) as [table| | |] eqn:Htable;
    cbn [run_of_result run_bind]; try discriminate.
  intros [= <-]. cbn [aq_labels aq_code aq_function_table].
  split; [|done]. rewrite length_patch_registers. apply length_pad4_mod.
Qed.

(** X3: when the assembler succeeds, the image is the header, then the
    code, whose length is a multiple of four, then four bytes for each
    entry of the function table.  Read from where they start by the loop
    with which the disassembler reads the function table, these bytes
    give one label for each entry, in order: its offset is the entry, its
    function id is its position, and its name is [start] for entry 0 and
    [label] with the position as four hexadecimal digits for the
    others. *)
Theorem function_table_read_back (text : string) (bytes : list Z) :
  assemble_quest_script include_directory text = Returns bytes ->
  exists q header,
    assemble_parts include_directory text = Returns q /\
    bytes = header ++ aq_code q ++ flat_map u32_bytes (aq_function_table q) /\
    (length (aq_code q) mod 4 = 0)%nat /\
    length bytes =
      (length header + length (aq_code q) + 4 * length (aq_function_table q))%nat /\
    let labels :=
      read_function_table (skipn (length header + length (aq_code q)) bytes) 0 in
    length labels = length (aq_function_table q) /\
    forall (i : nat) (entry : Z),
      aq_function_table q !! i = Some entry ->
      exists l,
        labels !! i = Some l /\
        l_offset l = entry /\
        l_function_id l = u32 (Z.of_nat i) /\
        l_name l = (if (i =? 0)%nat then "start" else "label" +:+ fmt_X 4 (Z.of_nat i)) /\
        l_references l = [].
Proof.
  unfold assemble_quest_script.
  destruct (assemble_parts include_directory text) as [q| | |] eqn:Hparts;
    cbn [run_bind]; try discriminate.
  destruct (make_header q) as [header|]; cbn [run_of_result run_bind]; try discriminate.
  intros [= <-]. exists q, header.
  destruct (assemble_parts_code _ _ Hparts) as [Hmod Htable].
  split; [done|]. split; [done|]. split; [done|].
  split; [rewrite !length_app, length_flat_map_u32_bytes; lia|].
  rewrite app_assoc, <- length_app, drop_app_length.
  rewrite read_function_table_written.
  split; [apply length_imap|].
  intros i entry Hentry. rewrite list_lookup_imap, Hentry. cbn [fmap option_fmap option_map].
  eexists. split; [reflexivity|].
  assert (Hrange : u32 entry = entry).
  { apply generate_function_table_returns in Htable as (Htable & _ & _).
    apply function_table_from_range in Htable.
    rewrite Forall_lookup in Htable. by eapply Htable. }
  rewrite Z.add_0_l.
  destruct i as [|i]; cbn [Nat.eqb].
  - cbn. done.
  - replace (Z.of_nat (S i) =? 0) with false by (symmetry; apply Z.eqb_neq; lia).
    done.
Qed.
End FunctionTableBytes.

(** X3 on the program with the labels [start], [second@3] and
    [third]. *)
Lemma function_table_read_back_witness :
  exists q header,
    assemble_parts EmptyString labelled_source = Returns q /\
    labelled_quest = header ++ aq_code q ++ flat_map u32_bytes (aq_function_table q) /\
    (length (aq_code q) mod 4 = 0)%nat /\
    length labelled_quest =
      (length header + length (aq_code q) + 4 * length (aq_function_table q))%nat /\
    let labels :=
      read_function_table (skipn (length header + length (aq_code q)) labelled_quest) 0 in
    length labels = length (aq_function_table q) /\
    forall (i : nat) (entry : Z),
      aq_function_table q !! i = Some entry ->
      exists l,
        labels !! i = Some l /\
        l_offset l = entry /\
        l_function_id l = u32 (Z.of_nat i) /\
        l_name l = (if (i =? 0)%nat then "start" else "label" +:+ fmt_X 4 (Z.of_nat i)) /\
        l_references l = [].
Proof.
  apply (function_table_read_back (H := Sample.external) EmptyString labelled_source
           labelled_quest).
  vm_compute. reflexivity.
Defined.

(** ** The episodes that the detector returns *)

Lemma episode_for_quest_episode_number_value (n : Z) (e : Episode.t) :
  episode_for_quest_episode_number n = Ok e -> quest_episode_value e.
Proof.
  unfold episode_for_quest_episode_number, quest_episode_value.
  repeat case_match; intros [= <-]; auto.
Qed.

#[local] Instance keeps_quest_episodes_preorder : PreOrder keeps_quest_episodes.
Proof.
  split; unfold keeps_quest_episodes; [intros s; tauto | intros s1 s2 s3; tauto].
Qed.

Lemma episode_step_keeps_quest_episodes (opcodes : gmap Z QuestScriptOpcodeDefinition)
    (use_wstrs : bool) : respects keeps_quest_episodes (episode_step opcodes use_wstrs).
Proof.
  assert (Hr : forall r s, keeps_quest_episodes s (with_reader r s))
    by (intros r s; exact id).
  unfold episode_step.
  apply respects_bind; [apply _ | exact (respects_read_opcode _ Hr) |]. intros op.
  destruct (opcodes !! op) as [def|]; [|apply respects_throw; apply _].
  destruct (has_flag (flags def) F_RET); [apply respects_ret; apply _|].
  apply respects_bind; [apply _ | | intros; apply respects_ret; apply _].
  destruct (negb _); [|apply respects_ret; apply _].
  apply respects_for_each; [apply _|]. intros arg.
  unfold episode_skip_arg.
  destruct (arg_type arg); repeat case_match;
    try exact (respects_skip _ Hr _); try (apply respects_throw; apply _).
  - apply respects_bind; [apply _ | exact (respects_get_with _ Hr _ _) |].
    intros n. exact (respects_skip _ Hr _).
  - apply respects_bind; [apply _ | exact (respects_get_with _ Hr _ _) |].
    intros n. exact (respects_skip _ Hr _).
  - apply respects_bind; [apply _ | exact (respects_get_with _ Hr _ _) |]. intros v.
    intros s r s'. unfold bind, lift.
    destruct (episode_for_quest_episode_number (u8 v)) as [e|err] eqn:He;
      intros [= <- <-]; [|reflexivity].
    intros Hs. cbn. unfold set_emplace. case_bool_decide; [done|].
    apply Forall_app. split; [done|]. constructor; [|constructor].
    by eapply episode_for_quest_episode_number_value.
  - apply respects_bind; [apply _ | exact (respects_get_cstr_with _ Hr _) |].
    intros; apply respects_ret; apply _.
  - apply respects_bind; [apply _ | exact (respects_get_cstr_with _ Hr _) |].
    intros; apply respects_ret; apply _.
Qed.

Lemma episode_walk_quest_episodes (data : list Z) (version : Version) (use_wstrs : bool)
    (code_offset function_table_offset : Z) (r : result unit) (found : list Episode.t) :
  episode_walk data version use_wstrs code_offset function_table_offset = Some (r, found) ->
  Forall quest_episode_value found.
Proof.
  unfold episode_walk.
  destruct (opcodes_for_version version) as [opcodes|e]; cbn [rbind];
    [|intros [= <- <-]; constructor].
  destruct (pget_u32l data function_table_offset) as [entry|e]; cbn [rbind];
    [|intros [= <- <-]; constructor].
  destruct (while_ _ _ _ _) as [[r0 s]|] eqn:Hw; [|done].
  intros [= <- <-].
  apply (while_respects keeps_quest_episodes _ _
           (episode_step_keeps_quest_episodes opcodes use_wstrs)) in Hw.
  apply Hw. constructor.
Qed.

Section EpisodeValues.
Context `{External}.

(** X4: the episode detector comes to an end on every buffer and for
    every build, and an episode that it returns is Episode 1, 2 or 4: it
    never returns Episode 3 or no episode, whatever the header and the
    code say. *)
Theorem find_quest_episode_value (data : list Z) (version : Version) :
  exists r,
    find_quest_episode_from_script data version = Some r /\
    forall e, r = Ok e -> quest_episode_value e.
Proof.
  assert (Hafter : forall w c f he, quest_episode_value he ->
    exists r,
      match episode_walk data version w c f with
      | None => None
      | Some (_, found) => Some (select_episode found he)
      end = Some r /\ forall e, r = Ok e -> quest_episode_value e).
  { intros w c f he Hhe.
    destruct (episode_walk_total data version w c f) as [[r found] Hw]. rewrite Hw.
    apply episode_walk_quest_episodes in Hw.
    eexists. split; [reflexivity|]. intros e.
    destruct found as [|e1 [|e2 found]]; cbn [select_episode]; intros [= <-]; [done|].
    by inversion Hw. }
  unfold find_quest_episode_from_script.
  destruct version;
    try (eexists; split; [reflexivity|]; intros e [= <-]; unfold quest_episode_value; auto);
    try (eexists; split; [reflexivity|]; discriminate).
  all: match goal with
       | |- context [get_header_GC ?d] => destruct (get_header_GC d) as [h|]
       | |- context [get_header_BB ?d] => destruct (get_header_BB d) as [h|]
       end; try (eexists; split; [reflexivity|]; discriminate).
  all: destruct (episode_for_quest_episode_number _) eqn:Hhe;
       [apply Hafter; by eapply episode_for_quest_episode_number_value
       | eexists; split; [reflexivity|]; discriminate].
Qed.
End EpisodeValues.

(** ** Quoted strings *)

Lemma all_ascii_complete (c : ascii) : In c all_ascii.
Proof.
  unfold all_ascii. apply in_map_iff. exists (nat_of_ascii c).
  split; [apply ascii_nat_embedding|]. apply in_seq.
  pose proof (nat_ascii_bounded c). lia.
Qed.

Lemma scan_quotes_app (b : bool) (s1 s2 : string) :
  scan_quotes b (s1 +:+ s2) =
    (fst (scan_quotes b s1) && fst (scan_quotes (snd (scan_quotes b s1)) s2),
     snd (scan_quotes (snd (scan_quotes b s1)) s2)).
Proof.
  revert b. induction s1 as [|c s1 IH]; intros b.
  - change (EmptyString +:+ s2) with s2. cbn [scan_quotes fst snd andb].
    by destruct (scan_quotes b s2).
  - change (String c s1 +:+ s2) with (String c (s1 +:+ s2)). cbn [scan_quotes].
    rewrite IH. destruct (scan_quotes (byte_of_ascii c =? 92) s1) as [ok last].
    cbn [fst snd]. by rewrite andb_assoc.
Qed.

Lemma printable_app (s1 s2 : string) : printable s1 -> printable s2 -> printable (s1 +:+ s2).
Proof.
  unfold printable. intros H1 H2. induction s1 as [|c s1 IH]; [done|].
  change (String c s1 +:+ s2) with (String c (s1 +:+ s2)). cbn [list_ascii_of_string] in *.
  inversion H1; subst. constructor; [done | by apply IH].
Qed.

Section QuotedStrings.
Context `{External}.

(** What [escape_char] writes for one character, checked on the 256
    characters. *)
Lemma escape_char_checked (c : ascii) :
  forallb (fun ch => 0x20 <=? byte_of_ascii ch) (list_ascii_of_string (escape_char c)) = true
  /\ fst (scan_quotes false (escape_char c)) = true
  /\ fst (scan_quotes true (escape_char c)) = true.
Proof.
  assert (Hall : forallb (fun c =>
            forallb (fun ch => 0x20 <=? byte_of_ascii ch)
              (list_ascii_of_string (escape_char c))
            && fst (scan_quotes false (escape_char c))
            && fst (scan_quotes true (escape_char c))) all_ascii = true)
    by (vm_compute; reflexivity).
  rewrite forallb_forall in Hall. specialize (Hall c (all_ascii_complete c)).
  apply andb_prop in Hall as [Hall H3]. apply andb_prop in Hall as [H1 H2]. done.
Qed.

Lemma escape_chars_printable (s : string) : printable (escape_chars s).
Proof.
  induction s as [|c s IH]; [constructor|]. cbn [escape_chars].
  apply printable_app; [|done]. unfold printable. apply Forall_forall. intros ch Hch.
  destruct (escape_char_checked c) as [Hc _]. rewrite forallb_forall in Hc.
  apply Z.leb_le, Hc. by apply list_elem_of_In.
Qed.

Lemma escape_chars_quotes (s : string) (b : bool) :
  fst (scan_quotes b (escape_chars s)) = true.
Proof.
  revert b. induction s as [|c s IH]; intros b; [done|]. cbn [escape_chars].
  rewrite scan_quotes_app. cbn [fst]. rewrite IH, andb_true_r.
  destruct (escape_char_checked c) as (_ & Hf & Ht). by destruct b.
Qed.

(** X5: a text that [escape_string] returns is either the data string
    that [format_data_string] makes, or a quoted text: a double quote,
    then a body without control characters (so without line breaks) in
    which every double quote comes just after a backslash, then a double
    quote. *)
Theorem escape_string_quoted (data : string) (encoding : TextEncoding) (text : string) :
  escape_string data encoding = Ok text ->
  text = format_data_string data \/
  exists body,
    text = dquote +:+ body +:+ dquote /\ printable body /\ quotes_escaped body.
Proof.
  unfold escape_string.
  assert (Hquoted : forall decoded : result string,
    match decoded with
    | Ok decoded => Ok (dquote +:+ escape_chars decoded +:+ dquote)
    | Throw (runtime_error _) => Ok (format_data_string data)
    | Throw e => Throw e
    end = Ok text ->
    text = format_data_string data \/
    exists body,
      text = dquote +:+ body +:+ dquote /\ printable body /\ quotes_escaped body).
  { intros [decoded|e].
    - intros [= <-]. right. exists (escape_chars decoded). split; [done|].
      split; [apply escape_chars_printable | apply escape_chars_quotes].
    - destruct e; try discriminate. intros [= <-]. by left. }
  destruct encoding; cbv zeta beta;
    first [by intros [= <-]; left | apply (Hquoted (Ok data)) | apply Hquoted].
Qed.
End QuotedStrings.

(** X5 on a text of two lines. *)
Lemma escape_string_quoted_witness :
  escape_string two_lines UTF8 = Ok (dquote +:+ "a\nb" +:+ dquote) /\
  (dquote +:+ "a\nb" +:+ dquote = format_data_string two_lines \/
   exists body,
     dquote +:+ "a\nb" +:+ dquote = dquote +:+ body +:+ dquote /\
     printable body /\ quotes_escaped body).
Proof.
  split; [reflexivity|].
  apply (escape_string_quoted (H := Sample.external) two_lines UTF8). reflexivity.
Defined.

(** ** The search for free register numbers *)

Lemma scan_window_spec (numbered : list (option RegId)) (candidate : Z)
    (remaining : nat) (z : Z) :
  length numbered = 0x100%nat -> 0 <= candidate -> 0 <= z -> candidate + z <= 0x100 ->
  match scan_window numbered candidate remaining z with
  | WindowFree =>
      candidate + z + Z.of_nat remaining <= 0x100 /\
      forall j, z <= j < z + Z.of_nat remaining ->
        numbered !! Z.to_nat (candidate + j) = Some None
  | WindowOccupied =>
      exists j reg, z <= j < z + Z.of_nat remaining /\ candidate + j < 0x100 /\
        numbered !! Z.to_nat (candidate + j) = Some (Some reg) /\
        forall j', z <= j' < j -> numbered !! Z.to_nat (candidate + j') = Some None
  | WindowPastEnd index =>
      index = 0x100 /\ 0x100 < candidate + z + Z.of_nat remaining /\
      forall j, z <= j -> candidate + j < 0x100 ->
        numbered !! Z.to_nat (candidate + j) = Some None
  end.
Proof.
  intros Hlen Hc. revert z. induction remaining as [|remaining IH]; intros z Hz Hcz.
  - cbn [scan_window]. split; [lia|]. intros j Hj. lia.
  - cbn [scan_window]. destruct (Z.leb_spec 0x100 (candidate + z)) as [Hge|Hlt].
    + split; [lia|]. split; [lia|]. intros j Hj Hj'. lia.
    + assert (Hsome : is_Some (numbered !! Z.to_nat (candidate + z))).
      { apply lookup_lt_is_Some. lia. }
      destruct Hsome as [slot Hslot]. rewrite Hslot. destruct slot as [reg|].
      * exists z, reg. split; [lia|]. split; [lia|]. split; [done|]. intros j' Hj'. lia.
      * specialize (IH (z + 1) ltac:(lia) ltac:(lia)).
        destruct (scan_window numbered candidate remaining (z + 1)) as [| |index].
        -- destruct IH as [Hle Hfree]. split; [lia|]. intros j Hj.
           destruct (Z.eq_dec j z) as [->|Hne]; [done|]. apply Hfree. lia.
        -- destruct IH as (j & reg & Hj & Hlt' & Htaken & Hfree).
           exists j, reg. split; [lia|]. split; [done|]. split; [done|].
           intros j' Hj'. destruct (Z.eq_dec j' z) as [->|Hne]; [done|]. apply Hfree. lia.
        -- destruct IH as (-> & Hbig & Hfree). split; [done|]. split; [lia|].
           intros j Hj Hj'. destruct (Z.eq_dec j z) as [->|Hne]; [done|].
           apply Hfree; lia.
Qed.

Lemma find_space_from_spec (numbered : list (option RegId)) (num_regs : nat)
    (remaining : nat) (candidate : Z) :
  length numbered = 0x100%nat -> 0 <= candidate ->
  candidate + Z.of_nat remaining = 0x100 ->
  match find_space_from numbered num_regs remaining candidate with
  | SpaceFound c =>
      candidate <= c /\ c + Z.of_nat num_regs <= 0x100 /\
      (num_regs = 0%nat \/ c < 0x100) /\
      (forall j, 0 <= j < Z.of_nat num_regs -> numbered !! Z.to_nat (c + j) = Some None) /\
      (forall c', candidate <= c' < c ->
         exists j reg, 0 <= j < Z.of_nat num_regs /\ c' + j < 0x100 /\
           numbered !! Z.to_nat (c' + j) = Some (Some reg))
  | SpaceExhausted =>
      forall c', candidate <= c' < 0x100 ->
        exists j reg, 0 <= j < Z.of_nat num_regs /\ c' + j < 0x100 /\
          numbered !! Z.to_nat (c' + j) = Some (Some reg)
  | ReadPastEnd index =>
      index = 0x100 /\
      exists c, candidate <= c < 0x100 /\ 0x100 < c + Z.of_nat num_regs /\
        (forall j, c <= j < 0x100 -> numbered !! Z.to_nat j = Some None) /\
        (forall c', candidate <= c' < c ->
           exists j reg, 0 <= j < Z.of_nat num_regs /\ c' + j < 0x100 /\
             numbered !! Z.to_nat (c' + j) = Some (Some reg))
  end.
Proof.
  intros Hlen. revert candidate. induction remaining as [|remaining IH];
    intros candidate Hc Hsum.
  - cbn [find_space_from]. intros c' Hc'. lia.
  - cbn [find_space_from].
    pose proof (scan_window_spec numbered candidate num_regs 0 Hlen Hc ltac:(lia) ltac:(lia))
      as Hscan.
    destruct (scan_window numbered candidate num_regs 0) as [| |index].
    + destruct Hscan as [Hle Hfree]. split; [lia|]. split; [lia|]. split; [right; lia|].
      split; [intros j Hj; apply Hfree; lia|]. intros c' Hc'. lia.
    + destruct Hscan as (j & reg & Hj & Hlt & Htaken & _).
      specialize (IH (candidate + 1) ltac:(lia) ltac:(lia)).
      assert (Hhere : forall c', candidate <= c' < candidate + 1 ->
                exists j reg, 0 <= j < Z.of_nat num_regs /\ c' + j < 0x100 /\
                  numbered !! Z.to_nat (c' + j) = Some (Some reg)).
      { intros c' Hc'. assert (c' = candidate) as -> by lia. exists j, reg.
        split; [lia|]. done. }
      destruct (find_space_from numbered num_regs remaining (candidate + 1)) as [c| |index].
      * destruct IH as (Hle & Hfit & Hin & Hfree & Hbefore).
        split; [lia|]. split; [done|]. split; [done|]. split; [done|].
        intros c' Hc'. destruct (Z.eq_dec c' candidate) as [->|Hne]; [apply Hhere; lia|].
        apply Hbefore. lia.
      * intros c' Hc'. destruct (Z.eq_dec c' candidate) as [->|Hne]; [apply Hhere; lia|].
        apply IH. lia.
      * destruct IH as (-> & c & Hcr & Hbig & Hfree & Hbefore). split; [done|].
        exists c. split; [lia|]. split; [done|]. split; [done|].
        intros c' Hc'. destruct (Z.eq_dec c' candidate) as [->|Hne]; [apply Hhere; lia|].
        apply Hbefore. lia.
    + destruct Hscan as (-> & Hbig & Hfree). split; [done|].
      exists candidate. split; [lia|]. split; [lia|]. split.
      * intros j Hj. specialize (Hfree (j - candidate) ltac:(lia) ltac:(lia)).
        by replace (candidate + (j - candidate)) with j in Hfree by lia.
      * intros c' Hc'. lia.
Qed.

(** X6: with the 256 slots of [numbered_regs], the search for
    [num_regs] consecutive free numbers is a first fit.  When it returns a
    candidate, the candidate and the slots after it, [num_regs] in all, are
    inside the array and free, and every earlier candidate has a taken slot
    in its window.  When it gives up, every candidate has a taken slot in
    the part of its window that is inside the array.  It subscripts past
    the end, and then at index 256, exactly when the first candidate
    without a taken slot in its window is too close to the end: the slots
    from it to 255 are free and there are fewer than [num_regs] of
    them. *)
Theorem find_register_number_space_spec (st : RegisterAssigner) (num_regs : Z) :
  length (numbered_regs st) = 0x100%nat -> 0 <= num_regs ->
  match find_register_number_space st num_regs with
  | SpaceFound c =>
      0 <= c /\ c + num_regs <= 0x100 /\
      (forall j, c <= j < c + num_regs -> slot_free st j) /\
      (forall c', 0 <= c' < c ->
         exists j, c' <= j < c' + num_regs /\ j < 0x100 /\ slot_taken st j)
  | SpaceExhausted =>
      forall c', 0 <= c' < 0x100 ->
        exists j, c' <= j < c' + num_regs /\ j < 0x100 /\ slot_taken st j
  | ReadPastEnd index =>
      index = 0x100 /\
      exists c, 0 <= c < 0x100 /\ 0x100 < c + num_regs /\
        (forall j, c <= j < 0x100 -> slot_free st j) /\
        (forall c', 0 <= c' < c ->
           exists j, c' <= j < c' + num_regs /\ j < 0x100 /\ slot_taken st j)
  end.
Proof.
  intros Hlen Hn. unfold find_register_number_space.
  pose proof (find_space_from_spec (numbered_regs st) (Z.to_nat num_regs) 0x100 0 Hlen
                ltac:(lia) ltac:(lia)) as Hspec.
  rewrite Z2Nat.id in Hspec by lia.
  assert (Htaken : forall c',
            (exists j reg, 0 <= j < num_regs /\ c' + j < 0x100 /\
               numbered_regs st !! Z.to_nat (c' + j) = Some (Some reg)) ->
            exists j, c' <= j < c' + num_regs /\ j < 0x100 /\ slot_taken st j).
  { intros c' (j & reg & Hj & Hlt & Hreg). exists (c' + j). split; [lia|].
    split; [done|]. by exists reg. }
  destruct (find_space_from _ _ _ _) as [c| |index].
  - destruct Hspec as (Hle & Hfit & _ & Hfree & Hbefore).
    split; [done|]. split; [done|]. split.
    + intros j Hj. unfold slot_free. specialize (Hfree (j - c) ltac:(lia)).
      by replace (c + (j - c)) with j in Hfree by lia.
    + intros c' Hc'. by apply Htaken, Hbefore.
  - intros c' Hc'. by apply Htaken, Hspec.
  - destruct Hspec as (-> & c & Hc & Hbig & Hfree & Hbefore). split; [done|].
    exists c. split; [done|]. split; [done|]. split; [exact Hfree|].
    intros c' Hc'. by apply Htaken, Hbefore.
Qed.

(** X6 in the allocator without registers: two numbers are found at 0. *)
Lemma find_register_number_space_spec_witness :
  match find_register_number_space new_RegisterAssigner 2 with
  | SpaceFound c =>
      0 <= c /\ c + 2 <= 0x100 /\
      (forall j, c <= j < c + 2 -> slot_free new_RegisterAssigner j) /\
      (forall c', 0 <= c' < c ->
         exists j, c' <= j < c' + 2 /\ j < 0x100 /\ slot_taken new_RegisterAssigner j)
  | SpaceExhausted =>
      forall c', 0 <= c' < 0x100 ->
        exists j, c' <= j < c' + 2 /\ j < 0x100 /\ slot_taken new_RegisterAssigner j
  | ReadPastEnd index =>
      index = 0x100 /\
      exists c, 0 <= c < 0x100 /\ 0x100 < c + 2 /\
        (forall j, c <= j < 0x100 -> slot_free new_RegisterAssigner j) /\
        (forall c', 0 <= c' < c ->
           exists j, c' <= j < c' + 2 /\ j < 0x100 /\ slot_taken new_RegisterAssigner j)
  end.
Proof.
  apply (find_register_number_space_spec new_RegisterAssigner 2); [reflexivity | lia].
Defined.

(** ** The invariant of the register allocator *)

Lemma string_compare_refl (s : string) : String.compare s s = Eq.
Proof.
  induction s as [|c s IH]; [done|]. cbn [String.compare].
  unfold Ascii.compare. by rewrite N.compare_refl.
Qed.

Lemma string_compare_lt_trans (s1 s2 s3 : string) :
  String.compare s1 s2 = Lt -> String.compare s2 s3 = Lt -> String.compare s1 s3 = Lt.
Proof.
  revert s2 s3. induction s1 as [|c1 s1 IH]; intros [|c2 s2] [|c3 s3]; cbn [String.compare];
    try done.
  unfold Ascii.compare.
  destruct (N.compare_spec (N_of_ascii c1) (N_of_ascii c2)) as [H12|H12|H12]; [| |done];
    (destruct (N.compare_spec (N_of_ascii c2) (N_of_ascii c3)) as [H23|H23|H23]; [| |done]);
    destruct (N.compare_spec (N_of_ascii c1) (N_of_ascii c3)) as [H13|H13|H13];
    try done; try lia.
  intros Ha Hb. by apply (IH s2).
Qed.

(** [emplace] inserts exactly when [find] finds nothing. *)
Lemma omap_emplace_inserted {K V : Type} (cmp : K -> K -> comparison) (k : K) (v : V)
    (m : list (K * V)) :
  snd (omap_emplace cmp k v m) = true <-> omap_find cmp k m = None.
Proof.
  induction m as [|[k' v'] m IH]; cbn [omap_emplace omap_find]; [done|].
  destruct (cmp k k'); cbn; [done|done|].
  destruct (omap_emplace cmp k v m) as [m'' b]. exact IH.
Qed.

Lemma omap_emplace_kept {K V : Type} (cmp : K -> K -> comparison) (k : K) (v : V)
    (m : list (K * V)) :
  snd (omap_emplace cmp k v m) = false -> fst (omap_emplace cmp k v m) = m.
Proof.
  induction m as [|[k' v'] m IH]; cbn [omap_emplace]; [done|].
  destruct (cmp k k'); cbn; [done|done|].
  destruct (omap_emplace cmp k v m) as [m'' b]. cbn in *. intros Hb. by rewrite IH.
Qed.

Lemma omap_find_emplace_eq (k : string) {V : Type} (v : V) (m : list (string * V)) :
  snd (omap_emplace String.compare k v m) = true ->
  omap_find String.compare k (fst (omap_emplace String.compare k v m)) = Some v.
Proof.
  induction m as [|[k' v'] m IH]; cbn [omap_emplace omap_find fst snd].
  - by rewrite string_compare_refl.
  - destruct (String.compare k k') eqn:Hc; cbn [fst snd omap_find]; [done| |].
    + by rewrite string_compare_refl.
    + destruct (omap_emplace String.compare k v m) as [m'' b]. cbn [fst snd omap_find] in *.
      by rewrite Hc.
Qed.

Lemma omap_find_emplace_ne (k k' : string) {V : Type} (v : V) (m : list (string * V)) :
  k' <> k ->
  omap_find String.compare k' (fst (omap_emplace String.compare k v m))
  = omap_find String.compare k' m.
Proof.
  intros Hne. induction m as [|[k1 v1] m IH]; cbn [omap_emplace omap_find fst].
  - destruct (String.compare k' k) eqn:Hc; [|done|done].
    by apply String.compare_eq_iff in Hc.
  - destruct (String.compare k k1) eqn:Hc; cbn [fst omap_find]; [done| |].
    + destruct (String.compare k' k) eqn:Hc'.
      * by apply String.compare_eq_iff in Hc'.
      * by rewrite (string_compare_lt_trans _ _ _ Hc' Hc).
      * done.
    + destruct (omap_emplace String.compare k v m) as [m'' b]. cbn [fst omap_find] in *.
      by rewrite IH.
Qed.

Lemma omap_find_elem {V : Type} (k : string) (v : V) (m : list (string * V)) :
  omap_find String.compare k m = Some v -> (k, v) ∈ m.
Proof.
  induction m as [|[k' v'] m IH]; cbn [omap_find]; [done|].
  destruct (String.compare k k') eqn:Hc; [|done|].
  - apply String.compare_eq_iff in Hc as ->. intros [= ->]. apply list_elem_of_here.
  - intros Hf. apply list_elem_of_further. by apply IH.
Qed.

Lemma ra_ok_new : ra_ok new_RegisterAssigner.
Proof.
  split; cbn [new_RegisterAssigner numbered_regs ra_store named_regs].
  - apply length_replicate.
  - intros n id Hn. apply lookup_replicate in Hn as [[=] _].
  - intros id r Hr. by rewrite lookup_nil in Hr.
  - intros name id Hin. by apply elem_of_nil in Hin.
  - intros id r Hr. by rewrite lookup_nil in Hr.
Qed.

Lemma reg_at_lookup (st : RegisterAssigner) (id : RegId) (r : Register) :
  ra_store st !! id = Some r -> reg_at st id = r.
Proof. unfold reg_at. by intros ->. Qed.

(** [make_shared<Register>()] *)
Lemma ra_ok_make_register (st : RegisterAssigner) :
  ra_ok st ->
  ra_ok (mkRegisterAssigner (ra_store st ++ [new_Register]) (named_regs st)
           (numbered_regs st)).
Proof.
  intros [Hlen Hslot Hnum Hname Hfound]. split; cbn [numbered_regs ra_store named_regs].
  - done.
  - intros n id Hn. destruct (Hslot _ _ Hn) as (r & Hr & Heq). exists r.
    split; [by apply lookup_app_l_Some | done].
  - intros id r Hr. apply lookup_app_Some in Hr as [Hr|[_ Hr]]; [by apply Hnum|].
    apply list_lookup_singleton_Some in Hr as [_ <-]. cbn. split; [lia|]. lia.
  - intros name id Hin. destruct (Hname _ _ Hin) as (Hne & r & Hr & Heq).
    split; [done|]. exists r. split; [by apply lookup_app_l_Some | done].
  - intros id r Hr. apply lookup_app_Some in Hr as [Hr|[_ Hr]]; [by apply Hfound|].
    by apply list_lookup_singleton_Some in Hr as [_ <-].
Qed.

(** Giving a number to a register that has none, in a free slot. *)
Lemma ra_ok_set_number (st : RegisterAssigner) (reg : RegId) (number : Z) :
  ra_ok st -> (reg < length (ra_store st))%nat -> reg_number (reg_at st reg) < 0 ->
  0 <= number < 0x100 -> numbered_regs st !! Z.to_nat number = Some None ->
  ra_ok (mkRegisterAssigner (alter (set_number number) reg (ra_store st)) (named_regs st)
           (<[Z.to_nat number := Some reg]> (numbered_regs st))).
Proof.
  intros [Hlen Hslot Hnum Hname Hfound] Hreg Hneg Hrange Hfree.
  destruct (lookup_lt_is_Some_2 _ _ Hreg) as [r0 Hr0].
  rewrite (reg_at_lookup _ _ _ Hr0) in Hneg.
  split; cbn [numbered_regs ra_store named_regs]; unfold RegId in *.
  - by rewrite length_insert.
  - intros n id Hn. destruct (decide (n = Z.to_nat number)) as [->|Hne].
    + rewrite list_lookup_insert_eq in Hn by lia. injection Hn as <-.
      exists (set_number number r0). rewrite list_lookup_alter_eq, Hr0.
      split; [done|]. cbn. lia.
    + rewrite list_lookup_insert_ne in Hn by done.
      destruct (Hslot _ _ Hn) as (r & Hr & Heq). exists r. split; [|done].
      rewrite list_lookup_alter_ne; [done|]. intros Heq'. subst id.
      pose proof (eq_trans (eq_sym Hr) Hr0) as [= ->]. lia.
  - intros id r Hr. destruct (decide (id = reg)) as [->|Hne].
    + rewrite list_lookup_alter_eq, Hr0 in Hr. injection Hr as <-. cbn.
      split; [lia|]. intros _. by rewrite list_lookup_insert_eq by lia.
    + rewrite list_lookup_alter_ne in Hr by done.
      destruct (Hnum _ _ Hr) as [Hr' Hs]. split; [done|]. intros Hpos.
      specialize (Hs Hpos). rewrite list_lookup_insert_ne; [done|].
      intros Heq. rewrite <- Heq, Hfree in Hs. done.
  - intros name id Hin. destruct (Hname _ _ Hin) as (Hne & r & Hr & Heq).
    split; [done|]. destruct (decide (id = reg)) as [->|Hid].
    + exists (set_number number r). rewrite list_lookup_alter_eq, Hr. done.
    + exists r. by rewrite list_lookup_alter_ne.
  - intros id r Hr. destruct (decide (id = reg)) as [->|Hid].
    + rewrite list_lookup_alter_eq, Hr0 in Hr. injection Hr as <-. cbn. by apply Hfound.
    + rewrite list_lookup_alter_ne in Hr by done. by apply Hfound.
Qed.

(** Giving a name to a register that has none. *)
Lemma ra_ok_set_name (st : RegisterAssigner) (reg : RegId) (name : string) :
  ra_ok st -> (reg < length (ra_store st))%nat -> reg_name (reg_at st reg) = EmptyString ->
  name <> EmptyString ->
  snd (omap_emplace String.compare name reg (named_regs st)) = true ->
  ra_ok (mkRegisterAssigner (alter (set_name name) reg (ra_store st))
           (fst (omap_emplace String.compare name reg (named_regs st)))
           (numbered_regs st)).
Proof.
  intros [Hlen Hslot Hnum Hname Hfound] Hreg Hempty Hne Hins.
  destruct (lookup_lt_is_Some_2 _ _ Hreg) as [r0 Hr0].
  rewrite (reg_at_lookup _ _ _ Hr0) in Hempty.
  split; cbn [numbered_regs ra_store named_regs]; unfold RegId in *.
  - done.
  - intros n id Hn. destruct (Hslot _ _ Hn) as (r & Hr & Heq).
    destruct (decide (id = reg)) as [->|Hid].
    + exists (set_name name r). rewrite list_lookup_alter_eq, Hr. done.
    + exists r. by rewrite list_lookup_alter_ne.
  - intros id r Hr. destruct (decide (id = reg)) as [->|Hid].
    + rewrite list_lookup_alter_eq, Hr0 in Hr. injection Hr as <-. cbn.
      by apply Hnum.
    + rewrite list_lookup_alter_ne in Hr by done. by apply Hnum.
  - intros nm id Hin. apply omap_emplace_elem in Hin as [Hin|[_ [= -> ->]]].
    + destruct (Hname _ _ Hin) as (Hnm & r & Hr & Heq). split; [done|].
      exists r. split; [|done]. rewrite list_lookup_alter_ne; [done|]. intros Heq'. subst id.
      pose proof (eq_trans (eq_sym Hr) Hr0) as [= ->]. congruence.
    + split; [done|]. exists (set_name name r0).
      by rewrite list_lookup_alter_eq, Hr0.
  - intros id r Hr. destruct (decide (id = reg)) as [->|Hid].
    + rewrite list_lookup_alter_eq, Hr0 in Hr. injection Hr as <-. cbn. intros _.
      by apply omap_find_emplace_eq.
    + rewrite list_lookup_alter_ne in Hr by done. intros Hnm.
      rewrite omap_find_emplace_ne; [by apply Hfound|]. intros Heq.
      pose proof (Hfound _ _ Hr Hnm) as Hf. rewrite Heq in Hf.
      apply omap_emplace_inserted in Hins. rewrite Hins in Hf. done.
Qed.

(** Changing the links or the offsets of a register. *)
Lemma ra_ok_update_reg (st : RegisterAssigner) (reg : RegId) (f : Register -> Register) :
  (forall r, reg_number (f r) = reg_number r /\ reg_name (f r) = reg_name r) ->
  ra_ok st ->
  ra_ok (mkRegisterAssigner (alter f reg (ra_store st)) (named_regs st) (numbered_regs st)).
Proof.
  intros Hf [Hlen Hslot Hnum Hname Hfound].
  split; cbn [numbered_regs ra_store named_regs]; unfold RegId in *.
  - done.
  - intros n id Hn. destruct (Hslot _ _ Hn) as (r & Hr & Heq).
    destruct (decide (id = reg)) as [->|Hid].
    + exists (f r). rewrite list_lookup_alter_eq, Hr. split; [done|].
      by rewrite (proj1 (Hf r)).
    + exists r. by rewrite list_lookup_alter_ne.
  - intros id r Hr. destruct (decide (id = reg)) as [->|Hid].
    + rewrite list_lookup_alter_eq in Hr.
      destruct (ra_store st !! reg) as [r0|] eqn:Hr0; [|done]. injection Hr as <-.
      rewrite (proj1 (Hf r0)). by apply Hnum.
    + rewrite list_lookup_alter_ne in Hr by done. by apply Hnum.
  - intros nm id Hin. destruct (Hname _ _ Hin) as (Hnm & r & Hr & Heq). split; [done|].
    destruct (decide (id = reg)) as [->|Hid].
    + exists (f r). rewrite list_lookup_alter_eq, Hr. split; [done|].
      by rewrite (proj2 (Hf r)).
    + exists r. by rewrite list_lookup_alter_ne.
  - intros id r Hr. destruct (decide (id = reg)) as [->|Hid].
    + rewrite list_lookup_alter_eq in Hr.
      destruct (ra_store st !! reg) as [r0|] eqn:Hr0; [|done]. injection Hr as <-.
      rewrite (proj2 (Hf r0)). by apply Hfound.
    + rewrite list_lookup_alter_ne in Hr by done. by apply Hfound.
Qed.

(** ** The operations of the register allocator *)

Lemma bind_Ok_inv {S A B : Type} (m : M S A) (k : A -> M S B) (s s' : S) (b : B) :
  bind m k s = (Ok b, s') -> exists a s1, m s = (Ok a, s1) /\ k a s1 = (Ok b, s').
Proof. unfold bind. destruct (m s) as [[a|e] s1]; [eauto|done]. Qed.

Lemma reg_extends_refl (r : Register) : reg_extends r r.
Proof. by split. Qed.

Lemma reg_extends_trans (r1 r2 r3 : Register) :
  -1 <= reg_number r1 -> reg_extends r1 r2 -> reg_extends r2 r3 -> reg_extends r1 r3.
Proof.
  intros Hn [Ha Hb Hc Hd He] [Ha' Hb' Hc' Hd' He']. split.
  - intros H. rewrite Ha' by (by rewrite Ha). by apply Ha.
  - intros H. rewrite Hb' by (by rewrite Hb). by apply Hb.
  - intros p H. by apply Hc', Hc.
  - intros n H. by apply Hd', Hd.
  - intros off H. by apply He', He.
Qed.

Lemma ra_extends_refl (st : RegisterAssigner) : ra_extends st st.
Proof. intros id r Hr. exists r. split; [done|apply reg_extends_refl]. Qed.

Lemma ra_extends_trans (st1 st2 st3 : RegisterAssigner) :
  ra_ok st1 -> ra_extends st1 st2 -> ra_extends st2 st3 -> ra_extends st1 st3.
Proof.
  intros Hok H12 H23 id r Hr. destruct (H12 _ _ Hr) as (r2 & Hr2 & He2).
  destruct (H23 _ _ Hr2) as (r3 & Hr3 & He3). exists r3. split; [done|].
  eapply reg_extends_trans; [|done..]. pose proof (ra_number_slot _ Hok _ _ Hr). lia.
Qed.

Lemma ra_extends_alter (st : RegisterAssigner) (reg : RegId) (f : Register -> Register)
    (named : list (string * RegId)) (numbered : list (option RegId)) :
  (forall r, ra_store st !! reg = Some r -> reg_extends r (f r)) ->
  ra_extends st (mkRegisterAssigner (alter f reg (ra_store st)) named numbered).
Proof.
  intros Hf id r Hr. cbn [ra_store]. unfold RegId in *.
  destruct (decide (id = reg)) as [->|Hne].
  - exists (f r). rewrite list_lookup_alter_eq, Hr. split; [done|by apply Hf].
  - exists r. rewrite list_lookup_alter_ne by done. split; [done|apply reg_extends_refl].
Qed.

Lemma ra_extends_make_register (st : RegisterAssigner) :
  ra_extends st (mkRegisterAssigner (ra_store st ++ [new_Register]) (named_regs st)
                   (numbered_regs st)).
Proof.
  intros id r Hr. exists r. split; [by apply lookup_app_l_Some|apply reg_extends_refl].
Qed.

(** The part of [get_or_create] and of [assign_number] that gives a number
    to a register. *)
Lemma give_number_ok (st st' : RegisterAssigner) (reg : RegId) (number : Z)
    (conflict : RegId -> M RegisterAssigner unit) :
  ra_ok st -> (reg < length (ra_store st))%nat -> reg_number (reg_at st reg) < 0 ->
  0 <= number < 0x100 ->
  (forall other s, fst (conflict other s) <> Ok tt) ->
  (update_reg reg (set_number number) ;;;
   numbered_reg <- numbered_at number ;;
   match numbered_reg with
   | Some other => conflict other
   | None => numbered_set number reg
   end) st = (Ok tt, st') ->
  slot_free st number /\
  st' = mkRegisterAssigner (alter (set_number number) reg (ra_store st)) (named_regs st)
          (<[Z.to_nat number := Some reg]> (numbered_regs st)).
Proof.
  intros Hok Hreg Hneg Hrange Hconflict H.
  apply bind_Ok_inv in H as ([] & s1 & Hupd & H). injection Hupd as <-.
  apply bind_Ok_inv in H as (slot & s2 & Hat & H).
  unfold numbered_at in Hat. cbn [numbered_regs] in Hat.
  destruct (number <? 0) eqn:Hlt; [apply Z.ltb_lt in Hlt; lia|].
  destruct (numbered_regs st !! Z.to_nat number) as [slot'|] eqn:Hslot; [|done].
  injection Hat as <- <-. destruct slot' as [other|].
  - exfalso. eapply (Hconflict other). by rewrite H.
  - injection H as <-. done.
Qed.

Lemma reg_extends_set_number (r : Register) (number : Z) :
  reg_number r < 0 -> reg_extends r (set_number number r).
Proof. intros Hneg. split; cbn; try done. lia. Qed.

Lemma reg_extends_set_name (r : Register) (name : string) :
  reg_name r = EmptyString -> reg_extends r (set_name name r).
Proof. intros Hempty. split; cbn; try done. Qed.

Lemma is_empty_spec (s : string) : is_empty s = true <-> s = EmptyString.
Proof. by destruct s. Qed.

Lemma get_or_create_ok (name : string) (number : Z) (st st' : RegisterAssigner) (reg : RegId) :
  ra_ok st -> get_or_create name number st = (Ok reg, st') ->
  ra_ok st' /\ ra_extends st st' /\ -1 <= number < 0x100 /\
  (name <> EmptyString -> omap_find String.compare name (named_regs st') = Some reg) /\
  (0 <= number -> numbered_regs st' !! Z.to_nat number = Some (Some reg)) /\
  (reg < length (ra_store st'))%nat.
Proof.
  intros Hok. unfold get_or_create.
  destruct ((number <? -1) || (0x100 <=? number)) eqn:Hrange; [done|].
  apply orb_false_iff in Hrange as [Hlo Hhi]. apply Z.ltb_ge in Hlo. apply Z.leb_gt in Hhi.
  intros H.
  apply bind_Ok_inv in H as (by_name & s0 & Hby & H). injection Hby as Hby <-.
  apply bind_Ok_inv in H as (found & s0' & Hfound & H).
  apply bind_Ok_inv in H as (reg0 & st1 & Hreg & H).
  apply bind_Ok_inv in H as ([] & st2 & Hnum & H).
  apply bind_Ok_inv in H as ([] & st3 & Hnm & H).
  injection H as <- <-.
  (* the register that is found or made *)
  assert (ra_ok st1 /\ ra_extends st st1 /\ (reg0 < length (ra_store st1))%nat)
    as (Hok1 & Hext1 & Hreg1).
  { assert (s0' = st /\ forall r, found = Some r -> (r < length (ra_store st))%nat)
      as [-> Hin].
    { destruct by_name as [r|].
      - injection Hfound as <- <-. split; [done|]. intros r' [= <-].
        destruct (negb (is_empty name)); [|done].
        apply omap_find_elem in Hby. destruct (ra_named _ Hok _ _ Hby) as (_ & r0 & Hr0 & _).
        by apply lookup_lt_Some in Hr0.
      - destruct (0 <=? number); [|by injection Hfound as <- <-].
        unfold numbered_at in Hfound.
        destruct (if number <? 0 then None else numbered_regs st !! Z.to_nat number)
          as [slot|] eqn:Hslot; [|done].
        injection Hfound as <- <-. split; [done|]. intros r ->.
        destruct (number <? 0); [done|].
        destruct (ra_slot_number _ Hok _ _ Hslot) as (r0 & Hr0 & _).
        by apply lookup_lt_Some in Hr0. }
    destruct found as [r|].
    - injection Hreg as <- <-. split; [done|]. split; [apply ra_extends_refl|by apply Hin].
    - injection Hreg as <- <-. split; [by apply ra_ok_make_register|].
      split; [apply ra_extends_make_register|]. cbn. rewrite length_app. cbn. lia. }
  (* its number *)
  assert (ra_ok st2 /\ ra_extends st1 st2 /\ (reg0 < length (ra_store st2))%nat /\
          (0 <= number -> numbered_regs st2 !! Z.to_nat number = Some (Some reg0)))
    as (Hok2 & Hext2 & Hreg2 & Hnumber).
  { destruct (0 <=? number) eqn:Hpos.
    2:{ injection Hnum as <-. apply Z.leb_gt in Hpos.
        split; [done|]. split; [apply ra_extends_refl|]. split; [done|]. lia. }
    apply Z.leb_le in Hpos.
    apply bind_Ok_inv in Hnum as (r & s & Hr & Hnum). injection Hr as <- <-.
    destruct (reg_number (reg_at st1 reg0) <? 0) eqn:Hneg.
    - apply Z.ltb_lt in Hneg.
      apply give_number_ok in Hnum as [Hfree ->]; [|done|done|done|lia|].
      2:{ intros other s Hthrow. unfold bind, deref, gets, throw in Hthrow. done. }
      split; [by apply ra_ok_set_number; [| | |lia|]|].
      split.
      { apply ra_extends_alter. intros r Hr. apply reg_extends_set_number.
        by rewrite (reg_at_lookup _ _ _ Hr) in Hneg. }
      cbn [ra_store numbered_regs]. rewrite length_alter. split; [done|]. intros _.
      apply list_lookup_insert_eq. by eapply lookup_lt_Some.
    - apply Z.ltb_ge in Hneg.
      destruct (negb (reg_number (reg_at st1 reg0) =? number)) eqn:Hsame; [done|].
      injection Hnum as <-. apply negb_false_iff, Z.eqb_eq in Hsame.
      split; [done|]. split; [apply ra_extends_refl|]. split; [done|]. intros _.
      destruct (lookup_lt_is_Some_2 _ _ Hreg1) as [r Hr].
      rewrite (reg_at_lookup _ _ _ Hr) in Hsame, Hneg. rewrite <- Hsame.
      by apply (ra_number_slot _ Hok1 _ _ Hr). }
  (* its name *)
  assert (ra_ok st3 /\ ra_extends st2 st3 /\ (reg0 < length (ra_store st3))%nat /\
          numbered_regs st3 = numbered_regs st2 /\
          (name <> EmptyString -> omap_find String.compare name (named_regs st3) = Some reg0))
    as (Hok3 & Hext3 & Hreg3 & Hslots & Hname).
  { destruct (is_empty name) eqn:Hempty; cbn [negb] in Hnm.
    { injection Hnm as <-. apply is_empty_spec in Hempty.
      split; [done|]. split; [apply ra_extends_refl|]. done. }
    assert (name <> EmptyString) as Hne by (intros ->; done).
    apply bind_Ok_inv in Hnm as (r & s & Hr & Hnm). injection Hr as <- <-.
    destruct (is_empty (reg_name (reg_at st2 reg0))) eqn:Hnoname.
    - apply is_empty_spec in Hnoname.
      apply bind_Ok_inv in Hnm as ([] & s & Hupd & Hnm). injection Hupd as <-.
      apply bind_Ok_inv in Hnm as (inserted & s & Hemplace & Hnm).
      unfold named_emplace in Hemplace. cbn [ra_store named_regs numbered_regs] in Hemplace.
      destruct (omap_emplace String.compare name reg0 (named_regs st2)) as [m b] eqn:Hm.
      injection Hemplace as <- <-. destruct b; [|done]. injection Hnm as <-.
      assert (snd (omap_emplace String.compare name reg0 (named_regs st2)) = true) as Hb
        by (by rewrite Hm).
      replace m with (fst (omap_emplace String.compare name reg0 (named_regs st2)))
        by (by rewrite Hm).
      split; [by apply ra_ok_set_name|].
      split.
      { apply ra_extends_alter. intros r Hr. apply reg_extends_set_name.
        by rewrite (reg_at_lookup _ _ _ Hr) in Hnoname. }
      cbn [ra_store numbered_regs named_regs]. rewrite length_alter.
      split; [done|]. split; [done|]. intros _. by apply omap_find_emplace_eq.
    - destruct (negb (reg_name (reg_at st2 reg0) =? name)%string) eqn:Hsame; [done|].
      injection Hnm as <-. apply negb_false_iff, String.eqb_eq in Hsame.
      split; [done|]. split; [apply ra_extends_refl|]. split; [done|]. split; [done|].
      intros _. destruct (lookup_lt_is_Some_2 _ _ Hreg2) as [r Hr].
      rewrite (reg_at_lookup _ _ _ Hr) in Hsame. rewrite <- Hsame.
      apply (ra_found _ Hok2 _ _ Hr). congruence. }
  split; [done|]. split.
  { eapply ra_extends_trans; [done| |done]. eapply ra_extends_trans; done. }
  split; [lia|]. split; [done|]. split; [|done].
  rewrite Hslots. done.
Qed.

(** ** [get_or_create] *)

Lemma bind_Ok {S A B : Type} (m : M S A) (k : A -> M S B) (s s1 : S) (a : A) :
  m s = (Ok a, s1) -> bind m k s = k a s1.
Proof. unfold bind. by intros ->. Qed.

(** Asking for a register that exists, by its name, by its number or by
    both, gives that register and changes nothing. *)
Lemma get_or_create_existing (name : string) (number : Z) (st : RegisterAssigner)
    (reg : RegId) (r : Register) :
  ra_ok st -> ra_store st !! reg = Some r ->
  -1 <= number < 0x100 -> name <> EmptyString \/ 0 <= number ->
  (name <> EmptyString -> reg_name r = name) ->
  (0 <= number -> reg_number r = number) ->
  get_or_create name number st = (Ok reg, st).
Proof.
  intros Hok Hr Hrange Hasked Hname Hnumber. unfold get_or_create.
  replace ((number <? -1) || (0x100 <=? number)) with false by lia.
  assert (exists by_name,
    (if negb (is_empty name) then omap_find String.compare name (named_regs st) else None)
    = by_name /\
    match by_name with
    | Some r' => r' = reg
    | None => 0 <= number /\ numbered_regs st !! Z.to_nat number = Some (Some reg)
    end) as (by_name & Hby & Hfound).
  { destruct (is_empty name) eqn:Hempty; cbn [negb].
    - apply is_empty_spec in Hempty. exists None. split; [done|].
      destruct Hasked as [|Hpos]; [done|]. split; [done|].
      rewrite <- (Hnumber Hpos). by apply (ra_number_slot _ Hok _ _ Hr); rewrite Hnumber.
    - assert (name <> EmptyString) as Hne by (by intros ->).
      exists (Some reg). split; [|done]. rewrite <- (Hname Hne).
      apply (ra_found _ Hok _ _ Hr). by rewrite Hname. }
  erewrite bind_Ok; [|unfold gets; by rewrite Hby].
  erewrite (bind_Ok _ _ st st (Some reg)).
  2:{ destruct by_name as [r'|]; [by rewrite Hfound|]. destruct Hfound as [Hpos Hslot].
      replace (0 <=? number) with true by lia. unfold numbered_at.
      replace (number <? 0) with false by lia. by rewrite Hslot. }
  erewrite (bind_Ok _ _ st st reg); [|done].
  erewrite (bind_Ok _ _ st st tt).
  2:{ destruct (0 <=? number) eqn:Hpos; [|done]. apply Z.leb_le in Hpos.
      erewrite bind_Ok; [|reflexivity]. rewrite (reg_at_lookup _ _ _ Hr), (Hnumber Hpos).
      replace (number <? 0) with false by lia. by rewrite Z.eqb_refl. }
  erewrite (bind_Ok _ _ st st tt); [done|].
  destruct (is_empty name) eqn:Hempty; cbn [negb]; [done|].
  assert (name <> EmptyString) as Hne by (by intros ->).
  erewrite bind_Ok; [|reflexivity]. rewrite (reg_at_lookup _ _ _ Hr), (Hname Hne).
  rewrite Hempty. by rewrite String.eqb_refl.
Qed.

(** X7: from a consistent allocator, a successful [get_or_create] leaves a
    consistent allocator in which the register returned has the name asked
    for (if one was given) and the number asked for (if one was given),
    and nothing that was known of any register has been changed. *)
Theorem get_or_create_register (name : string) (number : Z) (st st' : RegisterAssigner)
    (reg : RegId) :
  ra_ok st -> get_or_create name number st = (Ok reg, st') ->
  ra_ok st' /\ ra_extends st st' /\
  exists r, ra_store st' !! reg = Some r /\
    (name <> EmptyString -> reg_name r = name) /\
    (0 <= number -> reg_number r = number /\ number < 0x100).
Proof.
  intros Hok Hget.
  destruct (get_or_create_ok _ _ _ _ _ Hok Hget)
    as (Hok' & Hext & Hrange & Hname & Hnumber & Hreg).
  split; [done|]. split; [done|].
  destruct (lookup_lt_is_Some_2 _ _ Hreg) as [r Hr]. exists r. split; [done|]. split.
  - intros Hne. apply omap_find_elem in Hname; [|done].
    destruct (ra_named _ Hok' _ _ Hname) as (_ & r' & Hr' & Heq). unfold RegId in *.
    rewrite Hr in Hr'. by injection Hr' as ->.
  - intros Hpos. destruct (ra_slot_number _ Hok' _ _ (Hnumber Hpos)) as (r' & Hr' & Heq).
    unfold RegId in *. rewrite Hr in Hr'. injection Hr' as <-. lia.
Qed.

(** X7 for the first register of a program, [r:a@5]. *)
Lemma get_or_create_register_witness :
  ra_ok one_register /\ ra_extends new_RegisterAssigner one_register /\
  exists r, ra_store one_register !! 0%nat = Some r /\
    ("a" <> EmptyString -> reg_name r = "a") /\
    (0 <= 5 -> reg_number r = 5 /\ 5 < 0x100).
Proof.
  apply (get_or_create_register "a" 5 new_RegisterAssigner one_register 0%nat).
  - split; cbn [new_RegisterAssigner numbered_regs ra_store named_regs].
    + apply length_replicate.
    + intros n id Hn. apply lookup_replicate in Hn as [[=] _].
    + intros id r Hr. by rewrite lookup_nil in Hr.
    + intros nm id Hin. by apply elem_of_nil in Hin.
    + intros id r Hr. by rewrite lookup_nil in Hr.
  - reflexivity.
Defined.

(** X8: after a successful [get_or_create] with a name or a number, asking
    again in the same way, by the name alone or by the number alone gives
    the same register and leaves the allocator as it is. *)
Theorem get_or_create_again (name : string) (number : Z) (st st' : RegisterAssigner)
    (reg : RegId) :
  ra_ok st -> get_or_create name number st = (Ok reg, st') ->
  name <> EmptyString \/ 0 <= number ->
  get_or_create name number st' = (Ok reg, st') /\
  (name <> EmptyString -> get_or_create name (-1) st' = (Ok reg, st')) /\
  (0 <= number -> get_or_create EmptyString number st' = (Ok reg, st')).
Proof.
  intros Hok Hget Hasked.
  destruct (get_or_create_ok _ _ _ _ _ Hok Hget)
    as (Hok' & Hext & Hrange & Hname & Hnumber & Hreg).
  destruct (lookup_lt_is_Some_2 _ _ Hreg) as [r Hr].
  assert (name <> EmptyString -> reg_name r = name) as Hn.
  { intros Hne. apply omap_find_elem in Hname; [|done].
    destruct (ra_named _ Hok' _ _ Hname) as (_ & r' & Hr' & Heq). unfold RegId in *.
    rewrite Hr in Hr'. by injection Hr' as ->. }
  assert (0 <= number -> reg_number r = number) as Hm.
  { intros Hpos. destruct (ra_slot_number _ Hok' _ _ (Hnumber Hpos)) as (r' & Hr' & Heq).
    unfold RegId in *. rewrite Hr in Hr'. injection Hr' as <-. lia. }
  split; [by apply (get_or_create_existing _ _ _ _ r)|]. split.
  - intros Hne. apply (get_or_create_existing _ _ _ _ r); first [done | lia | by left].
  - intros Hpos. apply (get_or_create_existing _ _ _ _ r); first [done | lia | by right].
Qed.

(** X8 for [r:a@5]: [r:a@5], [r:a] and [r5] are then the same register. *)
Lemma get_or_create_again_witness :
  get_or_create "a" 5 one_register = (Ok 0%nat, one_register) /\
  ("a" <> EmptyString -> get_or_create "a" (-1) one_register = (Ok 0%nat, one_register)) /\
  (0 <= 5 -> get_or_create EmptyString 5 one_register = (Ok 0%nat, one_register)).
Proof.
  apply (get_or_create_again "a" 5 new_RegisterAssigner one_register 0%nat).
  - split; cbn [new_RegisterAssigner numbered_regs ra_store named_regs].
    + apply length_replicate.
    + intros n id Hn. apply lookup_replicate in Hn as [[=] _].
    + intros id r Hr. by rewrite lookup_nil in Hr.
    + intros nm id Hin. by apply elem_of_nil in Hin.
    + intros id r Hr. by rewrite lookup_nil in Hr.
  - reflexivity.
  - left. discriminate.
Defined.

(** ** [constrain] *)

Lemma constrain_ok (first_reg second_reg : RegId) (st st' : RegisterAssigner) :
  ra_ok st -> (first_reg < length (ra_store st))%nat ->
  (second_reg < length (ra_store st))%nat ->
  constrain first_reg second_reg st = (Ok tt, st') ->
  ra_ok st' /\ ra_extends st st' /\
  named_regs st' = named_regs st /\ numbered_regs st' = numbered_regs st /\
  length (ra_store st') = length (ra_store st) /\
  reg_next (reg_at st' first_reg) = Some second_reg /\
  reg_prev (reg_at st' second_reg) = Some first_reg /\
  (0 <= reg_number (reg_at st' first_reg) -> 0 <= reg_number (reg_at st' second_reg) ->
   reg_number (reg_at st' first_reg) = Z.land (reg_number (reg_at st' second_reg) - 1) 0xFF).
Proof.
  intros Hok Hfirst Hsecond H. unfold constrain in H.
  apply bind_Ok_inv in H as (f & s0 & Hf & H). injection Hf as <- <-.
  apply bind_Ok_inv in H as (s & s0 & Hs & H). injection Hs as <- <-.
  apply bind_Ok_inv in H as ([] & st1 & Hnext & H).
  apply bind_Ok_inv in H as (s1 & s0 & Hs & H). injection Hs as <- <-.
  apply bind_Ok_inv in H as ([] & st2 & Hprev & H).
  apply bind_Ok_inv in H as (f2 & s0 & Hf & H). injection Hf as <- <-.
  apply bind_Ok_inv in H as (s2 & s0 & Hs & H). injection Hs as <- <-.
  assert (ra_ok st1 /\ ra_extends st st1 /\ named_regs st1 = named_regs st /\
          numbered_regs st1 = numbered_regs st /\
          length (ra_store st1) = length (ra_store st) /\
          reg_next (reg_at st1 first_reg) = Some second_reg)
    as (Hok1 & Hext1 & Hnamed1 & Hnumbered1 & Hlen1 & Hlink1).
  { destruct (lookup_lt_is_Some_2 _ _ Hfirst) as [f Hf].
    rewrite (reg_at_lookup _ _ _ Hf) in Hnext.
    destruct (reg_next f) as [n|] eqn:Hn.
    - destruct (negb (n =? second_reg)%nat) eqn:Hsame; [done|]. injection Hnext as <-.
      apply negb_false_iff, Nat.eqb_eq in Hsame as ->.
      split; [done|]. split; [apply ra_extends_refl|].
      by rewrite (reg_at_lookup _ _ _ Hf).
    - injection Hnext as <-. split; [by apply ra_ok_update_reg|]. split.
      { apply ra_extends_alter. intros r Hr. unfold RegId in *.
        rewrite Hf in Hr. injection Hr as <-. split; cbn; try done. by rewrite Hn. }
      cbn [ra_store named_regs numbered_regs]. rewrite length_alter.
      split; [done|]. split; [done|]. split; [done|].
      unfold reg_at. cbn [ra_store]. unfold RegId in *.
      by rewrite list_lookup_alter_eq, Hf. }
  assert (ra_ok st2 /\ ra_extends st1 st2 /\ named_regs st2 = named_regs st1 /\
          numbered_regs st2 = numbered_regs st1 /\
          length (ra_store st2) = length (ra_store st1) /\
          reg_prev (reg_at st2 second_reg) = Some first_reg)
    as (Hok2 & Hext2 & Hnamed2 & Hnumbered2 & Hlen2 & Hlink2).
  { assert (second_reg < length (ra_store st1))%nat as Hsecond1 by lia.
    destruct (lookup_lt_is_Some_2 _ _ Hsecond1) as [s Hs].
    rewrite (reg_at_lookup _ _ _ Hs) in Hprev.
    destruct (reg_prev s) as [p|] eqn:Hp.
    - destruct (negb (p =? first_reg)%nat) eqn:Hsame; [done|]. injection Hprev as <-.
      apply negb_false_iff, Nat.eqb_eq in Hsame as ->.
      split; [done|]. split; [apply ra_extends_refl|].
      by rewrite (reg_at_lookup _ _ _ Hs).
    - injection Hprev as <-. split; [by apply ra_ok_update_reg|]. split.
      { apply ra_extends_alter. intros r Hr. unfold RegId in *.
        rewrite Hs in Hr. injection Hr as <-. split; cbn; try done. by rewrite Hp. }
      cbn [ra_store named_regs numbered_regs]. rewrite length_alter.
      split; [done|]. split; [done|]. split; [done|].
      unfold reg_at. cbn [ra_store]. unfold RegId in *.
      by rewrite list_lookup_alter_eq, Hs. }
  destruct ((0 <=? reg_number (reg_at st2 first_reg))
            && (0 <=? reg_number (reg_at st2 second_reg))
            && negb (reg_number (reg_at st2 first_reg)
                     =? Z.land (reg_number (reg_at st2 second_reg) - 1) 0xFF)) eqn:Hcheck;
    [done|].
  injection H as <-.
  split; [done|]. split; [by eapply ra_extends_trans|].
  split; [congruence|]. split; [congruence|]. split; [congruence|]. split.
  { assert (first_reg < length (ra_store st1))%nat as Hfirst1 by lia.
    destruct (lookup_lt_is_Some_2 _ _ Hfirst1) as [f Hf].
    destruct (Hext2 _ _ Hf) as (f' & Hf' & Hext).
    rewrite (reg_at_lookup _ _ _ Hf) in Hlink1. rewrite (reg_at_lookup _ _ _ Hf').
    by apply (ext_next _ _ Hext). }
  split; [done|]. intros Hf Hs.
  apply Z.leb_le in Hf, Hs. rewrite Hf, Hs in Hcheck. cbn [andb] in Hcheck.
  by apply negb_false_iff, Z.eqb_eq in Hcheck.
Qed.

(** X9: from a consistent allocator, a successful [constrain] of two
    registers that exist links them to each other, keeps the allocator
    consistent and everything that was known of the registers, and the two
    registers, if both have numbers at that time, have consecutive numbers
    (modulo 256). *)
Theorem constrain_links (first_reg second_reg : RegId) (st st' : RegisterAssigner) :
  ra_ok st -> (first_reg < length (ra_store st))%nat ->
  (second_reg < length (ra_store st))%nat ->
  constrain first_reg second_reg st = (Ok tt, st') ->
  ra_ok st' /\ ra_extends st st' /\
  named_regs st' = named_regs st /\ numbered_regs st' = numbered_regs st /\
  exists f s, ra_store st' !! first_reg = Some f /\ ra_store st' !! second_reg = Some s /\
    reg_next f = Some second_reg /\ reg_prev s = Some first_reg /\
    (0 <= reg_number f -> 0 <= reg_number s ->
     reg_number f = Z.land (reg_number s - 1) 0xFF).
Proof.
  intros Hok Hfirst Hsecond H.
  destruct (constrain_ok _ _ _ _ Hok Hfirst Hsecond H)
    as (Hok' & Hext & Hnamed & Hnumbered & Hlen & Hnext & Hprev & Hnum).
  split; [done|]. split; [done|]. split; [done|]. split; [done|].
  rewrite <- Hlen in Hfirst, Hsecond.
  destruct (lookup_lt_is_Some_2 _ _ Hfirst) as [f Hf].
  destruct (lookup_lt_is_Some_2 _ _ Hsecond) as [s Hs].
  rewrite (reg_at_lookup _ _ _ Hf) in Hnext, Hnum.
  rewrite (reg_at_lookup _ _ _ Hs) in Hprev, Hnum.
  by exists f, s.
Qed.

Lemma ra_ok_one_register : ra_ok one_register.
Proof.
  by apply (get_or_create_ok "a" 5 new_RegisterAssigner one_register 0%nat);
    [apply ra_ok_new|].
Qed.

Lemma ra_ok_two_registers : ra_ok two_registers.
Proof.
  by apply (get_or_create_ok "b" (-1) one_register two_registers 1%nat);
    [apply ra_ok_one_register|].
Qed.

(** X9 for the set [(r:a@5, r:b)]. *)
Lemma constrain_links_witness :
  let st' := snd (constrain 0%nat 1%nat two_registers) in
  ra_ok st' /\ ra_extends two_registers st' /\
  named_regs st' = named_regs two_registers /\
  numbered_regs st' = numbered_regs two_registers /\
  exists f s, ra_store st' !! 0%nat = Some f /\ ra_store st' !! 1%nat = Some s /\
    reg_next f = Some 1%nat /\ reg_prev s = Some 0%nat /\
    (0 <= reg_number f -> 0 <= reg_number s ->
     reg_number f = Z.land (reg_number s - 1) 0xFF).
Proof.
  apply (constrain_links 0%nat 1%nat two_registers).
  - apply ra_ok_two_registers.
  - vm_compute. lia.
  - vm_compute. lia.
  - reflexivity.
Defined.

(** ** [assign_all] *)

Lemma land_0xFF_range (x : Z) : 0 <= Z.land x 0xFF < 0x100.
Proof.
  change 0xFF with (Z.ones 8). rewrite Z.land_ones by lia.
  change 0x100 with (2 ^ 8). apply Z.mod_pos_bound. lia.
Qed.

Lemma numbers_given_refl (st : RegisterAssigner) : numbers_given st st.
Proof.
  split; [done|]. split; [done|]. intros id r Hr. exists r. split; [done|].
  split; [by destruct r|done].
Qed.

Lemma numbers_given_trans (st1 st2 st3 : RegisterAssigner) :
  numbers_given st1 st2 -> numbers_given st2 st3 -> numbers_given st1 st3.
Proof.
  intros (Hn12 & Hl12 & H12) (Hn23 & Hl23 & H23).
  split; [congruence|]. split; [congruence|]. intros id r Hr.
  destruct (H12 _ _ Hr) as (r2 & Hr2 & Heq2 & Hkeep2).
  destruct (H23 _ _ Hr2) as (r3 & Hr3 & Heq3 & Hkeep3).
  exists r3. split; [done|]. split.
  - rewrite Heq3 at 1. rewrite Heq2. done.
  - intros Hpos. rewrite Hkeep3; [by apply Hkeep2|]. by rewrite Hkeep2.
Qed.

Lemma numbers_given_set_number (st : RegisterAssigner) (reg : RegId) (number : Z)
    (numbered : list (option RegId)) :
  reg_number (reg_at st reg) < 0 ->
  numbers_given st (mkRegisterAssigner (alter (set_number number) reg (ra_store st))
                      (named_regs st) numbered).
Proof.
  intros Hneg. split; [done|]. split; [cbn; by rewrite length_alter|].
  intros id r Hr. cbn [ra_store]. unfold RegId in *.
  destruct (decide (id = reg)) as [->|Hne].
  - exists (set_number number r). rewrite list_lookup_alter_eq, Hr.
    split; [done|]. split; [done|]. rewrite (reg_at_lookup _ _ _ Hr) in Hneg. lia.
  - exists r. rewrite list_lookup_alter_ne by done. split; [done|].
    split; [by destruct r|done].
Qed.

Lemma numbers_given_extends (st st' : RegisterAssigner) :
  numbers_given st st' -> ra_extends st st'.
Proof.
  intros (_ & _ & H) id r Hr. destruct (H _ _ Hr) as (r' & Hr' & Heq & Hkeep).
  exists r'. split; [done|]. rewrite Heq. split; cbn; try done.
  intros Hpos. by rewrite (Hkeep Hpos).
Qed.

(** [assign_number] for a register without a number. *)
Lemma assign_number_fresh (reg : RegId) (number : Z) (st st' : RegisterAssigner) :
  ra_ok st -> (reg < length (ra_store st))%nat -> reg_number (reg_at st reg) < 0 ->
  0 <= number < 0x100 ->
  assign_number reg number st = (Ok tt, st') ->
  ra_ok st' /\ numbers_given st st' /\ reg_number (reg_at st' reg) = number.
Proof.
  intros Hok Hreg Hneg Hrange H. unfold assign_number in H.
  apply bind_Ok_inv in H as (r & s & Hr & H). injection Hr as <- <-.
  replace (reg_number (reg_at st reg) <? 0) with true in H by lia.
  apply give_number_ok in H as [Hfree ->]; [|done..|].
  2:{ intros other s Hthrow. destruct other; done. }
  split; [by apply ra_ok_set_number|]. split; [by apply numbers_given_set_number|].
  destruct (lookup_lt_is_Some_2 _ _ Hreg) as [r Hr].
  unfold reg_at. cbn [ra_store]. unfold RegId in *. by rewrite list_lookup_alter_eq, Hr.
Qed.

Lemma assign_one_ok (reg : RegId) (st st' : RegisterAssigner) :
  ra_ok st -> (reg < length (ra_store st))%nat ->
  assign_one reg st = Returns st' ->
  ra_ok st' /\ numbers_given st st' /\ 0 <= reg_number (reg_at st' reg).
Proof.
  intros Hok Hreg. unfold assign_one.
  destruct (0 <=? reg_number (reg_at st reg)) eqn:Hpos.
  { intros [= <-]. apply Z.leb_le in Hpos. split; [done|].
    split; [apply numbers_given_refl|done]. }
  apply Z.leb_gt in Hpos.
  assert (forall number, run_of (assign_number reg (Z.land number 0xFF) st) = Returns st' ->
          ra_ok st' /\ numbers_given st st' /\ 0 <= reg_number (reg_at st' reg)) as Hgive.
  { intros number H.
    destruct (assign_number reg (Z.land number 0xFF) st) as [[[]|e] s] eqn:Ha; [|done].
    injection H as ->. pose proof (land_0xFF_range number) as Hrange.
    destruct (assign_number_fresh _ _ _ _ Hok Hreg Hpos Hrange Ha) as (Hok' & Hgiven & Hn).
    split; [done|]. split; [done|]. lia. }
  destruct (walk_links _ reg_next st _ 1) as [[[n|] next_delta]|]; [by apply Hgive| |done].
  destruct (walk_links _ reg_prev st _ 1) as [[[n|] prev_delta]|]; [by apply Hgive| |done].
  destruct (find_register_number_space st _) as [candidate| |index]; [by apply Hgive|done..].
Qed.

Lemma assign_each_ok (regs : list RegId) (st st' : RegisterAssigner) :
  ra_ok st -> Forall (fun reg => (reg < length (ra_store st))%nat) regs ->
  assign_each regs st = Returns st' ->
  ra_ok st' /\ numbers_given st st' /\
  Forall (fun reg => 0 <= reg_number (reg_at st' reg)) regs.
Proof.
  revert st. induction regs as [|reg regs IH]; intros st Hok Hregs; cbn [assign_each].
  { intros [= <-]. split; [done|]. split; [apply numbers_given_refl|done]. }
  apply Forall_cons in Hregs as [Hreg Hregs].
  destruct (assign_one reg st) as [st1| | |] eqn:Hone; cbn [run_bind]; [|done..].
  intros Heach. destruct (assign_one_ok _ _ _ Hok Hreg Hone) as (Hok1 & Hgiven1 & Hn1).
  assert (Forall (fun reg => (reg < length (ra_store st1))%nat) regs) as Hregs1.
  { destruct Hgiven1 as (_ & -> & _). done. }
  destruct (IH _ Hok1 Hregs1 Heach) as (Hok' & Hgiven' & Hall).
  split; [done|]. split; [by eapply numbers_given_trans|].
  apply Forall_cons. split; [|done].
  assert (reg < length (ra_store st1))%nat as Hreg1.
  { destruct Hgiven1 as (_ & -> & _). done. }
  destruct (lookup_lt_is_Some_2 _ _ Hreg1) as [r Hr].
  destruct Hgiven' as (_ & _ & Hst). destruct (Hst _ _ Hr) as (r' & Hr' & _ & Hkeep).
  rewrite (reg_at_lookup _ _ _ Hr) in Hn1. rewrite (reg_at_lookup _ _ _ Hr').
  by rewrite (Hkeep Hn1).
Qed.

Lemma unassigned_exist (st : RegisterAssigner) :
  ra_ok st -> Forall (fun reg => (reg < length (ra_store st))%nat) (unassigned st).
Proof.
  intros Hok. apply Forall_forall. intros reg Hin. unfold unassigned in Hin.
  apply list_elem_of_fmap in Hin as ([name id] & -> & Hin).
  apply list_elem_of_In, filter_In in Hin as [Hin _]. apply list_elem_of_In in Hin.
  destruct (ra_named _ Hok _ _ Hin) as (_ & r & Hr & _). by apply lookup_lt_Some in Hr.
Qed.

(** After the loop of [assign_all], every register that has a name has a
    number. *)
Lemma assign_each_all_named (st st' : RegisterAssigner) :
  ra_ok st -> assign_each (unassigned st) st = Returns st' ->
  ra_ok st' /\ numbers_given st st' /\
  forall name id, (name, id) ∈ named_regs st' -> 0 <= reg_number (reg_at st' id).
Proof.
  intros Hok Heach.
  destruct (assign_each_ok _ _ _ Hok (unassigned_exist _ Hok) Heach) as (Hok' & Hgiven & Hall).
  split; [done|]. split; [done|]. intros name id Hin.
  pose proof Hgiven as (Hnamed & _ & Hst). rewrite Hnamed in Hin.
  destruct (Z.ltb_spec (reg_number (reg_at st id)) 0) as [Hneg|Hpos].
  - rewrite Forall_forall in Hall. apply Hall. unfold unassigned.
    apply list_elem_of_fmap. exists (name, id). split; [done|].
    apply list_elem_of_In, filter_In. split; [by apply list_elem_of_In|].
    cbn [snd]. by apply Z.ltb_lt.
  - destruct (ra_named _ Hok _ _ Hin) as (_ & r & Hr & _).
    destruct (Hst _ _ Hr) as (r' & Hr' & _ & Hkeep).
    rewrite (reg_at_lookup _ _ _ Hr) in Hpos. rewrite (reg_at_lookup _ _ _ Hr').
    by rewrite (Hkeep Hpos).
Qed.

Lemma check_all_named_ok (st : RegisterAssigner) :
  (forall name id, (name, id) ∈ named_regs st -> 0 <= reg_number (reg_at st id)) ->
  check_all_named st = Ok tt.
Proof.
  intros Hall. unfold check_all_named.
  destruct (find _ (named_regs st)) as [[name id]|] eqn:Hfind; [|done].
  apply find_some in Hfind as [Hin Hneg]. cbn [snd] in Hneg.
  apply list_elem_of_In, Hall in Hin. lia.
Qed.

Lemma check_numbered_ok (st : RegisterAssigner) : ra_ok st -> check_numbered st = Ok tt.
Proof.
  intros Hok. unfold check_numbered.
  destruct (find _ (imap pair (numbered_regs st))) as [[z slot]|] eqn:Hfind; [|done].
  apply find_some in Hfind as [Hin Hbad]. destruct slot as [reg|]; [|done].
  apply list_elem_of_In, elem_of_lookup_imap_1 in Hin as (i & slot & Heq & Hslot).
  injection Heq as -> <-.
  destruct (ra_slot_number _ Hok _ _ Hslot) as (r & Hr & Hn).
  rewrite (reg_at_lookup _ _ _ Hr), Hn, Z.eqb_refl in Hbad. done.
Qed.

(** X10: from a consistent allocator, the two checks at the end of
    [assign_all] never fail: [assign_all] ends as its loop over the
    registers without a number ends, with the same state, the same
    exception or the same fault. *)
Theorem assign_all_checks_pass (st : RegisterAssigner) :
  ra_ok st -> assign_all st = assign_each (unassigned st) st.
Proof.
  intros Hok. unfold assign_all. fold (unassigned st).
  destruct (assign_each (unassigned st) st) as [st'| | |] eqn:Heach; cbn [run_bind]; try done.
  destruct (assign_each_all_named _ _ Hok Heach) as (Hok' & _ & Hall).
  by rewrite (check_all_named_ok _ Hall), (check_numbered_ok _ Hok').
Qed.

(** X10 for the set [(r:a@5, r:b)]. *)
Lemma assign_all_checks_pass_witness :
  assign_all two_registers = assign_each (unassigned two_registers) two_registers.
Proof.
  apply (assign_all_checks_pass two_registers).
  apply (get_or_create_ok "b" (-1) one_register two_registers 1%nat); [|reflexivity].
  apply (get_or_create_ok "a" 5 new_RegisterAssigner one_register 0%nat); [|reflexivity].
  apply ra_ok_new.
Defined.

(** X11: from a consistent allocator, when [assign_all] returns, the
    allocator is consistent, nothing but numbers has changed and no
    register that had a number has another one, every register that has
    a name has a number from 0 to 255, and no two registers have the same
    number. *)
Theorem assign_all_numbers (st st' : RegisterAssigner) :
  ra_ok st -> assign_all st = Returns st' ->
  ra_ok st' /\ numbers_given st st' /\
  (forall name id, (name, id) ∈ named_regs st' ->
     exists r, ra_store st' !! id = Some r /\ reg_name r = name /\
       0 <= reg_number r < 0x100) /\
  (forall id1 id2 r1 r2, ra_store st' !! id1 = Some r1 -> ra_store st' !! id2 = Some r2 ->
     0 <= reg_number r1 -> reg_number r1 = reg_number r2 -> id1 = id2).
Proof.
  intros Hok Hall. unfold assign_all in Hall. fold (unassigned st) in Hall.
  destruct (assign_each (unassigned st) st) as [st1| | |] eqn:Heach; cbn [run_bind] in Hall;
    try done.
  destruct (check_all_named st1); [|done]. destruct (check_numbered st1); [|done].
  injection Hall as <-.
  destruct (assign_each_all_named _ _ Hok Heach) as (Hok' & Hgiven & Hnamed).
  split; [done|]. split; [done|]. split.
  - intros name id Hin. destruct (ra_named _ Hok' _ _ Hin) as (_ & r & Hr & Hname).
    exists r. split; [done|]. split; [done|].
    pose proof (Hnamed _ _ Hin) as Hpos. rewrite (reg_at_lookup _ _ _ Hr) in Hpos.
    pose proof (ra_number_slot _ Hok' _ _ Hr) as [Hrange _]. lia.
  - intros id1 id2 r1 r2 Hr1 Hr2 Hpos Heq.
    pose proof (ra_number_slot _ Hok' _ _ Hr1) as [_ Hs1].
    pose proof (ra_number_slot _ Hok' _ _ Hr2) as [_ Hs2].
    specialize (Hs1 Hpos). rewrite Heq in Hs1, Hpos. specialize (Hs2 Hpos).
    unfold RegId in *. rewrite Hs1 in Hs2. by injection Hs2.
Qed.

(** X11 for the set [(r:a@5, r:b)] before it is constrained: [r:b] gets
    the number 0. *)
Lemma assign_all_numbers_witness :
  exists st', assign_all two_registers = Returns st' /\
  ra_ok st' /\ numbers_given two_registers st' /\
  (forall name id, (name, id) ∈ named_regs st' ->
     exists r, ra_store st' !! id = Some r /\ reg_name r = name /\
       0 <= reg_number r < 0x100) /\
  (forall id1 id2 r1 r2, ra_store st' !! id1 = Some r1 -> ra_store st' !! id2 = Some r2 ->
     0 <= reg_number r1 -> reg_number r1 = reg_number r2 -> id1 = id2).
Proof.
  eexists. split; [reflexivity|].
  apply (assign_all_numbers two_registers).
  - apply (get_or_create_ok "b" (-1) one_register two_registers 1%nat); [|reflexivity].
    apply (get_or_create_ok "a" 5 new_RegisterAssigner one_register 0%nat); [|reflexivity].
    apply ra_ok_new.
  - reflexivity.
Defined.

(** ** [check_opcode_definitions] *)

Lemma check_opcode_definitions_for_ok (versions : list Version) (v : Version) :
  check_opcode_definitions_for versions = Ok tt -> v ∈ versions ->
  exists opcodes opcodes_by_name,
    opcodes_for_version v = Ok opcodes /\
    opcodes_by_name_for_version v = Ok opcodes_by_name.
Proof.
  induction versions as [|v' versions IH]; cbn [check_opcode_definitions_for];
    [by intros _ ?%elem_of_nil|].
  destruct (opcodes_by_name_for_version v') as [by_name|] eqn:Hname; cbn [rbind]; [|done].
  destruct (opcodes_for_version v') as [opcodes|] eqn:Hop; cbn [rbind]; [|done].
  intros Hrest [->|Hin]%elem_of_cons; [by exists opcodes, by_name | by apply IH].
Qed.

Lemma indexes_unambiguous (v : Version)
    (opcodes : gmap Z QuestScriptOpcodeDefinition)
    (opcodes_by_name : gmap string QuestScriptOpcodeDefinition)
    (d1 d2 : QuestScriptOpcodeDefinition) :
  opcodes_for_version v = Ok opcodes ->
  opcodes_by_name_for_version v = Ok opcodes_by_name ->
  visible_in v d1 -> visible_in v d2 ->
  (opcode d1 = opcode d2 -> d1 = d2) /\
  (forall n, name d1 = Some n \/ qedit_name d1 = Some n ->
             name d2 = Some n \/ qedit_name d2 = Some n -> d1 = d2).
Proof.
  unfold opcodes_for_version, opcodes_by_name_for_version.
  destruct (_ <? _); [done|]. intros Hop Hname [Hin1 Hf1] [Hin2 Hf2].
  destruct (index_opcodes_complete _ _ _ _ Hop) as [_ Hcomplete].
  destruct (index_opcodes_by_name_spec _ _ _ _ Hname) as (_ & Hnamed & _).
  split.
  - intros Heq. pose proof (Hcomplete _ Hin1 Hf1) as H1.
    pose proof (Hcomplete _ Hin2 Hf2) as H2. rewrite Heq in H1. congruence.
  - intros n Hn1 Hn2. pose proof (Hnamed _ _ Hin1 Hf1 Hn1) as H1.
    pose proof (Hnamed _ _ Hin2 Hf2 Hn2) as H2. congruence.
Qed.

(** X12: [check_opcode_definitions] does not throw on the table of the
    program: for each of the twelve builds it checks, no two definitions
    that the build has share an opcode, and no two share a name (the name
    or the qedit name of the one being the name or the qedit name of the
    other). *)
Theorem opcode_table_unambiguous :
  check_opcode_definitions = Ok tt /\
  forall v d1 d2, v ∈ checked_versions -> visible_in v d1 -> visible_in v d2 ->
    (opcode d1 = opcode d2 -> d1 = d2) /\
    (forall n, name d1 = Some n \/ qedit_name d1 = Some n ->
               name d2 = Some n \/ qedit_name d2 = Some n -> d1 = d2).
Proof.
  assert (check_opcode_definitions_for checked_versions = Ok tt) as Hcheck.
  { assert (is_ok (check_opcode_definitions_for checked_versions) = true) as Hok
      by (vm_compute; reflexivity).
    destruct (check_opcode_definitions_for checked_versions) as [[]|]; [reflexivity|].
    discriminate Hok. }
  split; [exact Hcheck|]. intros v d1 d2 Hv.
  destruct (check_opcode_definitions_for_ok checked_versions v Hcheck Hv)
    as (opcodes & by_name & Hop & Hname).
  exact (indexes_unambiguous v opcodes by_name d1 d2 Hop Hname).
Qed.

(** ** The disassembler always ends *)

#[export] Instance pending_kept_preorder : PreOrder pending_kept.
Proof.
  split; [by intros s off|]. intros s1 s2 s3 H12 H23 off Hoff. by apply H23, H12.
Qed.

Lemma pending_kept_same (s s' : Dasm) :
  pending_dasm_start_offsets s' = pending_dasm_start_offsets s -> pending_kept s s'.
Proof. intros Heq off. by rewrite Heq. Qed.

Lemma pending_kept_get_with (pget : list Z -> Z -> result Z) (size : Z) :
  respects pending_kept (get_with (S := Dasm) pget size).
Proof.
  intros s r s'. unfold get_with. destruct (pget _ _); intros [= <- <-];
    by apply pending_kept_same.
Qed.

Lemma pending_kept_get_cstr_with (scan : list Z -> result (list Z) * Z) :
  respects pending_kept (get_cstr_with (S := Dasm) scan).
Proof.
  intros s r s'. unfold get_cstr_with. destruct (_ <? 0); [by intros [= <- <-]|].
  destruct (scan _) as [res n]. intros [= <- <-]. by apply pending_kept_same.
Qed.

Lemma pending_kept_push_arg (v : ArgStackValue.t) : respects pending_kept (push_arg v).
Proof. apply respects_modify. intros s. by apply pending_kept_same. Qed.

Lemma pending_kept_clear_args : respects pending_kept clear_args.
Proof. apply respects_modify. intros s. by apply pending_kept_same. Qed.

Lemma pending_kept_update_label (id : Z) (f : Label -> Label) :
  respects pending_kept (update_label id f).
Proof. apply respects_modify. intros s. by apply pending_kept_same. Qed.

Lemma pending_kept_add_pending (off : Z) : respects pending_kept (add_pending off).
Proof.
  apply respects_modify. intros s off' Hoff. cbn.
  apply elem_of_oset_emplace. by right.
Qed.

Create HintDb kept discriminated.
#[export] Hint Resolve pending_kept_push_arg pending_kept_clear_args
  pending_kept_update_label pending_kept_add_pending : kept.
#[export] Hint Extern 1 (respects pending_kept get_u8) =>
  apply pending_kept_get_with : kept.
#[export] Hint Extern 1 (respects pending_kept get_u16l) =>
  apply pending_kept_get_with : kept.
#[export] Hint Extern 1 (respects pending_kept get_u32l) =>
  apply pending_kept_get_with : kept.
#[export] Hint Extern 1 (respects pending_kept get_cstr8) =>
  apply pending_kept_get_cstr_with : kept.
#[export] Hint Extern 1 (respects pending_kept get_cstr16) =>
  apply pending_kept_get_cstr_with : kept.

Ltac kept_framed :=
  repeat first
    [ apply (respects_ret pending_kept)
    | apply (respects_throw pending_kept)
    | apply (respects_lift pending_kept)
    | apply (respects_gets pending_kept)
    | solve [auto with kept]
    | apply (respects_bind pending_kept); [|intros ?]
    | match goal with
      | |- respects _ (match ?x with _ => _ end) => destruct x
      end ].

Section DisassemblerPending.
Context `{External}.
Variable P : DasmParams.

Lemma pending_kept_dasm_label (opcode_start_offset : Z) (arg : Argument) (label_id : Z) :
  respects pending_kept (dasm_label P opcode_start_offset arg label_id).
Proof. unfold dasm_label, label_at. kept_framed. Qed.
Hint Resolve pending_kept_dasm_label : kept.

Lemma pending_kept_dasm_set_items (n : nat) (item : M Dasm string) (dasm_arg : string) :
  respects pending_kept item -> respects pending_kept (dasm_set_items n item dasm_arg).
Proof.
  intros Hitem. revert dasm_arg. induction n as [|n IH]; intros dasm_arg; simpl;
    kept_framed.
Qed.

Lemma pending_kept_dasm_direct_arg (opcode_start_offset : Z)
    (def : QuestScriptOpcodeDefinition) (arg : Argument) :
  respects pending_kept (dasm_direct_arg P opcode_start_offset def arg).
Proof.
  unfold dasm_direct_arg, when_pass.
  kept_framed; apply pending_kept_dasm_set_items; kept_framed.
Qed.
Hint Resolve pending_kept_dasm_direct_arg : kept.

Lemma pending_kept_dasm_direct_args (opcode_start_offset : Z)
    (def : QuestScriptOpcodeDefinition) (args : list Argument) (is_first_arg : bool)
    (dasm_line : string) :
  respects pending_kept
    (dasm_direct_args P opcode_start_offset def args is_first_arg dasm_line).
Proof.
  revert is_first_arg dasm_line. induction args as [|arg args IH];
    intros is_first_arg dasm_line; simpl; kept_framed.
Qed.
Hint Resolve pending_kept_dasm_direct_args : kept.

Lemma pending_kept_dasm_stack_arg (opcode_start_offset : Z) (arg_def : Argument)
    (arg_value : ArgStackValue.t) :
  respects pending_kept (dasm_stack_arg opcode_start_offset arg_def arg_value).
Proof. unfold dasm_stack_arg, label_at. kept_framed. Qed.
Hint Resolve pending_kept_dasm_stack_arg : kept.

Lemma pending_kept_dasm_stack_args (opcode_start_offset : Z) (arg_defs : list Argument)
    (arg_values : list ArgStackValue.t) (is_first_arg : bool) (dasm_line : string) :
  respects pending_kept
    (dasm_stack_args opcode_start_offset arg_defs arg_values is_first_arg dasm_line).
Proof.
  revert arg_values is_first_arg dasm_line. induction arg_defs as [|arg_def arg_defs IH];
    intros arg_values is_first_arg dasm_line; simpl; [kept_framed|].
  destruct arg_values; kept_framed.
Qed.
Hint Resolve pending_kept_dasm_stack_args : kept.

Lemma pending_kept_read_opcode : respects pending_kept (read_opcode (S := Dasm)).
Proof. unfold read_opcode. kept_framed. Qed.
Hint Resolve pending_kept_read_opcode : kept.

Lemma pending_kept_dasm_instruction (opcode_start_offset : Z) :
  respects pending_kept (dasm_instruction P opcode_start_offset).
Proof. unfold dasm_instruction. kept_framed. Qed.

(** One turn of the inner loop keeps the invariant of the lines. *)
Lemma dasm_one_inv (s s2 : Dasm) :
  chain_continues s = true -> 0 <= sr_where (cmd_r s) ->
  walk_inv (eq (sr_where (cmd_r s))) s ->
  dasm_one P s = Ok s2 ->
  walk_inv (eq (sr_where (cmd_r s2))) s2 /\ 0 <= sr_where (cmd_r s2) /\
  sr_data (cmd_r s2) = sr_data (cmd_r s) /\
  l_offset <$> function_table s2 = l_offset <$> function_table s.
Proof.
  intros Hcont Hpos [Hok Hforward Hlinked Hreached] Hone.
  destruct (dasm_one_step P s Hcont Hpos Hok) as (s2' & Hone' & Hok2 & _).
  rewrite Hone in Hone'. injection Hone' as <-.
  pose proof Hcont as [Hlt Hfresh]%chain_continues_spec.
  destruct (dasm_instruction P (sr_where (cmd_r s)) s) as [res s1] eqn:Hrun.
  destruct (dasm_instruction_progress P _ _ _ Hlt Hpos Hrun) as [Hframe Hstep].
  pose proof (pending_kept_dasm_instruction _ _ _ _ Hrun) as Hkept.
  destruct (dasm_one_ok P _ _ _ Hlt Hpos Hrun) as (prefix & Hone' & _).
  rewrite Hone in Hone'. injection Hone' as ->.
  destruct Hframe as (Hdata & _ & Hbound & Hlines & Hsame & _ & _).
  assert (Hsize : sr_size (cmd_r s1) = sr_size (cmd_r s)) by (unfold sr_size; by rewrite Hdata).
  cbn [cmd_r function_table] in *. split; [|split; [lia|done]].
  split; [exact Hok2| | |];
    cbn [cmd_r function_table dasm_lines pending_dasm_start_offsets];
    rewrite ?Hsize, ?Hlines, ?Hsame.
  - intros k l [[<- <-]|[Hne Hk]]%lookup_insert_Some.
    + cbn [dl_next_offset]. split; [lia|]. rewrite <- Hsize. apply Hbound. lia.
    + by apply Hforward in Hk.
  - intros k l [[<- <-]|[Hne Hk]]%lookup_insert_Some; cbn [dl_next_offset].
    + intros _. by right.
    + intros Hnext. left. destruct (Hlinked _ _ Hk Hnext) as [Hsome|<-].
      * apply lookup_insert_is_Some. destruct (decide (sr_where (cmd_r s) = dl_next_offset l));
          [by left | by right].
      * apply lookup_insert_is_Some. by left.
  - intros off Hoff Hin. destruct (Hreached _ Hoff Hin) as [Hp|[Hsome|<-]].
    + left. by apply Hkept.
    + right. left. apply lookup_insert_is_Some.
      destruct (decide (sr_where (cmd_r s) = off)); [by left | by right].
    + right. left. apply lookup_insert_is_Some. by left.
Qed.

Lemma walk_inv_closed (s : Dasm) :
  chain_continues s = false -> walk_inv (eq (sr_where (cmd_r s))) s -> walk_inv nothing_open s.
Proof.
  intros Hcont [Hok Hforward Hlinked Hreached].
  assert (Hdone : sr_where (cmd_r s) < sr_size (cmd_r s) ->
                  is_Some (dasm_lines s !! sr_where (cmd_r s))).
  { intros Hlt. destruct (dasm_lines s !! sr_where (cmd_r s)) eqn:Hline; [by eexists|].
    assert (chain_continues s = true) by (by apply chain_continues_spec). congruence. }
  split; [done|done| |].
  - intros k l Hk Hnext. left. destruct (Hlinked _ _ Hk Hnext) as [?|Heq]; [done|].
    rewrite <- Heq in *. by apply Hdone.
  - intros off Hoff Hin. destruct (Hreached _ Hoff Hin) as [?|[?|Heq]];
      [by left | by right; left |]. right. left. rewrite <- Heq in *. by apply Hdone.
Qed.

Lemma dasm_chain_inv (fuel : nat) (s s' : Dasm) :
  dasm_chain P fuel s = Some (Ok s') -> 0 <= sr_where (cmd_r s) ->
  walk_inv (eq (sr_where (cmd_r s))) s ->
  walk_inv nothing_open s' /\
  sr_data (cmd_r s') = sr_data (cmd_r s) /\
  l_offset <$> function_table s' = l_offset <$> function_table s.
Proof.
  revert s. induction fuel as [|fuel IH]; intros s; [done|]. cbn [dasm_chain].
  destruct (chain_continues s) eqn:Hcont.
  - destruct (dasm_one P s) as [s2|] eqn:Hone; [|done]. intros Hchain Hpos Hinv.
    destruct (dasm_one_inv _ _ Hcont Hpos Hinv Hone) as (Hinv2 & Hpos2 & Hdata2 & Hoff2).
    destruct (IH s2 Hchain Hpos2 Hinv2) as (Hinv' & Hdata' & Hoff').
    split; [done|]. split; congruence.
  - intros [= <-] _ Hinv. split; [by apply walk_inv_closed|done].
Qed.

Lemma dasm_walk_inv (fuel : nat) (s s' : Dasm) :
  dasm_walk P fuel s = Some (Ok s') -> walk_inv nothing_open s ->
  walk_inv nothing_open s' /\
  sr_data (cmd_r s') = sr_data (cmd_r s) /\
  l_offset <$> function_table s' = l_offset <$> function_table s.
Proof.
  revert s. induction fuel as [|fuel IH]; intros s; [done|]. cbn [dasm_walk].
  destruct (pending_dasm_start_offsets s) as [|off rest] eqn:Hpending; [by intros [= <-]|].
  destruct (dasm_chain P _ _) as [[s2|]|] eqn:Hchain; [|done..].
  intros Hwalk [Hok Hforward Hlinked Hreached].
  apply dasm_chain_inv in Hchain as (Hinv2 & Hdata2 & Hoff2).
  - destruct (IH s2 Hwalk Hinv2) as (Hinv' & Hdata' & Hoff').
    split; [done|]. split; [by rewrite Hdata', Hdata2 | by rewrite Hoff', Hoff2].
  - cbn. destruct Hok as (_ & Hpend & Hoffs & _). apply Hoffs, Hpend. rewrite Hpending.
    by left.
  - destruct Hok as (Hasc & Hpend & Hoffs & Hkeys). rewrite Hpending in Hasc, Hpend.
    split; cbn [start_chain cmd_r function_table dasm_lines pending_dasm_start_offsets
                sr_go sr_where sr_offset].
    + unfold walk_ok. cbn. destruct Hasc as [Hasc _]. split; [done|].
      split; [|done]. intros x Hx. apply Hpend. by right.
    + done.
    + intros k l Hk Hnext. destruct (Hlinked _ _ Hk Hnext) as [?|[]]. by left.
    + intros x Hx Hin. destruct (Hreached _ Hx Hin) as [Hp|[?|[]]]; [|by right; left].
      rewrite Hpending in Hp. apply elem_of_cons in Hp as [->|Hp]; [by right; right|by left].
Qed.
End DisassemblerPending.

Lemma initial_pending_complete (labels : list Label) (code_size : Z) (acc : list Z) (off : Z) :
  off ∈ acc \/ (off ∈ l_offset <$> labels /\ off < code_size) ->
  off ∈ fold_left (fun pending l =>
                     if l_offset l <? code_size then oset_emplace (l_offset l) pending
                     else pending) labels acc.
Proof.
  revert acc. induction labels as [|l labels IH]; intros acc; cbn [fold_left].
  - intros [?|[?%elem_of_nil _]]; done.
  - intros Hoff. apply IH. destruct Hoff as [Hacc|[Hin Hlt]].
    + left. destruct (_ <? _); [|done]. apply elem_of_oset_emplace. by right.
    + rewrite fmap_cons in Hin. apply elem_of_cons in Hin as [->|Hin]; [|by right].
      left. replace (l_offset l <? code_size) with true by lia.
      apply elem_of_oset_emplace. by left.
Qed.

Lemma walk_inv_initial (cmd_r : StringReader) (function_table_bytes : list Z) :
  walk_inv nothing_open (walk_start cmd_r (read_function_table function_table_bytes 0)).
Proof.
  split; [apply walk_ok_initial| | |];
    unfold walk_start; cbn [dasm_lines function_table pending_dasm_start_offsets].
  - intros k l. by rewrite lookup_empty.
  - intros k l. by rewrite lookup_empty.
  - intros off Hoff Hin. left. unfold initial_pending. apply initial_pending_complete.
    by right.
Qed.

(** ** The text of the disassembler *)

Lemma elem_of_mmap_emplace (k : Z) (v : nat) (m : list (Z * nat)) (x : Z * nat) :
  x ∈ mmap_emplace Z.compare k v m <-> x = (k, v) \/ x ∈ m.
Proof.
  induction m as [|[k' v'] m IH]; cbn [mmap_emplace].
  - rewrite list_elem_of_singleton. split; [by left | intros [?|?%elem_of_nil]; done].
  - destruct (Z.compare k k'); rewrite !elem_of_cons, ?IH; tauto.
Qed.

Lemma mmap_emplace_ascending (k : Z) (v : nat) (m : list (Z * nat)) :
  keys_ascending m -> keys_ascending (mmap_emplace Z.compare k v m).
Proof.
  induction m as [|[k' v'] m IH]; cbn [mmap_emplace keys_ascending].
  - intros _. split; [done|]. by intros ? ? ?%elem_of_nil.
  - intros [Hm Hle]. destruct (Z.compare_spec k k') as [->|Hlt|Hgt];
      cbn [keys_ascending].
    + split; [by apply IH|]. intros k2 id2 [[= -> ->]|Hin]%elem_of_mmap_emplace; [lia|].
      by eapply Hle.
    + split; [done|]. intros k2 id2 [[= -> ->]|Hin]%elem_of_cons; [lia|].
      apply Hle in Hin. lia.
    + split; [by apply IH|]. intros k2 id2 [[= -> ->]|Hin]%elem_of_mmap_emplace; [lia|].
      by eapply Hle.
Qed.

Lemma index_labels_spec (all labels : list Label) (id : nat) (code_size : Z)
    (offset_to_label : list (Z * nat)) :
  (forall i l, labels !! i = Some l -> all !! (id + i)%nat = Some l) ->
  (forall off, off ∈ l_offset <$> all -> 0 <= off) ->
  keys_ascending offset_to_label ->
  Forall (label_entry (l_offset <$> all) code_size) offset_to_label ->
  keys_ascending (index_labels labels id code_size offset_to_label) /\
  Forall (label_entry (l_offset <$> all) code_size)
    (index_labels labels id code_size offset_to_label).
Proof.
  intros Hall Hpos. revert id offset_to_label Hall.
  induction labels as [|l labels IH]; intros id offset_to_label Hall Hasc Hentries;
    cbn [index_labels]; [done|].
  apply IH.
  - intros i l' Hl'. replace (S id + i)%nat with (id + S i)%nat by lia. by apply Hall.
  - destruct (_ <? _); [by apply mmap_emplace_ascending | done].
  - destruct (l_offset l <? code_size) eqn:Hlt; [|done]. apply Z.ltb_lt in Hlt.
    apply Forall_forall. intros x [->|Hin]%elem_of_mmap_emplace.
    + pose proof (Hall 0%nat l eq_refl) as Hl. rewrite Nat.add_0_r in Hl.
      split; cbn [fst snd]; [by rewrite list_lookup_fmap, Hl|]. split; [|done].
      apply Hpos. apply list_elem_of_fmap. exists l. split; [done|].
      by eapply list_elem_of_lookup_2.
    + rewrite Forall_forall in Hentries. by apply Hentries.
Qed.

(** Following the lines from an offset that has one never fails. *)
Lemma add_disassembly_lines_total (dasm_lines : gmap Z DisassemblyLine) (size : Z) :
  (forall k l, dasm_lines !! k = Some l -> k < dl_next_offset l) ->
  (forall k l, dasm_lines !! k = Some l -> dl_next_offset l < size ->
     is_Some (dasm_lines !! dl_next_offset l)) ->
  forall fuel z stop lines,
    stop <= size -> (z < stop -> is_Some (dasm_lines !! z)) ->
    (Z.to_nat (stop - z) <= fuel)%nat ->
    exists out, add_disassembly_lines fuel dasm_lines z stop lines = Some (Ok out).
Proof.
  intros Hforward Hlinked fuel.
  induction fuel as [|fuel IH]; intros z stop lines Hstop Hz Hfuel;
    cbn [add_disassembly_lines]; destruct (stop <=? z) eqn:Hend; try (by eexists).
  - apply Z.leb_gt in Hend. lia.
  - apply Z.leb_gt in Hend. destruct (Hz Hend) as [l Hl]. rewrite Hl.
    pose proof (Hforward _ _ Hl) as Hnext.
    replace (dl_next_offset l <=? z) with false by lia.
    apply IH; [done| |lia]. intros Hlt. apply (Hlinked _ _ Hl). lia.
Qed.

Section DisassemblerText.
Context `{External}.

Lemma render_labels_total (reassembly_mode use_wstrs : bool) (language : Z)
    (code : list Z) (dasm_lines : gmap Z DisassemblyLine) (function_table : list Label)
    (labels : list (Z * nat)) (lines : list string) :
  (forall k l, dasm_lines !! k = Some l -> k < dl_next_offset l) ->
  (forall k l, dasm_lines !! k = Some l -> dl_next_offset l < Z.of_nat (length code) ->
     is_Some (dasm_lines !! dl_next_offset l)) ->
  (forall off, off ∈ l_offset <$> function_table -> off < Z.of_nat (length code) ->
     is_Some (dasm_lines !! off)) ->
  keys_ascending labels ->
  Forall (label_entry (l_offset <$> function_table) (Z.of_nat (length code))) labels ->
  exists r,
    render_labels reassembly_mode use_wstrs language code dasm_lines function_table
      labels lines = Some r /\
    (reassembly_mode = true -> is_ok r = true).
Proof.
  intros Hforward Hlinked Hreached. revert lines.
  induction labels as [|[k id] labels IH]; intros lines Hasc Hentries;
    cbn [render_labels]; [by exists (Ok lines)|].
  apply Forall_cons in Hentries as [[Hid Hk] Hentries]. cbn [fst snd] in Hid, Hk.
  destruct Hasc as [Hasc Hle].
  rewrite list_lookup_fmap in Hid.
  destruct (function_table !! id) as [l|] eqn:Hl; [|done]. injection Hid as Hoff.
  unfold default. cbn [from_option Datatypes.id].
  set (stop := match labels with
               | [] => Z.of_nat (length code)
               | (next_offset, _) :: _ => next_offset
               end).
  assert (Hstop : k <= stop <= Z.of_nat (length code)).
  { unfold stop. destruct labels as [|[k2 id2] labels]; [lia|].
    apply Forall_cons in Hentries as [[_ Hk2] _]. cbn [fst] in Hk2.
    specialize (Hle k2 id2 ltac:(by left)). lia. }
  assert (Hscript : forall lines', exists out,
            add_disassembly_lines (Z.to_nat (stop - l_offset l)) dasm_lines (l_offset l)
              stop lines' = Some (Ok out)).
  { intros lines'.
    apply (add_disassembly_lines_total dasm_lines (Z.of_nat (length code)));
      [done|done|lia| |lia].
    intros Hlt. apply Hreached; [|lia]. apply list_elem_of_fmap. exists l.
    split; [done|]. by eapply list_elem_of_lookup_2. }
  assert (Hgo : forall out, exists r,
            render_labels reassembly_mode use_wstrs language code dasm_lines function_table
              labels out = Some r /\ (reassembly_mode = true -> is_ok r = true))
    by (intros out; by apply IH).
  cbv zeta.
  destruct (0 <? stop - l_offset l); destruct (l_type_flags l =? 0);
    destruct reassembly_mode; cbv beta iota zeta; cbn [l_offset add_data_type];
    repeat match goal with
    | |- context [has_data_type ?t ?x] => destruct (has_data_type t x)
    | |- context [annotated_data_lines ?a ?b ?c ?d ?e] =>
        destruct (annotated_data_lines a b c d e)
    | |- context [add_disassembly_lines ?f ?m ?z ?s ?acc] =>
        let out := fresh "out" in
        let Hout := fresh "Hout" in
        destruct (Hscript acc) as [out Hout]; rewrite Hout; clear Hout
    end;
    first [apply Hgo | eexists; split; [reflexivity|intros [=]]].
Qed.

(** X13: the disassembler always ends, and in reassembly mode it fails
    only in reading the header (a file that is too short, a text of the
    header that cannot be decoded, a build without a script format) or in
    building the opcode index: whatever bytes follow the header, it
    returns a text. *)
Theorem disassemble_quest_script_total (data : list Z) (version : Version)
    (override_language : Z) (reassembly_mode use_qedit_names : bool) :
  exists r,
    disassemble_quest_script data version override_language reassembly_mode
      use_qedit_names = Some r /\
    (reassembly_mode = true -> forall e, r = Throw e ->
       disassemble_header data version override_language = Throw e \/
       opcodes_for_version version = Throw e).
Proof.
  unfold disassemble_quest_script.
  destruct (disassemble_header data version override_language) as [header|e] eqn:Hheader;
    cbn [rbind]; [|exists (Throw e); split; [done|]; intros _ e' [= <-]; by left].
  destruct (opcodes_for_version version) as [opcodes|e] eqn:Hopcodes;
    cbn [rbind]; [|exists (Throw e); split; [done|]; intros _ e' [= <-]; by right].
  cbv zeta.
  set (code_r := sr_sub_size data (h_code_offset header)
                  ((h_function_table_offset header - h_code_offset header) mod 2 ^ 64)).
  set (bytes := sr_data (sr_sub data (h_function_table_offset header))).
  set (P := mkDasmParams opcodes _ _ _ _ _).
  set (s0 := walk_start code_r (read_function_table bytes 0)).
  destruct (dasm_walk_total P s0 (walk_ok_initial code_r bytes)) as (s & Hwalk & Hpending).
  rewrite Hwalk.
  destruct (dasm_walk_inv P _ _ _ Hwalk (walk_inv_initial code_r bytes))
    as ([Hok Hforward Hlinked Hreached] & Hdata & Hoffsets).
  assert (Hsize : sr_size (cmd_r s) = Z.of_nat (length (sr_data code_r))).
  { unfold sr_size. by rewrite Hdata. }
  destruct (render_labels_total reassembly_mode (h_use_wstrs header) (h_language header)
              (sr_data code_r) (dasm_lines s) (function_table s)
              (index_labels (read_function_table bytes 0) 0 (sr_size code_r) [])
              (h_lines header)) as (r & Hrender & Hmode).
  - intros k l Hk. apply Hforward in Hk. lia.
  - intros k l Hk Hnext. rewrite <- Hsize in Hnext.
    by destruct (Hlinked _ _ Hk Hnext) as [?|[]].
  - intros off Hoff Hin. rewrite <- Hsize in Hin.
    destruct (Hreached _ Hoff Hin) as [Hp|[?|[]]]; [|done].
    rewrite Hpending in Hp. by apply elem_of_nil in Hp.
  - apply (index_labels_spec (read_function_table bytes 0)); try done.
    apply read_function_table_offsets.
  - rewrite Hoffsets. cbn [function_table walk_start].
    apply (index_labels_spec (read_function_table bytes 0)); try done.
    apply read_function_table_offsets.
  - rewrite Hrender. destruct r as [lines|e].
    + eexists. split; [reflexivity|]. intros _ e [=].
    + exists (Throw e). split; [done|]. intros Hmode'. by specialize (Hmode Hmode').
Qed.
End DisassemblerText.

(** ** Label lines *)

Lemma string_take_drop (n : nat) (s : string) : string_take n s +:+ string_drop n s = s.
Proof.
  revert s. induction n as [|n IH]; intros [|c s]; cbn [string_take string_drop]; try done.
  change (String c (string_take n s +:+ string_drop n s) = String c s). by rewrite IH.
Qed.

Lemma string_take_app (n : nat) (p q : string) :
  (n <= String.length p)%nat -> string_take n (p +:+ q) = string_take n p.
Proof.
  revert p. induction n as [|n IH]; intros [|c p] Hn; cbn in Hn; try lia.
  - by destruct q.
  - done.
  - change (String c (string_take n (p +:+ q)) = String c (string_take n p)).
    rewrite IH; [done | lia].
Qed.

Lemma string_take_all (p : string) : string_take (String.length p) p = p.
Proof. induction p as [|c p IH]; [done|]. cbn. by rewrite IH. Qed.

Lemma string_length_take (n : nat) (s : string) :
  (n <= String.length s)%nat -> String.length (string_take n s) = n.
Proof.
  revert s. induction n as [|n IH]; intros [|c s] Hn; cbn in *; try lia.
  rewrite IH; lia.
Qed.

Lemma string_length_app (p q : string) :
  String.length (p +:+ q) = (String.length p + String.length q)%nat.
Proof. induction p as [|c p IH]; [done|]. cbn. by rewrite <- IH. Qed.

(** A line that ends with a colon is a text followed by the colon. *)
Lemma ends_with_colon (line : string) :
  ends_with line ":" = true ->
  exists p, line = p +:+ ":" /\ string_take (String.length line - 1) line = p.
Proof.
  unfold ends_with. intros [Hlen Heq]%andb_prop. apply Nat.leb_le in Hlen.
  apply String.eqb_eq in Heq. cbn [String.length] in *.
  exists (string_take (String.length line - 1) line). split; [|done].
  rewrite <- Heq. symmetry. apply string_take_drop.
Qed.

Lemma starts_with_empty (s : string) : starts_with s EmptyString = true.
Proof. by destruct s. Qed.

(** The first [@] of a text followed by a colon is the first [@] of the
    text. *)
Lemma find_from_at_colon (p : string) (fuel1 fuel2 pos : nat) :
  (String.length p < fuel1)%nat -> (String.length p + 1 < fuel2)%nat ->
  find_from fuel2 (p +:+ ":") "@" pos = find_from fuel1 p "@" pos /\
  forall at_offset, find_from fuel1 p "@" pos = Some at_offset ->
    (pos <= at_offset < pos + String.length p)%nat.
Proof.
  revert fuel1 fuel2 pos. induction p as [|c p IH]; intros fuel1 fuel2 pos H1 H2;
    cbn [String.length] in *.
  - destruct fuel1 as [|fuel1]; [lia|]. destruct fuel2 as [|[|fuel2]]; try lia. done.
  - destruct fuel1 as [|fuel1]; [lia|]. destruct fuel2 as [|fuel2]; [lia|].
    change (String c p +:+ ":") with (String c (p +:+ ":")).
    cbn [find_from starts_with]. rewrite !starts_with_empty, !andb_true_r.
    destruct (Ascii.eqb "@" c).
    + split; [done|]. intros at_offset [= <-]. lia.
    + destruct (IH fuel1 fuel2 (S pos) ltac:(lia) ltac:(lia)) as [Heq Hrange].
      split; [done|]. intros at_offset Hat. apply Hrange in Hat. lia.
Qed.

(** The loop that finds the labels and the loop that emits the code read
    the same name from a label line. *)
Lemma label_name_collected (line : string) :
  ends_with line ":" = true ->
  let name := substr line 0 (String.length line - 1) in
  match string_find name "@" 0 with
  | Some at_offset => string_take at_offset name
  | None => name
  end = label_name line.
Proof.
  intros Hends. destruct (ends_with_colon _ Hends) as (p & Hline & Htake).
  unfold label_name, substr. cbn [string_drop]. rewrite Htake.
  assert (Hlen : String.length line = S (String.length p)).
  { rewrite Hline, string_length_app. cbn. lia. }
  unfold string_find. cbn [string_drop Nat.ltb Nat.leb].
  destruct (find_from_at_colon p (S (String.length p)) (S (String.length line)) 0
              ltac:(lia) ltac:(lia)) as [Heq Hrange].
  rewrite Hline at 2. rewrite Heq.
  destruct (find_from (S (String.length p)) p "@" 0) as [at_offset|] eqn:Hfind.
  - specialize (Hrange _ eq_refl). rewrite Hline. rewrite string_take_app; [done | lia].
  - rewrite Hlen. replace (S (String.length p) - 1)%nat with (String.length p) by lia.
    rewrite Hline, string_take_app by lia. by rewrite string_take_all.
Qed.

Lemma collect_label_skip (line_num : nat) (line : string) (t : LabelTable) :
  ends_with line ":" = false -> collect_label line_num line t = Ok t.
Proof. unfold collect_label. by intros ->. Qed.

(** What the loop that finds the labels does with a label line. *)
Lemma collect_label_named (line_num : nat) (line : string) (t t' : LabelTable) :
  collect_label line_num line t = Ok t' -> ends_with line ":" = true ->
  exists index,
    asm_labels t' = asm_labels t ++ [mkAsmLabel (label_name line) index (-1)] /\
    labels_by_name t'
    = fst (omap_emplace String.compare (label_name line) (length (asm_labels t))
             (labels_by_name t)) /\
    snd (omap_emplace String.compare (label_name line) (length (asm_labels t))
           (labels_by_name t)) = true /\
    (label_name line = "start" -> index = 0).
Proof.
  intros Hcollect Hends. unfold collect_label in Hcollect. rewrite Hends in Hcollect.
  cbn [negb] in Hcollect. cbv zeta in Hcollect.
  pose proof (label_name_collected line Hends) as Hname. cbv zeta in Hname.
  set (name0 := substr line 0 (String.length line - 1)) in *.
  assert (exists index,
    match string_find name0 "@" 0 with
    | Some at_offset =>
        match stoul (substr_from name0 (at_offset + 1)) with
        | Ok index =>
            if String.eqb (string_take at_offset name0) "start" && negb (s64 index =? 0)
            then Throw (runtime_error "start label cannot have a nonzero label ID")
            else Ok (string_take at_offset name0, s64 index)
        | Throw e =>
            Throw (line_error line_num ("invalid index in label (" +:+ what e +:+ ")"))
        end
    | None => Ok (name0, if String.eqb name0 "start" then 0 else -1)
    end = Ok (label_name line, index) /\ (label_name line = "start" -> index = 0))
    as (index & Hparsed & Hstart).
  { destruct (string_find name0 "@" 0) as [at_offset|].
    - destruct (stoul _) as [index|]; [|done]. rewrite Hname in *.
      destruct (String.eqb (label_name line) "start") eqn:Hs; cbn [andb] in *.
      + destruct (s64 index =? 0) eqn:Hz; [|done]. cbn [negb] in *.
        exists (s64 index). split; [done|]. intros _. by apply Z.eqb_eq.
      + exists (s64 index). split; [done|]. intros Heq. apply String.eqb_neq in Hs. done.
    - rewrite Hname in *. destruct (String.eqb (label_name line) "start") eqn:Hs.
      + by exists 0.
      + exists (-1). split; [done|]. intros Heq. apply String.eqb_neq in Hs. done. }
  rewrite Hparsed in Hcollect. cbn [rbind] in Hcollect.
  destruct (omap_emplace String.compare (label_name line) _ _) as [by_name inserted] eqn:Hm.
  destruct inserted; cbn [negb] in Hcollect; [|done].
  exists index. cbn [fst snd].
  destruct (0 <=? index).
  - destruct (omap_emplace Z.compare index _ _) as [by_index inserted].
    destruct inserted; cbn [negb] in Hcollect; [|done]. by injection Hcollect as <-.
  - by injection Hcollect as <-.
Qed.

Lemma labels_named_empty : labels_named [] (mkLabelTable [] [] []).
Proof.
  split; cbn [asm_labels labels_by_name]; try (by intros id l; rewrite lookup_nil).
  - by intros name id ?%elem_of_nil.
  - by intros line ?%elem_of_nil.
Qed.

Lemma collect_label_labels_named (line_num : nat) (lines : list string) (line : string)
    (t t' : LabelTable) :
  collect_label line_num line t = Ok t' -> labels_named lines t ->
  labels_named (lines ++ [line]) t'.
Proof.
  intros Hcollect [Hfound Hnamed Hstart Hline Hlabel].
  destruct (ends_with line ":") eqn:Hends.
  2:{ rewrite (collect_label_skip _ _ _ Hends) in Hcollect. injection Hcollect as <-.
      split; [done|done|done| |].
      - intros id l Hl. destruct (Hline _ _ Hl) as (line' & Hin & Hrest).
        exists line'. split; [|done]. apply elem_of_app. by left.
      - intros line' [Hin|Heq%list_elem_of_singleton]%elem_of_app Hends';
          [by apply Hlabel|]. congruence. }
  destruct (collect_label_named _ _ _ _ Hcollect Hends)
    as (index & Hlabels & Hnames & Hinserted & Hindex).
  assert (Hnew : forall id l, asm_labels t' !! id = Some l ->
            asm_labels t !! id = Some l \/
            (id = length (asm_labels t) /\ l = mkAsmLabel (label_name line) index (-1))).
  { intros id l Hl. rewrite Hlabels in Hl.
    apply lookup_app_Some in Hl as [Hl|[Hge Hl]]; [by left|]. right.
    apply list_lookup_singleton_Some in Hl as [Hz <-]. split; [lia | done]. }
  split.
  - intros id l Hl. apply Hnew in Hl as [Hl|[-> ->]]; rewrite Hnames.
    + rewrite omap_find_emplace_ne; [by apply Hfound|]. intros Heq.
      pose proof (Hfound _ _ Hl) as Hf. rewrite Heq in Hf.
      apply omap_emplace_inserted in Hinserted. congruence.
    + cbn [al_name]. by apply omap_find_emplace_eq.
  - intros name id Hin. rewrite Hnames in Hin.
    apply omap_emplace_elem in Hin as [Hin|[_ [= -> ->]]].
    + destruct (Hnamed _ _ Hin) as (l & Hl & Hname). exists l. split; [|done].
      rewrite Hlabels. by apply lookup_app_l_Some.
    + exists (mkAsmLabel (label_name line) index (-1)). split; [|done].
      rewrite Hlabels, lookup_app_r, Nat.sub_diag by lia. done.
  - intros id l Hl. apply Hnew in Hl as [Hl|[-> ->]]; [by eapply Hstart|].
    cbn [al_name al_index]. done.
  - intros id l Hl. apply Hnew in Hl as [Hl|[-> ->]].
    + destruct (Hline _ _ Hl) as (line' & Hin & Hrest).
      exists line'. split; [|done]. apply elem_of_app. by left.
    + exists line. split; [|done]. apply elem_of_app. right. by left.
  - intros line' [Hin|Heq%list_elem_of_singleton]%elem_of_app Hends'; [|subst line'].
    + destruct (Hlabel _ Hin Hends') as (id & l & Hl & Hname).
      exists id, l. split; [|done]. rewrite Hlabels. by apply lookup_app_l_Some.
    + exists (length (asm_labels t)), (mkAsmLabel (label_name line) index (-1)).
      split; [|done]. rewrite Hlabels, lookup_app_r, Nat.sub_diag by lia. done.
Qed.

Lemma collect_labels_labels_named (rest : list string) (line_num : nat)
    (lines : list string) (t t' : LabelTable) :
  collect_labels line_num rest t = Ok t' -> labels_named lines t ->
  labels_named (lines ++ rest) t'.
Proof.
  revert line_num lines t. induction rest as [|line rest IH]; intros line_num lines t;
    cbn [collect_labels].
  - intros [= <-]. by rewrite app_nil_r.
  - destruct (collect_label line_num line t) as [t1|] eqn:Hc; cbn [rbind]; [|done].
    intros Hrest Hnamed. replace (lines ++ line :: rest) with ((lines ++ [line]) ++ rest)
      by (by rewrite <- app_assoc).
    eapply IH; [done|]. by eapply collect_label_labels_named.
Qed.

Lemma assign_indexes_names (names : list (string * nat)) (n : Z) (t : LabelTable) :
  al_name <$> asm_labels (assign_indexes names n t) = al_name <$> asm_labels t.
Proof.
  revert n t. induction names as [|[nm id] names IH]; intros n t; cbn [assign_indexes];
    [done|].
  destruct (0 <=? _); [apply IH|]. rewrite IH. cbn [asm_labels]. by apply fmap_alter_same.
Qed.

Lemma lookup_fmap_eq {A B : Type} (f : A -> B) (l1 l2 : list A) (id : nat) (x : A) :
  f <$> l1 = f <$> l2 -> l1 !! id = Some x -> exists y, l2 !! id = Some y /\ f y = f x.
Proof.
  intros Heq Hx. assert ((f <$> l2) !! id = Some (f x)) as Hy
    by (by rewrite <- Heq, list_lookup_fmap, Hx).
  rewrite list_lookup_fmap in Hy. destruct (l2 !! id) as [y|]; [|done].
  injection Hy as Hy. by exists y.
Qed.

(** After the labels have been found, every label is found under its
    name, there is a label [start], it has the index 0, and the labels are
    those of the label lines. *)
Lemma find_labels_named (lines : list string) (t : LabelTable) :
  find_labels lines = Ok t ->
  labels_named lines t /\
  exists id l, asm_labels t !! id = Some l /\ al_name l = "start" /\ al_index l = 0.
Proof.
  unfold find_labels.
  destruct (collect_labels 1 lines _) as [t0|] eqn:Hc; cbn [rbind]; [|done].
  destruct (omap_count _ _ _) eqn:Hcount; cbn [negb]; [|done]. intros [= <-].
  assert (Hok0 : labels_ok t0) by (eapply collect_labels_ok; [done | apply labels_ok_empty]).
  apply (collect_labels_labels_named _ _ []) in Hc; [|apply labels_named_empty].
  cbn [app] in Hc. destruct Hc as [Hfound Hnamed Hstart Hline Hlabel].
  destruct (assign_indexes_ok (labels_by_name t0) 0 t0 ltac:(lia) Hok0 (lok_names _ Hok0))
    as (_ & Hnames & Hlen & Hkeep & _ & _).
  pose proof (assign_indexes_names (labels_by_name t0) 0 t0) as Hsame.
  assert (Hzero : forall id l0, asm_labels t0 !! id = Some l0 -> al_name l0 = "start" ->
            asm_labels (assign_indexes (labels_by_name t0) 0 t0) !! id = Some l0 /\
            al_index l0 = 0).
  { intros id l0 Hl0 Hname. pose proof (Hstart _ _ Hl0 Hname) as Hz.
    split; [|done]. apply Hkeep; [done | lia]. }
  split; [split; rewrite ?Hnames|].
  - intros id l Hl. destruct (lookup_fmap_eq _ _ _ _ _ Hsame Hl) as (l0 & Hl0 & Heq).
    rewrite <- Heq. by apply Hfound.
  - intros name id Hin. destruct (Hnamed _ _ Hin) as (l0 & Hl0 & Hname).
    destruct (lookup_fmap_eq _ _ _ _ _ (eq_sym Hsame) Hl0) as (l & Hl & Heq).
    exists l. split; [done | congruence].
  - intros id l Hl Hname. destruct (lookup_fmap_eq _ _ _ _ _ Hsame Hl) as (l0 & Hl0 & Heq).
    destruct (Hzero id l0 Hl0 ltac:(congruence)) as [Hl' Hz]. congruence.
  - intros id l Hl. destruct (lookup_fmap_eq _ _ _ _ _ Hsame Hl) as (l0 & Hl0 & Heq).
    rewrite <- Heq. by eapply Hline.
  - intros line Hin Hends. destruct (Hlabel _ Hin Hends) as (id & l0 & Hl0 & Hname).
    destruct (lookup_fmap_eq _ _ _ _ _ (eq_sym Hsame) Hl0) as (l & Hl & Heq).
    exists id, l. split; [done | congruence].
  - unfold omap_count in Hcount.
    destruct (omap_find String.compare "start" (labels_by_name t0)) as [id|] eqn:Hfind;
      [|done].
    apply omap_find_elem in Hfind. destruct (Hnamed _ _ Hfind) as (l0 & Hl0 & Hname).
    destruct (Hzero id l0 Hl0 Hname) as [Hl' Hz]. by exists id, l0.
Qed.

(** ** The offsets of the labels *)

#[export] Instance offsets_kept_preorder : PreOrder offsets_kept.
Proof.
  split.
  - intros s. split; [done|]. split; [done|]. intros id l l' Hl Hl'. congruence.
  - intros s1 s2 s3 (Hn12 & Hm12 & Ho12) (Hn23 & Hm23 & Ho23).
    split; [congruence|]. split; [congruence|]. intros id l1 l3 Hl1 Hl3 Hpos.
    destruct (lookup_fmap_eq _ _ _ _ _ (eq_sym Hm12) Hl1) as (l2 & Hl2 & _).
    eapply Ho23; [done..|]. by eapply Ho12.
Qed.

Lemma asm_frame_offsets_kept (s s' : Asm) : asm_frame s s' -> offsets_kept s s'.
Proof.
  intros [Hl _]. unfold offsets_kept. rewrite Hl. split; [done|]. split; [done|].
  intros id l l' Hl1 Hl2. congruence.
Qed.

Lemma in_line_offsets_kept (line_num : nat) (m : M Asm unit) (s s' : Asm) :
  respects asm_frame m -> in_line line_num (m s) = Returns s' -> offsets_kept s s'.
Proof.
  intros Hm. unfold in_line. destruct (m s) as [[[]|e] s1] eqn:E; [|done].
  intros [= <-]. apply asm_frame_offsets_kept. exact (Hm _ _ _ E).
Qed.

Lemma asm_line_offsets_kept `{External} (include_directory : string) (meta : QuestMeta)
    (opcodes : gmap string QuestScriptOpcodeDefinition) (line_num : nat) (line : string)
    (s s' : Asm) :
  asm_line include_directory meta opcodes line_num line s = Returns s' ->
  offsets_kept s s'.
Proof.
  unfold asm_line.
  repeat match goal with
         | |- (if ?b then _ else _) = _ -> _ => destruct b
         | |- match ?x with _ => _ end = _ -> _ => destruct x
         end; try discriminate.
  all: try (intros [= <-]; reflexivity).
  all: try (apply in_line_offsets_kept; unfold write; frame).
  - intros [= <-]. unfold offsets_kept.
    cbn [labels code_w asm_labels labels_by_name labels_by_index].
    split; [done|]. split; [by apply fmap_alter_same|].
    intros id l l' Hl Hl' Hpos. rewrite list_lookup_alter in Hl'.
    case_decide as Hid; [|congruence]. subst id. rewrite Hl in Hl'.
    injection Hl' as <-. cbn. lia.
  - intros [= <-]. apply asm_frame_offsets_kept. split; [done|]. simpl.
    rewrite length_app. lia.
  - apply respects_asm_instruction.
Qed.

Lemma asm_lines_offsets_kept `{External} (include_directory : string) (meta : QuestMeta)
    (opcodes : gmap string QuestScriptOpcodeDefinition) (lines : list string)
    (line_num : nat) (s s' : Asm) :
  asm_lines include_directory meta opcodes line_num lines s = Returns s' ->
  offsets_kept s s'.
Proof.
  revert line_num s. induction lines as [|line lines IH]; intros line_num s; simpl.
  - intros [= <-]. reflexivity.
  - destruct (asm_line _ _ _ _ _ s) as [s1| | |] eqn:Hline; try discriminate.
    cbn [run_bind]. intros Hrest. transitivity s1.
    + by eapply asm_line_offsets_kept.
    + by eapply IH.
Qed.

Lemma ends_with_not_empty (line suffix : string) :
  ends_with line suffix = true -> suffix <> EmptyString -> is_empty line = false.
Proof.
  unfold ends_with. intros [Hlen _]%andb_prop Hsuffix. apply Nat.leb_le in Hlen.
  destruct line; [|done]. destruct suffix; [done|]. cbn in Hlen. lia.
Qed.

(** What the emission loop does with a label line. *)
Lemma asm_line_label `{External} (include_directory : string) (meta : QuestMeta)
    (opcodes : gmap string QuestScriptOpcodeDefinition) (line_num : nat) (line : string)
    (s : Asm) (id : nat) :
  ends_with line ":" = true ->
  omap_find String.compare (label_name line) (labels_by_name (labels s)) = Some id ->
  asm_line include_directory meta opcodes line_num line s
  = Returns (mkAsm (code_w s)
               (mkLabelTable
                  (alter (set_offset (Z.of_nat (length (code_w s)))) id
                     (asm_labels (labels s)))
                  (labels_by_name (labels s)) (labels_by_index (labels s)))
               (reg_assigner s)).
Proof.
  intros Hends Hfind. unfold asm_line.
  rewrite (ends_with_not_empty _ _ Hends) by done. rewrite Hends.
  fold (label_name line). by rewrite Hfind.
Qed.

(** After the emission loop, the label of every label line has an
    offset. *)
Lemma asm_lines_offsets `{External} (include_directory : string) (meta : QuestMeta)
    (opcodes : gmap string QuestScriptOpcodeDefinition) (lines : list string)
    (line_num : nat) (s s' : Asm) :
  asm_lines include_directory meta opcodes line_num lines s = Returns s' ->
  forall line id l', line ∈ lines -> ends_with line ":" = true ->
    omap_find String.compare (label_name line) (labels_by_name (labels s)) = Some id ->
    asm_labels (labels s') !! id = Some l' -> 0 <= al_offset l'.
Proof.
  revert line_num s. induction lines as [|line0 lines IH]; intros line_num s;
    cbn [asm_lines]; [by intros _ line id l' ?%elem_of_nil|].
  destruct (asm_line _ _ _ _ _ s) as [s1| | |] eqn:Hline; try discriminate.
  cbn [run_bind]. intros Hrest line id l' Hin Hends Hfind Hl'.
  pose proof (asm_line_offsets_kept _ _ _ _ _ _ _ Hline) as (Hnames1 & _ & _).
  apply elem_of_cons in Hin as [->|Hin].
  - rewrite (asm_line_label _ _ _ _ _ _ _ Hends Hfind) in Hline. injection Hline as <-.
    pose proof (asm_lines_offsets_kept _ _ _ _ _ _ _ Hrest) as (_ & Hsame & Hkept).
    cbn [labels asm_labels] in Hsame, Hkept.
    destruct (lookup_fmap_eq _ _ _ _ _ Hsame Hl') as (l1 & Hl1 & _).
    apply (Hkept _ _ _ Hl1 Hl'). rewrite list_lookup_alter_eq in Hl1.
    destruct (asm_labels (labels s) !! id); [|done]. injection Hl1 as <-. cbn. lia.
  - eapply (IH _ _ Hrest); [done..| |done]. by rewrite Hnames1.
Qed.

(** The loop that writes the function table ends without an error when
    every index up to the highest has been looked at and every label has
    an offset. *)
Lemma function_table_from_total (t : LabelTable) (remaining : nat) (z : Z)
    (it : list (Z * nat)) :
  keys_sorted it ->
  (forall k id, (k, id) ∈ it -> z <= k < z + Z.of_nat remaining) ->
  (remaining <> 0%nat -> exists id, (z + Z.of_nat remaining - 1, id) ∈ it) ->
  (forall k id, (k, id) ∈ it -> 0 <= al_offset (label_of t id)) ->
  exists table, function_table_from t remaining z it = Ok table.
Proof.
  revert z it. induction remaining as [|remaining IH]; intros z it Hsorted Hkeys Hlast Hoff;
    cbn [function_table_from]; [by eexists|].
  destruct it as [|[first id0] it'].
  { destruct (Hlast ltac:(lia)) as [id Hin]. by apply elem_of_nil in Hin. }
  destruct Hsorted as [Hsorted Hlt].
  pose proof (Hkeys first id0 ltac:(by left)) as Hfirst.
  destruct (Z.ltb_spec z first) as [Hz|Hz].
  - destruct (IH (z + 1) ((first, id0) :: it')) as [rest ->]; [by split| | |done|by eexists].
    + intros k id [[= -> ->]|Hin]%elem_of_cons; [lia|].
      pose proof (Hlt _ _ Hin). pose proof (Hkeys k id ltac:(by right)). lia.
    + intros Hne. destruct (Hlast ltac:(lia)) as [id Hin]. exists id.
      by replace (z + 1 + Z.of_nat remaining - 1) with (z + Z.of_nat (S remaining) - 1) by lia.
  - assert (first = z) as -> by lia. rewrite Z.eqb_refl.
    pose proof (Hoff z id0 ltac:(by left)) as Hpos.
    replace (al_offset (label_of t id0) <? 0) with false by lia.
    destruct (IH (z + 1) it') as [rest ->]; [done| | | |by eexists].
    + intros k id Hin. pose proof (Hlt _ _ Hin). pose proof (Hkeys k id ltac:(by right)). lia.
    + intros Hne. destruct (Hlast ltac:(lia)) as [id Hin].
      replace (z + Z.of_nat (S remaining) - 1) with (z + 1 + Z.of_nat remaining - 1) in Hin
        by lia.
      apply elem_of_cons in Hin as [[= Heq _]|Hin]; [lia|]. by exists id.
    + intros k id Hin. apply (Hoff k id). by right.
Qed.

Lemma function_table_loop_total (t : LabelTable) :
  labels_ok t -> offsets_set t ->
  exists table,
    function_table_from t (Z.to_nat (function_table_size t)) 0 (labels_by_index t) = Ok table.
Proof.
  intros Hok Hset. unfold function_table_size.
  destruct (labels_by_index t) as [|[k0 id0] m] eqn:Hm; [by eexists|]. rewrite <- Hm.
  assert (Hin0 : (k0, id0) ∈ labels_by_index t) by (rewrite Hm; by left).
  destruct (keys_sorted_last (labels_by_index t) (-1, 0%nat) k0 id0 (lok_sorted _ Hok) Hin0)
    as [_ Hlast].
  destruct (List.last (labels_by_index t) (-1, 0%nat)) as [kmax idmax] eqn:Hk. cbn [fst].
  destruct (lok_index _ Hok _ _ Hlast) as (_ & _ & _ & Hpos).
  apply function_table_from_total.
  - apply (lok_sorted _ Hok).
  - intros k id Hin. destruct (lok_index _ Hok _ _ Hin) as (_ & _ & _ & Hk0).
    destruct (keys_sorted_last (labels_by_index t) (-1, 0%nat) k id (lok_sorted _ Hok) Hin)
      as [Hle _]. rewrite Hk in Hle. cbn [fst] in Hle. lia.
  - intros _. exists idmax. by replace (0 + Z.of_nat (Z.to_nat (kmax + 1)) - 1) with kmax by lia.
  - intros k id Hin. destruct (lok_index _ Hok _ _ Hin) as (l & Hl & _).
    unfold label_of. rewrite Hl. by eapply Hset.
Qed.

Section LabelOffsets.
Context `{External}.
Variable include_directory : string.

Lemma asm_lines_labels (meta : QuestMeta)
    (opcodes : gmap string QuestScriptOpcodeDefinition) (lines : list string)
    (t : LabelTable) (s : Asm) :
  find_labels lines = Ok t ->
  asm_lines include_directory meta opcodes 1 lines (mkAsm [] t new_RegisterAssigner)
  = Returns s ->
  labels_ok (labels s) /\ all_indexed (labels s) /\ offsets_set (labels s) /\
  offsets_within (labels s) (length (code_w s)) /\
  exists id l, asm_labels (labels s) !! id = Some l /\ al_name l = "start" /\ al_index l = 0.
Proof.
  intros Hfind Hlines.
  pose proof (find_labels_named _ _ Hfind)
    as ([Hfound Hnamed Hstart Hline Hlabel] & id0 & l0 & Hl0 & Hname0 & Hindex0).
  pose proof (find_labels_ok _ _ Hfind) as (Hok & Hall & Hoff).
  pose proof (asm_lines_frame _ _ _ _ _ _ _ Hlines) as (Hn & Hi & Hx & Ho).
  pose proof (asm_lines_offsets_kept _ _ _ _ _ _ _ Hlines) as (_ & Hnames & _).
  cbn [labels code_w] in *.
  destruct (labels_ok_frame t (labels s) Hn Hi Hx) as [Hok' Hall'].
  split; [by apply Hok'|]. split; [by apply Hall'|]. split; [|split; [by apply Ho|]].
  - intros id l' Hl'. destruct (lookup_fmap_eq _ _ _ _ _ Hnames Hl') as (l & Hl & Heq).
    destruct (Hline _ _ Hl) as (line & Hin & Hends & Hname).
    eapply (asm_lines_offsets _ _ _ _ _ _ _ Hlines line id l'); [done..| |done].
    cbn [labels]. rewrite <- Hname. by apply Hfound.
  - destruct (lookup_fmap_eq _ _ _ _ _ (eq_sym Hnames) Hl0) as (l & Hl & Heq).
    destruct (lookup_fmap_eq _ _ _ _ _ (eq_sym Hx) Hl0) as (l' & Hl' & Heq').
    exists id0, l. split; [done|]. split; [congruence|]. congruence.
Qed.
End LabelOffsets.

(** ** The function table is always written *)

Section FunctionTableTotal.
Context `{External}.
Variable include_directory : string.

(** X14: when the labels of a program have been found and each of its
    lines has been assembled, every label has an offset, from 0 to the
    size of the code, and the loop that fills the function table returns
    a table: none of its three errors (a table longer than the labels, a
    label without an offset, a label that was missed) can occur.  The
    function table is that table unless the highest index is the largest
    [ssize_t], when adding 1 to it overflows, or [reserve] throws, when
    its exception is the exception of the assembler. *)
Theorem function_table_generated (meta : QuestMeta)
    (opcodes : gmap string QuestScriptOpcodeDefinition) (lines : list string)
    (t : LabelTable) (s : Asm) :
  find_labels lines = Ok t ->
  asm_lines include_directory meta opcodes 1 lines (mkAsm [] t new_RegisterAssigner)
  = Returns s ->
  (forall id l, asm_labels (labels s) !! id = Some l ->
     0 <= al_offset l <= Z.of_nat (length (code_w s))) /\
  exists table,
    function_table_from (labels s) (Z.to_nat (function_table_size (labels s))) 0
      (labels_by_index (labels s)) = Ok table /\
    match generate_function_table (labels s) with
    | Returns table' => table' = table
    | Throws e => vector_reserve (u64 (function_table_size (labels s))) = Throw e
    | Faults f => f = signed_overflow /\ highest_label_index (labels s) = 2 ^ 63 - 1
    | Loops => False
    end /\
    (highest_label_index (labels s) <> 2 ^ 63 - 1 ->
     vector_reserve (u64 (function_table_size (labels s))) = Ok tt ->
     generate_function_table (labels s) = Returns table).
Proof.
  intros Hfind Hlines.
  destruct (asm_lines_labels include_directory _ _ _ _ _ Hfind Hlines)
    as (Hok & Hall & Hset & Hwithin & _).
  split; [intros id l Hl; split; [by eapply Hset | by eapply Hwithin]|].
  destruct (function_table_loop_total _ Hok Hset) as [table Htable]. exists table.
  split; [done|].
  pose proof (function_table_size_highest _ Hok Hall) as Hsize.
  assert (fst (List.last (labels_by_index (labels s)) (-1, 0%nat))
          = highest_label_index (labels s)) as Hlast.
  { unfold function_table_size in Hsize. lia. }
  unfold generate_function_table. rewrite Hlast, Htable. cbn [run_of_result]. split.
  - destruct (Z.eqb_spec (highest_label_index (labels s)) (2 ^ 63 - 1)); [done|].
    by destruct (vector_reserve _) as [[]|].
  - intros Hne Hreserve. rewrite Hreserve.
    by destruct (Z.eqb_spec (highest_label_index (labels s)) (2 ^ 63 - 1)).
Qed.

(** X15: when the assembler succeeds, the program has a label [start],
    its index is 0, and entry 0 of the function table is its offset in the
    code. *)
Theorem start_is_function_0 (text : string) (bytes : list Z) :
  assemble_quest_script include_directory text = Returns bytes ->
  exists q header l,
    assemble_parts include_directory text = Returns q /\
    bytes = header ++ aq_code q ++ flat_map u32_bytes (aq_function_table q) /\
    l ∈ asm_labels (aq_labels q) /\ al_name l = "start" /\ al_index l = 0 /\
    aq_function_table q !! 0%nat = Some (u32 (al_offset l)) /\
    0 <= al_offset l <= Z.of_nat (length (aq_code q)).
Proof.
  unfold assemble_quest_script.
  destruct (assemble_parts include_directory text) as [q| | |] eqn:Hparts;
    cbn [run_bind]; try discriminate.
  destruct (make_header q) as [header|]; cbn [run_of_result run_bind]; try discriminate.
  intros [= <-]. exists q, header.
  assert (exists id l, asm_labels (aq_labels q) !! id = Some l /\
                       al_name l = "start" /\ al_index l = 0) as (id & l & Hl & Hname & Hindex).
  { revert Hparts. unfold assemble_parts.
    destruct (strip_lines _) as [[lines|]|]; try discriminate.
    destruct (collect_meta _ _) as [meta|]; cbn [rbind run_of_result run_bind];
      try discriminate.
    destruct (check_meta _) as [?|]; cbn [rbind run_of_result run_bind]; try discriminate.
    destruct (find_labels lines) as [t|] eqn:Hfind; cbn [rbind run_of_result run_bind];
      try discriminate.
    destruct (opcodes_by_name_for_version _) as [opcodes|];
      cbn [rbind run_of_result run_bind]; try discriminate.
    destruct (asm_lines _ _ _ _ _ _) as [s| | |] eqn:Hlines; cbn [run_bind];
      try discriminate.
    destruct (assign_all _) as [st| | |]; cbn [run_bind]; try discriminate.
    destruct (generate_function_table _) as [table| | |];
      cbn [run_of_result run_bind]; try discriminate.
    intros [= <-]. cbn [aq_labels].
    by destruct (asm_lines_labels include_directory _ _ _ _ _ Hfind Hlines)
      as (_ & _ & _ & _ & Hstart). }
  destruct (assemble_parts_labels _ _ _ Hparts) as (Hok & Hall & Hwithin & Htable).
  exists l. split; [done|]. split; [done|].
  split; [by eapply list_elem_of_lookup_2|]. split; [done|]. split; [done|].
  destruct (generate_function_table_entry _ _ Hok Hall Htable) as [Hlen Hentry].
  assert (Hhigh : 0 <= highest_label_index (aq_labels q)).
  { unfold highest_label_index. apply fold_max_upper. rewrite <- Hindex.
    apply list_elem_of_fmap. exists l. split; [done|]. by eapply list_elem_of_lookup_2. }
  specialize (Hentry 0 ltac:(lia)). unfold label_with_index in Hentry.
  destruct (List.find _ _) as [l'|] eqn:Hfind.
  - apply find_some in Hfind as [Hl' Heq]. apply Z.eqb_eq in Heq.
    apply list_elem_of_In, list_elem_of_lookup_1 in Hl' as [id' Hl'].
    assert (id' = id) as ->.
    { apply (NoDup_lookup (al_index <$> asm_labels (aq_labels q)) id' id 0).
      - by apply labels_ok_NoDup.
      - by rewrite list_lookup_fmap, Hl', <- Heq.
      - by rewrite list_lookup_fmap, Hl, <- Hindex. }
    assert (l' = l) as -> by congruence.
    destruct Hentry as [Hentry Hpos]. split; [done|]. split; [done|]. by eapply Hwithin.
  - exfalso. eapply find_none in Hfind; [|by eapply list_elem_of_In, list_elem_of_lookup_2].
    cbn in Hfind. rewrite Hindex in Hfind. done.
Qed.
End FunctionTableTotal.

(** X14 on a program of two label lines. *)
Lemma function_table_generated_witness :
  exists t s,
    find_labels two_labels = Ok t /\
    asm_lines (H := Sample.external) EmptyString initial_meta ∅ 1 two_labels
      (mkAsm [] t new_RegisterAssigner) = Returns s /\
    (forall id l, asm_labels (labels s) !! id = Some l ->
       0 <= al_offset l <= Z.of_nat (length (code_w s))) /\
    exists table,
      function_table_from (labels s) (Z.to_nat (function_table_size (labels s))) 0
        (labels_by_index (labels s)) = Ok table /\
      match generate_function_table (H := Sample.external) (labels s) with
      | Returns table' => table' = table
      | Throws e =>
          vector_reserve (External := Sample.external) (u64 (function_table_size (labels s)))
          = Throw e
      | Faults f => f = signed_overflow /\ highest_label_index (labels s) = 2 ^ 63 - 1
      | Loops => False
      end /\
      (highest_label_index (labels s) <> 2 ^ 63 - 1 ->
       vector_reserve (External := Sample.external) (u64 (function_table_size (labels s)))
       = Ok tt ->
       generate_function_table (H := Sample.external) (labels s) = Returns table).
Proof.
  eexists _, _. split; [vm_compute; reflexivity|]. split; [vm_compute; reflexivity|].
  eapply (function_table_generated (H := Sample.external) EmptyString initial_meta ∅
            two_labels); vm_compute; reflexivity.
Defined.

(** X15 on the program with the labels [start], [second@3] and
    [third]. *)
Lemma start_is_function_0_witness :
  exists q header l,
    assemble_parts EmptyString labelled_source = Returns q /\
    labelled_quest = header ++ aq_code q ++ flat_map u32_bytes (aq_function_table q) /\
    l ∈ asm_labels (aq_labels q) /\ al_name l = "start" /\ al_index l = 0 /\
    aq_function_table q !! 0%nat = Some (u32 (al_offset l)) /\
    0 <= al_offset l <= Z.of_nat (length (aq_code q)).
Proof.
  apply (start_is_function_0 (H := Sample.external) EmptyString labelled_source
           labelled_quest).
  vm_compute. reflexivity.
Defined.

(** ** Comments and white space *)

Lemma string_length_drop (n : nat) (s : string) :
  String.length (string_drop n s) = (String.length s - n)%nat.
Proof.
  revert s. induction n as [|n IH]; intros [|c s]; cbn [string_drop String.length];
    try done; try lia.
Qed.

Lemma string_length_take_le (n : nat) (s : string) :
  (String.length (string_take n s) <= n)%nat.
Proof.
  revert s. induction n as [|n IH]; intros [|c s]; cbn [string_take String.length];
    try lia. specialize (IH s). lia.
Qed.

Lemma starts_with_length (s prefix : string) :
  starts_with s prefix = true -> (String.length prefix <= String.length s)%nat.
Proof.
  revert prefix. induction s as [|c s IH]; intros [|p prefix]; cbn; try done; try lia.
  intros [_ Hrest]%andb_prop. apply IH in Hrest. lia.
Qed.

Lemma find_from_range (fuel : nat) (s needle : string) (pos p : nat) :
  find_from fuel s needle pos = Some p ->
  (pos <= p)%nat /\ (p - pos + String.length needle <= String.length s)%nat.
Proof.
  revert s pos. induction fuel as [|fuel IH]; intros s pos; cbn [find_from]; [done|].
  destruct (starts_with s needle) eqn:Hstart.
  - intros [= <-]. apply starts_with_length in Hstart. lia.
  - destruct s as [|c s]; [done|]. intros Hfind. apply IH in Hfind. cbn [String.length]. lia.
Qed.

Lemma string_find_range (s needle : string) (pos p : nat) :
  string_find s needle pos = Some p ->
  (pos <= p)%nat /\ (p + String.length needle <= String.length s)%nat.
Proof.
  unfold string_find. destruct (String.length s <? pos)%nat eqn:Hlen; [done|].
  apply Nat.ltb_ge in Hlen. intros Hfind. apply find_from_range in Hfind.
  rewrite string_length_drop in Hfind. lia.
Qed.

(** The loop that removes the block comments ends: every turn makes the
    line shorter. *)
Lemma strip_block_comments_total (fuel : nat) (line : string) :
  (String.length line <= fuel)%nat ->
  exists r, strip_block_comments fuel line = Some r /\
    forall e, r = Throw e -> e = runtime_error "unterminated inline comment".
Proof.
  revert line. induction fuel as [|fuel IH]; intros line Hfuel.
  - cbn [strip_block_comments].
    destruct (string_find line "/*" 0) as [comment_start|] eqn:Hstart.
    + apply string_find_range in Hstart. cbn [String.length] in Hstart. lia.
    + by exists (Ok line).
  - cbn [strip_block_comments].
    destruct (string_find line "/*" 0) as [comment_start|] eqn:Hstart;
      [|by exists (Ok line)].
    destruct (string_find line "*/" (comment_start + 2)) as [comment_end|] eqn:Hend.
    + apply IH. apply string_find_range in Hstart, Hend. cbn [String.length] in *.
      rewrite string_length_app, string_length_drop.
      pose proof (string_length_take_le comment_start line). lia.
    + eexists. split; [done|]. by intros e [= <-].
Qed.

Lemma strip_leading_whitespace_idemp (s : string) :
  strip_leading_whitespace (strip_leading_whitespace s) = strip_leading_whitespace s.
Proof.
  induction s as [|c s IH]; [done|]. cbn [strip_leading_whitespace].
  destruct (is_space c) eqn:Hc; [done|]. cbn [strip_leading_whitespace]. by rewrite Hc.
Qed.

Lemma strip_trailing_whitespace_idemp (s : string) :
  strip_trailing_whitespace (strip_trailing_whitespace s) = strip_trailing_whitespace s.
Proof.
  induction s as [|c s IH]; [done|]. cbn [strip_trailing_whitespace].
  destruct (strip_trailing_whitespace s) as [|c' rest] eqn:Hrest.
  - destruct (is_space c) eqn:Hc; [done|]. cbn [strip_trailing_whitespace]. by rewrite Hc.
  - cbn [strip_trailing_whitespace] in *. by rewrite IH.
Qed.

Lemma strip_leading_keeps_trailing (s : string) :
  strip_trailing_whitespace s = s ->
  strip_trailing_whitespace (strip_leading_whitespace s) = strip_leading_whitespace s.
Proof.
  induction s as [|c s IH]; [done|]. cbn [strip_leading_whitespace].
  destruct (is_space c) eqn:Hc; [|done]. cbn [strip_trailing_whitespace]. rewrite Hc.
  destruct (strip_trailing_whitespace s) as [|c' rest] eqn:Hrest; [done|].
  intros [= Heq]. apply IH. done.
Qed.

(** A line after the comments and the white space around it have been
    removed. *)
Lemma strip_line_spec (line : string) :
  exists r, strip_line line = Some r /\
    match r with
    | Ok stripped => trimmed stripped
    | Throw e => e = runtime_error "unterminated inline comment"
    end.
Proof.
  unfold strip_line.
  destruct (strip_block_comments_total (String.length line) line ltac:(lia))
    as (r & -> & Herror).
  destruct r as [uncommented|e]; [|exists (Throw e); split; [done|by apply Herror]].
  eexists. split; [reflexivity|]. split.
  - apply strip_leading_whitespace_idemp.
  - apply strip_leading_keeps_trailing, strip_trailing_whitespace_idemp.
Qed.

Lemma strip_lines_spec (lines : list string) :
  exists r, strip_lines lines = Some r /\
    match r with
    | Ok stripped => Forall trimmed stripped
    | Throw e => e = runtime_error "unterminated inline comment"
    end.
Proof.
  induction lines as [|line lines IH]; cbn [strip_lines]; [by exists (Ok [])|].
  destruct (strip_block_comments_total (String.length line) line ltac:(lia))
    as (r0 & Hr0 & Herror).
  unfold strip_line at 1. rewrite Hr0.
  destruct r0 as [uncommented|e]; [|exists (Throw e); split; [done|by apply Herror]].
  destruct IH as (r & -> & Hr). destruct r as [rest|e]; [|by exists (Throw e)].
  eexists. split; [reflexivity|]. apply Forall_cons. split; [|done]. split.
  - apply strip_leading_whitespace_idemp.
  - apply strip_leading_keeps_trailing, strip_trailing_whitespace_idemp.
Qed.

(** X16: the loops that remove the comments of the source always end,
    for one line and for all the lines of a program; the only error is
    the block comment that is not closed; and a line that has been
    stripped has no white space at either end. *)
Theorem strip_line_total :
  (forall line, exists r, strip_line line = Some r /\
     match r with
     | Ok stripped => trimmed stripped
     | Throw e => e = runtime_error "unterminated inline comment"
     end) /\
  (forall lines, exists r, strip_lines lines = Some r /\
     match r with
     | Ok stripped => Forall trimmed stripped
     | Throw e => e = runtime_error "unterminated inline comment"
     end).
Proof. split; [apply strip_line_spec | apply strip_lines_spec]. Qed.

(** ** The [.joinable] directive *)

Lemma starts_with_spec (s prefix : string) :
  starts_with s prefix = true -> exists rest, s = prefix +:+ rest.
Proof.
  revert prefix. induction s as [|c s IH]; intros [|p prefix]; cbn [starts_with];
    try done.
  - by exists EmptyString.
  - by exists (String c s).
  - intros [Hc Hrest]%andb_prop. apply Ascii.eqb_eq in Hc as ->.
    destruct (IH _ Hrest) as [rest ->]. by exists rest.
Qed.

Section JoinableDirective.
Context `{External}.

(** X17: a line of the source sets the joinable flag only if, after the
    comments and the white space around it have been removed, it is
    [.joinable] followed by a space and some more text.  A line that is
    just [.joinable], which is what the disassembler writes, leaves the
    flag as it is. *)
Theorem joinable_needs_text (m m' : QuestMeta) (raw line : string) :
  strip_line raw = Some (Ok line) ->
  meta_directive m line = Ok m' ->
  quest_joinable m' = true ->
  quest_joinable m = true \/
  exists rest, line = ".joinable " +:+ rest /\ rest <> EmptyString.
Proof.
  intros Hstrip Hmeta Hjoinable.
  destruct (strip_line_spec raw) as (r & Hr & Htrimmed).
  rewrite Hstrip in Hr. injection Hr as <-. destruct Htrimmed as [_ Htrailing].
  revert Hmeta. unfold meta_directive.
  repeat match goal with
         | |- (if ?b then _ else _) = _ -> _ =>
             lazymatch b with
             | starts_with line ".joinable " => fail
             | _ => destruct b
             end
         | |- rbind ?x _ = _ -> _ => destruct x; cbn [rbind]
         end;
    try (intros [= <-]; by left); try done.
  destruct (starts_with line ".joinable ") eqn:Hstart; [|intros [= <-]; by left].
  intros _. right. destruct (starts_with_spec _ _ Hstart) as [rest ->].
  exists rest. split; [done|]. intros ->. done.
Qed.
End JoinableDirective.

(** X17 on the line [.joinable yes]. *)
Lemma joinable_needs_text_witness :
  quest_joinable initial_meta = true \/
  exists rest, ".joinable yes" = ".joinable " +:+ rest /\ rest <> EmptyString.
Proof.
  apply (joinable_needs_text (H := Sample.external) initial_meta
           (mkQuestMeta UNKNOWN EmptyString EmptyString EmptyString (-1) 1 Episode.EP1 4 true)
           "  .joinable yes // comment" ".joinable yes"); reflexivity.
Defined.

(** ** The [.align] directive *)


Lemma stoull_Ok (s : string) (v : Z) : stoull s = Ok v <-> stoul s = Ok v.
Proof.
  unfold stoull, stoul. destruct (strto s) as [[v0 len]|]; [|done].
  by destruct (2 ^ 64 <=? Z.abs v0).
Qed.


Section AlignDirective.
Context `{External}.
Variable include_directory : string.

End AlignDirective.


(** ** The number directives *)

(** The decimal digits. *)
Lemma decimal_digit_checked :
  forallb (fun d =>
             match digit_value (hex_digit d) with Some v => v =? d | None => false end
             && negb (is_space (hex_digit d))
             && negb (Ascii.eqb (hex_digit d) "-") && negb (Ascii.eqb (hex_digit d) "+")
             && ((d =? 0) || negb (Ascii.eqb "0" (hex_digit d))))
    (seqZ 0 10) = true.
Proof. vm_compute. reflexivity. Qed.

Lemma decimal_digit (d : Z) :
  0 <= d < 10 ->
  digit_value (hex_digit d) = Some d /\ is_space (hex_digit d) = false /\
  Ascii.eqb (hex_digit d) "-" = false /\ Ascii.eqb (hex_digit d) "+" = false /\
  (d <> 0 -> Ascii.eqb "0" (hex_digit d) = false).
Proof.
  intros Hd. pose proof decimal_digit_checked as Hall. rewrite forallb_forall in Hall.
  specialize (Hall d ltac:(apply list_elem_of_In, elem_of_seqZ; lia)).
  apply andb_prop in Hall as [Hall Hzero]. apply andb_prop in Hall as [Hall Hplus].
  apply andb_prop in Hall as [Hall Hminus]. apply andb_prop in Hall as [Hvalue Hspace].
  destruct (digit_value (hex_digit d)) as [v|]; [|done]. apply Z.eqb_eq in Hvalue as ->.
  split; [done|]. split; [by apply negb_true_iff|]. split; [by apply negb_true_iff|].
  split; [by apply negb_true_iff|]. intros Hne.
  apply orb_prop in Hzero as [Hz|Hz]; [apply Z.eqb_eq in Hz; lia | by apply negb_true_iff].
Qed.

(** Reading the decimal text of a number: the digits are read one by
    one, the most significant first. *)
Lemma parse_digits_written (fuel : nat) (v : Z) (acc : string) :
  0 <= v < 10 ^ Z.of_nat (S fuel) ->
  exists (k : nat) (d : Z) (rest : string),
    digits_aux 10 (S fuel) v acc = String (hex_digit d) rest /\
    0 <= d < 10 /\ (d = 0 -> v = 0 /\ rest = acc) /\
    forall a c, parse_digits 10 (digits_aux 10 (S fuel) v acc) a c
                = parse_digits 10 acc (a * 10 ^ Z.of_nat (S k) + v) (c + S k).
Proof.
  revert v acc. induction fuel as [|fuel IH]; intros v acc Hv.
  - change (10 ^ Z.of_nat 1) with 10 in Hv. cbn [digits_aux].
    rewrite Z.mod_small by lia.
    exists 0%nat, v, acc. destruct (v / 10 =? 0); (split; [done|]; split; [done|];
      split; [done|]); intros a c; cbn [parse_digits];
      destruct (decimal_digit v Hv) as (-> & _); replace (v <? 10) with true by lia;
      f_equal; lia.
  - cbn [digits_aux]. fold (digits_aux 10 (S fuel)).
    assert (Hdigit : 0 <= v mod 10 < 10) by (apply Z.mod_pos_bound; lia).
    destruct (Z.eqb_spec (v / 10) 0) as [Hsmall|Hbig].
    + assert (v < 10) by (apply Z.div_small_iff in Hsmall; lia).
      rewrite Z.mod_small by lia. exists 0%nat, v, acc.
      split; [done|]. split; [lia|]. split; [done|]. intros a c. cbn [parse_digits].
      destruct (decimal_digit v ltac:(lia)) as (-> & _). replace (v <? 10) with true by lia.
      f_equal; lia.
    + assert (Hrest : 0 <= v / 10 < 10 ^ Z.of_nat (S fuel)).
      { split; [apply Z.div_pos; lia|]. apply Z.div_lt_upper_bound; [lia|].
        replace (10 * 10 ^ Z.of_nat (S fuel)) with (10 ^ Z.of_nat (S (S fuel))); [lia|].
        rewrite (Nat2Z.inj_succ (S fuel)), Z.pow_succ_r by lia. done. }
      destruct (IH (v / 10) (String (hex_digit (v mod 10)) acc) Hrest)
        as (k & d & rest & Hfirst & Hd & Hzero & Hparse).
      exists (S k), d, rest. split; [done|]. split; [done|]. split.
      { intros ->. destruct (Hzero eq_refl) as [Hv0 _]. done. }
      intros a c. rewrite Hparse. cbn [parse_digits].
      destruct (decimal_digit _ Hdigit) as (-> & _).
      replace (v mod 10 <? 10) with true by lia. f_equal; [|lia].
      rewrite (Nat2Z.inj_succ (S k)), Z.pow_succ_r by lia.
      pose proof (Z.div_mod v 10 ltac:(lia)). lia.
Qed.

(** [stoul] reads back what [%u] writes. *)
Lemma stoul_fmt_u (n : Z) : 0 <= n < 2 ^ 64 -> stoul (fmt_u n) = Ok n.
Proof.
  intros Hn. unfold fmt_u.
  destruct (parse_digits_written 19 n EmptyString ltac:(change (10 ^ Z.of_nat 20) with
              100000000000000000000; change (2 ^ 64) with 18446744073709551616 in Hn; lia))
    as (k & d & rest & Hfirst & Hd & Hzero & Hparse).
  destruct (decimal_digit d Hd) as (_ & Hspace & Hminus & Hplus & Hnot0).
  assert (exists len, strto (digits_aux 10 20 n EmptyString) = Some (n, len))
    as [len Hstrto].
  { destruct (Z.eq_dec d 0) as [->|Hne].
    - destruct (Hzero eq_refl) as [-> _]. by exists 1%nat.
    - exists (S k). unfold strto. rewrite Hfirst. cbn [count_leading_space].
      rewrite Hspace. cbn [string_drop]. rewrite Hminus, Hplus. cbn [string_drop fst snd].
      cbn [starts_with]. rewrite (Hnot0 Hne). cbn [orb andb Nat.ltb Nat.leb snd fst].
      rewrite <- Hfirst, Hparse. cbn [parse_digits Nat.eqb Nat.add].
      by rewrite Z.mul_0_l, Z.add_0_l. }
  unfold stoul. rewrite Hstrto. replace (2 ^ 64 <=? Z.abs n) with false by lia.
  unfold u64. by rewrite Z.mod_small.
Qed.

(** White space before the number is skipped. *)
Lemma stoul_leading_space (s : string) : stoul (String " " s) = stoul s.
Proof.
  unfold stoul, strto. cbn [count_leading_space].
  change (is_space " ") with true. cbv iota. cbn [string_drop].
  destruct (string_drop (count_leading_space s) s) as [|c s1];
    repeat match goal with
           | |- context [if ?b then _ else _] => destruct b
           | |- context [let '(_, _) := ?x in _] => destruct x
           end; done.
Qed.

Section NumberDirectives.
Context `{External}.

(** X19: the assembler reads back the numbers that the disassembler
    writes in its directives: the line [.quest_num] followed by the
    decimal text of a number below 2^63 sets the quest number to that
    number, and the lines [.language] and [.max_players] followed by the
    decimal text of a number below 256 set the language and the number of
    players to that number; nothing else of the metadata changes. *)
Theorem number_directives_read_back (m : QuestMeta) (n : Z) :
  0 <= n < 2 ^ 63 ->
  meta_directive m (".quest_num " +:+ fmt_u n)
  = Ok (mkQuestMeta (quest_version m) (quest_name m) (quest_short_desc m)
          (quest_long_desc m) n (quest_language m) (quest_episode m)
          (quest_max_players m) (quest_joinable m)) /\
  (n < 0x100 ->
   meta_directive m (".language " +:+ fmt_u n)
   = Ok (mkQuestMeta (quest_version m) (quest_name m) (quest_short_desc m)
           (quest_long_desc m) (quest_num m) n (quest_episode m)
           (quest_max_players m) (quest_joinable m)) /\
   meta_directive m (".max_players " +:+ fmt_u n)
   = Ok (mkQuestMeta (quest_version m) (quest_name m) (quest_short_desc m)
           (quest_long_desc m) (quest_num m) (quest_language m) (quest_episode m)
           n (quest_joinable m))).
Proof.
  intros Hn.
  assert (stoul (fmt_u n) = Ok n) as Hread
    by (apply stoul_fmt_u; lia).
  assert (Hs64 : s64 n = n).
  { unfold s64. rewrite Z.mod_small by lia. lia. }
  split; [|intros Hbyte; assert (Hu8 : u8 n = n) by (unfold u8; apply Z.mod_small; lia);
           split].
  - unfold meta_directive. cbv [String.append].
    cbn [is_empty first_char_is starts_with Ascii.eqb Bool.eqb andb negb substr_from
         string_drop].
    rewrite starts_with_empty. cbn [rbind]. rewrite Hread. cbn [rbind]. by rewrite Hs64.
  - unfold meta_directive. cbv [String.append].
    cbn [is_empty first_char_is starts_with Ascii.eqb Bool.eqb andb negb substr_from
         string_drop].
    rewrite starts_with_empty. cbn [rbind]. rewrite Hread. cbn [rbind]. by rewrite Hu8.
  - unfold meta_directive. cbv [String.append].
    cbn [is_empty first_char_is starts_with Ascii.eqb Bool.eqb andb negb substr_from
         string_drop].
    rewrite starts_with_empty. cbn [rbind]. rewrite stoul_leading_space, Hread.
    cbn [rbind]. by rewrite Hu8.
Qed.
End NumberDirectives.

(** X19 for the number 7. *)
Lemma number_directives_read_back_witness :
  meta_directive (H := Sample.external) initial_meta (".quest_num " +:+ fmt_u 7)
  = Ok (mkQuestMeta UNKNOWN EmptyString EmptyString EmptyString 7 1 Episode.EP1 4 false) /\
  (7 < 0x100 ->
   meta_directive (H := Sample.external) initial_meta (".language " +:+ fmt_u 7)
   = Ok (mkQuestMeta UNKNOWN EmptyString EmptyString EmptyString (-1) 7 Episode.EP1 4 false) /\
   meta_directive (H := Sample.external) initial_meta (".max_players " +:+ fmt_u 7)
   = Ok (mkQuestMeta UNKNOWN EmptyString EmptyString EmptyString (-1) 1 Episode.EP1 7 false)).
Proof.
  apply (number_directives_read_back (H := Sample.external) initial_meta 7). lia.
Defined.

(** ** The registers of an assembled program *)

(** *** The allocator gives no register an offset *)

#[export] Instance no_new_offsets_preorder : PreOrder no_new_offsets.
Proof.
  split.
  - intros st id r off Hr Hoff. by exists r.
  - intros st1 st2 st3 H12 H23 id r3 off Hr Hoff.
    destruct (H23 _ _ _ Hr Hoff) as (r2 & Hr2 & Hoff2). exact (H12 _ _ _ Hr2 Hoff2).
Qed.

Lemma no_new_offsets_store (st st' : RegisterAssigner) :
  ra_store st' = ra_store st -> no_new_offsets st st'.
Proof. intros Heq id r off Hr Hoff. rewrite Heq in Hr. by exists r. Qed.

Lemma no_new_offsets_update_reg (reg : RegId) (f : Register -> Register) :
  (forall r, reg_offsets (f r) = reg_offsets r) ->
  respects no_new_offsets (update_reg reg f).
Proof.
  intros Hf. apply respects_modify. intros st id r' off Hr Hoff. cbn [ra_store] in Hr.
  unfold RegId in *. destruct (decide (id = reg)) as [->|Hne].
  - rewrite list_lookup_alter_eq in Hr. destruct (ra_store st !! reg) as [r|] eqn:E; [|done].
    injection Hr as <-. exists r. by rewrite Hf in Hoff.
  - rewrite list_lookup_alter_ne in Hr by done. by exists r'.
Qed.

Lemma no_new_offsets_make_register : respects no_new_offsets make_register.
Proof.
  intros st res st'. unfold make_register. intros [= <- <-] id r' off Hr Hoff.
  cbn [ra_store] in Hr. apply lookup_app_Some in Hr as [Hr|[_ Hr]]; [by exists r'|].
  apply list_lookup_singleton_Some in Hr as [_ <-]. by apply elem_of_nil in Hoff.
Qed.

Lemma no_new_offsets_numbered_at (number : Z) : respects no_new_offsets (numbered_at number).
Proof.
  intros st res st'. unfold numbered_at. destruct (if _ <? _ then _ else _);
    intros [= <- <-]; reflexivity.
Qed.

Lemma no_new_offsets_numbered_set (number : Z) (reg : RegId) :
  respects no_new_offsets (numbered_set number reg).
Proof. apply respects_modify. intros st. by apply no_new_offsets_store. Qed.

Lemma no_new_offsets_named_emplace (name : string) (reg : RegId) :
  respects no_new_offsets (named_emplace name reg).
Proof.
  intros st res st'. unfold named_emplace. destruct (omap_emplace _ _ _ _) as [m inserted].
  intros [= <- <-]. by apply no_new_offsets_store.
Qed.

Lemma no_new_offsets_deref (reg : RegId) : respects no_new_offsets (deref reg).
Proof. apply (respects_gets no_new_offsets). Qed.

Create HintDb offsets discriminated.
#[export] Hint Resolve no_new_offsets_make_register no_new_offsets_numbered_at
  no_new_offsets_numbered_set no_new_offsets_named_emplace no_new_offsets_deref : offsets.
#[export] Hint Extern 1 (respects no_new_offsets (update_reg _ _)) =>
  apply no_new_offsets_update_reg; intros ?; reflexivity : offsets.

Ltac offsets_framed :=
  repeat first
    [ apply (respects_ret no_new_offsets)
    | apply (respects_throw no_new_offsets)
    | apply (respects_lift no_new_offsets)
    | apply (respects_gets no_new_offsets)
    | solve [auto with offsets]
    | apply (respects_bind no_new_offsets); [|intros ?]
    | match goal with
      | |- respects _ (match ?x with _ => _ end) => destruct x
      end ].

Lemma no_new_offsets_get_or_create (name : string) (number : Z) :
  respects no_new_offsets (get_or_create name number).
Proof. unfold get_or_create. offsets_framed. Qed.

Lemma no_new_offsets_constrain (first_reg second_reg : RegId) :
  respects no_new_offsets (constrain first_reg second_reg).
Proof. unfold constrain. offsets_framed. Qed.

Lemma offsets_owned_no_new (st st' : RegisterAssigner) (size size' : nat) :
  no_new_offsets st st' -> (size <= size')%nat ->
  offsets_owned st size -> offsets_owned st' size'.
Proof.
  intros Hnew Hsize Hown id r' off Hr Hoff.
  destruct (Hnew _ _ _ Hr Hoff) as (r & Hr0 & Hoff0).
  destruct (Hown _ _ _ Hr0 Hoff0) as [Hrange Hone]. split; [lia|].
  intros id2 r2 Hr2 Hoff2. destruct (Hnew _ _ _ Hr2 Hoff2) as (r20 & Hr20 & Hoff20).
  exact (Hone _ _ Hr20 Hoff20).
Qed.

(** *** [constrain] keeps the allocator consistent *)

Lemma constrain_keeps (first_reg second_reg : RegId) (st st' : RegisterAssigner) :
  ra_ok st -> constrain first_reg second_reg st = (Ok tt, st') ->
  ra_ok st' /\ ra_extends st st'.
Proof.
  intros Hok H. unfold constrain in H.
  apply bind_Ok_inv in H as (f & s0 & Hf & H). injection Hf as <- <-.
  apply bind_Ok_inv in H as (s & s0 & Hs & H). injection Hs as <- <-.
  apply bind_Ok_inv in H as ([] & st1 & Hnext & H).
  apply bind_Ok_inv in H as (s1 & s0 & Hs & H). injection Hs as <- <-.
  apply bind_Ok_inv in H as ([] & st2 & Hprev & H).
  apply bind_Ok_inv in H as (f2 & s0 & Hf & H). injection Hf as <- <-.
  apply bind_Ok_inv in H as (s2 & s0 & Hs & H). injection Hs as <- <-.
  assert (ra_ok st1 /\ ra_extends st st1) as [Hok1 Hext1].
  { destruct (reg_next (reg_at st first_reg)) as [n|] eqn:Hn.
    - destruct (negb (n =? second_reg)%nat); [done|]. injection Hnext as <-.
      split; [done|apply ra_extends_refl].
    - injection Hnext as <-. split; [by apply ra_ok_update_reg|].
      apply ra_extends_alter. intros r Hr. rewrite (reg_at_lookup _ _ _ Hr) in Hn.
      split; cbn; try done. by rewrite Hn. }
  assert (ra_ok st2 /\ ra_extends st1 st2) as [Hok2 Hext2].
  { destruct (reg_prev (reg_at st1 second_reg)) as [p|] eqn:Hp.
    - destruct (negb (p =? first_reg)%nat); [done|]. injection Hprev as <-.
      split; [done|apply ra_extends_refl].
    - injection Hprev as <-. split; [by apply ra_ok_update_reg|].
      apply ra_extends_alter. intros r Hr. rewrite (reg_at_lookup _ _ _ Hr) in Hp.
      split; cbn; try done. by rewrite Hp. }
  destruct (_ && _); [done|]. injection H as <-.
  split; [done|]. by eapply ra_extends_trans.
Qed.

(** *** What a computation does when it returns *)

Section ReturnsKeep.
Context {S : Type} (R : S -> S -> Prop) `{!PreOrder R}.

Lemma returns_keep_ret {A : Type} (a : A) : returns_keep R (ret a : M S A).
Proof. intros s r s' [= <- <-]. reflexivity. Qed.

Lemma returns_keep_throw {A : Type} (e : exception) : returns_keep R (throw e : M S A).
Proof. by intros s r s'. Qed.

Lemma returns_keep_lift {A : Type} (x : result A) : returns_keep R (lift x : M S A).
Proof. intros s r s' [= _ <-]. reflexivity. Qed.

Lemma returns_keep_gets {A : Type} (f : S -> A) : returns_keep R (gets f).
Proof. intros s r s' [= <- <-]. reflexivity. Qed.

Lemma returns_keep_modify (f : S -> S) : (forall s, R s (f s)) -> returns_keep R (modify f).
Proof. intros Hf s r s' [= _ <-]. apply Hf. Qed.

Lemma returns_keep_bind {A B : Type} (m : M S A) (k : A -> M S B) :
  returns_keep R m -> (forall a, returns_keep R (k a)) -> returns_keep R (bind m k).
Proof.
  intros Hm Hk s b s' H. apply bind_Ok_inv in H as (a & s1 & Hm1 & Hk1).
  transitivity s1; [exact (Hm _ _ _ Hm1) | exact (Hk a _ _ _ Hk1)].
Qed.

Lemma returns_keep_for_each {A : Type} (f : A -> M S unit) (l : list A) :
  (forall a, returns_keep R (f a)) -> returns_keep R (for_each f l).
Proof.
  intros Hf. induction l as [|a l IH]; simpl.
  - apply returns_keep_ret.
  - apply returns_keep_bind; [apply Hf | intros _; exact IH].
Qed.
End ReturnsKeep.

(** *** What the assembler does to the allocator while it emits code *)

#[export] Instance asm_regs_preorder : PreOrder asm_regs.
Proof.
  split.
  - intros s. split; [|done]. intros Hok. split; [done|apply ra_extends_refl].
  - intros s1 s2 s3 [Hok12 Hoff12] [Hok23 Hoff23]. split.
    + intros Hok1. destruct (Hok12 Hok1) as [Hok2 Hext12].
      destruct (Hok23 Hok2) as [Hok3 Hext23]. split; [done|]. by eapply ra_extends_trans.
    + intros Hown. by apply Hoff23, Hoff12.
Qed.

Lemma asm_regs_same (s s' : Asm) :
  reg_assigner s' = reg_assigner s -> (length (code_w s) <= length (code_w s'))%nat ->
  asm_regs s s'.
Proof.
  intros Heq Hsize. split; rewrite Heq.
  - intros Hok. split; [done|apply ra_extends_refl].
  - apply offsets_owned_no_new; [reflexivity|done].
Qed.

Lemma returns_keep_emit (f : list Z -> list Z) :
  (forall w, (length w <= length (f w))%nat) -> returns_keep asm_regs (emit f).
Proof.
  intros Hf. apply returns_keep_modify. intros s. apply asm_regs_same; [done|apply Hf].
Qed.

Lemma returns_keep_with_regs {A : Type} (m : M RegisterAssigner A) :
  respects no_new_offsets m ->
  (forall st a st', ra_ok st -> m st = (Ok a, st') -> ra_ok st' /\ ra_extends st st') ->
  returns_keep asm_regs (with_regs m).
Proof.
  intros Hnew Hkeep s a s'. unfold with_regs.
  destruct (m (reg_assigner s)) as [r ra] eqn:E. intros [= -> <-].
  split; cbn [reg_assigner code_w].
  - intros Hok. exact (Hkeep _ _ _ Hok E).
  - apply offsets_owned_no_new; [exact (Hnew _ _ _ E)|done].
Qed.

Lemma returns_keep_get_or_create (name : string) (number : Z) :
  returns_keep asm_regs (with_regs (get_or_create name number)).
Proof.
  apply returns_keep_with_regs; [apply no_new_offsets_get_or_create|].
  intros st reg st' Hok H. destruct (get_or_create_ok _ _ _ _ _ Hok H) as (Hok' & Hext & _).
  by split.
Qed.

Lemma returns_keep_constrain (first_reg second_reg : RegId) :
  returns_keep asm_regs (with_regs (constrain first_reg second_reg)).
Proof.
  apply returns_keep_with_regs; [apply no_new_offsets_constrain|].
  intros st [] st' Hok H. by eapply constrain_keeps.
Qed.

Lemma returns_keep_in_arg `{External} {A : Type} (z : nat) (m : M Asm A) :
  returns_keep asm_regs m -> returns_keep asm_regs (in_arg z m).
Proof.
  intros Hm s a s'. unfold in_arg. destruct (m s) as [[a'|e] s1] eqn:E; [|done].
  intros [= <- <-]. exact (Hm _ _ _ E).
Qed.

(** A register gets the offset of the byte that is written next. *)
Lemma returns_keep_note_offset (reg : RegId) (k : M Asm unit) :
  (forall s a s', k s = (Ok a, s') ->
     reg_assigner s' = reg_assigner s /\ (length (code_w s) < length (code_w s'))%nat) ->
  returns_keep asm_regs (note_offset reg ;;; k).
Proof.
  intros Hk s a s' H. apply bind_Ok_inv in H as ([] & s1 & Hnote & Hk1).
  cbv [note_offset code_size bind gets with_regs update_reg modify] in Hnote.
  injection Hnote as <-. destruct (Hk _ _ _ Hk1) as [Hregs Hsize].
  cbn [reg_assigner code_w] in Hregs, Hsize. split; rewrite Hregs.
  - intros Hok. split.
    + by apply ra_ok_update_reg.
    + apply ra_extends_alter. intros r Hr. split; cbn; try done.
      intros off Hoff. case_bool_decide; [done|]. apply elem_of_app. by left.
  - intros Hown.
    assert (forall id r' off,
              alter (add_offset (Z.of_nat (length (code_w s)))) reg
                (ra_store (reg_assigner s)) !! id = Some r' ->
              off ∈ reg_offsets r' ->
              (exists r, ra_store (reg_assigner s) !! id = Some r /\ off ∈ reg_offsets r) \/
              (id = reg /\ off = Z.of_nat (length (code_w s)))) as Hcases.
    { intros id r' off Hr Hoff. unfold RegId in *.
      destruct (decide (id = reg)) as [->|Hne].
      - rewrite list_lookup_alter_eq in Hr.
        destruct (ra_store (reg_assigner s) !! reg) as [r|] eqn:E; [|done].
        injection Hr as <-. cbn [add_offset reg_offsets] in Hoff.
        case_bool_decide; [left; by exists r|].
        apply elem_of_app in Hoff as [Hoff|Hoff]; [left; by exists r|].
        apply list_elem_of_singleton in Hoff. by right.
      - rewrite list_lookup_alter_ne in Hr by done. left. by exists r'. }
    intros id r' off Hr Hoff. cbn [ra_store] in Hr.
    destruct (Hcases _ _ _ Hr Hoff) as [(r & Hr0 & Hoff0)|[-> ->]].
    + destruct (Hown _ _ _ Hr0 Hoff0) as [Hrange Hone]. split; [lia|].
      intros id2 r2 Hr2 Hoff2. cbn [ra_store] in Hr2.
      destruct (Hcases _ _ _ Hr2 Hoff2) as [(r20 & Hr20 & Hoff20)|[-> ->]].
      * exact (Hone _ _ Hr20 Hoff20).
      * lia.
    + split; [lia|]. intros id2 r2 Hr2 Hoff2. cbn [ra_store] in Hr2.
      destruct (Hcases _ _ _ Hr2 Hoff2) as [(r20 & Hr20 & Hoff20)|[-> _]]; [|done].
      destruct (Hown _ _ _ Hr20 Hoff20) as [Hrange _]. lia.
Qed.

Create HintDb regs discriminated.
#[export] Hint Resolve returns_keep_get_or_create returns_keep_constrain : regs.

(** The byte of a register is written. *)
Ltac noted :=
  let s := fresh "s" in let a := fresh "a" in let s' := fresh "s'" in
  let H := fresh "H" in
  intros s a s' H; cbv [bind reg_number_of gets emit modify] in H;
  injection H as _ <-; cbn [reg_assigner code_w]; split; [done|];
  cbv [put_u8 put_u32l]; rewrite ?length_app; simpl length; lia.

Ltac regs_framed :=
  repeat first
    [ apply (returns_keep_ret asm_regs)
    | apply (returns_keep_throw asm_regs)
    | apply (returns_keep_lift asm_regs)
    | apply (returns_keep_gets asm_regs)
    | apply returns_keep_emit; emitted
    | apply returns_keep_in_arg
    | apply returns_keep_note_offset; noted
    | solve [auto with regs]
    | apply (returns_keep_bind asm_regs); [|intros ?]
    | apply (returns_keep_for_each asm_regs); intros ?
    | match goal with
      | |- returns_keep _ (match ?x with _ => _ end) => destruct x
      end ].

Lemma returns_keep_find_label (name : string) : returns_keep asm_regs (find_label name).
Proof. unfold find_label. regs_framed. Qed.
#[export] Hint Resolve returns_keep_find_label : regs.

Lemma returns_keep_reg_number_of (reg : RegId) :
  returns_keep asm_regs (reg_number_of reg).
Proof. unfold reg_number_of. regs_framed. Qed.
#[export] Hint Resolve returns_keep_reg_number_of : regs.

Lemma returns_keep_parse_reg (arg : string) (allow_unnumbered : bool) :
  returns_keep asm_regs (parse_reg arg allow_unnumbered).
Proof. unfold parse_reg. regs_framed. Qed.
#[export] Hint Resolve returns_keep_parse_reg : regs.

Lemma returns_keep_extend_regs (n : nat) (regs : list RegId) :
  returns_keep asm_regs (extend_regs n regs).
Proof. revert regs. induction n as [|n IH]; intros regs; simpl; regs_framed. Qed.
#[export] Hint Resolve returns_keep_extend_regs : regs.

Lemma returns_keep_parse_reg_tuple (tokens : list string) (regs : list RegId) :
  returns_keep asm_regs (parse_reg_tuple tokens regs).
Proof.
  revert regs. induction tokens as [|token tokens IH]; intros regs; simpl; regs_framed.
Qed.
#[export] Hint Resolve returns_keep_parse_reg_tuple : regs.

Lemma returns_keep_parse_reg_set_fixed (name : string) (expected_count : nat) :
  returns_keep asm_regs (parse_reg_set_fixed name expected_count).
Proof. unfold parse_reg_set_fixed. regs_framed. Qed.
#[export] Hint Resolve returns_keep_parse_reg_set_fixed : regs.

Lemma returns_keep_write (s : string) : returns_keep asm_regs (write s).
Proof. unfold write. regs_framed. Qed.
#[export] Hint Resolve returns_keep_write : regs.

Section AssemblerRegisters.
Context `{External}.
Variable meta : QuestMeta.
Variable opcodes : gmap string QuestScriptOpcodeDefinition.

Lemma returns_keep_add_cstr (text : string) (bin : bool) :
  returns_keep asm_regs (add_cstr meta text bin).
Proof. unfold add_cstr. regs_framed. Qed.
Hint Resolve returns_keep_add_cstr : regs.

Lemma returns_keep_add_cstr_arg (arg : string) :
  returns_keep asm_regs (add_cstr_arg meta arg).
Proof. unfold add_cstr_arg. regs_framed. Qed.
Hint Resolve returns_keep_add_cstr_arg : regs.

Lemma returns_keep_asm_push_arg (arg_def : Argument) (arg : string) :
  returns_keep asm_regs (asm_push_arg meta arg_def arg).
Proof. unfold asm_push_arg. regs_framed. Qed.
Hint Resolve returns_keep_asm_push_arg : regs.

Lemma returns_keep_add_label (name : string) (is32 : bool) :
  returns_keep asm_regs (add_label name is32).
Proof. unfold add_label. regs_framed. Qed.
Hint Resolve returns_keep_add_label : regs.

Lemma returns_keep_add_reg (reg : RegId) (is32 : bool) :
  returns_keep asm_regs (add_reg reg is32).
Proof. unfold add_reg. destruct is32; regs_framed. Qed.
Hint Resolve returns_keep_add_reg : regs.

Lemma returns_keep_asm_direct_arg (arg_def : Argument) (arg : string) :
  returns_keep asm_regs (asm_direct_arg meta arg_def arg).
Proof. unfold asm_direct_arg. regs_framed. Qed.
Hint Resolve returns_keep_asm_direct_arg : regs.

Lemma returns_keep_asm_args (use_args : bool) (z : nat) (arg_defs : list Argument)
    (arg_texts : list string) :
  returns_keep asm_regs (asm_args meta use_args z arg_defs arg_texts).
Proof.
  revert z arg_texts. induction arg_defs as [|arg_def arg_defs IH]; intros z arg_texts;
    simpl; [regs_framed|].
  destruct arg_texts as [|arg arg_texts]; regs_framed.
Qed.
Hint Resolve returns_keep_asm_args : regs.

Lemma returns_keep_emit_opcode (opcode_def : QuestScriptOpcodeDefinition) :
  returns_keep asm_regs (emit_opcode opcode_def).
Proof. unfold emit_opcode. regs_framed. Qed.
Hint Resolve returns_keep_emit_opcode : regs.

Lemma returns_keep_asm_instruction (line_num : nat) (line : string) :
  returns_keep asm_regs (asm_instruction meta opcodes line_num line).
Proof. unfold asm_instruction. regs_framed. Qed.
End AssemblerRegisters.

Lemma in_line_asm_regs (line_num : nat) (m : M Asm unit) (s s' : Asm) :
  returns_keep asm_regs m -> in_line line_num (m s) = Returns s' -> asm_regs s s'.
Proof.
  intros Hm. unfold in_line. destruct (m s) as [[[]|e] s1] eqn:E; [|done].
  intros [= <-]. exact (Hm _ _ _ E).
Qed.

Lemma asm_line_regs `{External} (include_directory : string) (meta : QuestMeta)
    (opcodes : gmap string QuestScriptOpcodeDefinition) (line_num : nat) (line : string)
    (s s' : Asm) :
  asm_line include_directory meta opcodes line_num line s = Returns s' -> asm_regs s s'.
Proof.
  unfold asm_line.
  repeat match goal with
         | |- (if ?b then _ else _) = _ -> _ => destruct b
         | |- match ?x with _ => _ end = _ -> _ => destruct x
         end; try discriminate.
  all: try (intros [= <-]; reflexivity).
  all: try (apply in_line_asm_regs; regs_framed).
  - intros [= <-]. by apply asm_regs_same.
  - intros [= <-]. apply asm_regs_same; [done|]. simpl. rewrite length_app. lia.
  - apply returns_keep_asm_instruction.
Qed.

Lemma asm_lines_regs `{External} (include_directory : string) (meta : QuestMeta)
    (opcodes : gmap string QuestScriptOpcodeDefinition) (lines : list string)
    (line_num : nat) (s s' : Asm) :
  asm_lines include_directory meta opcodes line_num lines s = Returns s' -> asm_regs s s'.
Proof.
  revert line_num s. induction lines as [|line lines IH]; intros line_num s; simpl.
  - intros [= <-]. reflexivity.
  - destruct (asm_line _ _ _ _ _ s) as [s1| | |] eqn:Hline; try discriminate.
    cbn [run_bind]. intros Hrest. transitivity s1.
    + by eapply asm_line_regs.
    + by eapply IH.
Qed.

(** *** The bytes of the registers in the code *)

Lemma offsets_owned_new (size : nat) : offsets_owned new_RegisterAssigner size.
Proof. by intros id r off Hr. Qed.

Lemma no_new_offsets_numbers_given (st st' : RegisterAssigner) :
  numbers_given st st' -> no_new_offsets st st'.
Proof.
  intros (_ & Hlen & Hgiven) id r' off Hr Hoff.
  assert (id < length (ra_store st))%nat as Hid.
  { rewrite <- Hlen. by eapply lookup_lt_Some. }
  destruct (lookup_lt_is_Some_2 _ _ Hid) as [r Hr0]. exists r. split; [done|].
  destruct (Hgiven _ _ Hr0) as (r'' & Hr'' & Heq & _).
  rewrite Hr in Hr''. injection Hr'' as <-. by rewrite Heq in Hoff.
Qed.

(** The inner loop [for (size_t offset : reg->offsets)]. *)
Lemma patch_offsets_spec (v : Z) (offsets : list Z) (code : list Z) :
  (forall off, off ∈ offsets -> 0 <= off < Z.of_nat (length code)) ->
  length (fold_left (fun code offset => pput_u8 offset v code) offsets code) = length code /\
  (forall off, off ∈ offsets ->
     fold_left (fun code offset => pput_u8 offset v code) offsets code !! Z.to_nat off
     = Some (u8 v)) /\
  (forall i, Z.of_nat i ∉ offsets ->
     fold_left (fun code offset => pput_u8 offset v code) offsets code !! i = code !! i).
Proof.
  revert code. induction offsets as [|off offsets IH]; intros code Hrange; cbn [fold_left].
  { split; [done|]. split; [|done]. intros off Hoff. by apply elem_of_nil in Hoff. }
  assert (0 <= off < Z.of_nat (length code)) as Hoff0 by (apply Hrange; by left).
  destruct (IH (pput_u8 off v code)) as (Hlen & Hin & Hout).
  { intros off' Hoff'. unfold pput_u8. rewrite length_insert. apply Hrange. by right. }
  assert (length (pput_u8 off v code) = length code) as Hput
    by (unfold pput_u8; apply length_insert).
  rewrite Hput in Hlen. split; [done|]. split.
  - intros off' Hoff'. destruct (decide (off' ∈ offsets)) as [Hthere|Hnot]; [by apply Hin|].
    apply elem_of_cons in Hoff' as [->|Hoff']; [|done].
    rewrite Hout by (by rewrite Z2Nat.id by lia).
    unfold pput_u8. apply list_lookup_insert_eq. lia.
  - intros i Hi. apply not_elem_of_cons in Hi as [Hne Hi]. rewrite Hout by done.
    unfold pput_u8. apply list_lookup_insert_ne. lia.
Qed.

(** The outer loop [for (size_t z = 0; z < 0x100; z++)]. *)
Lemma patch_slots_spec (st : RegisterAssigner) (slots : list (option RegId))
    (code : list Z) :
  offsets_owned st (length code) ->
  (forall id, Some id ∈ slots -> exists r, ra_store st !! id = Some r) ->
  length (fold_left (patch_register st) slots code) = length code /\
  (forall id r off, Some id ∈ slots -> ra_store st !! id = Some r -> off ∈ reg_offsets r ->
     fold_left (patch_register st) slots code !! Z.to_nat off = Some (u8 (reg_number r))) /\
  (forall i,
     (forall id r, Some id ∈ slots -> ra_store st !! id = Some r ->
        Z.of_nat i ∉ reg_offsets r) ->
     fold_left (patch_register st) slots code !! i = code !! i).
Proof.
  intros Hown. induction slots as [|slot slots IH] using rev_ind; intros Hvalid.
  { cbn [fold_left]. split; [done|]. split; [|done].
    intros id r off Hin. by apply elem_of_nil in Hin. }
  destruct IH as (Hlen & Hin & Hout).
  { intros id Hid. apply Hvalid, elem_of_app. by left. }
  rewrite fold_left_app. cbn [fold_left]. destruct slot as [id0|]; cbn [patch_register].
  - destruct (Hvalid id0) as [r0 Hr0].
    { apply elem_of_app. right. by apply list_elem_of_singleton. }
    rewrite (reg_at_lookup _ _ _ Hr0).
    destruct (patch_offsets_spec (reg_number r0) (reg_offsets r0)
                (fold_left (patch_register st) slots code)) as (Hlen' & Hin' & Hout').
    { intros off Hoff. rewrite Hlen. by apply (Hown _ _ _ Hr0 Hoff). }
    split; [congruence|]. split.
    + intros id r off Hid Hr Hoff. unfold RegId in *.
      destruct (decide (id = id0)) as [->|Hne].
      * rewrite Hr0 in Hr. injection Hr as <-. by apply Hin'.
      * apply elem_of_app in Hid as [Hid|Hid];
          [|apply list_elem_of_singleton in Hid; congruence].
        destruct (Hown _ _ _ Hr Hoff) as [Hrange Hone].
        rewrite Hout'; [by eapply Hin|]. rewrite Z2Nat.id by lia.
        intros Hoff0. by specialize (Hone _ _ Hr0 Hoff0).
    + intros i Hi. rewrite Hout'.
      * apply Hout. intros id r Hid. apply Hi, elem_of_app. by left.
      * apply (Hi id0); [|done]. apply elem_of_app. right. by apply list_elem_of_singleton.
  - split; [done|]. split.
    + intros id r off Hid. apply elem_of_app in Hid as [Hid|Hid]; [by apply Hin|].
      by apply list_elem_of_singleton in Hid.
    + intros i Hi. apply Hout. intros id r Hid. apply Hi, elem_of_app. by left.
Qed.

Lemma patch_registers_spec (st : RegisterAssigner) (code : list Z) :
  ra_ok st -> offsets_owned st (length code) ->
  length (patch_registers st code) = length code /\
  (forall id r off, ra_store st !! id = Some r -> 0 <= reg_number r -> off ∈ reg_offsets r ->
     patch_registers st code !! Z.to_nat off = Some (reg_number r)) /\
  (forall i,
     (forall id r, ra_store st !! id = Some r -> 0 <= reg_number r ->
        Z.of_nat i ∉ reg_offsets r) ->
     patch_registers st code !! i = code !! i).
Proof.
  intros Hok Hown. unfold patch_registers.
  assert (forall id, Some id ∈ numbered_regs st ->
            exists r, ra_store st !! id = Some r /\ 0 <= reg_number r) as Hslots.
  { intros id Hid. apply list_elem_of_lookup in Hid as [n Hn].
    destruct (ra_slot_number _ Hok _ _ Hn) as (r & Hr & Hnumber). exists r. split; [done|lia]. }
  destruct (patch_slots_spec st (numbered_regs st) code Hown) as (Hlen & Hin & Hout).
  { intros id Hid. destruct (Hslots _ Hid) as (r & Hr & _). by exists r. }
  split; [done|]. split.
  - intros id r off Hr Hpos Hoff. pose proof (ra_number_slot _ Hok _ _ Hr) as [Hrange Hslot].
    rewrite (Hin id r off); [|by eapply list_elem_of_lookup_2, Hslot|done..].
    unfold u8. by rewrite Z.mod_small by lia.
  - intros i Hi. apply Hout. intros id r Hid Hr.
    destruct (Hslots _ Hid) as (r' & Hr' & Hpos). unfold RegId in *.
    rewrite Hr in Hr'. injection Hr' as <-. by apply (Hi id).
Qed.

Section RegistersPatched.
Context `{External}.
Variable include_directory : string.
Variable meta : QuestMeta.
Variable opcodes : gmap string QuestScriptOpcodeDefinition.

(** X20: when the lines of a program have been assembled from a consistent
    allocator whose registers have offsets of bytes of the code, each
    offset with one register, the allocator is consistent, no register has
    lost its name, its number, a neighbour or an offset, and every offset
    of a register is the offset of a byte of the code and is an offset of
    no other register. *)
Theorem emission_keeps_registers (lines : list string) (line_num : nat) (s s' : Asm) :
  ra_ok (reg_assigner s) -> offsets_owned (reg_assigner s) (length (code_w s)) ->
  asm_lines include_directory meta opcodes line_num lines s = Returns s' ->
  ra_ok (reg_assigner s') /\ ra_extends (reg_assigner s) (reg_assigner s') /\
  offsets_owned (reg_assigner s') (length (code_w s')).
Proof.
  intros Hok Hown Hlines. destruct (asm_lines_regs _ _ _ _ _ _ _ Hlines) as [Hok' Hown'].
  destruct (Hok' Hok) as [Hok1 Hext]. split; [done|]. split; [done|]. by apply Hown'.
Qed.

(** X21: when the lines of a program have been assembled from a new
    allocator and [assign_all] has returned, every register with a name
    has a number, and patching the padded code keeps its size, puts the
    number of each numbered register at each of the register's offsets,
    and changes no other byte. *)
Theorem registers_patched (lines : list string) (line_num : nat) (t : LabelTable)
    (s : Asm) (st : RegisterAssigner) :
  asm_lines include_directory meta opcodes line_num lines (mkAsm [] t new_RegisterAssigner)
  = Returns s ->
  assign_all (reg_assigner s) = Returns st ->
  (forall id r, ra_store st !! id = Some r -> reg_name r <> EmptyString ->
     0 <= reg_number r) /\
  length (patch_registers st (pad4 (code_w s))) = length (pad4 (code_w s)) /\
  (forall id r off, ra_store st !! id = Some r -> 0 <= reg_number r -> off ∈ reg_offsets r ->
     patch_registers st (pad4 (code_w s)) !! Z.to_nat off = Some (reg_number r)) /\
  (forall i,
     (forall id r, ra_store st !! id = Some r -> 0 <= reg_number r ->
        Z.of_nat i ∉ reg_offsets r) ->
     patch_registers st (pad4 (code_w s)) !! i = pad4 (code_w s) !! i).
Proof.
  intros Hlines Hall. destruct (asm_lines_regs _ _ _ _ _ _ _ Hlines) as [Hok Hown].
  cbn [reg_assigner code_w] in Hok, Hown.
  destruct (Hok ra_ok_new) as [Hok1 _]. specialize (Hown (offsets_owned_new _)).
  unfold assign_all in Hall. fold (unassigned (reg_assigner s)) in Hall.
  destruct (assign_each (unassigned (reg_assigner s)) (reg_assigner s)) as [st1| | |] eqn:Heach;
    cbn [run_bind] in Hall; try done.
  destruct (check_all_named st1); [|done]. destruct (check_numbered st1); [|done].
  injection Hall as <-.
  destruct (assign_each_all_named _ _ Hok1 Heach) as (Hok2 & Hgiven & Hnamed).
  split.
  - intros id r Hr Hname. pose proof (ra_found _ Hok2 _ _ Hr Hname) as Hfound.
    apply omap_find_elem, Hnamed in Hfound. by rewrite (reg_at_lookup _ _ _ Hr) in Hfound.
  - apply patch_registers_spec; [done|].
    eapply offsets_owned_no_new; [by apply no_new_offsets_numbers_given|apply length_pad4|done].
Qed.
End RegistersPatched.

(** X20 on a program that uses three named registers and one numbered
    register. *)
Lemma emission_keeps_registers_witness :
  exists s,
    asm_lines (H := Sample.external) EmptyString dc_v2_meta dc_v2_opcodes 1
      named_register_lines (mkAsm [] named_register_labels new_RegisterAssigner)
    = Returns s /\
    ra_ok (reg_assigner s) /\ ra_extends new_RegisterAssigner (reg_assigner s) /\
    offsets_owned (reg_assigner s) (length (code_w s)).
Proof.
  eexists. split; [vm_compute; reflexivity|].
  apply (emission_keeps_registers (H := Sample.external) EmptyString dc_v2_meta
           dc_v2_opcodes named_register_lines 1
           (mkAsm [] named_register_labels new_RegisterAssigner)).
  - apply ra_ok_new.
  - apply offsets_owned_new.
  - vm_compute. reflexivity.
Defined.

(** X21 on the same program: [r:b] gets the number 9, which is written
    over the byte at offset 3. *)
Lemma registers_patched_witness :
  exists s st,
    asm_lines (H := Sample.external) EmptyString dc_v2_meta dc_v2_opcodes 1
      named_register_lines (mkAsm [] named_register_labels new_RegisterAssigner)
    = Returns s /\
    assign_all (reg_assigner s) = Returns st /\
    (forall id r, ra_store st !! id = Some r -> reg_name r <> EmptyString ->
       0 <= reg_number r) /\
    length (patch_registers st (pad4 (code_w s))) = length (pad4 (code_w s)) /\
    (forall id r off, ra_store st !! id = Some r -> 0 <= reg_number r ->
       off ∈ reg_offsets r ->
       patch_registers st (pad4 (code_w s)) !! Z.to_nat off = Some (reg_number r)) /\
    (forall i,
       (forall id r, ra_store st !! id = Some r -> 0 <= reg_number r ->
          Z.of_nat i ∉ reg_offsets r) ->
       patch_registers st (pad4 (code_w s)) !! i = pad4 (code_w s) !! i).
Proof.
  eexists _, _. split; [vm_compute; reflexivity|]. split; [vm_compute; reflexivity|].
  apply (registers_patched (H := Sample.external) EmptyString dc_v2_meta dc_v2_opcodes
           named_register_lines 1 named_register_labels); vm_compute; reflexivity.
Defined.

(** ** Register operands

    The disassembler writes a register operand as [r] and the decimal
    number of the register. *)

Lemma reg_at_made (st : RegisterAssigner) (named : list (string * RegId))
    (numbered : list (option RegId)) :
  reg_at (mkRegisterAssigner (ra_store st ++ [new_Register]) named numbered)
    (length (ra_store st)) = new_Register.
Proof.
  unfold reg_at. cbn [ra_store]. unfold RegId. rewrite lookup_app_r by lia.
  by rewrite Nat.sub_diag.
Qed.

Lemma get_or_create_number_succeeds (n : Z) (st : RegisterAssigner) :
  ra_ok st -> 0 <= n < 0x100 ->
  exists reg st', get_or_create EmptyString n st = (Ok reg, st').
Proof.
  intros Hok Hn.
  destruct (numbered_regs st !! Z.to_nat n) as [[id|]|] eqn:Hslot.
  - destruct (ra_slot_number _ Hok _ _ Hslot) as (r & Hr & Hnumber).
    exists id, st. apply (get_or_create_existing _ _ _ _ r); try done; lia.
  - unfold get_or_create. replace ((n <? -1) || (0x100 <=? n)) with false by lia.
    cbn [is_empty negb]. replace (0 <=? n) with true by lia.
    cbv [bind gets ret numbered_at make_register deref update_reg modify numbered_set].
    replace (n <? 0) with false by lia. rewrite Hslot.
    cbn [numbered_regs ra_store named_regs]. rewrite reg_at_made.
    cbn [reg_number new_Register Z.ltb Z.compare]. cbv iota.
    cbn [numbered_regs ra_store named_regs]. rewrite Hslot. by eexists _, _.
  - apply lookup_ge_None in Hslot. rewrite (ra_slots _ Hok) in Hslot. lia.
Qed.

Lemma decimal_digit_not_colon (d : Z) : 0 <= d < 10 -> Ascii.eqb (hex_digit d) ":" = false.
Proof.
  intros Hd.
  assert (forallb (fun d => negb (Ascii.eqb (hex_digit d) ":")) (seqZ 0 10) = true) as Hall
    by (vm_compute; reflexivity).
  rewrite forallb_forall in Hall.
  specialize (Hall d ltac:(apply list_elem_of_In, elem_of_seqZ; lia)).
  by apply negb_true_iff.
Qed.

Lemma fmt_u_first (n : Z) :
  0 <= n < 2 ^ 64 ->
  exists d rest, fmt_u n = String (hex_digit d) rest /\ 0 <= d < 10.
Proof.
  intros Hn. unfold fmt_u.
  destruct (parse_digits_written 19 n EmptyString ltac:(change (10 ^ Z.of_nat 20) with
              100000000000000000000; change (2 ^ 64) with 18446744073709551616 in Hn; lia))
    as (k & d & rest & Hfirst & Hd & _).
  by exists d, rest.
Qed.

(** The text [r<n>] is read as the register of number [n]. *)
Lemma parse_reg_numbered (n : Z) (allow_unnumbered : bool) (s : Asm) :
  ra_ok (reg_assigner s) -> 0 <= n < 0x100 ->
  exists reg st,
    parse_reg ("r" +:+ fmt_u n) allow_unnumbered s
    = (Ok reg, mkAsm (code_w s) (labels s) st) /\
    reg_number (reg_at st reg) = n.
Proof.
  intros Hok Hn.
  destruct (fmt_u_first n ltac:(change (2 ^ 64) with 18446744073709551616; lia))
    as (d & rest & Hfirst & Hd).
  destruct (get_or_create_number_succeeds n _ Hok Hn) as (reg & st & Hget).
  exists reg, st. split.
  - unfold parse_reg. cbv [String.append]. rewrite Hfirst.
    cbn [String.length Nat.ltb Nat.leb char_at String.get default from_option Datatypes.id
         is_r_or_f substr_from string_drop].
    change (Ascii.eqb "r" "r") with true. cbn [orb negb].
    rewrite (decimal_digit_not_colon d Hd), <- Hfirst,
      (proj2 (stoull_Ok _ _)
         (stoul_fmt_u n ltac:(change (2 ^ 64) with 18446744073709551616; lia))).
    change (is_r_or_f "r") with true. cbn [negb rbind].
    assert (s64 n = n) as ->.
    { unfold s64. change (2 ^ 63) with 9223372036854775808.
      change (2 ^ 64) with 18446744073709551616. rewrite Z.mod_small by lia. lia. }
    assert (s16 n = n) as Hs16.
    { unfold s16. change (2 ^ 15) with 32768. change (2 ^ 16) with 65536.
      rewrite Z.mod_small by lia. lia. }
    cbv [bind lift]. replace (n <? 0) with false by lia.
    replace (255 <? n) with false by lia. rewrite andb_false_r, Hs16.
    unfold with_regs. by rewrite Hget.
  - destruct (get_or_create_ok _ _ _ _ _ Hok Hget) as (Hok' & _ & _ & _ & Hslot & _).
    destruct (ra_slot_number _ Hok' _ _ (Hslot ltac:(lia))) as (r & Hr & Hnumber).
    rewrite (reg_at_lookup _ _ _ Hr). lia.
Qed.

Lemma reg_number_add_offset (st : RegisterAssigner) (reg reg' : RegId) (off : Z) :
  reg_number (reg_at (mkRegisterAssigner (alter (add_offset off) reg (ra_store st))
                        (named_regs st) (numbered_regs st)) reg')
  = reg_number (reg_at st reg').
Proof.
  unfold reg_at. cbn [ra_store]. unfold RegId in *.
  destruct (decide (reg = reg')) as [->|Hne].
  - rewrite list_lookup_alter_eq. by destruct (ra_store st !! reg').
  - by rewrite list_lookup_alter_ne.
Qed.

Section RegisterOperand.
Context `{External}.
Variable meta : QuestMeta.
Variable params : DasmParams.

(** X22: the assembler reads back the register operand that the
    disassembler writes: when the disassembler has written the text of an
    operand of type [REG], the assembler, from a consistent allocator,
    accepts this text for the operand and adds to the code the byte that
    the disassembler has read, and nothing else; the labels stay and the
    allocator stays consistent. *)
Theorem register_operand_read_back (opcode_start_offset : Z)
    (def : QuestScriptOpcodeDefinition) (arg : Argument) (d d' : Dasm) (text : string)
    (s : Asm) :
  arg_type arg = REG ->
  dasm_direct_arg params opcode_start_offset def arg d = (Ok text, d') ->
  ra_ok (reg_assigner s) ->
  exists st,
    asm_direct_arg meta arg text s
    = (Ok tt, mkAsm (code_w s ++ [byte_at (sr_data (cmd_r d)) (sr_offset (cmd_r d))])
                (labels s) st) /\
    ra_ok st /\ ra_extends (reg_assigner s) st.
Proof.
  intros Htype Hdasm Hok. unfold dasm_direct_arg in Hdasm. rewrite Htype in Hdasm.
  apply bind_Ok_inv in Hdasm as (reg & d1 & Hget & Hrest).
  apply bind_Ok_inv in Hrest as ([] & d2 & _ & Hret). injection Hret as <- _.
  assert (reg = byte_at (sr_data (cmd_r d)) (sr_offset (cmd_r d))) as Hreg.
  { unfold get_u8, get_with, pget_u8 in Hget. cbn [reader Dasm_reader] in Hget.
    destruct (in_range _ _ _); [|done]. by injection Hget as <- _. }
  rewrite <- Hreg. pose proof (byte_at_range (sr_data (cmd_r d)) (sr_offset (cmd_r d))) as Hrange.
  rewrite <- Hreg in Hrange. clear Hreg Hget.
  destruct (parse_reg_numbered reg true s Hok Hrange) as (regid & st & Hparse & Hnumber).
  assert (asm_direct_arg meta arg ("r" +:+ fmt_u reg) s
          = (Ok tt, mkAsm (code_w s ++ [reg]) (labels s)
                      (mkRegisterAssigner
                         (alter (add_offset (Z.of_nat (length (code_w s)))) regid
                            (ra_store st))
                         (named_regs st) (numbered_regs st)))) as Hasm.
  { unfold asm_direct_arg. rewrite Htype, (bind_Ok _ _ _ _ _ Hparse).
    rewrite bool_decide_false by done.
    cbv [add_reg note_offset code_size reg_number_of bind gets with_regs update_reg modify
         emit]. cbn [code_w labels reg_assigner].
    rewrite reg_number_add_offset, Hnumber. unfold put_u8, u8.
    by rewrite Z.mod_small by lia. }
  eexists. split; [exact Hasm|].
  destruct (returns_keep_asm_direct_arg meta arg _ _ _ _ Hasm) as [Hkeep _].
  exact (Hkeep Hok).
Qed.
End RegisterOperand.

(** X22 on the operand [r248], read from the byte F8. *)
Lemma register_operand_read_back_witness :
  exists st,
    asm_direct_arg (H := Sample.external) initial_meta (ArgC REG 0 None) "r248"
      sample_writing
    = (Ok tt, mkAsm (code_w sample_writing
                       ++ [byte_at (sr_data (cmd_r sample_reading))
                             (sr_offset (cmd_r sample_reading))])
                (labels sample_writing) st) /\
    ra_ok st /\ ra_extends (reg_assigner sample_writing) st.
Proof.
  eapply (register_operand_read_back (H := Sample.external) initial_meta
            (mkDasmParams ∅ false false 0 false false) 0 (Def 0 None None [] 0)
            (ArgC REG 0 None) sample_reading _ "r248" sample_writing).
  - reflexivity.
  - vm_compute. reflexivity.
  - apply ra_ok_new.
Defined.

(** ** Integer operands

    The disassembler writes an integer operand as [0x] and hexadecimal
    digits. *)

Lemma hex_digit_value (d : Z) : 0 <= d < 16 -> digit_value (hex_digit d) = Some d.
Proof.
  intros Hd.
  assert (forallb (fun d => match digit_value (hex_digit d) with
                            | Some v => v =? d
                            | None => false
                            end) (seqZ 0 16) = true) as Hall by (vm_compute; reflexivity).
  rewrite forallb_forall in Hall.
  specialize (Hall d ltac:(apply list_elem_of_In, elem_of_seqZ; lia)).
  destruct (digit_value (hex_digit d)) as [v|]; [|done]. by apply Z.eqb_eq in Hall as ->.
Qed.

(** Reading the hexadecimal text of a number. *)
Lemma parse_hex_written (fuel : nat) (v : Z) (acc : string) :
  0 <= v < 16 ^ Z.of_nat (S fuel) ->
  exists k : nat, forall a c,
    parse_digits 16 (digits_aux 16 (S fuel) v acc) a c
    = parse_digits 16 acc (a * 16 ^ Z.of_nat (S k) + v) (c + S k).
Proof.
  revert v acc. induction fuel as [|fuel IH]; intros v acc Hv.
  - change (16 ^ Z.of_nat 1) with 16 in Hv. cbn [digits_aux].
    rewrite Z.mod_small by lia. exists 0%nat. intros a c.
    destruct (v / 16 =? 0); cbn [parse_digits]; rewrite (hex_digit_value v Hv);
      replace (v <? 16) with true by lia; f_equal; lia.
  - cbn [digits_aux]. fold (digits_aux 16 (S fuel)).
    assert (Hdigit : 0 <= v mod 16 < 16) by (apply Z.mod_pos_bound; lia).
    destruct (Z.eqb_spec (v / 16) 0) as [Hsmall|Hbig].
    + assert (v < 16) by (apply Z.div_small_iff in Hsmall; lia).
      rewrite Z.mod_small by lia. exists 0%nat. intros a c. cbn [parse_digits].
      rewrite (hex_digit_value v ltac:(lia)). replace (v <? 16) with true by lia.
      f_equal; lia.
    + assert (Hrest : 0 <= v / 16 < 16 ^ Z.of_nat (S fuel)).
      { split; [apply Z.div_pos; lia|]. apply Z.div_lt_upper_bound; [lia|].
        replace (16 * 16 ^ Z.of_nat (S fuel)) with (16 ^ Z.of_nat (S (S fuel))); [lia|].
        rewrite (Nat2Z.inj_succ (S fuel)), Z.pow_succ_r by lia. done. }
      destruct (IH (v / 16) (String (hex_digit (v mod 16)) acc) Hrest) as [k Hparse].
      exists (S k). intros a c. rewrite Hparse. cbn [parse_digits].
      rewrite (hex_digit_value _ Hdigit). replace (v mod 16 <? 16) with true by lia.
      f_equal; [|lia]. rewrite (Nat2Z.inj_succ (S k)), Z.pow_succ_r by lia.
      pose proof (Z.div_mod v 16 ltac:(lia)). lia.
Qed.

Lemma parse_hex_zeros (n : nat) (rest : string) (c : nat) :
  parse_digits 16 (replicate_string n "0" +:+ rest) 0 c
  = parse_digits 16 rest 0 (c + n).
Proof.
  revert c. induction n as [|n IH]; intros c; cbn [replicate_string].
  - cbv [String.append]. f_equal. lia.
  - change (String "0" (replicate_string n "0") +:+ rest)
      with (String "0" (replicate_string n "0" +:+ rest)).
    cbn [parse_digits]. change (digit_value "0") with (Some 0).
    change (0 <? 16) with true. cbv iota. change (0 * 16 + 0) with 0.
    rewrite IH. f_equal. lia.
Qed.

(** [stol] reads back what [0x%0<width>X] writes. *)
Lemma stol_fmt_X (width : nat) (v : Z) :
  0 <= v < 2 ^ 63 -> stol ("0x" +:+ fmt_X width v) = Ok v.
Proof.
  intros Hv. change (2 ^ 63) with 9223372036854775808 in Hv.
  destruct (parse_hex_written 15 v EmptyString
              ltac:(change (16 ^ Z.of_nat 16) with 18446744073709551616; lia)) as [k Hparse].
  assert (exists len, strto ("0x" +:+ fmt_X width v) = Some (v, len)) as [len Hstrto].
  { change ("0x" +:+ fmt_X width v) with (String "0" (String "x" (fmt_X width v))).
    unfold strto. cbn [count_leading_space]. change (is_space "0") with false. cbv iota.
    cbn [string_drop]. change (Ascii.eqb "0" "-") with false.
    change (Ascii.eqb "0" "+") with false. cbv iota. cbn [string_drop starts_with].
    change (Ascii.eqb "0" "0") with true. change (Ascii.eqb "x" "x") with true.
    cbn [andb]. rewrite !starts_with_empty. cbn [orb]. unfold fmt_X, pad_left.
    rewrite parse_hex_zeros, Hparse. cbn [parse_digits fst snd].
    rewrite Z.mul_0_l, Z.add_0_l.
    destruct (Nat.ltb_spec 0 (0 + (width - String.length (digits_aux 16 16 v "")) + S k))
      as [_|Hlen]; [|lia].
    cbn [Nat.add Nat.eqb]. by eexists. }
  unfold stol. rewrite Hstrto.
  replace ((v <? - 2 ^ 63) || (2 ^ 63 <=? v)) with false; [done|].
  change (2 ^ 63) with 9223372036854775808. lia.
Qed.

Lemma lor_shiftl_add (a b k : Z) :
  0 <= k -> 0 <= a < 2 ^ k -> Z.lor a (Z.shiftl b k) = a + b * 2 ^ k.
Proof.
  intros Hk Ha.
  assert (Z.land a (Z.shiftl b k) = 0) as Hdisjoint.
  { apply Z.bits_inj'. intros n Hn. rewrite Z.land_spec, Z.bits_0.
    destruct (Z.ltb_spec n k) as [Hlt|Hge].
    - by rewrite Z.shiftl_spec_low, andb_false_r.
    - rewrite <- (Z.mod_small a (2 ^ k)) by done.
      by rewrite <- Z.land_ones, Z.land_spec, Z.ones_spec_high, andb_false_r by lia. }
  by rewrite <- Z.lxor_lor, <- Z.add_nocarry_lxor, Z.shiftl_mul_pow2.
Qed.

(** The bytes of a value that was read least significant byte first. *)
Lemma le16_written_back (b0 b1 : Z) :
  0 <= b0 < 256 -> 0 <= b1 < 256 ->
  0 <= b0 .| Z.shiftl b1 8 < 2 ^ 63 /\
  put_u16l (b0 .| Z.shiftl b1 8) [] = [b0; b1].
Proof.
  intros H0 H1. rewrite (lor_shiftl_add b0 b1 8) by (change (2 ^ 8) with 256; lia).
  change (2 ^ 8) with 256. change (2 ^ 63) with 9223372036854775808. split; [lia|].
  unfold put_u16l, u8. cbn [app]. rewrite !Z.shiftr_div_pow2 by lia.
  change (2 ^ 8) with 256. repeat f_equal; Z.div_mod_to_equations; lia.
Qed.

Lemma le32_written_back (b0 b1 b2 b3 : Z) :
  0 <= b0 < 256 -> 0 <= b1 < 256 -> 0 <= b2 < 256 -> 0 <= b3 < 256 ->
  0 <= b0 .| Z.shiftl b1 8 .| Z.shiftl b2 16 .| Z.shiftl b3 24 < 2 ^ 63 /\
  put_u32l (b0 .| Z.shiftl b1 8 .| Z.shiftl b2 16 .| Z.shiftl b3 24) [] = [b0; b1; b2; b3].
Proof.
  intros H0 H1 H2 H3.
  rewrite (lor_shiftl_add b0 b1 8) by (change (2 ^ 8) with 256; lia).
  rewrite (lor_shiftl_add _ b2 16)
    by (change (2 ^ 8) with 256; change (2 ^ 16) with 65536; lia).
  rewrite (lor_shiftl_add _ b3 24)
    by (change (2 ^ 8) with 256; change (2 ^ 16) with 65536;
        change (2 ^ 24) with 16777216; lia).
  change (2 ^ 8) with 256. change (2 ^ 16) with 65536. change (2 ^ 24) with 16777216.
  change (2 ^ 63) with 9223372036854775808. split; [lia|].
  unfold put_u32l, u8. cbn [app]. rewrite !Z.shiftr_div_pow2 by lia.
  change (2 ^ 8) with 256. change (2 ^ 16) with 65536. change (2 ^ 24) with 16777216.
  repeat f_equal; Z.div_mod_to_equations; lia.
Qed.

Section IntegerOperand.
Context `{External}.
Variable meta : QuestMeta.
Variable params : DasmParams.

(** X23: the assembler reads back the integer operand that the
    disassembler writes: when the disassembler has written the text of an
    operand of type [INT8], [INT16] or [INT32], the assembler accepts this
    text for the operand and adds to the code the one, two or four bytes
    that the disassembler has read, and changes nothing else. *)
Theorem integer_operand_read_back (opcode_start_offset : Z)
    (def : QuestScriptOpcodeDefinition) (arg : Argument) (d d' : Dasm) (text : string)
    (s : Asm) :
  dasm_direct_arg params opcode_start_offset def arg d = (Ok text, d') ->
  match arg_type arg with
  | INT8 =>
      asm_direct_arg meta arg text s
      = (Ok tt, mkAsm (code_w s ++ [byte_read d 0]) (labels s) (reg_assigner s))
  | INT16 =>
      asm_direct_arg meta arg text s
      = (Ok tt, mkAsm (code_w s ++ [byte_read d 0; byte_read d 1]) (labels s)
                  (reg_assigner s))
  | INT32 =>
      asm_direct_arg meta arg text s
      = (Ok tt, mkAsm (code_w s ++ [byte_read d 0; byte_read d 1; byte_read d 2;
                                    byte_read d 3]) (labels s) (reg_assigner s))
  | _ => True
  end.
Proof.
  intros Hdasm. unfold dasm_direct_arg in Hdasm. unfold asm_direct_arg, byte_read.
  rewrite Z.add_0_r.
  pose proof (byte_at_range (sr_data (cmd_r d)) (sr_offset (cmd_r d))) as H0.
  pose proof (byte_at_range (sr_data (cmd_r d)) (sr_offset (cmd_r d) + 1)) as H1.
  pose proof (byte_at_range (sr_data (cmd_r d)) (sr_offset (cmd_r d) + 2)) as H2.
  pose proof (byte_at_range (sr_data (cmd_r d)) (sr_offset (cmd_r d) + 3)) as H3.
  destruct (arg_type arg); try done.
  - apply bind_Ok_inv in Hdasm as (v & d1 & Hget & Hrest).
    apply bind_Ok_inv in Hrest as ([] & d2 & _ & Hret). injection Hret as <- _.
    unfold get_u8, get_with, pget_u8 in Hget. cbn [reader Dasm_reader] in Hget.
    destruct (in_range _ _ _); [|done]. injection Hget as <- _.
    rewrite stol_fmt_X by (change (2 ^ 63) with 9223372036854775808; lia).
    cbv [bind lift emit modify]. unfold put_u8, u8. by rewrite Z.mod_small by lia.
  - apply bind_Ok_inv in Hdasm as (v & d1 & Hget & Hrest).
    apply bind_Ok_inv in Hrest as ([] & d2 & _ & Hret). injection Hret as <- _.
    unfold get_u16l, get_with, pget_u16l in Hget. cbn [reader Dasm_reader] in Hget.
    destruct (in_range _ _ _); [|done]. injection Hget as <- _.
    destruct (le16_written_back _ _ H0 H1) as [Hrange Hbytes].
    rewrite stol_fmt_X by done. cbv [bind lift emit modify].
    unfold put_u16l in *. cbn [app] in Hbytes. by injection Hbytes as -> ->.
  - apply bind_Ok_inv in Hdasm as (v & d1 & Hget & Hrest).
    apply bind_Ok_inv in Hrest as ([] & d2 & _ & Hret). injection Hret as <- _.
    unfold get_u32l, get_with, pget_u32l in Hget. cbn [reader Dasm_reader] in Hget.
    destruct (in_range _ _ _); [|done]. injection Hget as <- _.
    destruct (le32_written_back _ _ _ _ H0 H1 H2 H3) as [Hrange Hbytes].
    rewrite stol_fmt_X by done. cbv [bind lift emit modify].
    unfold put_u32l in *. cbn [app] in Hbytes. by injection Hbytes as -> -> -> ->.
Qed.
End IntegerOperand.

(** X23 on the operand [0xBCF8], read from the bytes F8 BC. *)
Lemma integer_operand_read_back_witness :
  asm_direct_arg (H := Sample.external) initial_meta (ArgC INT16 0 None) "0xBCF8"
    sample_writing
  = (Ok tt, mkAsm (code_w sample_writing
                     ++ [byte_read sample_reading 0; byte_read sample_reading 1])
              (labels sample_writing) (reg_assigner sample_writing)).
Proof.
  eapply (integer_operand_read_back (H := Sample.external) initial_meta
           (mkDasmParams ∅ false false 0 false false) 0 (Def 0 None None [] 0)
           (ArgC INT16 0 None) sample_reading _ "0xBCF8" sample_writing).
  vm_compute. reflexivity.
Defined.
(** ** The labels of the label lines *)

(** What the loop that finds the labels adds for a label line. *)
Lemma collect_label_added (line_num : nat) (line : string) (t t' : LabelTable) :
  collect_label line_num line t = Ok t' -> ends_with line ":" = true ->
  asm_labels t' = asm_labels t ++ [mkAsmLabel (label_name line) (label_index line) (-1)].
Proof.
  intros Hcollect Hends. unfold collect_label in Hcollect. rewrite Hends in Hcollect.
  cbn [negb] in Hcollect. cbv zeta in Hcollect.
  pose proof (label_name_collected line Hends) as Hname. cbv zeta in Hname.
  unfold label_index. cbv zeta.
  set (name0 := substr line 0 (String.length line - 1)) in *.
  assert (forall index parsed,
            parsed = Ok (label_name line, index) ->
            (do parsed <- parsed;
             let '(name, index) := parsed in
             let id := length (asm_labels t) in
             let '(by_name, inserted) :=
               omap_emplace String.compare name id (labels_by_name t) in
             if negb inserted
             then Throw (line_error line_num ("duplicate label name: " +:+ name))
             else
               let labels := asm_labels t ++ [mkAsmLabel name index (-1)] in
               if 0 <=? index then
                 let '(by_index, inserted) :=
                   omap_emplace Z.compare index id (labels_by_index t) in
                 if negb inserted
                 then
                   let other :=
                     label_of t
                       (default 0%nat (omap_find Z.compare index (labels_by_index t))) in
                   Throw (line_error line_num
                            ("duplicate label index: " +:+ fmt_d index +:+ " (0x"
                             +:+ fmt_X 0 index +:+ ") from " +:+ name +:+ " and "
                             +:+ al_name other))
                 else Ok (mkLabelTable labels by_name by_index)
               else Ok (mkLabelTable labels by_name (labels_by_index t))) = Ok t' ->
            asm_labels t' = asm_labels t ++ [mkAsmLabel (label_name line) index (-1)])
    as Hrest.
  { intros index parsed -> Hc. cbn [rbind] in Hc. cbv zeta in Hc.
    destruct (omap_emplace String.compare (label_name line) _ _) as [by_name inserted].
    destruct inserted; cbn [negb] in Hc; [|done].
    destruct (0 <=? index).
    - destruct (omap_emplace Z.compare index _ _) as [by_index inserted].
      destruct inserted; cbn [negb] in Hc; [|done]. by injection Hc as <-.
    - by injection Hc as <-. }
  destruct (string_find name0 "@" 0) as [at_offset|].
  - destruct (stoul _) as [index|]; [|done]. rewrite Hname in Hcollect.
    destruct (String.eqb (label_name line) "start" && negb (s64 index =? 0)); [done|].
    by eapply Hrest.
  - rewrite Hname in *. by eapply Hrest.
Qed.

Lemma collect_labels_prefix (rest : list string) (line_num : nat) (t t' : LabelTable) :
  collect_labels line_num rest t = Ok t' ->
  exists added, asm_labels t' = asm_labels t ++ added.
Proof.
  revert line_num t. induction rest as [|line rest IH]; intros line_num t;
    cbn [collect_labels].
  - intros [= <-]. exists []. by rewrite app_nil_r.
  - destruct (collect_label line_num line t) as [t1|] eqn:Hc; cbn [rbind]; [|done].
    intros Hrest. destruct (IH _ _ Hrest) as [added Hadded].
    destruct (ends_with line ":") eqn:Hends.
    + rewrite (collect_label_added _ _ _ _ Hc Hends) in Hadded.
      eexists. by rewrite Hadded, <- app_assoc.
    + rewrite (collect_label_skip _ _ _ Hends) in Hc. injection Hc as <-. by exists added.
Qed.

(** Every label line leaves a label with the name and the index of the
    line. *)
Lemma collect_labels_added (rest : list string) (line_num : nat) (t t' : LabelTable)
    (n : nat) (line : string) :
  collect_labels line_num rest t = Ok t' ->
  rest !! n = Some line -> ends_with line ":" = true ->
  exists id,
    asm_labels t' !! id = Some (mkAsmLabel (label_name line) (label_index line) (-1)).
Proof.
  revert line_num t n. induction rest as [|line0 rest IH]; intros line_num t n;
    cbn [collect_labels]; [by rewrite lookup_nil|].
  destruct (collect_label line_num line0 t) as [t1|] eqn:Hc; cbn [rbind]; [|done].
  intros Hrest Hn Hends. destruct n as [|n].
  - injection Hn as ->. destruct (collect_labels_prefix _ _ _ _ Hrest) as [added Hadded].
    exists (length (asm_labels t)).
    rewrite Hadded, (collect_label_added _ _ _ _ Hc Hends), <- app_assoc.
    rewrite lookup_app_r, Nat.sub_diag by lia. done.
  - by eapply IH.
Qed.

(** No two label lines have the same name. *)
Lemma collect_labels_distinct (rest : list string) (line_num : nat) (t t' : LabelTable) :
  collect_labels line_num rest t = Ok t' ->
  (forall n line, rest !! n = Some line -> ends_with line ":" = true ->
     omap_find String.compare (label_name line) (labels_by_name t) = None) /\
  (forall n1 n2 line1 line2, rest !! n1 = Some line1 -> rest !! n2 = Some line2 ->
     ends_with line1 ":" = true -> ends_with line2 ":" = true ->
     label_name line1 = label_name line2 -> n1 = n2).
Proof.
  revert line_num t. induction rest as [|line0 rest IH]; intros line_num t;
    cbn [collect_labels].
  - intros _. split; intros *; by rewrite lookup_nil.
  - destruct (collect_label line_num line0 t) as [t1|] eqn:Hc; cbn [rbind]; [|done].
    intros Hrest. destruct (IH _ _ Hrest) as [Hnew Hdistinct].
    destruct (ends_with line0 ":") eqn:Hends0.
    + destruct (collect_label_named _ _ _ _ Hc Hends0)
        as (index & _ & Hnames & Hinserted & _).
      assert (Hlater : forall n line, rest !! n = Some line -> ends_with line ":" = true ->
                label_name line <> label_name line0).
      { intros n line Hn Hends Heq. specialize (Hnew _ _ Hn Hends).
        rewrite Hnames, Heq, omap_find_emplace_eq in Hnew; done. }
      split.
      * intros [|n] line Hn Hends.
        -- injection Hn as <-. by apply omap_emplace_inserted in Hinserted.
        -- cbn in Hn. pose proof (Hnew _ _ Hn Hends) as Hnone.
           rewrite Hnames, omap_find_emplace_ne in Hnone; [done|]. by eapply Hlater.
      * intros [|n1] [|n2] line1 line2 H1 H2 Hends1 Hends2 Heq; [done| | |].
        -- injection H1 as <-. cbn in H2. by destruct (Hlater _ _ H2 Hends2).
        -- injection H2 as <-. cbn in H1. by destruct (Hlater _ _ H1 Hends1).
        -- f_equal. by eapply Hdistinct.
    + rewrite (collect_label_skip _ _ _ Hends0) in Hc. injection Hc as <-. split.
      * intros [|n] line Hn Hends; [injection Hn as <-; congruence | by eapply Hnew].
      * intros [|n1] [|n2] line1 line2 H1 H2 Hends1 Hends2 Heq; [done| | |].
        -- injection H1 as <-. congruence.
        -- injection H2 as <-. congruence.
        -- f_equal. by eapply Hdistinct.
Qed.

(** What the label table holds for the label lines of the program: a
    label for each, with the name of the line and, when the line asks for
    an index, that index; and no two label lines have the same name. *)
Lemma find_labels_lines (lines : list string) (t : LabelTable) :
  find_labels lines = Ok t ->
  (forall n line, lines !! n = Some line -> ends_with line ":" = true ->
     exists id l, asm_labels t !! id = Some l /\ al_name l = label_name line /\
       (0 <= label_index line -> al_index l = label_index line)) /\
  (forall n1 n2 line1 line2, lines !! n1 = Some line1 -> lines !! n2 = Some line2 ->
     ends_with line1 ":" = true -> ends_with line2 ":" = true ->
     label_name line1 = label_name line2 -> n1 = n2).
Proof.
  unfold find_labels.
  destruct (collect_labels 1 lines _) as [t0|] eqn:Hc; cbn [rbind]; [|done].
  destruct (omap_count _ _ _); cbn [negb]; [|done]. intros [= <-].
  assert (Hok0 : labels_ok t0) by (eapply collect_labels_ok; [done | apply labels_ok_empty]).
  destruct (assign_indexes_ok (labels_by_name t0) 0 t0 ltac:(lia) Hok0 (lok_names _ Hok0))
    as (_ & _ & _ & Hkeep & _ & _).
  pose proof (assign_indexes_names (labels_by_name t0) 0 t0) as Hsame.
  split; [|by destruct (collect_labels_distinct _ _ _ _ Hc)].
  intros n line Hn Hends. destruct (collect_labels_added _ _ _ _ _ _ Hc Hn Hends) as [id Hl0].
  destruct (lookup_fmap_eq _ _ _ _ _ (eq_sym Hsame) Hl0) as (l & Hl & Heq).
  exists id, l. split; [done|]. split; [done|]. intros Hpos.
  rewrite (Hkeep _ _ Hl0 Hpos) in Hl. by injection Hl as <-.
Qed.

(** The names of the labels are distinct. *)
Lemma labels_named_NoDup (lines : list string) (t : LabelTable) :
  labels_named lines t -> NoDup (al_name <$> asm_labels t).
Proof.
  intros Hnamed. apply NoDup_alt. intros id1 id2 name H1 H2.
  rewrite list_lookup_fmap in H1, H2.
  destruct (asm_labels t !! id1) as [l1|] eqn:Hl1; [|done].
  destruct (asm_labels t !! id2) as [l2|] eqn:Hl2; [|done].
  injection H1 as H1. injection H2 as H2.
  pose proof (ln_found _ _ Hnamed _ _ Hl1) as Hf1.
  pose proof (ln_found _ _ Hnamed _ _ Hl2) as Hf2. congruence.
Qed.

(** ** The indexes that the assembler chooses *)

(** Every index from [n] up to the index that is chosen is taken. *)
Lemma next_free_index_filled (m : list (Z * nat)) (n : Z) :
  keys_sorted m ->
  forall j, n <= j < next_free_index m n -> exists id, (j, id) ∈ m.
Proof.
  revert n. induction m as [|[k v] m IH]; simpl; intros n Hs j Hj; [lia|].
  destruct Hs as [Hs Hlt].
  destruct (Z.ltb_spec k n) as [Hk|Hk].
  - destruct (IH n Hs j Hj) as [id Hin]. exists id. by right.
  - destruct (Z.eqb_spec k n) as [->|Hne]; [|lia].
    destruct (decide (j = n)) as [->|Hjn]; [exists v; by left|].
    destruct (IH (n + 1) Hs j ltac:(lia)) as [id Hin]. exists id. by right.
Qed.

(** A label that has an index keeps it. *)
Lemma assign_indexes_kept (names : list (string * nat)) (n : Z) (t : LabelTable)
    (id : nat) (l : AsmLabel) :
  asm_labels t !! id = Some l -> 0 <= al_index l ->
  asm_labels (assign_indexes names n t) !! id = Some l.
Proof.
  revert n t. induction names as [|[nm0 id0] names IH]; intros n t Hl Hpos;
    cbn [assign_indexes]; [done|].
  destruct (Z.leb_spec 0 (al_index (label_of t id0))) as [Hpos0|Hneg0]; [by apply IH|].
  apply IH; [|done]. cbn [asm_labels]. rewrite list_lookup_alter_ne; [done|].
  intros <-. unfold label_of in Hneg0. rewrite Hl in Hneg0. cbn in Hneg0. lia.
Qed.

(** An index that is taken stays taken. *)
Lemma assign_indexes_by_index (names : list (string * nat)) (n : Z) (t : LabelTable)
    (k : Z) (id : nat) :
  (k, id) ∈ labels_by_index t -> (k, id) ∈ labels_by_index (assign_indexes names n t).
Proof.
  revert n t. induction names as [|[nm0 id0] names IH]; intros n t Hin;
    cbn [assign_indexes]; [done|].
  destruct (0 <=? al_index (label_of t id0)); [by apply IH|].
  apply IH. cbn [labels_by_index]. apply omap_emplace_elem. by left.
Qed.

(** The loop that numbers the labels gives a label the smallest index
    that is free: every smaller index is taken. *)
Lemma assign_indexes_filled (names : list (string * nat)) (n : Z) (t : LabelTable) :
  0 <= n -> keys_sorted (labels_by_index t) ->
  (forall j, 0 <= j < n -> exists id, (j, id) ∈ labels_by_index t) ->
  forall id l l', asm_labels t !! id = Some l -> al_index l < 0 ->
    asm_labels (assign_indexes names n t) !! id = Some l' -> 0 <= al_index l' ->
    forall j, 0 <= j < al_index l' ->
      exists id', (j, id') ∈ labels_by_index (assign_indexes names n t).
Proof.
  revert n t. induction names as [|[nm0 id0] names IH];
    intros n t Hn Hs Hfilled id l l' Hl Hneg; cbn [assign_indexes].
  - intros Hl' Hpos. rewrite Hl in Hl'. injection Hl' as <-. lia.
  - destruct (Z.leb_spec 0 (al_index (label_of t id0))) as [Hpos0|Hneg0]; [by eapply IH|].
    destruct (next_free_index_fresh (labels_by_index t) n Hs) as [Hge Hfresh].
    pose proof (next_free_index_filled (labels_by_index t) n Hs) as Hbelow.
    set (index := next_free_index (labels_by_index t) n) in *.
    pose proof (omap_emplace_elem Z.compare index id0 (labels_by_index t)) as Helem.
    pose proof (omap_emplace_fresh index id0 (labels_by_index t) Hs Hfresh) as Hins.
    set (t1 := mkLabelTable _ _ _).
    assert (Hs1 : keys_sorted (labels_by_index t1)) by by apply omap_emplace_sorted.
    assert (Hfilled1 : forall j, 0 <= j < index + 1 ->
              exists id', (j, id') ∈ labels_by_index t1).
    { intros j Hj. unfold t1. cbn [labels_by_index].
      destruct (decide (j = index)) as [->|Hne].
      - exists id0. apply Helem. by right.
      - destruct (Z.lt_ge_cases j n) as [Hlt|Hle].
        + destruct (Hfilled j ltac:(lia)) as [id' Hin]. exists id'. apply Helem. by left.
        + destruct (Hbelow j ltac:(lia)) as [id' Hin]. exists id'. apply Helem. by left. }
    destruct (decide (id = id0)) as [->|Hne].
    + intros Hl' Hpos j Hj.
      assert (Hl1 : asm_labels t1 !! id0 = Some (set_index index l)).
      { unfold t1. cbn [asm_labels]. by rewrite list_lookup_alter_eq, Hl. }
      rewrite (assign_indexes_kept names (index + 1) t1 _ _ Hl1) in Hl'
        by (cbn [set_index al_index]; lia).
      injection Hl' as <-. cbn [set_index al_index] in Hj.
      destruct (Hfilled1 j ltac:(lia)) as [id' Hin]. exists id'.
      by apply assign_indexes_by_index.
    + eapply (IH (index + 1) t1 ltac:(lia) Hs1 Hfilled1 id l l'); [|done].
      unfold t1. cbn [asm_labels]. by rewrite list_lookup_alter_ne.
Qed.

(** A label line that asks for no index gets the smallest index that no
    label has: every smaller index is the index of a label. *)
Lemma find_labels_smallest (lines : list string) (t : LabelTable) (n : nat)
    (line : string) (id : nat) (l : AsmLabel) :
  find_labels lines = Ok t ->
  lines !! n = Some line -> ends_with line ":" = true -> label_index line < 0 ->
  asm_labels t !! id = Some l -> al_name l = label_name line ->
  forall j, 0 <= j < al_index l ->
    exists id' l', asm_labels t !! id' = Some l' /\ al_index l' = j.
Proof.
  intros Hfind Hn Hends Hauto Hl Hname j Hj.
  pose proof (find_labels_ok _ _ Hfind) as (Hok & Hall & _).
  destruct (find_labels_named _ _ Hfind) as [Hnamed _].
  revert Hfind Hl Hok Hnamed. unfold find_labels.
  destruct (collect_labels 1 lines _) as [t0|] eqn:Hc; cbn [rbind]; [|done].
  destruct (omap_count _ _ _); cbn [negb]; [|done]. intros [= <-] Hl Hok Hnamed.
  assert (Hok0 : labels_ok t0) by (eapply collect_labels_ok; [done | apply labels_ok_empty]).
  destruct (collect_labels_added _ _ _ _ _ _ Hc Hn Hends) as [id0 Hl0].
  pose proof (assign_indexes_names (labels_by_name t0) 0 t0) as Hsame.
  destruct (lookup_fmap_eq _ _ _ _ _ (eq_sym Hsame) Hl0) as (l1 & Hl1 & Hname1).
  assert (id0 = id) as ->.
  { pose proof (ln_found _ _ Hnamed _ _ Hl) as Hf.
    pose proof (ln_found _ _ Hnamed _ _ Hl1) as Hf1.
    cbn [al_name] in Hname1. rewrite Hname1, <- Hname, Hf in Hf1. by injection Hf1. }
  destruct (assign_indexes_filled (labels_by_name t0) 0 t0 ltac:(lia) (lok_sorted _ Hok0)
              ltac:(intros; lia) id _ l Hl0 Hauto Hl ltac:(lia) j Hj) as [id' Hin].
  destruct (lok_index _ Hok _ _ Hin) as (l' & Hl' & Hindex & _). by exists id', l'.
Qed.
(** ** The order of the indexes that the assembler chooses *)

Lemma string_compare_gt_lt (s1 s2 : string) :
  String.compare s1 s2 = Gt -> String.compare s2 s1 = Lt.
Proof. intros Hgt. rewrite String.compare_antisym, Hgt. done. Qed.

Lemma omap_emplace_names_sorted {V : Type} (k : string) (v : V) (m : list (string * V)) :
  names_sorted m -> names_sorted (fst (omap_emplace String.compare k v m)).
Proof.
  induction m as [|[k' v'] m IH]; cbn [omap_emplace names_sorted fst]; intros Hs.
  - split; [exact I | by intros ? ? ?%elem_of_nil].
  - destruct Hs as [Hs Hlt].
    destruct (String.compare k k') eqn:Hc; cbn [fst names_sorted]; [done| |].
    + split; [done|]. intros k2 v2 [[= -> ->]|Hin]%elem_of_cons; [done|].
      eapply string_compare_lt_trans; [done | by eapply Hlt].
    + pose proof (omap_emplace_elem String.compare k v m) as He.
      destruct (omap_emplace String.compare k v m) as [m' b]. cbn [fst snd] in *.
      split; [by apply IH|].
      intros k2 v2 Hin. apply He in Hin as [Hin|[_ [= -> ->]]]; [by eapply Hlt|].
      by apply string_compare_gt_lt.
Qed.

(** In a sorted map the keys grow with the position. *)
Lemma names_sorted_lookup {V : Type} (m : list (string * V)) (i j : nat) (k1 k2 : string)
    (v1 v2 : V) :
  names_sorted m -> m !! i = Some (k1, v1) -> m !! j = Some (k2, v2) -> (i < j)%nat ->
  String.compare k1 k2 = Lt.
Proof.
  revert i j. induction m as [|[k v] m IH]; intros i j Hs Hi Hj Hlt;
    [by rewrite lookup_nil in Hi|].
  destruct Hs as [Hs Hhead]. destruct j as [|j]; [lia|]. cbn in Hj. destruct i as [|i].
  - injection Hi as -> ->. eapply Hhead. by eapply list_elem_of_lookup_2.
  - cbn in Hi. eapply (IH i j); [done..|lia].
Qed.

Lemma names_sorted_position {V : Type} (m : list (string * V)) (i j : nat) (k1 k2 : string)
    (v1 v2 : V) :
  names_sorted m -> m !! i = Some (k1, v1) -> m !! j = Some (k2, v2) ->
  String.compare k1 k2 = Lt -> (i < j)%nat.
Proof.
  intros Hs Hi Hj Hlt. destruct (Nat.lt_trichotomy i j) as [Hij|[->|Hji]]; [done| |].
  - rewrite Hi in Hj. injection Hj as -> _. by rewrite string_compare_refl in Hlt.
  - pose proof (names_sorted_lookup _ _ _ _ _ _ _ Hs Hj Hi Hji) as Hgt.
    rewrite String.compare_antisym, Hgt in Hlt. done.
Qed.

Lemma collect_labels_names_sorted (rest : list string) (line_num : nat) (t t' : LabelTable) :
  collect_labels line_num rest t = Ok t' ->
  names_sorted (labels_by_name t) -> names_sorted (labels_by_name t').
Proof.
  revert line_num t. induction rest as [|line rest IH]; intros line_num t;
    cbn [collect_labels].
  - by intros [= <-].
  - destruct (collect_label line_num line t) as [t1|] eqn:Hc; cbn [rbind]; [|done].
    intros Hrest Hs. eapply IH; [done|].
    destruct (ends_with line ":") eqn:Hends.
    + destruct (collect_label_named _ _ _ _ Hc Hends) as (index & _ & -> & _).
      by apply omap_emplace_names_sorted.
    + rewrite (collect_label_skip _ _ _ Hends) in Hc. by injection Hc as <-.
Qed.

Lemma assign_indexes_length (names : list (string * nat)) (n : Z) (t : LabelTable) :
  length (asm_labels (assign_indexes names n t)) = length (asm_labels t).
Proof.
  pose proof (assign_indexes_names names n t) as Hsame.
  apply (f_equal length) in Hsame. by rewrite !length_fmap in Hsame.
Qed.

(** The loop that numbers the labels, started at [n], gives every label
    that it numbers an index of [n] or more. *)
Lemma assign_indexes_from (names : list (string * nat)) (n : Z) (t : LabelTable)
    (i : nat) (nm : string) (id : nat) (l' : AsmLabel) :
  0 <= n -> keys_sorted (labels_by_index t) ->
  names !! i = Some (nm, id) -> al_index (label_of t id) < 0 ->
  asm_labels (assign_indexes names n t) !! id = Some l' -> n <= al_index l'.
Proof.
  revert n t i. induction names as [|[nm0 id0] names IH]; intros n t i Hn Hs Hi Hneg;
    [by rewrite lookup_nil in Hi|].
  cbn [assign_indexes].
  destruct (Z.leb_spec 0 (al_index (label_of t id0))) as [Hpos0|Hneg0].
  - destruct i as [|i]; [injection Hi as -> ->; lia|]. by eapply IH.
  - destruct (next_free_index_fresh (labels_by_index t) n Hs) as [Hge _].
    set (index := next_free_index (labels_by_index t) n) in *.
    set (t1 := mkLabelTable _ _ _).
    assert (Hs1 : keys_sorted (labels_by_index t1)) by by apply omap_emplace_sorted.
    intros Hl'.
    assert (Hhead : id = id0 -> n <= al_index l').
    { intros ->.
      assert (is_Some (asm_labels t !! id0)) as [l0 Hl0].
      { apply lookup_lt_is_Some. apply lookup_lt_Some in Hl'.
        rewrite assign_indexes_length in Hl'. unfold t1 in Hl'. cbn [asm_labels] in Hl'.
        by rewrite length_alter in Hl'. }
      assert (Hl1 : asm_labels t1 !! id0 = Some (set_index index l0)).
      { unfold t1. cbn [asm_labels]. by rewrite list_lookup_alter_eq, Hl0. }
      rewrite (assign_indexes_kept names (index + 1) t1 _ _ Hl1) in Hl'
        by (cbn [set_index al_index]; lia).
      injection Hl' as <-. cbn [set_index al_index]. lia. }
    destruct i as [|i]; [injection Hi as _ <-; by apply Hhead|]. cbn in Hi.
    destruct (decide (id = id0)) as [Heq|Hne]; [by apply Hhead|].
    assert (n <= index + 1) by lia.
    etransitivity; [done|]. eapply (IH (index + 1) t1 i); [lia|done|done| |done].
    unfold label_of, t1. cbn [asm_labels]. by rewrite list_lookup_alter_ne.
Qed.

(** The labels that the loop numbers are numbered in the order of their
    names. *)
Lemma assign_indexes_increasing (names : list (string * nat)) (n : Z) (t : LabelTable)
    (i1 i2 : nat) (nm1 nm2 : string) (id1 id2 : nat) (l1' l2' : AsmLabel) :
  0 <= n -> keys_sorted (labels_by_index t) -> NoDup names.*2 ->
  (i1 < i2)%nat -> names !! i1 = Some (nm1, id1) -> names !! i2 = Some (nm2, id2) ->
  al_index (label_of t id1) < 0 -> al_index (label_of t id2) < 0 ->
  asm_labels (assign_indexes names n t) !! id1 = Some l1' ->
  asm_labels (assign_indexes names n t) !! id2 = Some l2' ->
  al_index l1' < al_index l2'.
Proof.
  revert n t i1 i2. induction names as [|[nm0 id0] names IH];
    intros n t i1 i2 Hn Hs Hnodup Hlt H1 H2 Hneg1 Hneg2; [by rewrite lookup_nil in H1|].
  cbn [fmap list_fmap snd] in Hnodup. apply NoDup_cons in Hnodup as [Hfresh Hnodup].
  destruct i2 as [|i2]; [lia|]. cbn in H2.
  assert (Hne2 : id2 <> id0).
  { intros ->. apply Hfresh. apply list_elem_of_fmap. exists (nm2, id0). split; [done|].
    by eapply list_elem_of_lookup_2. }
  cbn [assign_indexes].
  destruct (Z.leb_spec 0 (al_index (label_of t id0))) as [Hpos0|Hneg0].
  - destruct i1 as [|i1]; [injection H1 as -> ->; lia|]. cbn in H1.
    eapply (IH n t i1 i2); [done..|lia|done|done|done|done].
  - destruct (next_free_index_fresh (labels_by_index t) n Hs) as [Hge _].
    set (index := next_free_index (labels_by_index t) n) in *.
    set (t1 := mkLabelTable _ _ _).
    assert (Hs1 : keys_sorted (labels_by_index t1)) by by apply omap_emplace_sorted.
    assert (Hneg2' : al_index (label_of t1 id2) < 0).
    { unfold label_of, t1. cbn [asm_labels]. by rewrite list_lookup_alter_ne. }
    intros Hl1 Hl2. destruct i1 as [|i1].
    + injection H1 as -> ->.
      assert (is_Some (asm_labels t !! id1)) as [l0 Hl0].
      { apply lookup_lt_is_Some. apply lookup_lt_Some in Hl1.
        rewrite assign_indexes_length in Hl1. unfold t1 in Hl1. cbn [asm_labels] in Hl1.
        by rewrite length_alter in Hl1. }
      assert (Hl0' : asm_labels t1 !! id1 = Some (set_index index l0)).
      { unfold t1. cbn [asm_labels]. by rewrite list_lookup_alter_eq, Hl0. }
      rewrite (assign_indexes_kept names (index + 1) t1 _ _ Hl0') in Hl1
        by (cbn [set_index al_index]; lia).
      injection Hl1 as <-. cbn [set_index al_index].
      pose proof (assign_indexes_from names (index + 1) t1 i2 nm2 id2 l2' ltac:(lia) Hs1
                    H2 Hneg2' Hl2). lia.
    + cbn in H1.
      assert (Hne1 : id1 <> id0).
      { intros ->. apply Hfresh. apply list_elem_of_fmap. exists (nm1, id0). split; [done|].
        by eapply list_elem_of_lookup_2. }
      eapply (IH (index + 1) t1 i1 i2); [lia|done|done|lia|done|done| |done|done|done].
      unfold label_of, t1. cbn [asm_labels]. by rewrite list_lookup_alter_ne.
Qed.

(** Of two label lines that ask for no index, the one whose name comes
    first gets the smaller index. *)
Lemma find_labels_ordered (lines : list string) (t : LabelTable) (n1 n2 : nat)
    (line1 line2 : string) (id1 id2 : nat) (l1 l2 : AsmLabel) :
  find_labels lines = Ok t ->
  lines !! n1 = Some line1 -> ends_with line1 ":" = true -> label_index line1 < 0 ->
  lines !! n2 = Some line2 -> ends_with line2 ":" = true -> label_index line2 < 0 ->
  asm_labels t !! id1 = Some l1 -> al_name l1 = label_name line1 ->
  asm_labels t !! id2 = Some l2 -> al_name l2 = label_name line2 ->
  String.compare (label_name line1) (label_name line2) = Lt ->
  al_index l1 < al_index l2.
Proof.
  intros Hfind Hn1 Hends1 Hauto1 Hn2 Hends2 Hauto2 Hl1 Hname1 Hl2 Hname2 Hlt.
  destruct (find_labels_named _ _ Hfind) as [Hnamed _].
  revert Hfind Hl1 Hl2 Hnamed. unfold find_labels.
  destruct (collect_labels 1 lines _) as [t0|] eqn:Hc; cbn [rbind]; [|done].
  destruct (omap_count _ _ _); cbn [negb]; [|done]. intros [= <-] Hl1 Hl2 Hnamed.
  assert (Hok0 : labels_ok t0) by (eapply collect_labels_ok; [done | apply labels_ok_empty]).
  assert (Hsorted : names_sorted (labels_by_name t0))
    by (by eapply collect_labels_names_sorted).
  pose proof (collect_labels_labels_named _ _ [] _ _ Hc labels_named_empty) as Hnamed0.
  cbn [app] in Hnamed0.
  pose proof (assign_indexes_names (labels_by_name t0) 0 t0) as Hsame.
  assert (Hid : forall n line id l, lines !! n = Some line -> ends_with line ":" = true ->
            label_index line < 0 ->
            asm_labels (assign_indexes (labels_by_name t0) 0 t0) !! id = Some l ->
            al_name l = label_name line ->
            al_index (label_of t0 id) < 0 /\
            exists i, labels_by_name t0 !! i = Some (label_name line, id)).
  { intros n line id l Hn Hends Hauto Hl Hname.
    destruct (collect_labels_added _ _ _ _ _ _ Hc Hn Hends) as [id0 Hl0].
    destruct (lookup_fmap_eq _ _ _ _ _ Hsame Hl) as (l0 & Hl0' & Hname0).
    pose proof (ln_found _ _ Hnamed0 _ _ Hl0) as Hf.
    pose proof (ln_found _ _ Hnamed0 _ _ Hl0') as Hf'.
    cbn [al_name] in Hf. rewrite Hname0, Hname, Hf in Hf'. injection Hf' as ->.
    split; [unfold label_of; by rewrite Hl0|].
    apply omap_find_elem in Hf. by apply list_elem_of_lookup_1 in Hf. }
  destruct (Hid _ _ _ _ Hn1 Hends1 Hauto1 Hl1 Hname1) as [Hneg1 [i1 Hi1]].
  destruct (Hid _ _ _ _ Hn2 Hends2 Hauto2 Hl2 Hname2) as [Hneg2 [i2 Hi2]].
  assert (Hnodup : NoDup (labels_by_name t0).*2).
  { apply NoDup_alt. intros i j id Hi Hj. rewrite list_lookup_fmap in Hi, Hj.
    destruct (labels_by_name t0 !! i) as [[nmi idi]|] eqn:Hei; [|done].
    destruct (labels_by_name t0 !! j) as [[nmj idj]|] eqn:Hej; [|done].
    cbn in Hi, Hj. injection Hi as ->. injection Hj as ->.
    destruct (ln_names _ _ Hnamed0 nmi id ltac:(by eapply list_elem_of_lookup_2))
      as (li & Hli & Hnmi).
    destruct (ln_names _ _ Hnamed0 nmj id ltac:(by eapply list_elem_of_lookup_2))
      as (lj & Hlj & Hnmj).
    rewrite Hli in Hlj. injection Hlj as <-. subst nmi nmj.
    destruct (Nat.lt_trichotomy i j) as [Hij|[->|Hji]]; [|done|].
    - pose proof (names_sorted_lookup _ _ _ _ _ _ _ Hsorted Hei Hej Hij) as Hc'.
      by rewrite string_compare_refl in Hc'.
    - pose proof (names_sorted_lookup _ _ _ _ _ _ _ Hsorted Hej Hei Hji) as Hc'.
      by rewrite string_compare_refl in Hc'. }
  assert (i1 < i2)%nat as Hposition by (by eapply names_sorted_position).
  exact (assign_indexes_increasing (labels_by_name t0) 0 t0 i1 i2 _ _ id1 id2 l1 l2
           ltac:(lia) (lok_sorted _ Hok0) Hnodup Hposition Hi1 Hi2 Hneg1 Hneg2 Hl1 Hl2).
Qed.
(** ** The offset of a label is where its line stands in the code *)

Lemma run_bind_Returns {A B : Type} (r : run A) (f : A -> run B) (b : B) :
  run_bind r f = Returns b -> exists a, r = Returns a /\ f a = Returns b.
Proof. destruct r as [a| | |]; cbn [run_bind]; try done. intros Hf. by exists a. Qed.

Section LabelLines.
Context `{External}.
Variable include_directory : string.
Variable meta : QuestMeta.
Variable opcodes : gmap string QuestScriptOpcodeDefinition.

Lemma asm_lines_app (lines1 lines2 : list string) (line_num : nat) (s : Asm) :
  asm_lines include_directory meta opcodes line_num (lines1 ++ lines2) s
  = run_bind (asm_lines include_directory meta opcodes line_num lines1 s)
      (asm_lines include_directory meta opcodes (line_num + length lines1) lines2).
Proof.
  revert line_num s. induction lines1 as [|line lines1 IH]; intros line_num s;
    cbn [asm_lines app length run_bind].
  - by rewrite Nat.add_0_r.
  - destruct (asm_line include_directory meta opcodes line_num line s) as [s1| | |];
      cbn [run_bind]; try done.
    rewrite IH. by rewrite Nat.add_succ_r.
Qed.

(** Assembling the lines of a program goes through the state before and
    the state after each of its lines. *)
Lemma asm_lines_at (lines : list string) (n : nat) (line : string) (s s' : Asm) :
  asm_lines include_directory meta opcodes 1 lines s = Returns s' ->
  lines !! n = Some line ->
  exists s1 s2,
    asm_lines include_directory meta opcodes 1 (take n lines) s = Returns s1 /\
    asm_line include_directory meta opcodes (1 + n) line s1 = Returns s2 /\
    asm_lines include_directory meta opcodes (2 + n) (drop (S n) lines) s2 = Returns s'.
Proof.
  intros Hrun Hn. pose proof (take_drop_middle _ _ _ Hn) as Hsplit.
  rewrite <- Hsplit, asm_lines_app in Hrun.
  apply run_bind_Returns in Hrun as (s1 & Hs1 & Hrun). exists s1.
  rewrite length_take_le in Hrun by (apply lookup_lt_Some in Hn; lia).
  cbn [asm_lines] in Hrun. apply run_bind_Returns in Hrun as (s2 & Hs2 & Hrun).
  by exists s2.
Qed.

(** A line that is not a label line leaves the labels alone. *)
Lemma asm_line_code (line_num : nat) (line : string) (s s' : Asm) :
  ends_with line ":" = false ->
  asm_line include_directory meta opcodes line_num line s = Returns s' -> asm_frame s s'.
Proof.
  intros Hends. unfold asm_line. rewrite Hends.
  assert (Hin : forall m : M Asm unit, respects asm_frame m ->
            in_line line_num (m s) = Returns s' -> asm_frame s s').
  { intros m Hm. unfold in_line. destruct (m s) as [[[]|e] s1] eqn:E; [|done].
    intros [= <-]. exact (Hm _ _ _ E). }
  repeat match goal with
         | |- (if ?b then _ else _) = _ -> _ => destruct b
         | |- match ?x with _ => _ end = _ -> _ => destruct x
         end; try discriminate.
  all: try (intros [= <-]; reflexivity).
  all: try (apply Hin; unfold write; frame).
  - intros [= <-]. split; [done|]. simpl. rewrite length_app. lia.
  - apply respects_asm_instruction.
Qed.

(** What a label line does. *)
Lemma asm_line_label_inv (line_num : nat) (line : string) (s s' : Asm) :
  ends_with line ":" = true ->
  asm_line include_directory meta opcodes line_num line s = Returns s' ->
  exists id,
    omap_find String.compare (label_name line) (labels_by_name (labels s)) = Some id /\
    s' = mkAsm (code_w s)
           (mkLabelTable
              (alter (set_offset (Z.of_nat (length (code_w s)))) id (asm_labels (labels s)))
              (labels_by_name (labels s)) (labels_by_index (labels s)))
           (reg_assigner s).
Proof.
  intros Hends Hline.
  destruct (omap_find String.compare (label_name line) (labels_by_name (labels s)))
    as [id|] eqn:Hfind.
  - rewrite (asm_line_label _ _ _ _ _ _ _ Hends Hfind) in Hline. injection Hline as <-.
    by exists id.
  - unfold asm_line in Hline.
    rewrite (ends_with_not_empty _ _ Hends ltac:(done)), Hends in Hline.
    fold (label_name line) in Hline. cbv zeta in Hline. by rewrite Hfind in Hline.
Qed.

(** The lines that follow leave a label alone unless one of them is a
    label line with its name. *)
Lemma asm_lines_label_kept (rest : list string) (line_num : nat) (s s' : Asm) (id : nat) :
  asm_lines include_directory meta opcodes line_num rest s = Returns s' ->
  (forall line, line ∈ rest -> ends_with line ":" = true ->
     omap_find String.compare (label_name line) (labels_by_name (labels s)) <> Some id) ->
  asm_labels (labels s') !! id = asm_labels (labels s) !! id.
Proof.
  revert line_num s. induction rest as [|line rest IH]; intros line_num s;
    cbn [asm_lines].
  - by intros [= <-].
  - intros Hrun Hother. apply run_bind_Returns in Hrun as (s1 & Hline & Hrest).
    destruct (ends_with line ":") eqn:Hends.
    + destruct (asm_line_label_inv _ _ _ _ Hends Hline) as (id' & Hfind & ->).
      rewrite (IH _ _ Hrest); cbn [labels asm_labels labels_by_name].
      * apply list_lookup_alter_ne. intros ->. eapply Hother; [by left|done..].
      * intros line' Hin. apply Hother. by right.
    + destruct (asm_line_code _ _ _ _ Hends Hline) as [Hlabels _].
      rewrite (IH _ _ Hrest); rewrite Hlabels; [done|].
      intros line' Hin. apply Hother. by right.
Qed.

(** The label of a label line: it has the name of the line, the index
    that the line asks for or else the smallest index that no label has,
    and as its offset the size of the code assembled from the lines
    before it. *)
Lemma asm_lines_label_offset (lines : list string) (t : LabelTable) (s' : Asm) (n : nat)
    (line : string) :
  find_labels lines = Ok t ->
  asm_lines include_directory meta opcodes 1 lines (mkAsm [] t new_RegisterAssigner)
  = Returns s' ->
  lines !! n = Some line -> ends_with line ":" = true ->
  exists l s,
    l ∈ asm_labels (labels s') /\ al_name l = label_name line /\
    (0 <= label_index line -> al_index l = label_index line) /\
    (label_index line < 0 ->
     forall j, 0 <= j < al_index l ->
       exists l', l' ∈ asm_labels (labels s') /\ al_index l' = j) /\
    asm_lines include_directory meta opcodes 1 (take n lines)
      (mkAsm [] t new_RegisterAssigner) = Returns s /\
    al_offset l = Z.of_nat (length (code_w s)).
Proof.
  intros Hfind Hrun Hn Hends.
  destruct (find_labels_lines _ _ Hfind) as [Hlabel Hdistinct].
  destruct (find_labels_named _ _ Hfind) as [Hnamed _].
  destruct (Hlabel _ _ Hn Hends) as (id & l0 & Hl0 & Hname0 & Hindex0).
  destruct (asm_lines_at _ _ _ _ _ Hrun Hn) as (s1 & s2 & Hs1 & Hline & Hrest).
  destruct (asm_lines_offsets_kept _ _ _ _ _ _ _ Hs1) as (Hby_name & Hnames & _).
  destruct (asm_lines_frame _ _ _ _ _ _ _ Hs1) as (_ & _ & Hindexes & _).
  cbn [labels] in Hby_name, Hnames, Hindexes.
  destruct (lookup_fmap_eq _ _ _ _ _ (eq_sym Hnames) Hl0) as (l1 & Hl1 & Hname1).
  destruct (lookup_fmap_eq _ _ _ _ _ (eq_sym Hindexes) Hl0) as (l1' & Hl1' & Hindex1).
  rewrite Hl1 in Hl1'. injection Hl1' as <-.
  destruct (asm_line_label_inv _ _ _ _ Hends Hline) as (id' & Hfound & ->).
  rewrite Hby_name, <- Hname0, (ln_found _ _ Hnamed _ _ Hl0) in Hfound.
  injection Hfound as <-.
  exists (set_offset (Z.of_nat (length (code_w s1))) l1), s1.
  split; [|split; [|split; [|split; [|split]]]].
  - apply list_elem_of_lookup_2 with id.
    rewrite (asm_lines_label_kept _ _ _ _ id Hrest); cbn [labels asm_labels labels_by_name].
    + by rewrite list_lookup_alter_eq, Hl1.
    + rewrite Hby_name. intros line' Hin Hends' Hfind'.
      apply omap_find_elem in Hfind'.
      destruct (ln_names _ _ Hnamed _ _ Hfind') as (l & Hl & Hname).
      rewrite Hl0 in Hl. injection Hl as <-.
      apply list_elem_of_lookup_1 in Hin as [m Hm]. rewrite lookup_drop in Hm.
      assert (S n + m = n)%nat as Hsame by (eapply Hdistinct; [done..|congruence]). lia.
  - cbn [set_offset al_name]. congruence.
  - intros Hpos. cbn [set_offset al_index]. rewrite Hindex1. by apply Hindex0.
  - intros Hauto j Hj. cbn [set_offset al_index] in Hj. rewrite Hindex1 in Hj.
    destruct (find_labels_smallest _ _ _ _ _ _ Hfind Hn Hends Hauto Hl0 Hname0 j Hj)
      as (id' & l' & Hl' & Hindex').
    destruct (asm_lines_frame _ _ _ _ _ _ _ Hrun) as (_ & _ & Hfinal & _).
    cbn [labels] in Hfinal.
    destruct (lookup_fmap_eq _ _ _ _ _ (eq_sym Hfinal) Hl') as (l'' & Hl'' & Hindex'').
    exists l''. split; [by eapply list_elem_of_lookup_2 | congruence].
  - done.
  - done.
Qed.

(** Every label is the label of a label line, and no two labels have the
    same name. *)
Lemma asm_lines_label_lines (lines : list string) (t : LabelTable) (s' : Asm) :
  find_labels lines = Ok t ->
  asm_lines include_directory meta opcodes 1 lines (mkAsm [] t new_RegisterAssigner)
  = Returns s' ->
  NoDup (al_name <$> asm_labels (labels s')) /\
  forall l, l ∈ asm_labels (labels s') ->
    exists n line, lines !! n = Some line /\ ends_with line ":" = true /\
      al_name l = label_name line.
Proof.
  intros Hfind Hrun. destruct (find_labels_named _ _ Hfind) as [Hnamed _].
  destruct (asm_lines_offsets_kept _ _ _ _ _ _ _ Hrun) as (_ & Hnames & _).
  cbn [labels] in Hnames. split.
  - rewrite Hnames. by eapply labels_named_NoDup.
  - intros l [id Hl]%list_elem_of_lookup_1.
    destruct (lookup_fmap_eq _ _ _ _ _ Hnames Hl) as (l0 & Hl0 & Hname0).
    destruct (ln_line _ _ Hnamed _ _ Hl0) as (line & [n Hn]%list_elem_of_lookup_1 & Hends & Hname).
    exists n, line. split; [done|]. split; [done | congruence].
Qed.

(** Of two label lines that ask for no index, the one whose name comes
    first has the smaller index. *)
Lemma asm_lines_label_order (lines : list string) (t : LabelTable) (s' : Asm)
    (n1 n2 : nat) (line1 line2 : string) (l1 l2 : AsmLabel) :
  find_labels lines = Ok t ->
  asm_lines include_directory meta opcodes 1 lines (mkAsm [] t new_RegisterAssigner)
  = Returns s' ->
  lines !! n1 = Some line1 -> ends_with line1 ":" = true -> label_index line1 < 0 ->
  lines !! n2 = Some line2 -> ends_with line2 ":" = true -> label_index line2 < 0 ->
  l1 ∈ asm_labels (labels s') -> al_name l1 = label_name line1 ->
  l2 ∈ asm_labels (labels s') -> al_name l2 = label_name line2 ->
  String.compare (label_name line1) (label_name line2) = Lt ->
  al_index l1 < al_index l2.
Proof.
  intros Hfind Hrun Hn1 Hends1 Hauto1 Hn2 Hends2 Hauto2 Hin1 Hname1 Hin2 Hname2 Hlt.
  destruct (asm_lines_offsets_kept _ _ _ _ _ _ _ Hrun) as (_ & Hnames & _).
  destruct (asm_lines_frame _ _ _ _ _ _ _ Hrun) as (_ & _ & Hindexes & _).
  cbn [labels] in Hnames, Hindexes.
  assert (Hback : forall l, l ∈ asm_labels (labels s') ->
            exists id l0, asm_labels t !! id = Some l0 /\ al_name l0 = al_name l /\
              al_index l0 = al_index l).
  { intros l [id Hl]%list_elem_of_lookup_1.
    destruct (lookup_fmap_eq _ _ _ _ _ Hnames Hl) as (l0 & Hl0 & Hname0).
    destruct (lookup_fmap_eq _ _ _ _ _ Hindexes Hl) as (l0' & Hl0' & Hindex0).
    rewrite Hl0 in Hl0'. injection Hl0' as <-. by exists id, l0. }
  destruct (Hback _ Hin1) as (id1 & l1' & Hl1 & Hname1' & <-).
  destruct (Hback _ Hin2) as (id2 & l2' & Hl2 & Hname2' & <-).
  eapply (find_labels_ordered lines t n1 n2 line1 line2 id1 id2); try done; congruence.
Qed.
End LabelLines.
(** ** The function table and the label lines of the program *)

Section FunctionTableEntries.
Context `{External}.
Variable include_directory : string.

(** What the assembler goes through when it succeeds. *)
Lemma assemble_parts_lines (text : string) (q : AssembledQuest) :
  assemble_parts include_directory text = Returns q ->
  exists lines t opcodes s,
    strip_lines (split text (ascii_of_nat 10)) = Some (Ok lines) /\
    find_labels lines = Ok t /\
    opcodes_by_name_for_version (quest_version (aq_meta q)) = Ok opcodes /\
    asm_lines include_directory (aq_meta q) opcodes 1 lines
      (mkAsm [] t new_RegisterAssigner) = Returns s /\
    aq_labels q = labels s.
Proof.
  unfold assemble_parts. destruct (strip_lines _) as [[lines|]|]; try discriminate.
  destruct (collect_meta _ _) as [meta|]; cbn [rbind run_of_result run_bind];
    try discriminate.
  destruct (check_meta _) as [?|]; cbn [rbind run_of_result run_bind]; try discriminate.
  destruct (find_labels lines) as [t|] eqn:Hfind; cbn [rbind run_of_result run_bind];
    try discriminate.
  destruct (opcodes_by_name_for_version _) as [opcodes|] eqn:Hopcodes;
    cbn [rbind run_of_result run_bind]; try discriminate.
  destruct (asm_lines _ _ _ _ _ _) as [s| | |] eqn:Hlines; cbn [run_bind];
    try discriminate.
  destruct (assign_all _) as [st| | |]; cbn [run_bind]; try discriminate.
  destruct (generate_function_table _) as [table| | |];
    cbn [run_of_result run_bind]; try discriminate.
  intros [= <-]. cbn [aq_labels aq_meta]. by exists lines, t, opcodes, s.
Qed.

(** C7: when the assembler succeeds, what it returns ends with the
    function table, one little-endian u32 per entry, and the labels of
    that table are those of the label lines of the program.  Every line
    that ends with a colon has a label: it has the name written on the
    line; its index is the index written after [@] (0 for [start]), or,
    when the line gives none, an index that the assembler chooses, every
    smaller index being the index of a label; its offset is the size of
    the code assembled from the lines before it.
    Every label is the label of such a line, no two labels have the same
    name and no two have the same index; of two lines that give no
    index, the one whose name comes first has the smaller index.  The table has one entry more
    than the highest label index.  Entry i is the code offset, cut to 32
    bits, of the label with index i when there is one, and that offset
    lies within the code; it is 0xFFFFFFFF when there is none.  For code
    of less than 0xFFFFFFFF bytes, the entries that are 0xFFFFFFFF are
    exactly those of the indexes without a label. *)
Theorem function_table_entries (text : string) (bytes : list Z) :
  assemble_quest_script include_directory text = Returns bytes ->
  exists q header lines t opcodes,
    assemble_parts include_directory text = Returns q /\
    bytes = header ++ aq_code q ++ flat_map u32_bytes (aq_function_table q) /\
    strip_lines (split text (ascii_of_nat 10)) = Some (Ok lines) /\
    find_labels lines = Ok t /\
    opcodes_by_name_for_version (quest_version (aq_meta q)) = Ok opcodes /\
    (forall n line, lines !! n = Some line -> ends_with line ":" = true ->
       exists l s,
         l ∈ asm_labels (aq_labels q) /\ al_name l = label_name line /\
         (0 <= label_index line -> al_index l = label_index line) /\
         (label_index line < 0 ->
          forall j, 0 <= j < al_index l ->
            exists l', l' ∈ asm_labels (aq_labels q) /\ al_index l' = j) /\
         asm_lines include_directory (aq_meta q) opcodes 1 (take n lines)
           (mkAsm [] t new_RegisterAssigner) = Returns s /\
         al_offset l = Z.of_nat (length (code_w s))) /\
    (forall l, l ∈ asm_labels (aq_labels q) ->
       exists n line, lines !! n = Some line /\ ends_with line ":" = true /\
         al_name l = label_name line) /\
    (forall n1 n2 line1 line2 l1 l2,
       lines !! n1 = Some line1 -> ends_with line1 ":" = true -> label_index line1 < 0 ->
       lines !! n2 = Some line2 -> ends_with line2 ":" = true -> label_index line2 < 0 ->
       l1 ∈ asm_labels (aq_labels q) -> al_name l1 = label_name line1 ->
       l2 ∈ asm_labels (aq_labels q) -> al_name l2 = label_name line2 ->
       String.compare (label_name line1) (label_name line2) = Lt ->
       al_index l1 < al_index l2) /\
    NoDup (al_name <$> asm_labels (aq_labels q)) /\
    NoDup (al_index <$> asm_labels (aq_labels q)) /\
    Z.of_nat (length (aq_function_table q)) = highest_label_index (aq_labels q) + 1 /\
    (forall i, 0 <= i <= highest_label_index (aq_labels q) ->
       match label_with_index (aq_labels q) i with
       | Some l =>
           aq_function_table q !! Z.to_nat i = Some (u32 (al_offset l)) /\
           0 <= al_offset l <= Z.of_nat (length (aq_code q))
       | None => aq_function_table q !! Z.to_nat i = Some 0xFFFFFFFF
       end) /\
    (Z.of_nat (length (aq_code q)) < 0xFFFFFFFF ->
     forall i, 0 <= i <= highest_label_index (aq_labels q) ->
       aq_function_table q !! Z.to_nat i = Some 0xFFFFFFFF <->
       label_with_index (aq_labels q) i = None).
Proof.
  unfold assemble_quest_script.
  destruct (assemble_parts include_directory text) as [q| | |] eqn:Hparts;
    cbn [run_bind]; try discriminate.
  destruct (make_header q) as [header|]; cbn [run_of_result run_bind]; try discriminate.
  intros [= <-].
  destruct (assemble_parts_lines _ _ Hparts)
    as (lines & t & opcodes & s & Hlines & Hfind & Hopcodes & Hrun & Hlabels).
  exists q, header, lines, t, opcodes.
  destruct (assemble_parts_labels _ _ _ Hparts) as (Hok & Hall & Hoff & Htable).
  destruct (generate_function_table_entry _ _ Hok Hall Htable) as [Hlen Hentry].
  assert (Hbound : forall i, 0 <= i <= highest_label_index (aq_labels q) ->
            match label_with_index (aq_labels q) i with
            | Some l =>
                aq_function_table q !! Z.to_nat i = Some (u32 (al_offset l)) /\
                0 <= al_offset l <= Z.of_nat (length (aq_code q))
            | None => aq_function_table q !! Z.to_nat i = Some 0xFFFFFFFF
            end).
  { intros i Hi. specialize (Hentry i Hi). unfold label_with_index in *.
    destruct (List.find _ _) as [l|] eqn:Hfound; [|done].
    destruct Hentry as [Hentry Hpos]. split; [done|]. split; [done|].
    apply find_some in Hfound as [Hl _].
    apply list_elem_of_In, list_elem_of_lookup_1 in Hl as [id Hl]. by eapply Hoff. }
  destruct (asm_lines_label_lines _ _ _ _ _ _ Hfind Hrun) as [Hnames Hfrom].
  split; [done|]. split; [done|]. split; [done|]. split; [done|]. split; [done|].
  split; [rewrite Hlabels; intros n line Hn Hends; by eapply asm_lines_label_offset|].
  split; [by rewrite Hlabels|].
  split; [rewrite Hlabels; intros *; by eapply asm_lines_label_order|].
  split; [by rewrite Hlabels|].
  split; [by apply labels_ok_NoDup|]. split; [done|]. split; [done|].
  intros Hsize i Hi. specialize (Hbound i Hi).
  destruct (label_with_index (aq_labels q) i) as [l|]; [|done].
  destruct Hbound as [Hentry' Hrange]. split; [|done].
  rewrite Hentry'. intros [= Heq]. exfalso. revert Heq. unfold u32.
  rewrite Z.mod_small by lia. lia.
Qed.
End FunctionTableEntries.

(** C7 on a program with the labels [start], [second@3] and [third]. *)
Lemma function_table_entries_witness :
  exists q header lines t opcodes,
    assemble_parts (H := Sample.external) EmptyString labelled_source = Returns q /\
    labelled_quest = header ++ aq_code q ++ flat_map u32_bytes (aq_function_table q) /\
    strip_lines (split labelled_source (ascii_of_nat 10)) = Some (Ok lines) /\
    find_labels lines = Ok t /\
    opcodes_by_name_for_version (quest_version (aq_meta q)) = Ok opcodes /\
    (forall n line, lines !! n = Some line -> ends_with line ":" = true ->
       exists l s,
         l ∈ asm_labels (aq_labels q) /\ al_name l = label_name line /\
         (0 <= label_index line -> al_index l = label_index line) /\
         (label_index line < 0 ->
          forall j, 0 <= j < al_index l ->
            exists l', l' ∈ asm_labels (aq_labels q) /\ al_index l' = j) /\
         asm_lines (H := Sample.external) EmptyString (aq_meta q) opcodes 1 (take n lines)
           (mkAsm [] t new_RegisterAssigner) = Returns s /\
         al_offset l = Z.of_nat (length (code_w s))) /\
    (forall l, l ∈ asm_labels (aq_labels q) ->
       exists n line, lines !! n = Some line /\ ends_with line ":" = true /\
         al_name l = label_name line) /\
    (forall n1 n2 line1 line2 l1 l2,
       lines !! n1 = Some line1 -> ends_with line1 ":" = true -> label_index line1 < 0 ->
       lines !! n2 = Some line2 -> ends_with line2 ":" = true -> label_index line2 < 0 ->
       l1 ∈ asm_labels (aq_labels q) -> al_name l1 = label_name line1 ->
       l2 ∈ asm_labels (aq_labels q) -> al_name l2 = label_name line2 ->
       String.compare (label_name line1) (label_name line2) = Lt ->
       al_index l1 < al_index l2) /\
    NoDup (al_name <$> asm_labels (aq_labels q)) /\
    NoDup (al_index <$> asm_labels (aq_labels q)) /\
    Z.of_nat (length (aq_function_table q)) = highest_label_index (aq_labels q) + 1 /\
    (forall i, 0 <= i <= highest_label_index (aq_labels q) ->
       match label_with_index (aq_labels q) i with
       | Some l =>
           aq_function_table q !! Z.to_nat i = Some (u32 (al_offset l)) /\
           0 <= al_offset l <= Z.of_nat (length (aq_code q))
       | None => aq_function_table q !! Z.to_nat i = Some 0xFFFFFFFF
       end) /\
    (Z.of_nat (length (aq_code q)) < 0xFFFFFFFF ->
     forall i, 0 <= i <= highest_label_index (aq_labels q) ->
       aq_function_table q !! Z.to_nat i = Some 0xFFFFFFFF <->
       label_with_index (aq_labels q) i = None).
Proof.
  apply (function_table_entries (H := Sample.external) EmptyString labelled_source
           labelled_quest).
  vm_compute. reflexivity.
Defined.
(** ** A label at the offset 0xFFFFFFFF *)

Section ZeroDirective.
Context `{External}.
Variable include_directory : string.

(** A line [.zero N] that is not a label line adds [N] zero bytes. *)
Lemma asm_line_zero (meta : QuestMeta) (opcodes : gmap string QuestScriptOpcodeDefinition)
    (line_num : nat) (line : string) (s : Asm) (size : Z) :
  starts_with line ".zero " = true -> ends_with line ":" = false ->
  stoull (substr_from line 6) = Ok size ->
  asm_line include_directory meta opcodes line_num line s
  = Returns (mkAsm (code_w s ++ repeat 0 (Z.to_nat size)) (labels s) (reg_assigner s)).
Proof.
  intros Hstart Hends Hnumber. destruct (starts_with_spec _ _ Hstart) as [rest Hline].
  unfold asm_line. rewrite Hends, Hnumber. cbv [String.append] in Hline.
  rewrite Hline. cbn [is_empty first_char_is starts_with Ascii.eqb Bool.eqb andb].
  rewrite starts_with_empty. reflexivity.
Qed.
End ZeroDirective.

Lemma opcodes_by_name_for_version_GC_V3 :
  exists opcodes, opcodes_by_name_for_version GC_V3 = Ok opcodes.
Proof.
  assert (match opcodes_by_name_for_version GC_V3 with Ok _ => true | Throw _ => false end
          = true) as Hok by (vm_compute; reflexivity).
  destruct (opcodes_by_name_for_version GC_V3) as [opcodes|]; [by exists opcodes | done].
Qed.

(** The lines of the program with the label [far], with any number of
    zero bytes before that label. *)
Lemma far_label_lines_assembled (opcodes : gmap string QuestScriptOpcodeDefinition)
    (size : Z) :
  stoull (substr_from ".zero 4294967295" 6) = Ok size ->
  asm_lines (H := Sample.external) EmptyString far_label_meta opcodes 1 far_label_lines
    (mkAsm [] (far_labels (-1) (-1)) new_RegisterAssigner)
  = Returns (mkAsm (repeat 0 (Z.to_nat size))
               (far_labels 0 (Z.of_nat (length (repeat 0 (Z.to_nat size)))))
               new_RegisterAssigner).
Proof.
  intros Hsize. unfold far_label_lines. cbn [asm_lines].
  set (s0 := mkAsm [] (far_labels (-1) (-1)) new_RegisterAssigner).
  set (s1 := mkAsm [] (far_labels 0 (-1)) new_RegisterAssigner).
  set (s2 := mkAsm (repeat 0 (Z.to_nat size)) (far_labels 0 (-1)) new_RegisterAssigner).
  assert (asm_line (H := Sample.external) EmptyString far_label_meta opcodes 1
            ".version GC_V3" s0 = Returns s0) as -> by reflexivity.
  cbn [run_bind asm_lines].
  assert (asm_line (H := Sample.external) EmptyString far_label_meta opcodes 2
            ".quest_num 1" s0 = Returns s0) as -> by reflexivity.
  cbn [run_bind asm_lines].
  assert (asm_line (H := Sample.external) EmptyString far_label_meta opcodes 3
            (".name " +:+ dquote +:+ "Hi" +:+ dquote) s0 = Returns s0) as -> by reflexivity.
  cbn [run_bind asm_lines].
  assert (asm_line (H := Sample.external) EmptyString far_label_meta opcodes 4
            "start:" s0 = Returns s1) as -> by reflexivity.
  cbn [run_bind asm_lines].
  assert (asm_line (H := Sample.external) EmptyString far_label_meta opcodes 5
            ".zero 4294967295" s1 = Returns s2) as ->
    by exact (asm_line_zero EmptyString far_label_meta opcodes 5 ".zero 4294967295" s1 size
                eq_refl eq_refl Hsize).
  cbn [run_bind asm_lines].
  exact (asm_line_label EmptyString far_label_meta opcodes 6 "far:" s2 1%nat eq_refl
           eq_refl).
Qed.

(** Its function table. *)
Lemma far_label_function_table (offset : Z) :
  0 <= offset ->
  generate_function_table (H := Sample.external) (far_labels 0 offset)
  = Returns [0; u32 offset].
Proof. intros Hpos. destruct offset as [|p|p]; [reflexivity | reflexivity | lia]. Qed.

(** What the assembler computes for that program. *)
Lemma far_label_parts :
  exists code,
    assemble_parts (H := Sample.external) EmptyString far_label_source
    = Returns (mkAssembledQuest far_label_meta (far_labels 0 0xFFFFFFFF) code
                 [0; 0xFFFFFFFF]).
Proof.
  assert (exists size, stoull (substr_from ".zero 4294967295" 6) = Ok size /\
                       size = 0xFFFFFFFF) as (size & Hsize & Hval)
    by (eexists; split; vm_compute; reflexivity).
  assert (exists st, assign_all new_RegisterAssigner = Returns st) as [st Hassign]
    by (vm_compute; eexists; reflexivity).
  destruct opcodes_by_name_for_version_GC_V3 as [opcodes Hopcodes].
  exists (patch_registers st (pad4 (repeat 0 (Z.to_nat size)))).
  unfold assemble_parts.
  assert (strip_lines (split far_label_source (ascii_of_nat 10)) = Some (Ok far_label_lines))
    as -> by (vm_compute; reflexivity).
  assert (collect_meta (H := Sample.external) initial_meta far_label_lines
          = Ok far_label_meta) as -> by (vm_compute; reflexivity).
  cbn [rbind].
  assert (check_meta far_label_meta = Ok tt) as -> by reflexivity.
  cbn [rbind].
  assert (find_labels far_label_lines = Ok (far_labels (-1) (-1))) as ->
    by (vm_compute; reflexivity).
  cbn [rbind quest_version far_label_meta]. rewrite Hopcodes.
  cbn [rbind run_of_result run_bind].
  rewrite (far_label_lines_assembled opcodes size Hsize).
  cbn [run_bind reg_assigner labels code_w]. rewrite Hassign. cbn [run_bind].
  rewrite repeat_length, Z2Nat.id by lia.
  rewrite (far_label_function_table size) by lia. cbn [run_bind].
  set (code := patch_registers st (pad4 (repeat 0 (Z.to_nat size)))). clearbody code.
  subst size. reflexivity.
Qed.

(** C7 as stated fails for a label that stands 0xFFFFFFFF bytes into the
    code: the program is assembled, its label [far] has the index 1, and
    entry 1 of the function table is 0xFFFFFFFF, the value that stands
    for an index without a label. *)
Lemma function_table_sentinel_of_label :
  exists q bytes,
    assemble_parts (H := Sample.external) EmptyString far_label_source = Returns q /\
    assemble_quest_script (H := Sample.external) EmptyString far_label_source
    = Returns bytes /\
    asm_labels (aq_labels q) = [mkAsmLabel "start" 0 0; mkAsmLabel "far" 1 0xFFFFFFFF] /\
    label_with_index (aq_labels q) 1 = Some (mkAsmLabel "far" 1 0xFFFFFFFF) /\
    highest_label_index (aq_labels q) = 1 /\
    aq_function_table q !! Z.to_nat 1 = Some 0xFFFFFFFF.
Proof.
  destruct far_label_parts as [code Hparts].
  assert (exists bytes,
            assemble_quest_script (H := Sample.external) EmptyString far_label_source
            = Returns bytes) as [bytes Hbytes].
  { unfold assemble_quest_script. rewrite Hparts. cbn [run_bind].
    unfold make_header. cbn [aq_meta quest_version far_label_meta quest_name
                             quest_short_desc quest_long_desc quest_language].
    destruct (pstring_encode GC_V3 "Hi" 1) as [name|] eqn:Hname;
      [|vm_compute in Hname; discriminate].
    destruct (pstring_encode GC_V3 EmptyString 1) as [desc|] eqn:Hdesc;
      [|vm_compute in Hdesc; discriminate].
    cbn [rbind run_of_result run_bind]. by eexists. }
  eexists _, bytes. split; [exact Hparts|]. split; [exact Hbytes|].
  cbn [aq_labels aq_function_table]. by repeat split.
Qed.
(** ** The floats of the sample instance *)

(** What the sample reading of a FLOAT32 operand gives: the fraction is
    cut off after the number was rounded to a binary32. *)
Lemma stof_to_u32_samples :
  map Sample.stof_to_u32 ["1.5"; "16777217"; "0.99999999"; "-1"; "1e3"; "0x1.8p1"; "abc"; "1e39"]
  = [Ok 1; Ok 16777216; Ok 1; Ok 0xFFFFFFFF; Ok 1000; Ok 3;
     Throw (invalid_argument "stof"); Throw (out_of_range "stof")].
Proof. vm_compute. reflexivity. Qed.
